(* ===== verification/_CoqProject ===== *)
-Q . S2P
Prelude.v
Json.v
Crypto.v
Dates.v
Models.v
Express.v
Hoare.v
Ownership.v
Schemas.v
Fixtures.v
AuthController.v
Sessions.v
Middleware.v
Server.v
Client.v
Page.v
Boards.v
Recurrence.v
Tasks.v
App.v
System.v
