(* ===== verification/Prelude.v ===== *)
(** * Tasks: a verification development for the task/board manager

    The program is a multi-user Kanban board.  Its parts:

    - the backend, src/backend: an Express application over Mongoose with
      JWT access tokens (15 minutes, in memory of the page) and rotating
      refresh tokens (7 days, in an http-only cookie, their digests in a
      ledger);
    - the page, src/api.js, src/config.js, src/main.js and src/ui.js: an
      axios client that refreshes the session silently on a 401, and the
      handlers of the board, which change the [state] of the page at once
      and tell the backend afterwards;
    - an older single-user version of both, src/TasksApp-main.

    The page talks to the backend over HTTP only; [System] composes the
    two models, so that what the page does with the server's answers is a
    theorem about both.

    ** Files, in dependency order

    - [Prelude] (this file): the monad [M S E] of the handlers (state and
      exceptions that keep the state, [try_catch]), its laws, two small
      program logics over it ([preserving R m]: every run of [m] relates
      the states before and after by [R]; [hoare P m Q X]: pre- and
      postconditions for the normal and the exceptional end), the
      collection operations every Mongoose query is translated to
      ([find_first], [update_first], [update_all]) with their lemmas, and
      the tactics [msimpl], [invert], [by_compute] and [preserving].
    - [Json]: JSON values, JavaScript truthiness, and the string operations
      the sources use.
    - [Crypto]: node's crypto, bcryptjs and jsonwebtoken as the class
      [Crypto] with its laws [CryptoLaws]; hex encoding; an executable
      ideal instance that satisfies the laws.
    - [Dates]: the [Date] of ECMA-262 (days, the civil calendar, [MakeDay],
      [TimeClip], [toISOString] and the parser of the date time string
      format), and the class [Engine] of what differs between engines.
    - [Models]: src/backend/models.js.  One record per Mongoose schema, the
      database [DB] as one list per collection, the world [World]
      (database and the faults the storage will raise), the storage
      primitives with fault injection, utils/transaction.js.
    - [Express]: requests, responses, [Reply], [Env], the middleware chain
      [>=>], [catch_next], [Promise.all].
    - [Hoare]: the program logic [triple] of the handlers over every fault
      list, and the accounting of faults ([clean], [faulty], [accounted]).
    - [Ownership]: the well-formedness [wf_db] of the database, the writes
      [Write u] a request of user [u] may make, and [isolated].
    - [Schemas]: validation/schemas.js and config/validateEnv.js as
      parsers from JSON to typed bodies.
    - [Fixtures]: concrete configurations, users and ledgers for the
      witnesses.
    - [AuthController]: controllers/authController.js: [register],
      [login], [refreshToken], [logout] and their helpers.
    - [Middleware]: middleware/auth.js, authorize.js and checkRole.js.
    - [Server]: server.js: [validateSchema], the CORS origin check, the
      sixteen protected routes with their handlers, the health check, the
      error handler, and the route table [app] with Express's dispatch.
    - [Client]: src/api.js and src/config.js: the browser ([Browser]: the
      token, localStorage, the cookie jar, the toasts, [state] and the
      parts of the document the code reads), the axios instance with its
      interceptors ([apiClient], [on_rejected]), [api], login, logout,
      the fetchers.  The backend is the interface [Backend].
    - [Page]: the array methods and property accesses of ui.js on the
      store of the page's objects, with the TypeErrors of JavaScript.
    - [Boards], [Tasks], [App]: the handlers of src/ui.js (boards and
      lists; tasks, subtasks, attachments, the details panel, sorting,
      import; the sign-in form and the theme) and the [DOMContentLoaded]
      handler of src/main.js.
    - [Recurrence]: [calculateNextDueDate] of src/ui.js.
    - [System]: the instance of [Backend] made of [Server.serve]: the page
      against the real server.

    ** How the code is read

    Backend.  A handler [(req, res, next)] is a function from the request
    and the ambient inputs of one request ([Env]: the clock, the bytes
    [crypto.randomBytes] returns, the salt, the ObjectIds Mongoose mints)
    to a computation in [M World Err].  Its result is a [Reply]: the
    response sent, [next()] with the extended request, or [next(err)].
    An exception that leaves a handler with no [try]/[catch] around it is
    a [Throw]: an unhandled rejection, and no response.  Every storage
    call goes through [db_call], which consults the head of the world's
    fault list: [true] makes the call throw without touching the
    database.  With the empty list no call fails, which is the hypothesis
    of the functional theorems; the atomicity, isolation and error
    theorems quantify over all fault lists.  A request is handled from
    beginning to end before the next one starts: requests interleave at
    the level of whole requests, not of storage calls.

    Page.  An async function is a computation [C A] over the pair of the
    browser and the backend's state, which may throw a [JsError].  The
    functions that main.js starts together with [Promise.all] have the
    two-phase form [Async A]: the function until its request has left,
    which returns what it does once the answer is there.  The objects of
    [state.boards], [state.lists] and [state.tasks] live in a store
    ([st_heap]) and the arrays hold references, so that
    [state.activeTask] is an alias of an element of [state.tasks] exactly
    when it is in the page.  [null] and [undefined] are both [None] where
    the code cannot tell them apart, and distinct where it can.  What the
    user answers to a dialog is an argument of the handler.

    Dates are milliseconds since the epoch in [Z]; an invalid date is
    [None].  Local time is UTC plus a constant offset.  JSON numbers are
    integers.

    ** What the theorems show

    - [AuthController] (C1 to C8): the session protocol of the server.  A
      login stores the digest of the cookie, never the token; a refresh
      rotates: one new row, the presented row revoked and linked; a
      revoked token presented again revokes every row of its user; a
      refresh answered 401 changes nothing; login failures are answered
      alike; registration is atomic under every fault pattern; the three
      guarded handlers pass every error to [next(err)] and respond only
      when storage worked, while a fault in [logout] leaves the handler
      as an exception.
    - [Middleware] (C9 to C16): [auth] lets through exactly the unexpired
      tokens signed with the server's secret and answers every failure
      alike; [authorize] grants exactly the caller's own undeleted
      documents and answers absent, foreign and deleted ones alike.
    - [Server] (C17 to C19): below [/api] everything but the four public
      routes is behind [auth]; whatever a request to a protected route
      does, and however storage fails under it, the documents of the other
      users are untouched and the database stays well-formed.
    - [Client] and [System]: [api] never rejects; the retry after a silent
      refresh is the only recursion of the interceptor and goes one level
      deep; one call makes at most three requests; a refused refresh signs
      the user out.  Against the real server: a page on another site than
      the backend is never given the refresh cookie ([sameSite: strict]),
      so that after a reload it cannot refresh and the user is signed out.
    - [Dates] and [Recurrence]: the civil calendar round trip both ways,
      [new Date(toISOString(t)) = t], a daily task moves by 24 hours, a
      weekly task to the first chosen day of the week within seven days.
    - [Boards]: [deleteBoardFromMenu] rolls back exactly when the backend
      refuses; [archiveBoard] reports success whatever the backend
      answered.

    ** Bounds and fuel

    [Client.apiClient] is the one definition with fuel: it recurses on a
    [depth], as the response interceptor calls the axios instance again
    for the retry, and throws "retry limit" at depth 0.  [api] uses depth
    2; [Client.apiClient_depth] shows that any larger depth gives the same
    result, because the [_retry] flag stops the second 401, so the limit
    is never reached.  All other recursion is structural on lists,
    strings and the fuel-free loops of the sources (the seven days of the
    weekly search are a list).  Time values are unbounded integers;
    [TimeClip] makes those beyond 8.64e15 ms invalid, as the standard
    does.  [Dates.parse_iso] reads years of four digits.

    ** Assumptions of the model

    - Routing follows Express's defaults: letters of a path match whatever
      their case, and an empty segment is dropped.
    - [castObjectId] throws for every id that is not 24 hexadecimal
      digits, as current bson does for the ids the routes receive.
    - [withTransaction] runs its function once: the retry of the driver on
      a transient error is not modelled, and an abort restores the
      database as it was when the transaction began.
    - A failing storage call changes nothing (no partial [updateMany]).
    - The clock is read once per request, so the several [Date.now()] of
      one handler see the same instant.
    - [Promise.all] on the server runs its operations in list order.
    - [Schemas.ReorderSchema], which schemas.js exports and does not
      define, is a parameter of the server.
    - No error of the model carries a [status], so the error handler
      answers 500; the [catch] of the health check is unreachable, since
      nothing in its [try] throws.
    - [env_random] is whatever [crypto.randomBytes(40)] returned; its
      length plays no part.
    - A numeral with a fraction in a recurrence is read as [NaN]; the
      form of the page writes integers only.
    - src/state.js, which api.js and ui.js import, is not in the
      repository; [Client.State] is src/TasksApp-main/state.js with the
      three properties ui.js adds to it.

    ** Not modelled

    Rendering (the functions of ui.js that build the document from the
    state), drag-and-drop gestures (their drop handlers are modelled),
    notifications, the service worker, the logger and the request logger,
    helmet, the rate limiters of express-rate-limit, process signals and
    graceful shutdown, src/backend/reset_db.js (console I/O around
    [deleteMany]), and src/TasksApp-main.  Storage calls of one request
    do not interleave with those of another, so the race of two refreshes
    inside [refreshToken] is outside the model.  The test files under
    src/backend/tests are read as documentation of intent only. *)

From Stdlib Require Export ZArith Lia Ascii.
From stdpp Require Export prelude strings.

Declare Scope tasks_scope.
Delimit Scope tasks_scope with tasks.
#[global] Open Scope tasks_scope.

Create HintDb tasks discriminated.
Create Rewrite HintDb tasks.

(** ** Tactics *)

Ltac invert H := inversion H; subst; clear H.

(** Closes a closed goal by evaluation: an equation between values, a
    disequation, [is_Some] of a value, or a comparison of numbers. *)
Ltac by_compute :=
  first [ by vm_compute
        | by (vm_compute; eexists)
        | by (vm_compute; intros ?; simplify_eq)
        | by (cbv; lia)
        | by (vm_compute; repeat first [apply list_elem_of_here | apply list_elem_of_further])
        | by (apply (bool_decide_unpack _); vm_compute) ].

(** ** The handler monad: state that survives exceptions *)

Section monad.
Context {S E : Type}.

Inductive Res (A : Type) : Type :=
| Ok (a : A)
| Throw (e : E).

Definition M (A : Type) : Type := S → Res A * S.

Definition ret {A} (a : A) : M A := λ s, (Ok A a, s).

Definition throw {A} (e : E) : M A := λ s, (Throw A e, s).

Definition bind {A B} (m : M A) (k : A → M B) : M B := λ s,
  match m s with
  | (Ok _ a, s') => k a s'
  | (Throw _ e, s') => (Throw B e, s')
  end.

Definition try_catch {A} (m : M A) (h : E → M A) : M A := λ s,
  match m s with
  | (Ok _ a, s') => (Ok A a, s')
  | (Throw _ e, s') => h e s'
  end.

Definition get : M S := λ s, (Ok S s, s).

Definition put (s : S) : M unit := λ _, (Ok unit tt, s).

Definition gets {A} (f : S → A) : M A := λ s, (Ok A (f s), s).

Definition modify (f : S → S) : M unit := λ s, (Ok unit tt, f s).

End monad.

Arguments Res : clear implicits.
Arguments M : clear implicits.
Arguments Ok {E A} a.
Arguments Throw {E A} e.

Notation "x <- m ;; k" := (bind m (λ x, k))
  (at level 100, m at next level, right associativity) : tasks_scope.

Ltac msimpl :=
  repeat (progress (cbv beta delta [bind ret throw try_catch get put gets modify] in *;
                    cbn [fst snd] in *)).

(** ** Laws of the monad, pointwise in the state *)

Section monad_laws.
Context {S E : Type}.
Implicit Types s : S.

Lemma bind_ret_l {A B} (a : A) (k : A → M S E B) s :
  (x <- ret a ;; k x) s = k a s.
Proof. done. Qed.

Lemma bind_ret_r {A} (m : M S E A) s :
  (x <- m ;; ret x) s = m s.
Proof. unfold bind, ret. by destruct (m s) as [[a|e] s']. Qed.

Lemma bind_assoc {A B C} (m : M S E A) (k : A → M S E B) (h : B → M S E C) s :
  (y <- (x <- m ;; k x) ;; h y) s = (x <- m ;; y <- k x ;; h y) s.
Proof. unfold bind. by destruct (m s) as [[a|e] s']. Qed.

Lemma bind_throw_l {A B} (e : E) (k : A → M S E B) s :
  (x <- throw e ;; k x) s = (Throw e, s).
Proof. done. Qed.

Lemma bind_ok {A B} (m : M S E A) (k : A → M S E B) s a s' :
  m s = (Ok a, s') → (x <- m ;; k x) s = k a s'.
Proof. unfold bind. by intros ->. Qed.

Lemma bind_throw {A B} (m : M S E A) (k : A → M S E B) s e s' :
  m s = (Throw e, s') → (x <- m ;; k x) s = (Throw e, s').
Proof. unfold bind. by intros ->. Qed.

Lemma bind_inv_ok {A B} (m : M S E A) (k : A → M S E B) s b s2 :
  (x <- m ;; k x) s = (Ok b, s2) →
  ∃ a s1, m s = (Ok a, s1) ∧ k a s1 = (Ok b, s2).
Proof.
  unfold bind. destruct (m s) as [[a|e] s1]; [|done]. intros Hk. by exists a, s1.
Qed.

Lemma bind_inv_throw {A B} (m : M S E A) (k : A → M S E B) s e s2 :
  (x <- m ;; k x) s = (Throw e, s2) →
  m s = (Throw e, s2) ∨ ∃ a s1, m s = (Ok a, s1) ∧ k a s1 = (Throw e, s2).
Proof.
  unfold bind. destruct (m s) as [[a|e'] s1]; [|intros [= -> ->]; by left].
  intros Hk. right. by exists a, s1.
Qed.

(** Either way through a bind, a property of the state that both steps
    carry forward holds at the end. *)
Lemma bind_preserves {A B} (m : M S E A) (k : A → M S E B) (R : S → S → Prop) s r s2 :
  (∀ s1 s2 s3, R s1 s2 → R s2 s3 → R s1 s3) →
  (∀ r1 s1, m s = (r1, s1) → R s s1) →
  (∀ a s1 r2 s2, k a s1 = (r2, s2) → R s1 s2) →
  (x <- m ;; k x) s = (r, s2) → R s s2.
Proof.
  intros Htrans Hm Hk. unfold bind. destruct (m s) as [[a|e] s1] eqn:Hms.
  - intros Hka. eapply Htrans; [by eapply Hm|by eapply Hk].
  - intros [= <- <-]. by eapply Hm.
Qed.

(** Binds and handlers that agree where they are run agree. *)
Lemma bind_ext {A B} (m : M S E A) (k1 k2 : A → M S E B) s :
  (∀ a s', m s = (Ok a, s') → k1 a s' = k2 a s') →
  (x <- m ;; k1 x) s = (x <- m ;; k2 x) s.
Proof. intros Hk. unfold bind. destruct (m s) as [[a|e] s'] eqn:Hm; [by apply Hk|done]. Qed.

Lemma try_catch_ext {A} (m : M S E A) (h1 h2 : E → M S E A) s :
  (∀ e s', m s = (Throw e, s') → h1 e s' = h2 e s') →
  try_catch m h1 s = try_catch m h2 s.
Proof.
  intros Hh. unfold try_catch. destruct (m s) as [[a|e] s'] eqn:Hm; [done|by apply Hh].
Qed.

Lemma try_catch_ok {A} (m : M S E A) (h : E → M S E A) s a s' :
  m s = (Ok a, s') → try_catch m h s = (Ok a, s').
Proof. unfold try_catch. by intros ->. Qed.

Lemma try_catch_throw {A} (m : M S E A) (h : E → M S E A) s e s' :
  m s = (Throw e, s') → try_catch m h s = h e s'.
Proof. unfold try_catch. by intros ->. Qed.

(** A handler that catches everything and returns never throws. *)
Lemma try_catch_total {A} (m : M S E A) (f : E → A) s :
  ∃ a s', try_catch m (λ e, ret (f e)) s = (Ok a, s').
Proof. unfold try_catch, ret. destruct (m s) as [[a|e] s']; eauto. Qed.

End monad_laws.

(** ** Computations that move the state along a preorder

    [preserving R m]: however [m] ends, the state it ends in is related
    by [R] to the state it started in.  With [R] a preorder this is
    closed under the operations of the monad. *)

Definition preserving {S E A} (R : relation S) (m : M S E A) : Prop :=
  ∀ s r s', m s = (r, s') → R s s'.

Create HintDb preserving discriminated.

Section preserving.
Context {S E : Type} (R : relation S) `{!PreOrder R}.

Lemma preserving_ret {A} (a : A) : preserving R (ret a : M S E A).
Proof. by intros s r s' [= <- <-]. Qed.

Lemma preserving_throw {A} (e : E) : preserving R (throw e : M S E A).
Proof. by intros s r s' [= <- <-]. Qed.

Lemma preserving_gets {A} (f : S → A) : preserving R (gets f : M S E A).
Proof. by intros s r s' [= <- <-]. Qed.

Lemma preserving_modify (f : S → S) :
  (∀ s, R s (f s)) → preserving R (modify f : M S E unit).
Proof. intros Hf s r s' [= <- <-]. apply Hf. Qed.

Lemma preserving_ext {A} (m m' : M S E A) :
  (∀ s, m s = m' s) → preserving R m' → preserving R m.
Proof. intros Hext Hm s r s'. rewrite Hext. apply Hm. Qed.

Lemma preserving_bind {A B} (m : M S E A) (k : A → M S E B) :
  preserving R m → (∀ a, preserving R (k a)) → preserving R (x <- m ;; k x).
Proof.
  intros Hm Hk s r s'. apply bind_preserves; [by etrans|by eauto|by intros; eapply Hk].
Qed.

Lemma preserving_try_catch {A} (m : M S E A) (h : E → M S E A) :
  preserving R m → (∀ e, preserving R (h e)) → preserving R (try_catch m h).
Proof.
  intros Hm Hh s r s'. unfold try_catch. destruct (m s) as [[a|e] s1] eqn:Hms.
  - intros [= <- <-]. by eapply Hm.
  - intros Hrun. etrans; [by eapply Hm|by eapply Hh].
Qed.

End preserving.

#[export] Hint Resolve preserving_ret preserving_throw preserving_gets preserving_bind
  preserving_try_catch : preserving.

(** One step of a proof that a computation is [preserving]: through a
    bind, a handler or a case distinction; what remains are the
    operations of the component, which its hints close. *)
Ltac preserving_step :=
  lazymatch goal with
  | |- preserving _ (bind _ _) => refine (preserving_bind _ _ _ _ _); [|intros ?]
  | |- preserving _ (try_catch _ _) => refine (preserving_try_catch _ _ _ _ _); [|intros ?]
  | |- preserving _ (ret _) => refine (preserving_ret _ _)
  | |- preserving _ (throw _) => refine (preserving_throw _ _)
  | |- preserving _ (gets _) => refine (preserving_gets _ _)
  | |- preserving _ (if ?b then _ else _) => destruct b
  | |- preserving _ (match ?x with _ => _ end) => destruct x
  | |- preserving _ (let '(_, _) := ?x in _) => destruct x
  end.

Ltac preserving := repeat first [preserving_step | solve [eauto with preserving]].

(** ** A program logic for the monad

    [hoare P m Q X]: from a state that satisfies [P], [m] returns a value
    and a state that satisfy [Q], or throws an exception and leaves a
    state that satisfy [X]. *)

Definition hoare {S E A} (P : S → Prop) (m : M S E A) (Q : A → S → Prop)
    (X : E → S → Prop) : Prop :=
  ∀ s r s', P s → m s = (r, s') →
    match r with
    | Ok a => Q a s'
    | Throw e => X e s'
    end.

Section hoare.
Context {S E : Type}.
Implicit Types (P : S → Prop) (X : E → S → Prop).

Lemma hoare_ret {A} (a : A) P (Q : A → S → Prop) X :
  (∀ s, P s → Q a s) → hoare P (ret a) Q X.
Proof. intros HQ s r s' HP [= <- <-]. by apply HQ. Qed.

Lemma hoare_throw {A} (e : E) P (Q : A → S → Prop) X :
  (∀ s, P s → X e s) → hoare P (throw e) Q X.
Proof. intros HX s r s' HP [= <- <-]. by apply HX. Qed.

Lemma hoare_gets {A} (f : S → A) P (Q : A → S → Prop) X :
  (∀ s, P s → Q (f s) s) → hoare P (gets f) Q X.
Proof. intros HQ s r s' HP [= <- <-]. by apply HQ. Qed.

Lemma hoare_modify (f : S → S) P (Q : unit → S → Prop) X :
  (∀ s, P s → Q tt (f s)) → hoare P (modify f) Q X.
Proof. intros HQ s r s' HP [= <- <-]. by apply HQ. Qed.

Lemma hoare_bind {A B} (m : M S E A) (k : A → M S E B) P (R : A → S → Prop)
    (Q : B → S → Prop) X :
  hoare P m R X → (∀ a, hoare (R a) (k a) Q X) → hoare P (x <- m ;; k x) Q X.
Proof.
  intros Hm Hk s r s' HP. unfold bind. destruct (m s) as [[a|e] s1] eqn:Hms.
  - intros Hrun. exact (Hk a s1 r s' (Hm s _ s1 HP Hms) Hrun).
  - intros [= <- <-]. exact (Hm s _ s1 HP Hms).
Qed.

Lemma hoare_try_catch {A} (m : M S E A) (h : E → M S E A) P (Q : A → S → Prop)
    (Y : E → S → Prop) X :
  hoare P m Q Y → (∀ e, hoare (Y e) (h e) Q X) → hoare P (try_catch m h) Q X.
Proof.
  intros Hm Hh s r s' HP. unfold try_catch. destruct (m s) as [[a|e] s1] eqn:Hms.
  - intros [= <- <-]. exact (Hm s _ s1 HP Hms).
  - intros Hrun. exact (Hh e s1 r s' (Hm s _ s1 HP Hms) Hrun).
Qed.

Lemma hoare_conseq {A} (m : M S E A) P P' (Q Q' : A → S → Prop) X X' :
  hoare P' m Q' X' → (∀ s, P s → P' s) → (∀ a s, Q' a s → Q a s) →
  (∀ e s, X' e s → X e s) → hoare P m Q X.
Proof.
  intros Hm HP HQ HX s r s' Hs Hrun. specialize (Hm s r s' (HP s Hs) Hrun).
  destruct r; [by apply HQ|by apply HX].
Qed.

(** A fact that does not depend on the state passes through. *)
Lemma hoare_pure {A} (m : M S E A) (φ : Prop) P (Q : A → S → Prop) X :
  (φ → hoare P m Q X) → hoare (λ s, φ ∧ P s) m Q X.
Proof. intros Hm s r s' [Hφ HP]. by apply Hm. Qed.

(** The logic gives what a run satisfies. *)
Lemma hoare_run {A} (m : M S E A) P (Q : A → S → Prop) X s a s' :
  hoare P m Q X → P s → m s = (Ok a, s') → Q a s'.
Proof. intros Hm HP Hrun. exact (Hm s _ s' HP Hrun). Qed.

Lemma hoare_run_throw {A} (m : M S E A) P (Q : A → S → Prop) X s e s' :
  hoare P m Q X → P s → m s = (Throw e, s') → X e s'.
Proof. intros Hm HP Hrun. exact (Hm s _ s' HP Hrun). Qed.

(** A computation that moves the state along [R], in the logic. *)
Lemma preserving_hoare {A} (R : relation S) (m : M S E A) s0 :
  Transitive R → preserving R m →
  hoare (R s0) m (λ _, R s0) (λ _, R s0).
Proof.
  intros ? Hm s r s' Hs Hrun. specialize (Hm s r s' Hrun).
  destruct r; by etrans.
Qed.

End hoare.

#[export] Hint Rewrite @bind_ret_l @bind_throw_l : tasks.

(** ** Collections

    A Mongoose collection is a list of documents in insertion order.
    [find_first P] is [findOne] with filter [P]; [update_first P f] is
    [findOneAndUpdate] (and a [save] of the document [findOne] returned);
    [update_all P f] is [updateMany]; a new document's [save] is [++ [d]]. *)

Section collections.
Context {A : Type} (P : A → Prop) `{!∀ x, Decision (P x)}.
Implicit Types (l : list A) (x y : A) (f : A → A).

Fixpoint find_first l : option A :=
  match l with
  | [] => None
  | x :: l' => if decide (P x) then Some x else find_first l'
  end.

Fixpoint update_first f l : list A :=
  match l with
  | [] => []
  | x :: l' => if decide (P x) then f x :: l' else x :: update_first f l'
  end.

Definition update_all f l : list A :=
  (λ x, if decide (P x) then f x else x) <$> l.

Lemma find_first_Some l x : find_first l = Some x → x ∈ l ∧ P x.
Proof.
  induction l as [|y l IH]; simpl; [done|].
  case_decide; intros ?; simplify_eq; [by split; [left|]|].
  destruct IH as [??]; [done|]. by split; [right|].
Qed.

Lemma find_first_None l : find_first l = None ↔ Forall (λ x, ¬ P x) l.
Proof.
  induction l as [|y l IH]; simpl; [by split|].
  case_decide; rewrite Forall_cons; [split; [done|tauto]|]. rewrite IH. tauto.
Qed.

Lemma find_first_is_Some l x : x ∈ l → P x → is_Some (find_first l).
Proof.
  intros Hx HP. destruct (find_first l) eqn:Hf; [done|].
  apply find_first_None in Hf. rewrite Forall_forall in Hf. by destruct (Hf x).
Qed.

Lemma find_first_app l1 l2 :
  find_first (l1 ++ l2) =
  match find_first l1 with Some x => Some x | None => find_first l2 end.
Proof. induction l1 as [|y l1 IH]; simpl; [done|]. by case_decide. Qed.

Lemma find_first_snoc_None l x :
  find_first l = None → find_first (l ++ [x]) = if decide (P x) then Some x else None.
Proof. intros Hn. by rewrite find_first_app, Hn. Qed.

Lemma length_update_first f l : length (update_first f l) = length l.
Proof. induction l as [|y l IH]; simpl; [done|]. case_decide; simpl; congruence. Qed.

Lemma length_update_all f l : length (update_all f l) = length l.
Proof. unfold update_all. by rewrite length_fmap. Qed.

Lemma update_first_None f l : find_first l = None → update_first f l = l.
Proof.
  induction l as [|y l IH]; simpl; [done|]. case_decide; [done|]. intros ?. by rewrite IH.
Qed.

Lemma update_all_None f l : Forall (λ x, ¬ P x) l → update_all f l = l.
Proof.
  unfold update_all. induction 1 as [|y l ?? IH]; csimpl; [done|].
  case_decide; [done|]. by rewrite IH.
Qed.

Lemma elem_of_update_all f l y :
  y ∈ update_all f l ↔ ∃ x, x ∈ l ∧ y = if decide (P x) then f x else x.
Proof. unfold update_all. rewrite list_elem_of_fmap. naive_solver. Qed.

Lemma elem_of_update_first f l y :
  y ∈ update_first f l → y ∈ l ∨ ∃ x, x ∈ l ∧ P x ∧ y = f x.
Proof.
  induction l as [|z l IH]; simpl; [by left|].
  case_decide; rewrite !elem_of_cons.
  - intros [->|Hy]; [right; exists z|left]; rewrite ?elem_of_cons; auto.
  - intros [->|Hy]; [by left; left|].
    destruct (IH Hy) as [?|(x&?&?&?)]; [by left; right|].
    right. exists x. rewrite elem_of_cons; auto.
Qed.

Lemma lookup_update_all f l i :
  update_all f l !! i = (λ x, if decide (P x) then f x else x) <$> l !! i.
Proof. unfold update_all. apply list_lookup_fmap. Qed.

(** [update_first] rewrites one position: that of the document [find_first]
    returns. *)
Lemma update_first_insert f l x :
  find_first l = Some x →
  ∃ i, l !! i = Some x ∧ update_first f l = <[i:=f x]> l ∧
       ∀ j y, j < i → l !! j = Some y → ¬ P y.
Proof.
  induction l as [|z l IH]; simpl; [done|]. case_decide as Hz.
  - intros [= ->]. exists 0. split_and!; [done..|]. intros; lia.
  - intros Hf. destruct (IH Hf) as (i & Hi & Hu & Hlt). exists (S i).
    split_and!; [done|by rewrite Hu|].
    intros [|j] y Hj; simpl; [by intros [= ->]|]. apply Hlt. lia.
Qed.

(** Every position of [update_first] holds the old document or its update. *)
Lemma lookup_update_first f l i :
  update_first f l !! i = l !! i ∨
  ∃ x, l !! i = Some x ∧ P x ∧ update_first f l !! i = Some (f x).
Proof.
  destruct (find_first l) as [x|] eqn:Hf; [|by rewrite update_first_None; [left|]].
  destruct (update_first_insert f l x Hf) as (k & Hk & -> & _).
  destruct (find_first_Some _ _ Hf) as [_ HP].
  destruct (decide (i = k)) as [->|Hne].
  - right. exists x. split_and!; [done..|].
    apply list_lookup_insert_eq. by eapply lookup_lt_Some.
  - left. by apply list_lookup_insert_ne.
Qed.

Lemma update_all_app f l1 l2 :
  update_all f (l1 ++ l2) = update_all f l1 ++ update_all f l2.
Proof. unfold update_all. by rewrite fmap_app. Qed.

Lemma update_first_app f l1 l2 :
  update_first f (l1 ++ l2) =
  match find_first l1 with
  | Some _ => update_first f l1 ++ l2
  | None => l1 ++ update_first f l2
  end.
Proof.
  induction l1 as [|z l1 IH]; simpl; [done|]. case_decide; [done|].
  rewrite IH. by destruct (find_first l1).
Qed.

(** What [update_first] and [update_all] have in common: position by
    position, the document is kept or, if it matches, updated. *)
Definition pointwise f l l' : Prop :=
  Forall2 (λ x x', x' = x ∨ (P x ∧ x' = f x)) l l'.

Lemma pointwise_refl f l : pointwise f l l.
Proof. apply Forall_Forall2_diag, Forall_forall. by left. Qed.

Lemma pointwise_update_all f l : pointwise f l (update_all f l).
Proof.
  unfold pointwise, update_all. induction l as [|x l IH]; csimpl; constructor; [|done].
  destruct (decide (P x)); auto.
Qed.

Lemma pointwise_update_first f l : pointwise f l (update_first f l).
Proof.
  induction l as [|x l IH]; simpl; [constructor|]. destruct (decide (P x)).
  - constructor; [auto|apply pointwise_refl].
  - constructor; [by left|done].
Qed.

Lemma pointwise_lookup f l l' i x :
  pointwise f l l' → l !! i = Some x →
  ∃ x', l' !! i = Some x' ∧ (x' = x ∨ (P x ∧ x' = f x)).
Proof. intros Hp Hi. by apply (Forall2_lookup_l _ _ _ _ _ Hp Hi). Qed.

(** A pointwise update keeps every field that [f] keeps. *)

Lemma pointwise_elem_of_l f l l' x :
  pointwise f l l' → x ∈ l → x ∈ l' ∨ (P x ∧ f x ∈ l').
Proof.
  intros Hp [i Hi]%list_elem_of_lookup.
  destruct (pointwise_lookup _ _ _ _ _ Hp Hi) as (x' & Hi' & [->|[? ->]]);
    [left|right; split; [done|]]; by eapply list_elem_of_lookup_2.
Qed.

Lemma pointwise_elem_of_r f l l' x' :
  pointwise f l l' → x' ∈ l' → x' ∈ l ∨ ∃ x, x ∈ l ∧ P x ∧ x' = f x.
Proof.
  intros Hp [i Hi]%list_elem_of_lookup.
  destruct (Forall2_lookup_r _ _ _ _ _ Hp Hi) as (x & Hx & [->|[? ->]]);
    [left|right; exists x; split_and!; [|done..]]; by eapply list_elem_of_lookup_2.
Qed.

End collections.

(** What is related comes from the list. *)
Lemma Forall2_elem_of_l {A B} (R : A → B → Prop) (l : list A) (k : list B) :
  Forall2 R l k → Forall2 (λ x y, x ∈ l ∧ R x y) l k.
Proof.
  intros HR. apply Forall2_same_length_lookup. split; [by eapply Forall2_length|].
  intros i x y Hx Hy. split; [by eapply list_elem_of_lookup_2|].
  by eapply Forall2_lookup_lr.
Qed.

(** Lists related position by position agree on what the relation keeps. *)
Lemma Forall2_fmap_eq {A K} (g : A → K) (R : A → A → Prop) (l l' : list A) :
  (∀ x x', R x x' → g x' = g x) → Forall2 R l l' → g <$> l' = g <$> l.
Proof. intros Hg. induction 1; csimpl; [done|]. f_equal; auto. Qed.

(** Two elements of a list with distinct keys are equal when their keys are. *)
Lemma NoDup_fmap_eq {A K} (g : A → K) (l : list A) x y :
  NoDup (g <$> l) → x ∈ l → y ∈ l → g x = g y → x = y.
Proof.
  intros Hnd [i Hi]%list_elem_of_lookup [j Hj]%list_elem_of_lookup Hg.
  assert (i = j) as ->; [|congruence].
  eapply NoDup_lookup; [done| |]; rewrite list_lookup_fmap; [by rewrite Hi|by rewrite Hj, Hg].
Qed.

(** Counting the documents whose key is among [ks]: when there are as many
    as [ks] is long and keys are unique, [ks] has no duplicate and each of
    its keys was found. *)
Lemma count_all_found {A K} (g : A → K) (P : A → Prop)
    `{!∀ x, Decision (P x)} `{!EqDecision K} (l : list A) (ks : list K) :
  NoDup (g <$> l) →
  length (filter (λ x, g x ∈ ks ∧ P x) l) = length ks →
  NoDup ks ∧ ∀ k, k ∈ ks → ∃ x, x ∈ l ∧ g x = k ∧ P x.
Proof.
  intros Hnd Hlen. set (found := filter (λ x, g x ∈ ks ∧ P x) l) in *.
  assert (NoDup (g <$> found)) as Hnd'.
  { eapply sublist_NoDup; [done|]. apply (fmap_sublist g), sublist_filter. }
  assert (g <$> found ≡ₚ ks) as Hperm.
  { apply submseteq_length_Permutation; [|by rewrite length_fmap, Hlen].
    apply NoDup_submseteq; [done|].
    intros k (x & -> & [[? _] _]%list_elem_of_filter)%list_elem_of_fmap. done. }
  split; [by rewrite <-Hperm|]. intros k Hk. rewrite <-Hperm in Hk.
  apply list_elem_of_fmap in Hk as (x & -> & [[_ ?] ?]%list_elem_of_filter). by exists x.
Qed.

#[export] Hint Rewrite @length_update_first @length_update_all : tasks.
