(* ===== verification/Json.v ===== *)
(** * Json: JavaScript values and strings as the sources use them

    JSON values as [express.json()] hands them to a handler, JavaScript's
    truthiness (the [!x] and [x || d] tests of the sources), and the string
    operations that occur in src/backend: [startsWith], [split] on one
    character, and the character classes of the regular expressions in
    validation/schemas.js.  A string is a sequence of 8-bit characters. *)

From S2P Require Import Prelude.


(** ** Characters *)

Definition char_between (lo hi c : ascii) : bool :=
  bool_decide (nat_of_ascii lo ≤ nat_of_ascii c ≤ nat_of_ascii hi).

(** [[A-Z]], [[a-z]], [[0-9]], [[^A-Za-z0-9]] and [[0-9a-fA-F]]. *)
Definition is_upper (c : ascii) : bool := char_between "A"%char "Z"%char c.
Definition is_lower (c : ascii) : bool := char_between "a"%char "z"%char c.
Definition is_digit (c : ascii) : bool := char_between "0"%char "9"%char c.
Definition is_special (c : ascii) : bool :=
  negb (is_upper c || is_lower c || is_digit c).
Definition is_hex_digit (c : ascii) : bool :=
  is_digit c || char_between "a"%char "f"%char c || char_between "A"%char "F"%char c.

(** ** Strings *)

(** [re.test(s)] for a one-character class: some character is in it. *)
Fixpoint some_char (p : ascii → bool) (s : string) : bool :=
  match s with
  | EmptyString => false
  | String c s' => p c || some_char p s'
  end.

Fixpoint all_char (p : ascii → bool) (s : string) : bool :=
  match s with
  | EmptyString => true
  | String c s' => p c && all_char p s'
  end.

(** [s.startsWith(p)]. *)
Fixpoint startsWith (p s : string) : bool :=
  match p, s with
  | EmptyString, _ => true
  | String a p', String b s' => bool_decide (a = b) && startsWith p' s'
  | String _ _, EmptyString => false
  end.

(** [s.split(sep)] for a separator of one character: the pieces between
    the occurrences of [sep], empty pieces included; never an empty list. *)
Fixpoint split_on (sep : ascii) (s : string) : list string :=
  match s with
  | EmptyString => [EmptyString]
  | String c s' =>
      if decide (c = sep) then EmptyString :: split_on sep s'
      else match split_on sep s' with
           | [] => [String c EmptyString]
           | w :: ws => String c w :: ws
           end
  end.

(** [s.toLowerCase()] on the letters [A] to [Z]. *)
Definition lower_char (c : ascii) : ascii :=
  if is_upper c then ascii_of_nat (nat_of_ascii c + 32) else c.

Fixpoint toLowerCase (s : string) : string :=
  match s with
  | EmptyString => EmptyString
  | String c s' => String (lower_char c) (toLowerCase s')
  end.

(** [s.includes(sub)]. *)
Fixpoint includes (sub s : string) : bool :=
  startsWith sub s ||
  match s with
  | EmptyString => false
  | String _ s' => includes sub s'
  end.

(** [s.replace(/\/$/, '')]: one slash at the end is removed. *)
Fixpoint strip_slash (s : string) : string :=
  match s with
  | EmptyString => EmptyString
  | String c EmptyString => if bool_decide (c = "/"%char) then EmptyString else s
  | String c s' => String c (strip_slash s')
  end.

(** White space, for [trim]: space, tab, line feed, carriage return. *)
Definition is_space (c : ascii) : bool :=
  bool_decide (c = " "%char) || bool_decide (nat_of_ascii c = 9)
  || bool_decide (nat_of_ascii c = 10) || bool_decide (nat_of_ascii c = 13).

Fixpoint trimStart (s : string) : string :=
  match s with
  | EmptyString => EmptyString
  | String c s' => if is_space c then trimStart s' else s
  end.

Fixpoint trimEnd (s : string) : string :=
  match s with
  | EmptyString => EmptyString
  | String c s' =>
      match trimEnd s' with
      | EmptyString => if is_space c then EmptyString else String c EmptyString
      | r => String c r
      end
  end.

(** [s.trim()]. *)
Definition trim (s : string) : string := trimEnd (trimStart s).

(** [parts.join(sep)]. *)
Fixpoint join_with (sep : ascii) (ws : list string) : string :=
  match ws with
  | [] => EmptyString
  | [w] => w
  | w :: ws' => w +:+ String sep (join_with sep ws')
  end.

(** [s.replace(pat, rep)] for a string pattern: the first occurrence. *)
Fixpoint replace_first (pat rep s : string) : string :=
  if startsWith pat s
  then rep +:+ String.substring (String.length pat) (String.length s) s
  else match s with
       | EmptyString => EmptyString
       | String c s' => String c (replace_first pat rep s')
       end.

(** ** JSON *)

#[local] Unset Elimination Schemes.
Inductive Json : Type :=
| JNull
| JBool (b : bool)
| JNum (n : Z)
| JStr (s : string)
| JArr (l : list Json)
| JObj (kvs : list (string * Json)).
#[local] Set Elimination Schemes.

#[export] Instance Json_eq_dec : EqDecision Json.
Proof.
  refine (fix go (a b : Json) {struct a} : Decision (a = b) :=
    match a, b with
    | JNull, JNull => left eq_refl
    | JBool x, JBool y => cast_if (decide (x = y))
    | JNum x, JNum y => cast_if (decide (x = y))
    | JStr x, JStr y => cast_if (decide (x = y))
    | JArr l, JArr k =>
        cast_if ((fix gol (l k : list Json) {struct l} : Decision (l = k) :=
          match l, k with
          | [], [] => left eq_refl
          | x :: l', y :: k' => cast_if_and (go x y) (gol l' k')
          | _, _ => right _
          end) l k)
    | JObj l, JObj k =>
        cast_if ((fix gol (l k : list (string * Json)) {struct l} : Decision (l = k) :=
          match l, k with
          | [], [] => left eq_refl
          | (s, x) :: l', (s', y) :: k' =>
              cast_if_and3 (decide (s = s')) (go x y) (gol l' k')
          | _, _ => right _
          end) l k)
    | _, _ => right _
    end); congruence.
Defined.

(** [o[k]]: [None] is [undefined]. *)
Definition jget (k : string) (j : Json) : option Json :=
  match j with
  | JObj kvs => snd <$> find_first (λ kv, kv.1 = k) kvs
  | _ => None
  end.

(** JavaScript's ToBoolean on a value that may be [undefined]. *)
Definition truthy (v : option Json) : bool :=
  match v with
  | None | Some JNull | Some (JBool false) => false
  | Some (JNum n) => negb (bool_decide (n = 0%Z))
  | Some (JStr s) => negb (bool_decide (s = EmptyString))
  | Some (JBool true) | Some (JArr _) | Some (JObj _) => true
  end.

(** [!s] for a string that may be [undefined]: absent or empty. *)
Definition falsy_str (s : option string) : bool :=
  match s with
  | None => true
  | Some s => bool_decide (s = EmptyString)
  end.

(** ** Lemmas *)

Lemma split_on_nonempty sep s : split_on sep s ≠ [].
Proof.
  destruct s as [|c s]; simpl; [done|].
  case_decide; [done|]. by destruct (split_on sep s).
Qed.

Lemma split_on_no_sep sep s :
  some_char (λ c, bool_decide (c = sep)) s = false → split_on sep s = [s].
Proof.
  induction s as [|c s IH]; simpl; [done|].
  intros [Hc Hs]%orb_false_elim. apply bool_decide_eq_false in Hc.
  case_decide; [done|]. by rewrite (IH Hs).
Qed.

(** Joining and splitting again gives the pieces back, when no piece holds
    the separator. *)
Lemma split_on_join sep ws :
  ws ≠ [] →
  Forall (λ w, some_char (λ c, bool_decide (c = sep)) w = false) ws →
  split_on sep (join_with sep ws) = ws.
Proof.
  intros Hne Hws. induction Hws as [|w ws Hw Hws IH]; [done|]. clear Hne.
  destruct ws as [|w' ws]; [by apply split_on_no_sep|].
  specialize (IH ltac:(done)).
  change (join_with sep (w :: w' :: ws))
    with (w +:+ String sep (join_with sep (w' :: ws))).
  revert IH. generalize (join_with sep (w' :: ws)) as r.
  intros r IH. induction w as [|c w IHw]; simpl.
  - rewrite decide_True by done. by rewrite IH.
  - simpl in Hw. apply orb_false_elim in Hw as [Hc Hw]. apply bool_decide_eq_false in Hc.
    rewrite decide_False by done. by rewrite (IHw Hw).
Qed.

(** The second piece of a string that starts with [p], a separator and a
    piece [t] without separators is [t]. *)
Lemma split_on_second sep p t :
  some_char (λ c, bool_decide (c = sep)) p = false →
  some_char (λ c, bool_decide (c = sep)) t = false →
  split_on sep (p +:+ String sep t) !! 1 = Some t.
Proof.
  intros Hp Ht. change (p +:+ String sep t) with (join_with sep [p; t]).
  rewrite split_on_join; [done..|]. by repeat first [apply Forall_nil_2 | apply Forall_cons_2].
Qed.

Lemma is_upper_spec c : is_upper c = true ↔ 65 ≤ nat_of_ascii c ≤ 90.
Proof. unfold is_upper, char_between. by rewrite bool_decide_eq_true. Qed.

Lemma lower_char_not_upper c : is_upper (lower_char c) = false.
Proof.
  unfold lower_char. destruct (is_upper c) eqn:Hc; [|done].
  apply is_upper_spec in Hc. apply not_true_is_false. rewrite is_upper_spec.
  rewrite nat_ascii_embedding; lia.
Qed.

Lemma toLowerCase_idemp s : toLowerCase (toLowerCase s) = toLowerCase s.
Proof.
  induction s as [|c s IH]; simpl; [done|]. rewrite IH. f_equal.
  unfold lower_char at 1. by rewrite lower_char_not_upper.
Qed.

Lemma startsWith_app p s : startsWith p (p +:+ s) = true.
Proof. induction p as [|a p IH]; simpl; [done|]. by rewrite bool_decide_eq_true_2. Qed.

Lemma startsWith_inv p s : startsWith p s = true → ∃ r, s = p +:+ r.
Proof.
  revert s. induction p as [|a p IH]; intros s; simpl; [by exists s|].
  destruct s as [|b s]; [done|]. intros [Hab Hp]%andb_prop.
  apply bool_decide_eq_true in Hab as ->. destruct (IH _ Hp) as [r ->]. by exists r.
Qed.

Lemma falsy_str_false s : falsy_str s = false ↔ ∃ t, s = Some t ∧ t ≠ EmptyString.
Proof.
  destruct s as [t|]; simpl; [|naive_solver].
  rewrite bool_decide_eq_false. naive_solver.
Qed.
