(* ===== verification/Crypto.v ===== *)
(** * Crypto: what the backend assumes of its cryptographic libraries

    The sources call node's [crypto] ([randomBytes], [createHash('sha256')]),
    [bcryptjs] ([hash], [compare]) and [jsonwebtoken] ([sign], [verify]).
    None of them is code of the repository, so they enter the model as an
    interface: the class [Crypto] holds the operations and [CryptoLaws] the
    properties the controllers rely on (collision resistance idealised as
    injectivity, unforgeability as an inversion law).  The clients' theorems
    are proved against the interface.

    Hex encoding ([buffer.toString('hex')]) is modelled concretely.

    [ideal] is an executable instance in which a digest is the hex encoding
    of its input and a token is the dot-separated hex encoding of its
    fields; [ideal_laws] shows that the laws are satisfiable, and the
    executable scenarios of the other files run on it. *)

From Stdlib Require Import DecimalString DecimalPos DecimalZ.
From S2P Require Import Prelude Json.

(** ** Hex encoding *)

(** A buffer is a list of bytes; a byte is an 8-bit character. *)
Definition Buffer := list ascii.

Definition hex_digit (n : nat) : ascii :=
  match n with
  | 0 => "0" | 1 => "1" | 2 => "2" | 3 => "3" | 4 => "4" | 5 => "5"
  | 6 => "6" | 7 => "7" | 8 => "8" | 9 => "9" | 10 => "a" | 11 => "b"
  | 12 => "c" | 13 => "d" | 14 => "e" | _ => "f"
  end%char.

Definition hex_value (c : ascii) : option nat :=
  let n := nat_of_ascii c in
  if is_digit c then Some (n - 48)
  else if char_between "a" "f" c then Some (n - 87)
  else if char_between "A" "F" c then Some (n - 55)
  else None.

(** [buf.toString('hex')]: two lowercase digits per byte, high nibble first. *)
Fixpoint toString_hex (buf : Buffer) : string :=
  match buf with
  | [] => EmptyString
  | b :: buf' =>
      let n := nat_of_ascii b in
      String (hex_digit (n / 16)) (String (hex_digit (n mod 16)) (toString_hex buf'))
  end.

(** [Buffer.from(s, 'hex')] on well-formed input; [None] otherwise. *)
Fixpoint from_hex (s : string) : option Buffer :=
  match s with
  | EmptyString => Some []
  | String hi (String lo s') =>
      h ← hex_value hi; l ← hex_value lo; buf ← from_hex s';
      Some (ascii_of_nat (16 * h + l) :: buf)
  | String _ EmptyString => None
  end.

Definition bytes_of_string (s : string) : Buffer := String.list_ascii_of_string s.

(** ** Lemmas on hex encoding *)

Lemma hex_digit_is_hex n : is_hex_digit (hex_digit n) = true.
Proof. do 16 (destruct n as [|n]; [done|]). done. Qed.

Lemma hex_value_digit n : n < 16 → hex_value (hex_digit n) = Some n.
Proof. intros Hn. do 16 (destruct n as [|n]; [done|]). lia. Qed.

Lemma length_toString_hex buf : String.length (toString_hex buf) = 2 * length buf.
Proof.
  induction buf as [|b buf IH]; [done|]. cbn [toString_hex String.length length].
  rewrite IH. lia.
Qed.

Lemma toString_hex_all_hex buf : all_char is_hex_digit (toString_hex buf) = true.
Proof.
  induction buf as [|b buf IH]; [done|]. cbn [toString_hex all_char].
  by rewrite !hex_digit_is_hex, IH.
Qed.

Lemma from_hex_two h l s :
  h < 16 → l < 16 →
  from_hex (String (hex_digit h) (String (hex_digit l) s)) =
  (λ buf, ascii_of_nat (16 * h + l) :: buf) <$> from_hex s.
Proof.
  intros Hh Hl. cbn [from_hex]. rewrite !hex_value_digit by done.
  by destruct (from_hex s).
Qed.

Lemma from_hex_toString_hex buf : from_hex (toString_hex buf) = Some buf.
Proof.
  induction buf as [|b buf IH]; [done|]. cbn [toString_hex].
  pose proof (nat_ascii_bounded b) as Hb.
  rewrite from_hex_two, IH.
  - cbn [fmap option_fmap option_map]. do 2 f_equal.
    rewrite <- (ascii_nat_embedding b) at 3. f_equal.
    symmetry. apply Nat.div_mod_eq.
  - apply Nat.Div0.div_lt_upper_bound. lia.
  - apply Nat.mod_upper_bound. lia.
Qed.

#[export] Instance toString_hex_inj : Inj (=) (=) toString_hex.
Proof.
  intros b1 b2 Heq. apply (inj Some).
  by rewrite <- !from_hex_toString_hex, Heq.
Qed.

(** A class of characters that holds no hex digit does not meet an encoding. *)
Lemma toString_hex_avoids (p : ascii → bool) buf :
  (∀ c, is_hex_digit c = true → p c = false) →
  some_char p (toString_hex buf) = false.
Proof.
  intros Hp. induction buf as [|b buf IH]; [done|]. cbn [toString_hex some_char].
  by rewrite !Hp, IH by apply hex_digit_is_hex.
Qed.

(** ** The interface *)

(** The payload of an access token: [{ userId, email, role }]. *)
Record Claims := mkClaims {
  c_userId : string;
  c_email : string;
  c_role : string;
}.

#[export] Instance Claims_eq_dec : EqDecision Claims.
Proof. solve_decision. Defined.

(** [jwt.sign(payload, secret, { expiresIn })] stamps the token with
    [exp = floor(now / 1000) + expiresIn], in seconds. *)
Definition jwt_exp (now ttl : Z) : Z := now `div` 1000 + ttl.

Class Crypto := {
  (** [crypto.createHash('sha256').update(s).digest('hex')] *)
  sha256_hex : string → string;
  (** [bcrypt.hash(password, rounds)], with the salt bcrypt draws *)
  bcrypt_hash : string → nat → Buffer → string;
  (** [bcrypt.compare(password, hash)] *)
  bcrypt_compare : string → string → bool;
  (** [jwt.sign(payload, secret, { expiresIn: ttl })] at time [now] *)
  jwt_sign : Claims → string → Z → Z → string;
  (** [jwt.verify(token, secret)] at time [now]; [None] when it throws *)
  jwt_verify : string → string → Z → option Claims;
}.

Class CryptoLaws `{Crypto} : Prop := {
  sha256_hex_inj :: Inj (=) (=) sha256_hex;
  bcrypt_compare_hash pw rounds salt :
    bcrypt_compare pw (bcrypt_hash pw rounds salt) = true;
  bcrypt_compare_inv pw pw' rounds salt :
    bcrypt_compare pw' (bcrypt_hash pw rounds salt) = true → pw' = pw;
  jwt_verify_sign c k ttl t now :
    jwt_verify (jwt_sign c k ttl t) k now =
    if decide (now `div` 1000 < jwt_exp t ttl)%Z then Some c else None;
  jwt_verify_key c k k' ttl t now :
    k ≠ k' → jwt_verify (jwt_sign c k ttl t) k' now = None;
  jwt_verify_inv tok k now c :
    jwt_verify tok k now = Some c →
    ∃ ttl t, tok = jwt_sign c k ttl t ∧ (now `div` 1000 < jwt_exp t ttl)%Z;
  jwt_sign_no_space c k ttl t :
    some_char (λ x, bool_decide (x = " "%char)) (jwt_sign c k ttl t) = false;
  jwt_sign_nonempty c k ttl t : jwt_sign c k ttl t ≠ "";
}.

(** ** The ideal instance *)

Definition hx (s : string) : string := toString_hex (bytes_of_string s).

Definition unhx (s : string) : option string :=
  String.string_of_list_ascii <$> from_hex s.

Definition dec (z : Z) : string := NilZero.string_of_int (Z.to_int z).

Definition undec (s : string) : option Z := Z.of_int <$> NilZero.int_of_string s.

Definition ideal_jwt_encode (c : Claims) (k : string) (exp : Z) : string :=
  join_with "." [hx (c_userId c); hx (c_email c); hx (c_role c); hx k; hx (dec exp)].

Definition ideal_jwt_decode (tok : string) : option (Claims * string * Z) :=
  match split_on "." tok with
  | [u; e; r; k; x] =>
      u ← unhx u; e ← unhx e; r ← unhx r; k ← unhx k; x ← unhx x ≫= undec;
      Some (mkClaims u e r, k, x)
  | _ => None
  end.

Definition ideal_jwt_verify (tok k : string) (now : Z) : option Claims :=
  match ideal_jwt_decode tok with
  | Some (c, k', exp) =>
      if decide (k' = k ∧ (now `div` 1000 < exp)%Z ∧ ideal_jwt_encode c k' exp = tok)
      then Some c else None
  | None => None
  end.

Definition ideal_bcrypt_hash (pw : string) (rounds : nat) (salt : Buffer) : string :=
  join_with "$" [toString_hex salt; hx pw].

Definition ideal_bcrypt_compare (pw h : string) : bool :=
  match split_on "$" h with
  | [_; p] => bool_decide (p = hx pw)
  | _ => false
  end.

Definition ideal : Crypto := {|
  sha256_hex := hx;
  bcrypt_hash := ideal_bcrypt_hash;
  bcrypt_compare := ideal_bcrypt_compare;
  jwt_sign c k ttl t := ideal_jwt_encode c k (jwt_exp t ttl);
  jwt_verify := ideal_jwt_verify;
|}.

(** ** The ideal instance satisfies the laws *)

Lemma unhx_hx s : unhx (hx s) = Some s.
Proof.
  unfold unhx, hx, bytes_of_string. rewrite from_hex_toString_hex. cbn.
  by rewrite String.string_of_list_ascii_of_string.
Qed.

#[export] Instance hx_inj : Inj (=) (=) hx.
Proof. intros s1 s2 Heq. apply (inj Some). by rewrite <- !unhx_hx, Heq. Qed.

Lemma hx_avoids (p : ascii → bool) s :
  (∀ c, is_hex_digit c = true → p c = false) → some_char p (hx s) = false.
Proof. apply toString_hex_avoids. Qed.

Lemma is_hex_digit_not c (x : ascii) :
  is_hex_digit x = false → is_hex_digit c = true → bool_decide (c = x) = false.
Proof. intros Hx Hc. apply bool_decide_eq_false. congruence. Qed.

Lemma undec_dec z : undec (dec z) = Some z.
Proof.
  unfold undec, dec. rewrite NilZero.isi.
  - cbn. by rewrite DecimalZ.of_to.
  - destruct z; cbn; [done| |done]. intros [=Hp]. by apply DecimalPos.Unsigned.to_uint_nonnil in Hp.
  - destruct z; cbn; [done|done|]. intros [=Hp]. by apply DecimalPos.Unsigned.to_uint_nonnil in Hp.
Qed.

Lemma ideal_jwt_decode_encode c k exp :
  ideal_jwt_decode (ideal_jwt_encode c k exp) = Some (c, k, exp).
Proof.
  unfold ideal_jwt_decode, ideal_jwt_encode. rewrite split_on_join; [|done|].
  - rewrite !unhx_hx. cbn. rewrite undec_dec. by destruct c.
  - repeat first [apply Forall_nil_2 | apply Forall_cons_2];
      apply hx_avoids; intros ?; by apply is_hex_digit_not.
Qed.

Lemma ideal_jwt_verify_encode c k exp k' now :
  ideal_jwt_verify (ideal_jwt_encode c k exp) k' now =
  if decide (k = k' ∧ (now `div` 1000 < exp)%Z) then Some c else None.
Proof.
  unfold ideal_jwt_verify. rewrite ideal_jwt_decode_encode.
  repeat case_decide; naive_solver.
Qed.

Lemma ideal_jwt_encode_no_space c k exp :
  some_char (λ x, bool_decide (x = " "%char)) (ideal_jwt_encode c k exp) = false.
Proof.
  assert (Hcat : ∀ a b, some_char (λ x, bool_decide (x = " "%char)) a = false →
    some_char (λ x, bool_decide (x = " "%char)) b = false →
    some_char (λ x, bool_decide (x = " "%char)) (a +:+ String "." b) = false).
  { intros a b Ha Hb. induction a as [|x a IH]; simpl in *; [done|].
    apply orb_false_elim in Ha as [-> Ha]. by apply IH. }
  unfold ideal_jwt_encode. cbn [join_with].
  repeat apply Hcat; apply hx_avoids; intros ?; by apply is_hex_digit_not.
Qed.

Lemma ideal_bcrypt_split pw rounds salt :
  split_on "$" (ideal_bcrypt_hash pw rounds salt) = [toString_hex salt; hx pw].
Proof.
  unfold ideal_bcrypt_hash. apply split_on_join; [done|].
  repeat first [apply Forall_nil_2 | apply Forall_cons_2];
    apply toString_hex_avoids; intros ?; by apply is_hex_digit_not.
Qed.

#[export] Instance ideal_laws : @CryptoLaws ideal.
Proof.
  split; cbn [sha256_hex bcrypt_hash bcrypt_compare jwt_sign jwt_verify ideal].
  - apply _.
  - intros. unfold ideal_bcrypt_compare. rewrite ideal_bcrypt_split.
    by apply bool_decide_eq_true.
  - intros pw pw' rounds salt. unfold ideal_bcrypt_compare. rewrite ideal_bcrypt_split.
    intros Heq%bool_decide_eq_true. by apply (inj hx).
  - intros. rewrite ideal_jwt_verify_encode. repeat case_decide; naive_solver.
  - intros. rewrite ideal_jwt_verify_encode. case_decide; naive_solver.
  - intros tok k now c. unfold ideal_jwt_verify.
    destruct (ideal_jwt_decode tok) as [[[c' k'] exp]|]; [|done].
    case_decide as Hd; [|done]. destruct Hd as (-> & Hexp & <-). intros [= ->].
    exists exp, 0%Z. assert (jwt_exp 0 exp = exp) as -> by (unfold jwt_exp; rewrite Zdiv_0_l; lia). done.
  - intros. apply ideal_jwt_encode_no_space.
  - intros c k ttl t. unfold ideal_jwt_encode. cbn [join_with].
    by destruct (hx (c_userId c)).
Qed.
