(* ===== verification/Dates.v ===== *)
(** * Dates: the [Date] of JavaScript, as src/ui.js uses it

    Time values are milliseconds since the epoch, in [Z]; [None] is the
    time value [NaN] of an invalid date.  The calendar is that of
    ECMA-262: [Day], [TimeWithinDay], [WeekDay], [MakeDay], [MakeTime],
    [MakeDate], [TimeClip], with the civil date of a day number computed
    in closed form.  Local time is UTC plus a constant offset [tz], in
    minutes: daylight saving time is not modelled.  Strings in the date
    time string format of ECMA-262 are parsed here; what an engine makes
    of any other string is the parameter [legacy_parse]. *)

From S2P Require Import Prelude Json Crypto.

#[local] Open Scope Z_scope.

(** ** Days and the civil calendar *)

Definition msPerDay : Z := 86400000.
Definition msPerHour : Z := 3600000.
Definition msPerMinute : Z := 60000.

Definition Day (t : Z) : Z := t / msPerDay.
Definition TimeWithinDay (t : Z) : Z := t mod msPerDay.

(** 0 is Sunday; day 0 was a Thursday. *)
Definition WeekDay (t : Z) : Z := (Day t + 4) mod 7.

Definition is_leap (y : Z) : bool :=
  (y mod 4 =? 0) && (negb (y mod 100 =? 0) || (y mod 400 =? 0)).

(** The days of month [m] (0 is January) of year [y]. *)
Definition days_in_month (y m : Z) : Z :=
  if m =? 1 then (if is_leap y then 29 else 28)
  else if (m =? 3) || (m =? 5) || (m =? 8) || (m =? 10) then 30
  else 31.

(** The day number of a civil date; the year starts in March, so that the
    leap day is its last day. *)
Definition days_from_civil (y m d : Z) : Z :=
  let y' := if m <? 2 then y - 1 else y in
  let era := y' / 400 in
  let yoe := y' mod 400 in
  let mp := (m + 10) mod 12 in
  let doy := (153 * mp + 2) / 5 + d - 1 in
  let doe := yoe * 365 + yoe / 4 - yoe / 100 + doy in
  era * 146097 + doe - 719468.

(** The civil date of a day number: year, month from 0, day of the month
    from 1. *)
Definition civil_from_days (z : Z) : Z * Z * Z :=
  let z := z + 719468 in
  let era := z / 146097 in
  let doe := z mod 146097 in
  let yoe := (doe - doe / 1460 + doe / 36524 - doe / 146096) / 365 in
  let doy := doe - (365 * yoe + yoe / 4 - yoe / 100) in
  let mp := (5 * doy + 2) / 153 in
  let d := doy - (153 * mp + 2) / 5 + 1 in
  let m := if mp <? 10 then mp + 2 else mp - 10 in
  (yoe + era * 400 + (if m <? 2 then 1 else 0), m, d).

Definition YearFromTime (t : Z) : Z := (civil_from_days (Day t)).1.1.
Definition MonthFromTime (t : Z) : Z := (civil_from_days (Day t)).1.2.
Definition DateFromTime (t : Z) : Z := (civil_from_days (Day t)).2.

(** [MakeDay(year, month, date)]: months beyond the year carry into it. *)
Definition MakeDay (year month date : Z) : Z :=
  days_from_civil (year + month / 12) (month mod 12) 1 + date - 1.

Definition MakeTime (hour min sec ms : Z) : Z :=
  hour * msPerHour + min * msPerMinute + sec * 1000 + ms.

Definition MakeDate (day time : Z) : Z := day * msPerDay + time.

(** [TimeClip]: a time value beyond 100 000 000 days is [NaN]. *)
Definition TimeClip (t : Z) : option Z :=
  if Z.abs t <=? 8640000000000000 then Some t else None.

(** ** Printing and parsing *)

(** [z] in decimal, with zeros in front up to [n] digits. *)
Definition pad (n : nat) (z : Z) : string :=
  let s := dec z in
  String.string_of_list_ascii (replicate (n - String.length s) "0"%char) +:+ s.

(** [toISOString()] of a valid time value. *)
Definition iso_string (t : Z) : string :=
  let '(y, m, d) := civil_from_days (Day t) in
  let w := TimeWithinDay t in
  (if (0 <=? y) && (y <=? 9999) then pad 4 y
   else (if y <? 0 then "-" else "+") +:+ pad 6 (Z.abs y))
  +:+ "-" +:+ pad 2 (m + 1) +:+ "-" +:+ pad 2 d
  +:+ "T" +:+ pad 2 (w / msPerHour) +:+ ":" +:+ pad 2 (w mod msPerHour / msPerMinute)
  +:+ ":" +:+ pad 2 (w mod msPerMinute / 1000) +:+ "." +:+ pad 3 (w mod 1000) +:+ "Z".

(** A run of exactly [n] digits at the head of a string, and the rest. *)
Fixpoint digits (n : nat) (acc : Z) (s : list ascii) : option (Z * list ascii) :=
  match n, s with
  | O, _ => Some (acc, s)
  | S n', c :: s' =>
      if is_digit c then digits n' (10 * acc + (Z.of_nat (nat_of_ascii c) - 48)) s'
      else None
  | S _, [] => None
  end.

(** The character [c] at the head of a string. *)
Definition expect (c : ascii) (s : list ascii) : option (list ascii) :=
  match s with
  | c' :: s' => if decide (c = c') then Some s' else None
  | [] => None
  end.

(** The time of day when its fields are legal: up to [24:00:00.000]. *)
Definition time_of_day (h mi sec ms : Z) : option Z :=
  if (h <=? 23) && (mi <=? 59) && (sec <=? 59)
     || (h =? 24) && (mi =? 0) && (sec =? 0) && (ms =? 0)
  then Some (MakeTime h mi sec ms) else None.

(** [HH:mm], [HH:mm:ss] or [HH:mm:ss.sss]: the milliseconds within the
    day if the fields are a time of day, and the rest. *)
Definition parse_time (s : list ascii) : option (option Z * list ascii) :=
  '(h, s) ← digits 2 0 s; s ← expect ":" s; '(mi, s) ← digits 2 0 s;
  match expect ":" s with
  | None => Some (time_of_day h mi 0 0, s)
  | Some s =>
      '(sec, s) ← digits 2 0 s;
      match expect "." s with
      | None => Some (time_of_day h mi sec 0, s)
      | Some s => '(ms, s) ← digits 3 0 s; Some (time_of_day h mi sec ms, s)
      end
  end.

(** [Z], [+HH:mm] or [-HH:mm] at the end of a string: the offset in
    minutes; nothing: local time, [None]. *)
Definition parse_offset (s : list ascii) : option (option Z) :=
  match s with
  | [] => Some None
  | ["Z"%char] => Some (Some 0)
  | sign :: s =>
      '(h, s) ← digits 2 0 s; s ← expect ":" s; '(mi, s) ← digits 2 0 s;
      if decide (s = []) then
        if decide (sign = "+"%char) then Some (Some (h * 60 + mi))
        else if decide (sign = "-"%char) then Some (Some (- (h * 60 + mi)))
        else None
      else None
  end.

(** Whether the fields are those of a day. *)
Definition legal (y m d : Z) : bool :=
  (1 <=? m) && (m <=? 12) && (1 <=? d) && (d <=? days_in_month y (m - 1)).

(** A string in the date time string format with a year of four digits:
    [None] when it has another form, [Some None] when its fields are no
    date.  A date alone is UTC; a date and a time without offset are
    local time, [tz] minutes ahead of UTC. *)
Definition parse_iso (tz : Z) (str : string) : option (option Z) :=
  '(y, s) ← digits 4 0 (String.list_ascii_of_string str);
  s ← expect "-" s; '(m, s) ← digits 2 0 s;
  s ← expect "-" s; '(d, s) ← digits 2 0 s;
  match s with
  | [] => Some (if legal y m d then Some (MakeDate (days_from_civil y (m - 1) d) 0)
                else None)
  | _ =>
      s ← expect "T" s; '(w, s) ← parse_time s; off ← parse_offset s;
      Some (if legal y m d
            then (λ w, MakeDate (days_from_civil y (m - 1) d) w
                       - default tz off * msPerMinute) <$> w
            else None)
  end.

(** ** The methods of [Date] *)

(** What the page's engine and place add to the standard: the offset of
    local time in minutes, what [new Date(s)] makes of a string that is
    not in the standard format, and [Number(s)] when it is an integer
    ([None] is [NaN], or a fraction). *)
Class Engine := {
  tz : Z;
  legacy_parse : string → option Z;
  Number : string → option Z;
  (** [new Date(t).toLocaleDateString()] *)
  toLocaleDateString : option Z → string;
  (** the sign of [a.localeCompare(b)] *)
  localeCompare : string → string → Z;
}.

Section date.
Context `{Engine}.

Definition LocalTime (t : Z) : Z := t + tz * msPerMinute.
Definition UTC (t : Z) : Z := t - tz * msPerMinute.

(** [new Date(s).getTime()] for a string. *)
Definition Date_parse (s : string) : option Z :=
  match parse_iso tz s with
  | Some t => t ≫= TimeClip
  | None => legacy_parse s ≫= TimeClip
  end.

Definition getFullYear (t : Z) : Z := YearFromTime (LocalTime t).
Definition getMonth (t : Z) : Z := MonthFromTime (LocalTime t).
Definition getDate (t : Z) : Z := DateFromTime (LocalTime t).
Definition getDay (t : Z) : Z := WeekDay (LocalTime t).
Definition getHours (t : Z) : Z := TimeWithinDay (LocalTime t) / msPerHour.
Definition getMinutes (t : Z) : Z := TimeWithinDay (LocalTime t) mod msPerHour / msPerMinute.

(** [date.setDate(dt)]: the time value the date then has. *)
Definition setDate (t dt : Z) : option Z :=
  let l := LocalTime t in
  TimeClip (UTC (MakeDate (MakeDay (YearFromTime l) (MonthFromTime l) dt) (TimeWithinDay l))).

(** [new Date(year, month, date, hours, minutes).getTime()]: a year from 0
    to 99 is a year of the twentieth century. *)
Definition Date_of_fields (year month date hours minutes : Z) : option Z :=
  let yr := if (0 <=? year) && (year <=? 99) then 1900 + year else year in
  TimeClip (UTC (MakeDate (MakeDay yr month date) (MakeTime hours minutes 0 0))).

End date.

(** An engine to compute with: UTC, no other format, and decimal
    numerals, of which the empty one is 0. *)
Definition utc_engine : Engine := {|
  tz := 0;
  legacy_parse _ := None;
  Number s := if decide (trim s = "") then Some 0 else undec (trim s);
  toLocaleDateString t :=
    match t with
    | Some t => String.substring 0 10 (iso_string t)
    | None => "Invalid Date"
    end;
  localeCompare a b :=
    match String.compare a b with
    | Lt => -1
    | Eq => 0
    | Gt => 1
    end;
|}.

(** ** The calendar *)

#[local] Open Scope Z_scope.

(** Closes a goal of linear arithmetic with divisions by constants and
    comparisons in [bool]. *)
Ltac calendar :=
  repeat match goal with
         | |- context [?a <? ?b] => destruct (Z.ltb_spec a b)
         | |- context [?a =? ?b] => destruct (Z.eqb_spec a b)
         | |- context [?a <=? ?b] => destruct (Z.leb_spec a b)
         end;
  cbn [andb orb negb]; try done; Z.div_mod_to_equations; lia.

(** The month of a day of the year that starts in March. *)
Lemma month_of_doy mp d :
  0 ≤ mp ≤ 11 → 1 ≤ d ≤ (153 * (mp + 1) + 2) / 5 - (153 * mp + 2) / 5 →
  (5 * ((153 * mp + 2) / 5 + d - 1) + 2) / 153 = mp.
Proof. intros. Z.div_mod_to_equations. lia. Qed.

(** The year of a day of the era of 400 years. *)
Lemma year_of_doe yoe doy :
  0 ≤ yoe ≤ 399 → 0 ≤ doy ≤ 365 →
  (doy = 365 → (yoe + 1) mod 4 = 0 ∧ ((yoe + 1) mod 100 ≠ 0 ∨ yoe = 399)) →
  let doe := yoe * 365 + yoe / 4 - yoe / 100 + doy in
  (doe - doe / 1460 + doe / 36524 - doe / 146096) / 365 = yoe ∧ 0 ≤ doe < 146097.
Proof. intros ? ? ? doe. subst doe. Z.div_mod_to_equations. lia. Qed.

Lemma leap_year_of_era y :
  is_leap y = true →
  ((y - 1) mod 400 + 1) mod 4 = 0
  ∧ (((y - 1) mod 400 + 1) mod 100 ≠ 0 ∨ (y - 1) mod 400 = 399).
Proof. unfold is_leap. calendar. Qed.

(** A day of a month, as a day of the year that starts in March. *)
Lemma doy_bounds y m d :
  0 ≤ m ≤ 11 → 1 ≤ d ≤ days_in_month y m →
  let mp := (m + 10) mod 12 in
  let doy := (153 * mp + 2) / 5 + d - 1 in
  0 ≤ mp ≤ 11 ∧ 0 ≤ doy ≤ 365 ∧ (doy = 365 → is_leap y = true ∧ m = 1)
  ∧ d ≤ (153 * (mp + 1) + 2) / 5 - (153 * mp + 2) / 5
  ∧ (if mp <? 10 then mp + 2 else mp - 10) = m.
Proof.
  intros Hm Hd mp doy. subst doy mp. revert Hd. unfold days_in_month.
  assert (m = 0 ∨ m = 1 ∨ m = 2 ∨ m = 3 ∨ m = 4 ∨ m = 5 ∨ m = 6 ∨ m = 7 ∨ m = 8 ∨ m = 9
          ∨ m = 10 ∨ m = 11) as Hcases by lia.
  destruct_or!; subst m; destruct (is_leap y); calendar.
Qed.

(** The day number of a date is the day whose date it is. *)
Lemma civil_from_days_from_civil y m d :
  0 ≤ m ≤ 11 → 1 ≤ d ≤ days_in_month y m →
  civil_from_days (days_from_civil y m d) = (y, m, d).
Proof.
  intros Hm Hd. destruct (doy_bounds y m d Hm Hd) as (Hmp & Hdoy & H365 & Hlen & Hmonth).
  unfold civil_from_days, days_from_civil. cbv zeta.
  set (y' := if m <? 2 then y - 1 else y).
  set (mp := (m + 10) mod 12) in *.
  set (doy := (153 * mp + 2) / 5 + d - 1) in *.
  assert (0 ≤ y' mod 400 ≤ 399) as Hyoe by (Z.div_mod_to_equations; lia).
  destruct (year_of_doe (y' mod 400) doy Hyoe Hdoy) as [Hyear Hdoe].
  { intros [Hleap ->]%H365. apply leap_year_of_era in Hleap. by subst y'. }
  set (doe := y' mod 400 * 365 + y' mod 400 / 4 - y' mod 400 / 100 + doy) in *.
  replace (y' / 400 * 146097 + doe - 719468 + 719468) with (doe + y' / 400 * 146097) by lia.
  rewrite Z_div_plus, Z_mod_plus, (Z.div_small doe), (Z.mod_small doe) by lia.
  rewrite Z.add_0_l, Hyear.
  replace (doe - (365 * (y' mod 400) + y' mod 400 / 4 - y' mod 400 / 100)) with doy
    by (subst doe; lia).
  replace ((5 * doy + 2) / 153) with mp by (symmetry; apply month_of_doy; lia).
  rewrite Hmonth. f_equal; [f_equal|subst doy; lia].
  subst y'. destruct (m <? 2); Z.div_mod_to_equations; lia.
Qed.

(** The date of a day is a date of the calendar, and that day is its day
    number. *)
Lemma days_from_civil_from_days z :
  days_from_civil (civil_from_days z).1.1 (civil_from_days z).1.2 (civil_from_days z).2 = z.
Proof. unfold civil_from_days, days_from_civil. cbn [fst snd]. calendar. Qed.

Lemma civil_month z : 0 ≤ (civil_from_days z).1.2 ≤ 11.
Proof. unfold civil_from_days. cbn [fst snd]. calendar. Qed.

Lemma civil_day z :
  1 ≤ (civil_from_days z).2
      ≤ days_in_month (civil_from_days z).1.1 (civil_from_days z).1.2.
Proof. unfold civil_from_days, days_in_month, is_leap. cbn [fst snd]. calendar. Qed.

(** ** Days later *)

Lemma Day_add t k : Day (t + k * msPerDay) = Day t + k.
Proof. unfold Day, msPerDay. by rewrite Z_div_plus. Qed.

Lemma TimeWithinDay_add t k : TimeWithinDay (t + k * msPerDay) = TimeWithinDay t.
Proof. unfold TimeWithinDay, msPerDay. by rewrite Z_mod_plus. Qed.

Lemma MakeDate_Day t : MakeDate (Day t) (TimeWithinDay t) = t.
Proof. unfold MakeDate, Day, TimeWithinDay, msPerDay. Z.div_mod_to_equations. lia. Qed.

Lemma WeekDay_add t k : WeekDay (t + k * msPerDay) = (WeekDay t + k) mod 7.
Proof. unfold WeekDay. rewrite Day_add. Z.div_mod_to_equations. lia. Qed.

Lemma WeekDay_range t : 0 ≤ WeekDay t ≤ 6.
Proof. unfold WeekDay. Z.div_mod_to_equations. lia. Qed.

(** Within a month the day number grows with the date, also beyond the
    month's end. *)
Lemma days_from_civil_date y m d d' :
  days_from_civil y m d' = days_from_civil y m d + (d' - d).
Proof. unfold days_from_civil. lia. Qed.

Lemma MakeDay_month y m d : 0 ≤ m ≤ 11 → MakeDay y m d = days_from_civil y m d.
Proof.
  intros Hm. unfold MakeDay. rewrite Z.div_small, Z.mod_small, Z.add_0_r by lia.
  rewrite (days_from_civil_date y m 1 d). lia.
Qed.

(** [MakeDay] of the date of a day, with another day of the month: the
    day that many days away. *)
Lemma MakeDay_of_day l k :
  MakeDay (YearFromTime l) (MonthFromTime l) (DateFromTime l + k) = Day l + k.
Proof.
  unfold YearFromTime, MonthFromTime, DateFromTime.
  rewrite MakeDay_month by apply civil_month.
  rewrite (days_from_civil_date _ _ (civil_from_days (Day l)).2), days_from_civil_from_days.
  lia.
Qed.

(** ** Printing and parsing a date *)

(** The characters of a string. *)
Definition chars := String.list_ascii_of_string.

(** Whether [f] holds of the [n] integers from [z]. *)
Fixpoint all_from (f : Z → bool) (n : nat) (z : Z) : bool :=
  match n with
  | O => true
  | S n' => if f z then all_from f n' (z + 1) else false
  end.

Lemma all_from_spec f n z k :
  all_from f n z = true → z ≤ k < z + Z.of_nat n → f k = true.
Proof.
  revert z. induction n as [|n IH]; intros z; [lia|]. cbn [all_from].
  destruct (f z) eqn:Hz; [|done]. intros Hrest Hk.
  destruct (decide (k = z)) as [->|]; [done|]. apply (IH (z + 1)); [done|lia].
Qed.

Lemma chars_app a b : chars (a +:+ b) = chars a ++ chars b.
Proof.
  unfold chars. induction a as [|c a IH]; [done|].
  change (String c a +:+ b) with (String c (a +:+ b)).
  cbn [String.list_ascii_of_string app]. by rewrite IH.
Qed.

Lemma digits_app n acc s z s' rest :
  digits n acc s = Some (z, s') → digits n acc (s ++ rest) = Some (z, s' ++ rest).
Proof.
  revert acc s. induction n as [|n IH]; intros acc s; cbn.
  { by intros [= <- <-]. }
  destruct s as [|c s]; [done|]. cbn. destruct (is_digit c); [apply IH|done].
Qed.

(** Whether [z] printed with [n] digits reads back as [z]. *)
Definition pads (n : nat) (z : Z) : bool :=
  bool_decide (digits n 0 (chars (pad n z)) = Some (z, [])).

Lemma pads_2 : all_from (pads 2) (Z.to_nat 100) 0 = true.
Proof. by vm_compute. Qed.
Lemma pads_3 : all_from (pads 3) (Z.to_nat 1000) 0 = true.
Proof. by vm_compute. Qed.
Lemma pads_4 : all_from (pads 4) (Z.to_nat 10000) 0 = true.
Proof. by vm_compute. Qed.

(** A number printed with two, three or four digits reads back. *)
Lemma digits_pad n z rest :
  (n = 2 ∨ n = 3 ∨ n = 4)%nat → 0 ≤ z < 10 ^ Z.of_nat n →
  digits n 0 (chars (pad n z) ++ rest) = Some (z, rest).
Proof.
  intros Hn Hz. apply (digits_app _ _ _ _ [] rest).
  assert (pads n z = true) as Hp; [|by apply bool_decide_eq_true in Hp].
  destruct Hn as [->|[->| ->]];
    [change (10 ^ Z.of_nat 2) with 100 in Hz|change (10 ^ Z.of_nat 3) with 1000 in Hz
    |change (10 ^ Z.of_nat 4) with 10000 in Hz];
    [apply (all_from_spec _ _ _ _ pads_2)|apply (all_from_spec _ _ _ _ pads_3)
    |apply (all_from_spec _ _ _ _ pads_4)]; lia.
Qed.

Lemma time_fields w :
  0 ≤ w < msPerDay →
  0 ≤ w / msPerHour ≤ 23 ∧ 0 ≤ w mod msPerHour / msPerMinute ≤ 59
  ∧ 0 ≤ w mod msPerMinute / 1000 ≤ 59 ∧ 0 ≤ w mod 1000 ≤ 999
  ∧ MakeTime (w / msPerHour) (w mod msPerHour / msPerMinute) (w mod msPerMinute / 1000)
      (w mod 1000) = w.
Proof. unfold MakeTime, msPerDay, msPerHour, msPerMinute. intros. Z.div_mod_to_equations. lia. Qed.

(** The time of day, printed and read. *)
Lemma parse_time_pad w rest :
  0 ≤ w < msPerDay →
  parse_time (chars (pad 2 (w / msPerHour)) ++ ":"%char ::
              chars (pad 2 (w mod msPerHour / msPerMinute)) ++ ":"%char ::
              chars (pad 2 (w mod msPerMinute / 1000)) ++ "."%char ::
              chars (pad 3 (w mod 1000)) ++ rest) = Some (Some w, rest).
Proof.
  intros Hw. destruct (time_fields w Hw) as (Hh & Hmi & Hs & Hms & Hmake).
  unfold parse_time.
  repeat first [rewrite digits_pad by (auto; cbn; lia) | rewrite decide_True by done
               | progress cbn [mbind option_bind expect]].
  unfold time_of_day. rewrite Hmake.
  replace (w / msPerHour <=? 23) with true by (symmetry; apply Z.leb_le; lia).
  replace (w mod msPerHour / msPerMinute <=? 59) with true by (symmetry; apply Z.leb_le; lia).
  replace (w mod msPerMinute / 1000 <=? 59) with true by (symmetry; apply Z.leb_le; lia).
  done.
Qed.

Lemma days_in_month_le y m : days_in_month y m ≤ 31.
Proof. unfold days_in_month. repeat case_match; lia. Qed.

Lemma legal_civil z :
  legal (civil_from_days z).1.1 ((civil_from_days z).1.2 + 1) (civil_from_days z).2 = true.
Proof.
  pose proof (civil_month z). pose proof (civil_day z). unfold legal.
  replace ((civil_from_days z).1.2 + 1 - 1) with (civil_from_days z).1.2 by lia.
  repeat (apply andb_true_intro; split); apply Z.leb_le; lia.
Qed.

(** [new Date(date.toISOString())] is the date, for the years of four
    digits. *)
Lemma parse_iso_iso_string tz t :
  0 ≤ YearFromTime t ≤ 9999 → parse_iso tz (iso_string t) = Some (Some t).
Proof.
  intros Hy. unfold iso_string, YearFromTime in *.
  pose proof (civil_month (Day t)) as Hm. pose proof (civil_day (Day t)) as Hd.
  pose proof (legal_civil (Day t)) as Hlegal.
  pose proof (days_from_civil_from_days (Day t)) as Hday.
  assert (days_in_month (civil_from_days (Day t)).1.1 (civil_from_days (Day t)).1.2 ≤ 31)
    as H31 by apply days_in_month_le.
  destruct (civil_from_days (Day t)) as [[y m] d]. cbn [fst snd] in *.
  replace ((0 <=? y) && (y <=? 9999)) with true
    by (symmetry; apply andb_true_intro; split; apply Z.leb_le; lia).
  assert (0 ≤ TimeWithinDay t < msPerDay) as Hw by (apply Z.mod_pos_bound; done).
  unfold parse_iso. fold chars. rewrite !chars_app.
  repeat first [rewrite digits_pad by (auto; cbn; lia) | rewrite decide_True by done
               | progress cbn [mbind option_bind expect chars String.list_ascii_of_string app]].
  rewrite parse_time_pad by done.
  cbn [mbind option_bind parse_offset]. rewrite Hlegal.
  replace (m + 1 - 1) with m by lia. rewrite Hday. cbn [fmap option_fmap option_map default].
  do 2 f_equal. rewrite MakeDate_Day. unfold id. lia.
Qed.

(** ** The range of time values *)

Lemma TimeClip_in_range t : Z.abs t ≤ 8640000000000000 → TimeClip t = Some t.
Proof. intros Ht. unfold TimeClip. by rewrite (proj2 (Z.leb_le _ _) Ht). Qed.

(** The years of four digits are well inside the range. *)
Lemma year_in_range t : 0 ≤ YearFromTime t ≤ 9999 → Z.abs t + 7 * msPerDay ≤ 8640000000000000.
Proof.
  unfold YearFromTime. intros Hy.
  pose proof (civil_month (Day t)) as Hm. pose proof (civil_day (Day t)) as Hd.
  pose proof (days_in_month_le (civil_from_days (Day t)).1.1 (civil_from_days (Day t)).1.2).
  pose proof (days_from_civil_from_days (Day t)) as Hday.
  destruct (civil_from_days (Day t)) as [[y m] d]. cbn [fst snd] in *.
  assert (-800000 ≤ Day t ≤ 3000000) as Hbound.
  { rewrite <- Hday. unfold days_from_civil. destruct (m <? 2); Z.div_mod_to_equations; lia. }
  revert Hbound. unfold Day, msPerDay. intros. Z.div_mod_to_equations. lia.
Qed.

Section date_properties.
Context `{Engine}.

(** [new Date(date.toISOString())] is the date. *)
Lemma Date_parse_iso_string t :
  0 ≤ YearFromTime t ≤ 9999 → Date_parse (iso_string t) = Some t.
Proof.
  intros Hy. unfold Date_parse. rewrite parse_iso_iso_string by done. cbn.
  apply TimeClip_in_range. pose proof (year_in_range t Hy). unfold msPerDay in *. lia.
Qed.

Lemma UTC_LocalTime t : UTC (LocalTime t) = t.
Proof. unfold UTC, LocalTime. lia. Qed.

(** [date.setDate(date.getDate() + k)] moves the date by [k] days of 24
    hours, where local time has a constant offset. *)
Lemma setDate_add t k : setDate t (getDate t + k) = TimeClip (t + k * msPerDay).
Proof.
  unfold setDate, getDate. rewrite MakeDay_of_day. f_equal.
  unfold UTC, LocalTime, MakeDate, Day, TimeWithinDay, msPerDay.
  Z.div_mod_to_equations. lia.
Qed.

Lemma getDay_add t k : getDay (t + k * msPerDay) = (getDay t + k) mod 7.
Proof.
  unfold getDay, LocalTime.
  replace (t + k * msPerDay + tz * msPerMinute) with (t + tz * msPerMinute + k * msPerDay)
    by lia.
  apply WeekDay_add.
Qed.

Lemma getDay_range t : 0 ≤ getDay t ≤ 6.
Proof. apply WeekDay_range. Qed.

End date_properties.
