(* ===== verification/Models.v ===== *)
(** * Models: src/backend/models.js and the storage primitives

    One record per Mongoose schema, with the schema's paths as fields (a
    path that may be [undefined] or [null] is an [option]).  The database
    is one list per collection, in insertion order.  The world is the
    database and the faults the storage will raise; [db_call] is the one
    entry to the storage, and every Mongoose call of the sources is a
    [db_call] of a collection operation of [Prelude].

    [toJSON_*] is [toJSONTransform] applied to each schema: what
    [res.json(doc)] sends.  Dates are shown as numbers. *)

From S2P Require Import Prelude Json Crypto.

(** An ObjectId, as the string it has in URLs and JSON. *)
Definition Id := string.

(** ** Schemas *)

(** [auditFields]: the soft-delete mark and the audit references. *)
Record AuditFields := mkAudit {
  deleted_at : option Z;
  created_by : option Id;
  updated_by : option Id;
}.

(** The defaults of [auditFields]: [deleted_at: null], the others unset. *)
Definition auditDefault : AuditFields :=
  {| deleted_at := None; created_by := None; updated_by := None |}.

Record User := mkUser {
  u_id : Id;
  u_email : string;
  u_password : string;
  u_role : string;
  u_audit : AuditFields;
  u_created_at : Z;
  u_updated_at : Z;
}.

Record RefreshToken := mkRefreshToken {
  rt_id : Id;
  rt_user : Id;
  rt_tokenHash : string;
  rt_expires : Z;
  rt_created : Z;
  rt_createdByIp : option string;
  rt_revoked : option Z;
  rt_revokedByIp : option string;
  rt_replacedByToken : option string;
  rt_audit : AuditFields;
}.

Record Board := mkBoard {
  b_id : Id;
  b_title : string;
  b_background : option string;
  b_archived : bool;
  b_user_id : Id;
  b_audit : AuditFields;
  b_created_at : Z;
  b_updated_at : Z;
}.

Record List_ := mkList {
  l_id : Id;
  l_title : string;
  l_position : Z;
  l_board_id : Id;
  l_user_id : Id;
  l_color : option string;
  l_task_color : option string;
  l_archived : bool;
  l_audit : AuditFields;
  l_created_at : Z;
  l_updated_at : Z;
}.

Record Task := mkTask {
  t_id : Id;
  t_title : string;
  t_completed : bool;
  t_description : option string;
  t_due_date : option string;
  t_recurrence : option string;
  t_is_starred : bool;
  t_position : Z;
  t_list_id : Id;
  t_user_id : Id;
  t_parent_id : option Id;
  t_completed_at : option Z;
  t_audit : AuditFields;
  t_created_at : Z;
  t_updated_at : Z;
}.

Record Attachment := mkAttachment {
  a_id : Id;
  a_task_id : Id;
  a_user_id : Id;
  a_file_name : string;
  a_file_url : string;
  a_file_type : option string;
  a_audit : AuditFields;
  a_created_at : Z;
  a_updated_at : Z;
}.

(** [mongoose.model(...)]: the six collections. *)
Record DB := mkDB {
  users : list User;
  refreshTokens : list RefreshToken;
  boards : list Board;
  lists : list List_;
  tasks : list Task;
  attachments : list Attachment;
}.

Definition emptyDB : DB := mkDB [] [] [] [] [] [].

#[export] Instance AuditFields_eq_dec : EqDecision AuditFields.
Proof. solve_decision. Defined.
#[export] Instance User_eq_dec : EqDecision User.
Proof. solve_decision. Defined.
#[export] Instance RefreshToken_eq_dec : EqDecision RefreshToken.
Proof. solve_decision. Defined.
#[export] Instance Board_eq_dec : EqDecision Board.
Proof. solve_decision. Defined.
#[export] Instance List_eq_dec : EqDecision List_.
Proof. solve_decision. Defined.
#[export] Instance Task_eq_dec : EqDecision Task.
Proof. solve_decision. Defined.
#[export] Instance Attachment_eq_dec : EqDecision Attachment.
Proof. solve_decision. Defined.

(** ** Field updates *)

Definition set_users (f : list User → list User) (d : DB) : DB :=
  mkDB (f (users d)) (refreshTokens d) (boards d) (lists d) (tasks d) (attachments d).
Definition set_refreshTokens (f : list RefreshToken → list RefreshToken) (d : DB) : DB :=
  mkDB (users d) (f (refreshTokens d)) (boards d) (lists d) (tasks d) (attachments d).
Definition set_boards (f : list Board → list Board) (d : DB) : DB :=
  mkDB (users d) (refreshTokens d) (f (boards d)) (lists d) (tasks d) (attachments d).
Definition set_lists (f : list List_ → list List_) (d : DB) : DB :=
  mkDB (users d) (refreshTokens d) (boards d) (f (lists d)) (tasks d) (attachments d).
Definition set_tasks (f : list Task → list Task) (d : DB) : DB :=
  mkDB (users d) (refreshTokens d) (boards d) (lists d) (f (tasks d)) (attachments d).
Definition set_attachments (f : list Attachment → list Attachment) (d : DB) : DB :=
  mkDB (users d) (refreshTokens d) (boards d) (lists d) (tasks d) (f (attachments d)).

(** ** The owned models

    What the middleware and the routes use of a model that has an owner:
    its name, its collection, the id, the owner and the soft-delete mark of
    a document, and the update [{ deleted_at: new Date() }], which also
    stamps [updated_at] as the [timestamps] option does. *)

(** A document of one of the owned models. *)
Inductive Doc :=
| DocBoard (b : Board)
| DocList (l : List_)
| DocTask (t : Task)
| DocAttachment (a : Attachment).

#[export] Instance Doc_eq_dec : EqDecision Doc.
Proof. solve_decision. Defined.

(** The four owned models, and the documents of one of them. *)
Inductive Kind := KBoard | KList | KTask | KAttachment.

#[export] Instance Kind_eq_dec : EqDecision Kind.
Proof. solve_decision. Defined.

Definition docs (k : Kind) (d : DB) : list Doc :=
  match k with
  | KBoard => DocBoard <$> boards d
  | KList => DocList <$> lists d
  | KTask => DocTask <$> tasks d
  | KAttachment => DocAttachment <$> attachments d
  end.

(** [_id] and [user_id] of a document. *)
Definition id_of (x : Doc) : Id :=
  match x with
  | DocBoard b => b_id b
  | DocList l => l_id l
  | DocTask t => t_id t
  | DocAttachment a => a_id a
  end.

Definition user_of (x : Doc) : Id :=
  match x with
  | DocBoard b => b_user_id b
  | DocList l => l_user_id l
  | DocTask t => t_user_id t
  | DocAttachment a => a_user_id a
  end.

(** The document a document hangs below: [board_id] of a list, [list_id]
    of a task, [task_id] of an attachment. *)
Definition parent_of (x : Doc) : option (Kind * Id) :=
  match x with
  | DocBoard _ => None
  | DocList l => Some (KBoard, l_board_id l)
  | DocTask t => Some (KList, t_list_id t)
  | DocAttachment a => Some (KTask, a_task_id a)
  end.

Definition delete_audit (now : Z) (a : AuditFields) : AuditFields :=
  mkAudit (Some now) (created_by a) (updated_by a).

Class Model (A : Type) := {
  modelName : string;
  kind : Kind;
  collection : DB → list A;
  set_collection : (list A → list A) → DB → DB;
  doc_id : A → Id;
  doc_user_id : A → Id;
  doc_deleted_at : A → option Z;
  mark_deleted : Z → A → A;
  to_doc : A → Doc;
}.

#[export] Instance Board_model : Model Board :=
  {| modelName := "Board"; kind := KBoard; collection := boards; set_collection := set_boards;
     doc_id := b_id; doc_user_id := b_user_id;
     doc_deleted_at := λ b, deleted_at (b_audit b);
     mark_deleted := λ now b,
       mkBoard (b_id b) (b_title b) (b_background b) (b_archived b) (b_user_id b)
         (delete_audit now (b_audit b)) (b_created_at b) now;
     to_doc := DocBoard |}.

#[export] Instance List_model : Model List_ :=
  {| modelName := "List"; kind := KList; collection := lists; set_collection := set_lists;
     doc_id := l_id; doc_user_id := l_user_id;
     doc_deleted_at := λ l, deleted_at (l_audit l);
     mark_deleted := λ now l,
       mkList (l_id l) (l_title l) (l_position l) (l_board_id l) (l_user_id l)
         (l_color l) (l_task_color l) (l_archived l) (delete_audit now (l_audit l))
         (l_created_at l) now;
     to_doc := DocList |}.

#[export] Instance Task_model : Model Task :=
  {| modelName := "Task"; kind := KTask; collection := tasks; set_collection := set_tasks;
     doc_id := t_id; doc_user_id := t_user_id;
     doc_deleted_at := λ t, deleted_at (t_audit t);
     mark_deleted := λ now t,
       mkTask (t_id t) (t_title t) (t_completed t) (t_description t) (t_due_date t)
         (t_recurrence t) (t_is_starred t) (t_position t) (t_list_id t) (t_user_id t)
         (t_parent_id t) (t_completed_at t) (delete_audit now (t_audit t))
         (t_created_at t) now;
     to_doc := DocTask |}.

#[export] Instance Attachment_model : Model Attachment :=
  {| modelName := "Attachment"; kind := KAttachment; collection := attachments;
     set_collection := set_attachments;
     doc_id := a_id; doc_user_id := a_user_id;
     doc_deleted_at := λ a, deleted_at (a_audit a);
     mark_deleted := λ now a,
       mkAttachment (a_id a) (a_task_id a) (a_user_id a) (a_file_name a) (a_file_url a)
         (a_file_type a) (delete_audit now (a_audit a)) (a_created_at a) now;
     to_doc := DocAttachment |}.

(** The filter [{ user_id, deleted_at: null }] of the list routes. *)
Definition visible_to `{Model A} (uid : Id) (x : A) : Prop :=
  doc_user_id x = uid ∧ doc_deleted_at x = None.

#[export] Instance visible_to_dec `{Model A} uid (x : A) : Decision (visible_to uid x).
Proof. unfold visible_to. apply _. Defined.

(** The filter [{ _id: resourceId, user_id, deleted_at: null }]. *)
Definition owned_by `{Model A} (rid uid : Id) (x : A) : Prop :=
  doc_id x = rid ∧ doc_user_id x = uid ∧ doc_deleted_at x = None.

#[export] Instance owned_by_dec `{Model A} rid uid (x : A) : Decision (owned_by rid uid x).
Proof. unfold owned_by. apply _. Defined.

(** What the instances have in common. *)
Class ModelLaws (A : Type) `{Model A} : Prop := {
  collection_set f d : collection (set_collection f d) = f (collection d);
  doc_id_mark_deleted now x : doc_id (mark_deleted now x) = doc_id x;
  doc_user_id_mark_deleted now x : doc_user_id (mark_deleted now x) = doc_user_id x;
  doc_deleted_at_mark_deleted now x : doc_deleted_at (mark_deleted now x) = Some now;
  parent_of_mark_deleted now x : parent_of (to_doc (mark_deleted now x)) = parent_of (to_doc x);
  docs_collection d : docs kind d = to_doc <$> collection d;
  docs_set_collection k f d : k ≠ kind → docs k (set_collection f d) = docs k d;
  users_set_collection f d : users (set_collection f d) = users d;
  refreshTokens_set_collection f d : refreshTokens (set_collection f d) = refreshTokens d;
  id_of_to_doc x : id_of (to_doc x) = doc_id x;
  user_of_to_doc x : user_of (to_doc x) = doc_user_id x;
}.

#[export] Instance Board_laws : ModelLaws Board.
Proof. split; try done; by intros []. Qed.
#[export] Instance List_laws : ModelLaws List_.
Proof. split; try done; by intros []. Qed.
#[export] Instance Task_laws : ModelLaws Task.
Proof. split; try done; by intros []. Qed.
#[export] Instance Attachment_laws : ModelLaws Attachment.
Proof. split; try done; by intros []. Qed.

(** [{ revoked, revokedByIp, replacedByToken }] as an update of a ledger
    row; [None] for [replacedByToken] leaves the path as it is. *)
Definition revoke (now : Z) (ip : string) (replaced : option string)
    (t : RefreshToken) : RefreshToken :=
  mkRefreshToken (rt_id t) (rt_user t) (rt_tokenHash t) (rt_expires t) (rt_created t)
    (rt_createdByIp t) (Some now) (Some ip)
    (match replaced with Some h => Some h | None => rt_replacedByToken t end)
    (rt_audit t).

(** ** [toJSONTransform]

    [ret.id = ret._id] and [_id], [__v], [password] and [tokenHash] are
    deleted.  An unset path is left out; [deleted_at] defaults to [null]. *)

Definition jopt (k : string) (v : option Json) : list (string * Json) :=
  match v with
  | Some j => [(k, j)]
  | None => []
  end.

Definition toJSON_audit (a : AuditFields) : list (string * Json) :=
  [("deleted_at", from_option JNum JNull (deleted_at a))]
  ++ jopt "created_by" (JStr <$> created_by a)
  ++ jopt "updated_by" (JStr <$> updated_by a).

Definition toJSON_user (u : User) : Json :=
  JObj ([("email", JStr (u_email u)); ("role", JStr (u_role u))]
        ++ toJSON_audit (u_audit u)
        ++ [("created_at", JNum (u_created_at u)); ("updated_at", JNum (u_updated_at u));
            ("id", JStr (u_id u))]).

Definition toJSON_refreshToken (t : RefreshToken) : Json :=
  JObj ([("user", JStr (rt_user t)); ("expires", JNum (rt_expires t));
         ("created", JNum (rt_created t))]
        ++ jopt "createdByIp" (JStr <$> rt_createdByIp t)
        ++ jopt "revoked" (JNum <$> rt_revoked t)
        ++ jopt "revokedByIp" (JStr <$> rt_revokedByIp t)
        ++ jopt "replacedByToken" (JStr <$> rt_replacedByToken t)
        ++ toJSON_audit (rt_audit t)
        ++ [("id", JStr (rt_id t))]).

Definition toJSON_board (b : Board) : Json :=
  JObj ([("title", JStr (b_title b))]
        ++ jopt "background" (JStr <$> b_background b)
        ++ [("archived", JBool (b_archived b)); ("user_id", JStr (b_user_id b))]
        ++ toJSON_audit (b_audit b)
        ++ [("created_at", JNum (b_created_at b)); ("updated_at", JNum (b_updated_at b));
            ("id", JStr (b_id b))]).

Definition toJSON_list (l : List_) : Json :=
  JObj ([("title", JStr (l_title l)); ("position", JNum (l_position l));
         ("board_id", JStr (l_board_id l)); ("user_id", JStr (l_user_id l))]
        ++ jopt "color" (JStr <$> l_color l)
        ++ jopt "task_color" (JStr <$> l_task_color l)
        ++ [("archived", JBool (l_archived l))]
        ++ toJSON_audit (l_audit l)
        ++ [("created_at", JNum (l_created_at l)); ("updated_at", JNum (l_updated_at l));
            ("id", JStr (l_id l))]).

Definition toJSON_task (t : Task) : Json :=
  JObj ([("title", JStr (t_title t)); ("completed", JBool (t_completed t))]
        ++ jopt "description" (JStr <$> t_description t)
        ++ jopt "due_date" (JStr <$> t_due_date t)
        ++ jopt "recurrence" (JStr <$> t_recurrence t)
        ++ [("is_starred", JBool (t_is_starred t)); ("position", JNum (t_position t));
            ("list_id", JStr (t_list_id t)); ("user_id", JStr (t_user_id t))]
        ++ jopt "parent_id" (JStr <$> t_parent_id t)
        ++ [("completed_at", from_option JNum JNull (t_completed_at t))]
        ++ toJSON_audit (t_audit t)
        ++ [("created_at", JNum (t_created_at t)); ("updated_at", JNum (t_updated_at t));
            ("id", JStr (t_id t))]).

Definition toJSON_attachment (a : Attachment) : Json :=
  JObj ([("task_id", JStr (a_task_id a)); ("user_id", JStr (a_user_id a));
         ("file_name", JStr (a_file_name a)); ("file_url", JStr (a_file_url a))]
        ++ jopt "file_type" (JStr <$> a_file_type a)
        ++ toJSON_audit (a_audit a)
        ++ [("created_at", JNum (a_created_at a)); ("updated_at", JNum (a_updated_at a));
            ("id", JStr (a_id a))]).

(** ** The world and the storage primitives *)

(** An exception: its [name] and its [message]. *)
Inductive Err := MkErr (name message : string).

#[export] Instance Err_eq_dec : EqDecision Err.
Proof. solve_decision. Defined.

Definition err_message (e : Err) : string := let 'MkErr _ m := e in m.

(** What a failing storage call throws. *)
Definition db_error : Err := MkErr "MongoNetworkError" "storage call failed".

Record World := mkWorld {
  w_db : DB;
  (** [true] at the head: the next storage call throws. Empty: none will. *)
  w_faults : list bool;
}.

(** One storage call: it throws when the next fault says so, and runs [f]
    on the database otherwise. *)
Definition db_call {A} (f : DB → A * DB) : M World Err A := λ w,
  match w_faults w with
  | true :: fs => (Throw db_error, mkWorld (w_db w) fs)
  | false :: fs => let '(a, d) := f (w_db w) in (Ok a, mkWorld d fs)
  | [] => let '(a, d) := f (w_db w) in (Ok a, mkWorld d [])
  end.

Definition db_read {A} (f : DB → A) : M World Err A := db_call (λ d, (f d, d)).

Definition db_write (f : DB → DB) : M World Err unit := db_call (λ d, (tt, f d)).

(** src/backend/utils/transaction.js.  [startSession] and the commit are
    storage calls; when [fn] or the commit throws, the writes of [fn] are
    discarded and the exception is thrown again. *)
Definition withTransaction {A} (fn : M World Err A) : M World Err A :=
  _ <- db_read (λ _, tt) ;;
  λ w, match (r <- fn ;; _ <- db_read (λ _, tt) ;; ret r) w with
       | (Ok a, w') => (Ok a, w')
       | (Throw e, w') => (Throw e, mkWorld (w_db w) (w_faults w'))
       end.

(** ** Lemmas *)

Lemma db_call_no_faults {A} (f : DB → A * DB) d :
  db_call f (mkWorld d []) = (Ok (f d).1, mkWorld (f d).2 []).
Proof. unfold db_call. cbn. by destruct (f d). Qed.

Lemma db_read_no_faults {A} (f : DB → A) d :
  db_read f (mkWorld d []) = (Ok (f d), mkWorld d []).
Proof. apply db_call_no_faults. Qed.

Lemma db_write_no_faults (f : DB → DB) d :
  db_write f (mkWorld d []) = (Ok tt, mkWorld (f d) []).
Proof. apply db_call_no_faults. Qed.

Lemma db_call_fault {A} (f : DB → A * DB) d fs :
  db_call f (mkWorld d (true :: fs)) = (Throw db_error, mkWorld d fs).
Proof. done. Qed.

(** A storage call leaves the database alone when it throws. *)
Lemma db_call_throw_db {A} (f : DB → A * DB) w e w' :
  db_call f w = (Throw e, w') → w_db w' = w_db w.
Proof.
  unfold db_call. destruct (w_faults w) as [|[] fs]; destruct (f (w_db w));
    intros ?; by simplify_eq.
Qed.

(** A storage call never adds faults. *)
Lemma db_call_faults {A} (f : DB → A * DB) w r w' :
  db_call f w = (r, w') → w_faults w' = tail (w_faults w).
Proof.
  unfold db_call. destruct (w_faults w) as [|[] fs]; destruct (f (w_db w));
    intros ?; by simplify_eq.
Qed.

Lemma db_call_ok_inv {A} (f : DB → A * DB) w a w' :
  db_call f w = (Ok a, w') → a = (f (w_db w)).1 ∧ w_db w' = (f (w_db w)).2.
Proof.
  unfold db_call. destruct (w_faults w) as [|[] fs]; destruct (f (w_db w));
    intros ?; by simplify_eq.
Qed.

Lemma db_write_ok_inv (f : DB → DB) w u w' :
  db_write f w = (Ok u, w') → w_db w' = f (w_db w).
Proof. intros Hw. by destruct (db_call_ok_inv _ _ _ _ Hw). Qed.

Lemma db_read_db {A} (f : DB → A) w r w' :
  db_read f w = (r, w') → w_db w' = w_db w.
Proof.
  unfold db_read, db_call. destruct (w_faults w) as [|[] fs]; intros ?; by simplify_eq.
Qed.

(** A transaction that throws leaves the database as it found it. *)
Lemma withTransaction_throw {A} (fn : M World Err A) w e w' :
  withTransaction fn w = (Throw e, w') → w_db w' = w_db w.
Proof.
  unfold withTransaction. intros [Hs|(u & w1 & Hs & Hfn)]%bind_inv_throw.
  - by eapply db_call_throw_db.
  - apply db_read_db in Hs as <-.
    destruct ((_ <- fn ;; _) w1) as [[a|e'] w2]; by simplify_eq.
Qed.

(** A transaction that returns has run [fn] to its end on the database it
    found. *)
Lemma withTransaction_ok {A} (fn : M World Err A) w a w' :
  withTransaction fn w = (Ok a, w') →
  ∃ w1 w2, w_db w1 = w_db w ∧ fn w1 = (Ok a, w2) ∧ w_db w' = w_db w2.
Proof.
  unfold withTransaction. intros (u & w1 & Hs & Hfn)%bind_inv_ok.
  apply db_read_db in Hs. exists w1.
  destruct ((_ <- fn ;; _) w1) as [[a'|e'] w2] eqn:Hrun; [|done].
  simplify_eq. apply bind_inv_ok in Hrun as (a0 & w3 & Hfn & Hc).
  apply bind_inv_ok in Hc as (? & w4 & Hc & Hret). unfold ret in Hret. simplify_eq.
  apply db_read_db in Hc. by exists w3.
Qed.

#[export] Hint Rewrite @db_call_no_faults @db_read_no_faults @db_write_no_faults : tasks.
