(* ===== verification/Express.v ===== *)
(** * Express: requests, responses and the middleware chain

    The part of Express the sources use.  A request carries what the
    handlers read ([headers.authorization], [cookies.refreshToken], [body],
    [params], [query], [ip]) and what the middleware attach ([user],
    [resources]).  A response is a status, a JSON body and the cookie
    operations made before it was sent.  A middleware or handler ends in a
    [Reply]: [next()], a response, or [next(err)].  [Env] holds the ambient
    inputs of one request. *)

From S2P Require Import Prelude Json Crypto Models.

(** The HTTP methods the routes and the clients use. *)
Inductive Method := GET | POST | PUT | PATCH | DELETE.

#[export] Instance Method_eq_dec : EqDecision Method.
Proof. solve_decision. Defined.

(** The options of [res.cookie]. *)
Record CookieOptions := mkCookieOptions {
  httpOnly : bool;
  secure : bool;
  expires : Z;
  sameSite : string;
  path : string;
}.

Inductive CookieOp :=
| SetCookie (name value : string) (opts : CookieOptions)
| ClearCookie (name : string) (path : string).

Record Response := mkResponse {
  res_status : nat;
  res_body : Json;
  res_cookies : list CookieOp;
}.

(** [req.user], as src/backend/middleware/auth.js builds it. *)
Record Identity := mkIdentity {
  id_id : string;
  id_email : string;
  id_role : string;
}.

Record Req (B : Type) := mkReq {
  req_authorization : option string;
  req_refreshToken : option string;
  req_body : B;
  req_params : list (string * string);
  req_query : list (string * string);
  req_ip : string;
  req_user : option Identity;
  req_resources : list (string * Doc);
}.

Arguments mkReq {B}.
Arguments req_authorization {B}.
Arguments req_refreshToken {B}.
Arguments req_body {B}.
Arguments req_params {B}.
Arguments req_query {B}.
Arguments req_ip {B}.
Arguments req_user {B}.
Arguments req_resources {B}.

#[export] Instance CookieOptions_eq_dec : EqDecision CookieOptions.
Proof. solve_decision. Defined.
#[export] Instance CookieOp_eq_dec : EqDecision CookieOp.
Proof. solve_decision. Defined.
#[export] Instance Identity_eq_dec : EqDecision Identity.
Proof. solve_decision. Defined.

(** The ambient inputs of one request. *)
Record Env := mkEnv {
  (** [Date.now()] *)
  env_now : Z;
  (** what [crypto.randomBytes(40)] returns *)
  env_random : Buffer;
  (** the salt [bcrypt.hash] draws *)
  env_salt : Buffer;
  (** the ObjectId of the [n]-th document made with [new Model(...)] *)
  env_oid : nat → Id;
}.

Inductive Reply (A : Type) :=
| Next (a : A)
| Sent (r : Response)
| NextErr (e : Err).

Arguments Next {A}.
Arguments Sent {A}.
Arguments NextErr {A}.

(** A middleware or handler. *)
Definition Handler (A B : Type) : Type := A → M World Err (Reply B).

(** [res.status(s).json(body)]. *)
Definition send {A} (status : nat) (body : Json) : M World Err (Reply A) :=
  ret (Sent (mkResponse status body [])).

(** [{ error: msg }]. *)
Definition error_body (msg : string) : Json := JObj [("error", JStr msg)].

(** [try { ... } catch (err) { next(err) }]. *)
Definition catch_next {A} (m : M World Err (Reply A)) : M World Err (Reply A) :=
  try_catch m (λ e, ret (NextErr e)).

(** [app.METHOD(path, h1, h2)]: [h2] runs when [h1] calls [next()]. *)
Definition chain {A B C} (h1 : Handler A B) (h2 : Handler B C) : Handler A C := λ a,
  r <- h1 a ;;
  match r with
  | Next b => h2 b
  | Sent x => ret (Sent x)
  | NextErr e => ret (NextErr e)
  end.

Infix ">=>" := chain (at level 60, right associativity) : tasks_scope.

(** [req[source][key]] for the sources [params], [body] and [query]; the
    body is looked into as JSON. *)
Definition lookup_str (k : string) (kvs : list (string * string)) : option string :=
  snd <$> find_first (λ kv, kv.1 = k) kvs.

(** [Promise.all(ms)]: every operation is started, so each runs whether or
    not another fails; the first failure is what the promise rejects with. *)
Fixpoint promise_all {A} (ms : list (M World Err A)) : M World Err (list A) := λ w,
  match ms with
  | [] => (Ok [], w)
  | m :: ms' =>
      match m w with
      | (Ok a, w1) =>
          match promise_all ms' w1 with
          | (Ok l, w2) => (Ok (a :: l), w2)
          | (Throw e, w2) => (Throw e, w2)
          end
      | (Throw e, w1) => (Throw e, snd (promise_all ms' w1))
      end
  end.

(** Runs a handler on a world without faults: unfolds the monad and the
    replies, and lets every storage call succeed. *)
Ltac run_steps :=
  cbv beta delta [bind ret throw catch_next try_catch send];
  repeat (rewrite ?db_read_no_faults, ?db_write_no_faults; cbn beta iota zeta).

(** ** Lemmas *)

Lemma catch_next_total {A} (m : M World Err (Reply A)) w :
  ∃ r w', catch_next m w = (Ok r, w').
Proof. apply try_catch_total. Qed.

Lemma chain_sent {A B C} (h1 : Handler A B) (h2 : Handler B C) a w x w' :
  h1 a w = (Ok (Sent x), w') → (h1 >=> h2) a w = (Ok (Sent x), w').
Proof. intros H1. unfold chain. by rewrite (bind_ok _ _ _ _ _ H1). Qed.

Lemma chain_next {A B C} (h1 : Handler A B) (h2 : Handler B C) a w b w' :
  h1 a w = (Ok (Next b), w') → (h1 >=> h2) a w = h2 b w'.
Proof. intros H1. unfold chain. by rewrite (bind_ok _ _ _ _ _ H1). Qed.

Lemma chain_next_err {A B C} (h1 : Handler A B) (h2 : Handler B C) a w e w' :
  h1 a w = (Ok (NextErr e), w') → (h1 >=> h2) a w = (Ok (NextErr e), w').
Proof. intros H1. unfold chain. by rewrite (bind_ok _ _ _ _ _ H1). Qed.

Lemma chain_assoc {A B C D} (h1 : Handler A B) (h2 : Handler B C) (h3 : Handler C D) a w :
  ((h1 >=> h2) >=> h3) a w = (h1 >=> (h2 >=> h3)) a w.
Proof.
  unfold chain. rewrite bind_assoc. unfold bind.
  destruct (h1 a w) as [[[b|x|e]|e] w']; done.
Qed.
