(* ===== verification/Hoare.v ===== *)
(** * Hoare: a program logic for handlers

    [triple P m Q E]: run from a world whose database satisfies [P], the
    computation [m] ends with a value [a] and a database that satisfy
    [Q a], or throws and leaves a database that satisfies [E].  The faults
    of the world are arbitrary, so a triple speaks of every way storage
    can fail.  One rule per construct of the handlers: [ret], [throw],
    bind, a storage call, [try]/[catch], the middleware chain and
    [Promise.all]. *)

From S2P Require Import Prelude Json Crypto Models Express.

Definition triple {A} (P : DB → Prop) (m : M World Err A)
    (Q : A → DB → Prop) (E : DB → Prop) : Prop :=
  ∀ w r w', P (w_db w) → m w = (r, w') →
    match r with
    | Ok a => Q a (w_db w')
    | Throw _ => E (w_db w')
    end.

(** [m] keeps [I] however it ends. *)
Definition preserves {A} (I : DB → Prop) (m : M World Err A) : Prop :=
  triple I m (λ _, I) I.

Section rules.
Context {A B : Type}.
Implicit Types (P E : DB → Prop) (Q : A → DB → Prop) (m : M World Err A).

Lemma triple_ret P Q E (a : A) : (∀ d, P d → Q a d) → triple P (ret a) Q E.
Proof. intros HQ w r w' HP [= <- <-]. by apply HQ. Qed.

Lemma triple_throw P Q E (e : Err) : (∀ d, P d → E d) → triple P (throw e) Q E.
Proof. intros HE w r w' HP [= <- <-]. by apply HE. Qed.

Lemma triple_bind P (R : A → DB → Prop) (Q' : B → DB → Prop) E m
    (k : A → M World Err B) :
  triple P m R E → (∀ a, triple (R a) (k a) Q' E) → triple P (x <- m ;; k x) Q' E.
Proof.
  intros Hm Hk w r w' HP. unfold bind. destruct (m w) as [[a|e] w1] eqn:Hmw.
  - intros Hka. eapply Hk; [|done]. by apply (Hm _ _ _ HP Hmw).
  - intros [= <- <-]. by apply (Hm _ _ _ HP Hmw).
Qed.

(** The left unit of bind, and a bind on a thrown exception. *)
Lemma triple_bind_ret P (Q' : B → DB → Prop) E (a : A) (k : A → M World Err B) :
  triple P (k a) Q' E → triple P (x <- ret a ;; k x) Q' E.
Proof. done. Qed.

Lemma triple_bind_throw P (Q' : B → DB → Prop) E (e : Err) (k : A → M World Err B) :
  (∀ d, P d → E d) → triple P (x <- throw e ;; k x) Q' E.
Proof. intros HE w r w' HP [= <- <-]. by apply HE. Qed.

Lemma triple_conseq P P' Q Q' E E' m :
  triple P' m Q' E' → (∀ d, P d → P' d) → (∀ a d, Q' a d → Q a d) →
  (∀ d, E' d → E d) → triple P m Q E.
Proof.
  intros Hm HP HQ HE w r w' Hw Hrun. specialize (Hm _ _ _ (HP _ Hw) Hrun).
  destruct r; auto.
Qed.

(** A storage call runs [f], or throws and leaves the database alone. *)
Lemma triple_db_call P Q E (f : DB → A * DB) :
  (∀ d, P d → Q (f d).1 (f d).2) → (∀ d, P d → E d) → triple P (db_call f) Q E.
Proof.
  intros HQ HE w r w' HP Hrun. destruct r as [a|e].
  - apply db_call_ok_inv in Hrun as [-> ->]. by apply HQ.
  - apply db_call_throw_db in Hrun as ->. by apply HE.
Qed.

Lemma triple_db_read P Q E (f : DB → A) :
  (∀ d, P d → Q (f d) d) → (∀ d, P d → E d) → triple P (db_read f) Q E.
Proof. intros. by apply triple_db_call. Qed.

(** A read inside a bind: the continuation starts from the same database
    and may use what the read returned of it. *)
Lemma triple_bind_read P (Q' : B → DB → Prop) E (f : DB → A) (k : A → M World Err B) :
  (∀ a, triple (λ d, P d ∧ a = f d) (k a) Q' E) → (∀ d, P d → E d) →
  triple P (x <- db_read f ;; k x) Q' E.
Proof.
  intros Hk HE. eapply triple_bind; [|exact Hk]. by apply triple_db_read.
Qed.

(** What a computation proves of its result holds with whatever it was
    given to keep. *)
Lemma triple_frame_pure (φ : Prop) P Q E m :
  (φ → triple P m Q E) → triple (λ d, φ ∧ P d) m Q E.
Proof. intros Hm w r w' [Hφ HP]. by apply Hm. Qed.

End rules.

Lemma triple_db_write P (Q : unit → DB → Prop) E (f : DB → DB) :
  (∀ d, P d → Q tt (f d)) → (∀ d, P d → E d) → triple P (db_write f) Q E.
Proof. intros. by apply triple_db_call. Qed.

(** [try { m } catch (err) { next(err) }] never throws: what [m] leaves
    behind when it throws is what [next(err)] starts from. *)
Lemma triple_catch_next {A} P (Q : Reply A → DB → Prop) E E' (m : M World Err (Reply A)) :
  triple P m Q E' → (∀ e d, E' d → Q (NextErr e) d) → triple P (catch_next m) Q E.
Proof.
  intros Hm HE w r w' HP. unfold catch_next, try_catch.
  destruct (m w) as [[a|e] w1] eqn:Hmw; intros [= <- <-].
  - apply (Hm _ _ _ HP Hmw).
  - apply HE, (Hm _ _ _ HP Hmw).
Qed.

(** The chain [h1 >=> h2]: [h2] starts from what [h1] establishes when it
    calls [next()]. *)
Lemma triple_chain {A B C} P (R : B → DB → Prop) (Q : Reply C → DB → Prop) E
    (h1 : Handler A B) (h2 : Handler B C) a :
  triple P (h1 a) (λ r d, match r with
                          | Next b => R b d
                          | Sent x => Q (Sent x) d
                          | NextErr e => Q (NextErr e) d
                          end) E →
  (∀ b, triple (R b) (h2 b) Q E) →
  triple P ((h1 >=> h2) a) Q E.
Proof.
  intros H1 H2. unfold chain. eapply triple_bind; [exact H1|].
  intros [b|x|e]; [apply H2|by apply triple_ret..].
Qed.

(** The precondition may be weakened, and facts that do not speak of the
    database taken out of it. *)
Lemma triple_pre {A} (P P' : DB → Prop) (Q : A → DB → Prop) E (m : M World Err A) :
  triple P' m Q E → (∀ d, P d → P' d) → triple P m Q E.
Proof. intros Hm HP. by eapply triple_conseq. Qed.

Lemma triple_pure_r {A} (φ : Prop) (P : DB → Prop) (Q : A → DB → Prop) E
    (m : M World Err A) :
  (φ → triple P m Q E) → triple (λ d, P d ∧ φ) m Q E.
Proof. intros Hm w r w' [HP Hφ]. by apply Hm. Qed.

(** A computation that does not write keeps every property. *)
Lemma triple_read_only {A} (m : M World Err A) P :
  (∀ w r w', m w = (r, w') → w_db w' = w_db w) → preserves P m.
Proof. intros Hm w r w' HP Hrun. rewrite (Hm _ _ _ Hrun). by destruct r. Qed.

(** [Promise.all]: an invariant that every operation keeps is kept. *)
Lemma promise_all_preserves {A} (I : DB → Prop) (ms : list (M World Err A)) :
  (∀ m, m ∈ ms → preserves I m) → preserves I (promise_all ms).
Proof.
  induction ms as [|m ms IH]; intros Hms w r w' HI; simpl.
  { intros [= <- <-]. done. }
  assert (preserves I m) as Hm by (apply Hms; left).
  assert (preserves I (promise_all ms)) as Hrest by (apply IH; intros; apply Hms; by right).
  destruct (m w) as [[a|e] w1] eqn:Hmw; specialize (Hm _ _ _ HI Hmw); simpl in Hm;
    destruct (promise_all ms w1) as [[l|e'] w2] eqn:Hpw;
    specialize (Hrest _ _ _ Hm Hpw); intros [= <- <-]; done.
Qed.

(** ** Which storage calls failed

    The faults a computation consumed are those its world had and the
    world it leaves has no more.  [clean w w']: every storage call made
    between [w] and [w'] succeeded.  [faulty w w']: the last one failed.
    [reported T w e w']: [e] is the error of a storage call that failed,
    or an exception of [T] thrown while storage worked. *)

Definition clean (w w' : World) : Prop :=
  ∃ l, Forall (λ b, b = false) l ∧ w_faults w = l ++ w_faults w'.

Definition faulty (w w' : World) : Prop :=
  ∃ l, Forall (λ b, b = false) l ∧ w_faults w = l ++ true :: w_faults w'.

Definition reported (T : Err → Prop) (w : World) (e : Err) (w' : World) : Prop :=
  (e = db_error ∧ faulty w w') ∨ (T e ∧ clean w w').

(** [m] accounts for its failures: it returns values of [Q] when storage
    worked, and throws what [reported] allows. *)
Definition accounted {A} (T : Err → Prop) (m : M World Err A) (Q : A → Prop) : Prop :=
  ∀ w0, hoare (clean w0) m (λ a w, Q a ∧ clean w0 w) (reported T w0).

Section accounting.
Context (T : Err → Prop).

Lemma clean_refl w : clean w w.
Proof. by exists []. Qed.

Lemma clean_step w0 w w' : clean w0 w → w_faults w = false :: w_faults w' → clean w0 w'.
Proof.
  intros (l & Hl & Hw) Hstep. exists (l ++ [false]). split.
  - apply Forall_app. by split; [|apply Forall_singleton].
  - by rewrite Hw, Hstep, <- app_assoc.
Qed.

Lemma clean_same w0 w w' : clean w0 w → w_faults w' = w_faults w → clean w0 w'.
Proof. intros (l & Hl & Hw) Hsame. exists l. by rewrite Hsame. Qed.

Lemma faulty_step w0 w w' : clean w0 w → w_faults w = true :: w_faults w' → faulty w0 w'.
Proof. intros (l & Hl & Hw) Hstep. exists l. by rewrite Hw, Hstep. Qed.

Lemma reported_same w0 e w w' :
  reported T w0 e w → w_faults w' = w_faults w → reported T w0 e w'.
Proof.
  intros [[-> (l & Hl & Hw)]|[He Hc]] Hsame.
  - left. split; [done|]. exists l. by rewrite Hsame.
  - right. split; [done|]. by eapply clean_same.
Qed.

Lemma accounted_ret {A} (a : A) (Q : A → Prop) : Q a → accounted T (ret a) Q.
Proof. intros Ha w0. by apply hoare_ret. Qed.

Lemma accounted_throw {A} (e : Err) (Q : A → Prop) : T e → accounted T (throw e) Q.
Proof. intros He w0. apply hoare_throw. intros w Hw. by right. Qed.

Lemma accounted_db_call {A} (f : DB → A * DB) : accounted T (db_call f) (λ _, True).
Proof.
  intros w0 w r w' Hw. unfold db_call. destruct (f (w_db w)) as [a d].
  destruct (w_faults w) as [|[] fs] eqn:Hfs; intros [= <- <-].
  - split; [done|]. by eapply clean_same.
  - left. split; [done|]. by eapply faulty_step.
  - split; [done|]. by eapply clean_step.
Qed.

Lemma accounted_weaken {A} (m : M World Err A) (Q Q' : A → Prop) :
  accounted T m Q → (∀ a, Q a → Q' a) → accounted T m Q'.
Proof.
  intros Hm HQ w0. eapply hoare_conseq; [apply Hm|done| |done]. intros a w [? ?]. auto.
Qed.

Lemma accounted_bind {A B} (m : M World Err A) (k : A → M World Err B)
    (Q : A → Prop) (R : B → Prop) :
  accounted T m Q → (∀ a, Q a → accounted T (k a) R) → accounted T (x <- m ;; k x) R.
Proof.
  intros Hm Hk w0. eapply hoare_bind; [apply Hm|]. intros a w r w' [Ha Hw]. by apply Hk.
Qed.

(** A transaction that is rolled back has consumed its faults. *)
Lemma accounted_withTransaction {A} (fn : M World Err A) (Q : A → Prop) :
  accounted T fn Q → accounted T (withTransaction fn) Q.
Proof.
  intros Hfn. unfold withTransaction.
  eapply accounted_bind; [apply accounted_db_call|]. intros _ _ w0 w r w' Hw.
  assert (accounted T (r <- fn ;; _ <- db_read (λ _, tt) ;; ret r) Q) as Hbody.
  { eapply accounted_bind; [apply Hfn|]. intros a Ha.
    eapply accounted_bind; [apply accounted_db_call|]. intros. by apply accounted_ret. }
  specialize (Hbody w0 w).
  destruct ((r <- fn ;; _ <- db_read (λ _, tt) ;; ret r) w) as [[a|e] w1];
    intros [= <- <-].
  - exact (Hbody _ _ Hw eq_refl).
  - eapply reported_same; [exact (Hbody _ _ Hw eq_refl)|done].
Qed.

(** What [try { ... } catch (err) { next(err) }] makes of a body that
    sends its responses itself. *)
Definition next_on_error {A} (w : World) (out : Res Err (Reply A) * World) : Prop :=
  match out.1 with
  | Ok (Sent _) => clean w out.2
  | Ok (NextErr e) => reported T w e out.2
  | Ok (Next _) | Throw _ => False
  end.

Lemma accounted_catch_next {A} (m : M World Err (Reply A)) w :
  accounted T m (λ r, ∃ x, r = Sent x) → next_on_error w (catch_next m w).
Proof.
  intros Hm. unfold next_on_error, catch_next, try_catch.
  specialize (Hm w w). destruct (m w) as [[r|e] w1].
  - by destruct (Hm _ _ (clean_refl w) eq_refl) as [[x ->] ?].
  - exact (Hm _ _ (clean_refl w) eq_refl).
Qed.

End accounting.
