(* ===== verification/Ownership.v ===== *)
(** * Ownership: the writes a user's requests may make

    The documents of boards, lists, tasks and attachments carry their
    owner.  [wf_db] is the well-formedness the routes rely on: ids are
    unique within a collection, and a document's parent exists and has the
    document's owner.  [Write u] is one write of a request of user [u]: an
    update, position by position, of documents of [u] that keeps their id,
    owner and parent, or a new document of [u] with a fresh id below a
    parent of [u].  Every such write keeps [wf_db] and leaves the documents
    of all other users, the users and the ledger as they are. *)

From stdpp Require Import relations.
From S2P Require Import Prelude Json Crypto Models.

(** Some document of kind [k] has id [id] and owner [u]. *)
Definition has_owner (k : Kind) (id u : Id) (d : DB) : Prop :=
  ∃ y, y ∈ docs k d ∧ id_of y = id ∧ user_of y = u.

(** The parent of [x], if it names one, exists and has the owner of [x]. *)
Definition parented (x : Doc) (d : DB) : Prop :=
  match parent_of x with
  | Some (k, pid) => has_owner k pid (user_of x) d
  | None => True
  end.

Record wf_db (d : DB) : Prop := mk_wf {
  wf_unique k : NoDup (id_of <$> docs k d);
  wf_parented k x : x ∈ docs k d → parented x d;
}.

(** [x'] has the id, the owner and the parent of [x]. *)
Definition same_key (x x' : Doc) : Prop :=
  id_of x' = id_of x ∧ user_of x' = user_of x ∧ parent_of x' = parent_of x.

Definition same_ledger (d d' : DB) : Prop :=
  users d' = users d ∧ refreshTokens d' = refreshTokens d.

Lemma same_key_refl x : same_key x x.
Proof. done. Qed.

(** One position of an update by [u]. *)
Definition updated_by (u : Id) (x x' : Doc) : Prop :=
  x' = x ∨ (user_of x = u ∧ same_key x x').

Inductive Write (u : Id) (d d' : DB) : Prop :=
| W_update k :
    Forall2 (updated_by u) (docs k d) (docs k d') →
    (∀ k', k' ≠ k → docs k' d' = docs k' d) → same_ledger d d' → Write u d d'
| W_new k x :
    docs k d' = docs k d ++ [x] → user_of x = u →
    id_of x ∉ id_of <$> docs k d → parented x d →
    (∀ k', k' ≠ k → docs k' d' = docs k' d) → same_ledger d d' → Write u d d'.

(** The documents of everyone but [u] are where they were, and the users
    and the ledger are untouched. *)
Definition isolated (u : Id) (d d' : DB) : Prop :=
  (∀ k i x, docs k d !! i = Some x → user_of x ≠ u → docs k d' !! i = Some x)
  ∧ same_ledger d d'.

(** ** Deciding well-formedness *)

Lemma has_owner_Exists k id u d :
  has_owner k id u d ↔ Exists (λ y, id_of y = id ∧ user_of y = u) (docs k d).
Proof. unfold has_owner. rewrite Exists_exists. naive_solver. Qed.

#[export] Instance has_owner_dec k id u d : Decision (has_owner k id u d).
Proof.
  destruct (decide (Exists (λ y, id_of y = id ∧ user_of y = u) (docs k d)));
    [left|right]; by rewrite has_owner_Exists.
Defined.

#[export] Instance parented_dec x d : Decision (parented x d).
Proof. unfold parented. destruct (parent_of x) as [[k pid]|]; apply _. Defined.

Definition all_kinds : list Kind := [KBoard; KList; KTask; KAttachment].

Lemma wf_db_Forall d :
  wf_db d ↔ Forall (λ k, NoDup (id_of <$> docs k d)
                         ∧ Forall (λ x, parented x d) (docs k d)) all_kinds.
Proof.
  rewrite Forall_forall. split.
  - intros [Hu Hp] k _. split; [done|]. apply Forall_forall. by apply Hp.
  - intros Hall. assert (∀ k, k ∈ all_kinds) as Hk by (intros []; set_solver).
    split; intros k; [by apply Hall|]. destruct (Hall k (Hk k)) as [_ Hp].
    by apply Forall_forall.
Qed.

#[export] Instance wf_db_dec d : Decision (wf_db d).
Proof.
  destruct (decide (Forall (λ k, NoDup (id_of <$> docs k d)
                                 ∧ Forall (λ x, parented x d) (docs k d)) all_kinds));
    [left|right]; by rewrite wf_db_Forall.
Defined.

(** ** One write *)

Section write.
Context (u : Id) (d d' : DB) (Hw : Write u d d').

Lemma Write_ids k : ∀ x, x ∈ docs k d → ∃ x', x' ∈ docs k d' ∧ same_key x x'.
Proof using Hw.
  intros x Hx. destruct Hw as [k0 Hupd Hother _|k0 y Hnew _ _ _ Hother _];
    (destruct (decide (k = k0)) as [->|Hne];
       [|exists x; split; [by rewrite Hother|apply same_key_refl]]).
  - apply list_elem_of_lookup in Hx as [i Hi].
    destruct (Forall2_lookup_l _ _ _ _ _ Hupd Hi) as (x' & Hi' & Hx').
    exists x'. split; [by eapply list_elem_of_lookup_2|].
    destruct Hx' as [->|[_ ?]]; [apply same_key_refl|done].
  - exists x. rewrite Hnew, elem_of_app. split; [auto|apply same_key_refl].
Qed.

Lemma Write_has_owner k id v : has_owner k id v d → has_owner k id v d'.
Proof using Hw.
  intros (y & Hy & <- & <-). destruct (Write_ids k y Hy) as (y' & Hy' & Hid & Hu & _).
  by exists y'.
Qed.

Lemma Write_parented x : parented x d → parented x d'.
Proof using Hw.
  unfold parented. destruct (parent_of x) as [[k pid]|]; [|done]. apply Write_has_owner.
Qed.

Lemma Write_same_ledger : same_ledger d d'.
Proof using Hw. by destruct Hw. Qed.

Lemma Write_isolated : isolated u d d'.
Proof using Hw.
  split; [|apply Write_same_ledger]. intros k i x Hi Hx.
  destruct Hw as [k0 Hupd Hother _|k0 y Hnew _ _ _ Hother _];
    (destruct (decide (k = k0)) as [->|Hne]; [|by rewrite Hother]).
  - destruct (Forall2_lookup_l _ _ _ _ _ Hupd Hi) as (x' & Hi' & [->|[? _]]); done.
  - rewrite Hnew. by apply lookup_app_l_Some.
Qed.

Lemma Write_unique k : NoDup (id_of <$> docs k d) → NoDup (id_of <$> docs k d').
Proof using Hw.
  destruct Hw as [k0 Hupd Hother _|k0 y Hnew _ Hfresh _ Hother _];
    (destruct (decide (k = k0)) as [->|Hne]; [|by rewrite Hother]).
  - assert (id_of <$> docs k0 d' = id_of <$> docs k0 d) as ->; [|done].
    eapply Forall2_fmap_eq; [|done]. by intros x x' [->|[_ [? _]]].
  - rewrite Hnew, fmap_app. intros Hnd. apply NoDup_app. split_and!; [done| |apply NoDup_singleton].
    intros i Hi ->%list_elem_of_singleton. done.
Qed.

Lemma Write_wf : wf_db d → wf_db d'.
Proof using Hw.
  intros [Hu Hp]. split; [intros k; by apply Write_unique|].
  intros k x' Hx'. destruct Hw as [k0 Hupd Hother _|k0 y Hnew _ _ Hpar Hother _];
    (destruct (decide (k = k0)) as [->|Hne];
       [|rewrite Hother in Hx' by done; by eapply Write_parented, Hp]).
  - apply list_elem_of_lookup in Hx' as [i Hi].
    destruct (Forall2_lookup_r _ _ _ _ _ Hupd Hi) as (x & Hx & Hxx').
    apply list_elem_of_lookup_2, Hp, Write_parented in Hx.
    destruct Hxx' as [->|[_ (_ & Hus & Hpa)]]; [done|].
    unfold parented in *. by rewrite Hpa, Hus.
  - rewrite Hnew, elem_of_app, list_elem_of_singleton in Hx'.
    apply Write_parented. destruct Hx' as [?| ->]; [by eapply Hp|done].
Qed.

End write.

(** ** Sequences of writes *)

#[export] Instance same_ledger_refl : Reflexive same_ledger.
Proof. by intros d. Qed.

#[export] Instance same_ledger_trans : Transitive same_ledger.
Proof. intros d1 d2 d3 [??] [??]. split; congruence. Qed.

#[export] Instance isolated_refl u : Reflexive (isolated u).
Proof. by intros d. Qed.

#[export] Instance isolated_trans u : Transitive (isolated u).
Proof.
  intros d1 d2 d3 [H12 ?] [H23 ?]. split; [|by etrans]. intros k i x Hi Hx. apply H23; [by apply H12|done].
Qed.

Section writes.
Context (u : Id).
Implicit Types (d : DB).

Lemma writes_wf d d' : rtc (Write u) d d' → wf_db d → wf_db d'.
Proof. induction 1; eauto using Write_wf. Qed.

Lemma writes_isolated d d' : rtc (Write u) d d' → isolated u d d'.
Proof. induction 1; [done|]. etrans; [by apply Write_isolated|done]. Qed.

Lemma writes_has_owner d d' k id v :
  rtc (Write u) d d' → has_owner k id v d → has_owner k id v d'.
Proof. induction 1; eauto using Write_has_owner. Qed.

End writes.

(** In a well-formed database the owner of an id is determined. *)
Lemma owner_unique d k id u y :
  wf_db d → has_owner k id u d → y ∈ docs k d → id_of y = id → user_of y = u.
Proof.
  intros [Hu _] (x & Hx & Hid & <-) Hy Hyid.
  by rewrite (NoDup_fmap_eq id_of _ y x (Hu k) Hy Hx) by congruence.
Qed.

(** The owner of a child whose parent has a known owner. *)
Lemma child_owner d k x kp pid u :
  wf_db d → x ∈ docs k d → parent_of x = Some (kp, pid) → has_owner kp pid u d →
  user_of x = u.
Proof.
  intros Hwf Hx Hpar Hown. generalize (wf_parented _ Hwf k x Hx). unfold parented.
  rewrite Hpar. intros (y & Hy & Hid & <-). by eapply owner_unique.
Qed.

(** ** The writes of the typed queries *)

Section typed.
Context (A : Type) `{ModelLaws A} (u : Id).
Implicit Types (d : DB) (x : A) (f : A → A).

(** [f] keeps the id, the owner and the parent of a document. *)
Definition keeps f : Prop := ∀ x, same_key (to_doc x) (to_doc (f x)).

Lemma mark_deleted_keeps now : keeps (mark_deleted now).
Proof.
  intros x. split_and!; rewrite ?id_of_to_doc, ?user_of_to_doc.
  - apply doc_id_mark_deleted.
  - apply doc_user_id_mark_deleted.
  - apply parent_of_mark_deleted.
Qed.

Lemma elem_of_docs d x : x ∈ collection d → to_doc x ∈ docs kind d.
Proof. rewrite docs_collection. apply list_elem_of_fmap_2. Qed.

Lemma owned_has_owner d rid x :
  x ∈ collection d → owned_by rid u x → has_owner kind rid u d.
Proof.
  intros Hx (Hid & Hu & _). exists (to_doc x).
  by rewrite id_of_to_doc, user_of_to_doc, Hid, Hu; split_and!; [apply elem_of_docs|..].
Qed.

Lemma has_owner_elem d x : x ∈ collection d → has_owner kind (doc_id x) (doc_user_id x) d.
Proof.
  intros Hx. exists (to_doc x). by rewrite id_of_to_doc, user_of_to_doc; split_and!; [apply elem_of_docs|..].
Qed.

(** The owner of a document whose parent is known to be of [u]. *)
Lemma child_owner_typed d x kp pid :
  wf_db d → x ∈ collection d → parent_of (to_doc x) = Some (kp, pid) →
  has_owner kp pid u d → doc_user_id x = u.
Proof.
  intros Hwf Hx Hpar Hown. rewrite <-user_of_to_doc.
  eapply child_owner; [done|by apply elem_of_docs|done..].
Qed.

(** An update of documents of [u], position by position, is a write of [u]. *)
Lemma Write_pointwise (P : A → Prop) `{!∀ x, Decision (P x)} f g d :
  keeps f → (∀ x, x ∈ collection d → P x → doc_user_id x = u) →
  pointwise P f (collection d) (g (collection d)) →
  Write u d (set_collection g d).
Proof.
  intros Hf HP Hpt. apply W_update with kind.
  - rewrite !docs_collection, collection_set. apply Forall2_fmap.
    eapply Forall2_impl; [apply (Forall2_elem_of_l _ _ _ Hpt)|].
    intros x x' [Hx [->|[HPx ->]]]; [by left|right]. split; [|apply Hf].
    rewrite user_of_to_doc. by apply HP.
  - intros k' Hk. by apply docs_set_collection.
  - split; [apply users_set_collection|apply refreshTokens_set_collection].
Qed.

Lemma Write_update_first (P : A → Prop) `{!∀ x, Decision (P x)} f d :
  keeps f → (∀ x, x ∈ collection d → P x → doc_user_id x = u) →
  Write u d (set_collection (update_first P f) d).
Proof. intros. by apply (Write_pointwise P f), pointwise_update_first. Qed.

Lemma Write_update_all (P : A → Prop) `{!∀ x, Decision (P x)} f d :
  keeps f → (∀ x, x ∈ collection d → P x → doc_user_id x = u) →
  Write u d (set_collection (update_all P f) d).
Proof. intros. by apply (Write_pointwise P f), pointwise_update_all. Qed.

(** Saving a new document of [u] with a fresh id below a parent of [u] is a
    write of [u]. *)
Lemma Write_save x d :
  doc_user_id x = u → doc_id x ∉ doc_id <$> collection d → parented (to_doc x) d →
  Write u d (set_collection (λ l, l ++ [x]) d).
Proof.
  intros Hu Hfresh Hpar. apply W_new with kind (to_doc x).
  - by rewrite !docs_collection, collection_set, fmap_app.
  - by rewrite user_of_to_doc.
  - rewrite docs_collection, <-list_fmap_compose, id_of_to_doc.
    by erewrite list_fmap_ext; [|intros; apply id_of_to_doc].
  - done.
  - intros k' Hk. by apply docs_set_collection.
  - split; [apply users_set_collection|apply refreshTokens_set_collection].
Qed.

End typed.

(** ** The three parent relations *)

Section parents.
Context (u : Id) (d : DB) (Hwf : wf_db d).

Lemma list_owner l :
  l ∈ lists d → has_owner KBoard (l_board_id l) u d → l_user_id l = u.
Proof. intros Hl Ho. exact (child_owner_typed List_ u d l KBoard _ Hwf Hl eq_refl Ho). Qed.

Lemma task_owner t :
  t ∈ tasks d → has_owner KList (t_list_id t) u d → t_user_id t = u.
Proof. intros Ht Ho. exact (child_owner_typed Task u d t KList _ Hwf Ht eq_refl Ho). Qed.

Lemma attachment_owner a :
  a ∈ attachments d → has_owner KTask (a_task_id a) u d → a_user_id a = u.
Proof. intros Ha Ho. exact (child_owner_typed Attachment u d a KTask _ Hwf Ha eq_refl Ho). Qed.

End parents.

Lemma has_owner_list d l : l ∈ lists d → has_owner KList (l_id l) (l_user_id l) d.
Proof. exact (has_owner_elem List_ d l). Qed.

Lemma has_owner_task d t : t ∈ tasks d → has_owner KTask (t_id t) (t_user_id t) d.
Proof. exact (has_owner_elem Task d t). Qed.
