(* ===== verification/Schemas.v ===== *)
(** * Schemas: src/backend/validation/schemas.js and config/validateEnv.js

    A zod schema is a parser: it maps the JSON it is given to the typed
    value the handler goes on with, or to the list of the messages of the
    checks that failed.  Unknown keys of an object are dropped, as
    [z.object] does.  The string formats zod implements ([email()],
    [url()], [datetime()]) and JavaScript's [Number] are the interface
    [Formats]; [plain_formats] is an executable instance. *)

From S2P Require Import Prelude Json Crypto Models Express.

(** ** The formats of the library *)

Class Formats := {
  (** [z.string().email()] accepts the string *)
  is_email : string → bool;
  (** [z.string().url()] accepts the string *)
  is_url : string → bool;
  (** [z.string().datetime()] accepts the string *)
  is_datetime : string → bool;
  (** [Number(s)], when it is an integer *)
  js_Number : string → option Z;
  (** [new Date(ms).toISOString()] *)
  toISOString : Z → string;
}.

(** An instance to compute with: an address has an [@], a URL a [:], a
    date and time a [T], and a number is written in decimal. *)
Definition plain_formats : Formats := {|
  is_email s := some_char (λ c, bool_decide (c = "@"%char)) s;
  is_url s := some_char (λ c, bool_decide (c = ":"%char)) s;
  is_datetime s := some_char (λ c, bool_decide (c = "T"%char)) s;
  js_Number := undec;
  toISOString := dec;
|}.

(** ** Parsers *)

(** The outcome of [schema.safeParse]: the issues' messages, or the value. *)
Definition Parsed (A : Type) : Type := list string + A.

Definition issues {A} (p : Parsed A) : list string :=
  match p with
  | inl es => es
  | inr _ => []
  end.

(** [z.string()] followed by checks: every failing check adds its message. *)
Definition z_string (checks : list ((string → bool) * string)) (v : option Json)
    : Parsed string :=
  match v with
  | Some (JStr s) =>
      match omap (λ c : (string → bool) * string,
                    if fst c s then None else Some (snd c)) checks with
      | [] => inr s
      | es => inl es
      end
  | None => inl ["Required"]
  | Some _ => inl ["Expected string"]
  end.

(** [.min(n, msg)] and [.max(n, msg)] on the length, [.regex(/[class]/, msg)]. *)
Definition z_min (n : nat) : string → bool := λ s, bool_decide (n ≤ String.length s).
Definition z_max (n : nat) : string → bool := λ s, bool_decide (String.length s ≤ n).

(** Two fields of an object: the issues of both, or both values. *)
Definition both {A B} (a : Parsed A) (b : Parsed B) : Parsed (A * B) :=
  match a, b with
  | inr x, inr y => inr (x, y)
  | _, _ => inl (issues a ++ issues b)
  end.

(** [objectIdSchema]: 24 hex digits. *)
Definition is_objectId (s : string) : bool :=
  bool_decide (String.length s = 24) && all_char is_hex_digit s.

Definition objectIdSchema : option Json → Parsed string :=
  z_string [(is_objectId, "Invalid ObjectId")].

(** What Mongoose throws when the [_id] of a filter is not an ObjectId. *)
Definition cast_error : Err :=
  MkErr "CastError" "Cast to ObjectId failed".

(** The cast Mongoose applies to the [_id] of a filter before it queries. *)
Definition castObjectId (s : string) : M World Err Id :=
  if is_objectId s then ret s else throw cast_error.

(** Fields of an object, applied one after the other to the constructor of
    the parsed value: the issues of all fields, or the value. *)
Definition papp {A B} (f : Parsed (A → B)) (a : Parsed A) : Parsed B :=
  match f, a with
  | inr g, inr x => inr (g x)
  | _, _ => inl (issues f ++ issues a)
  end.

Infix "<*>" := papp (at level 61, left associativity) : tasks_scope.

(** [.optional()]: [undefined] is accepted and stays [undefined]. *)
Definition z_optional {A} (p : option Json → Parsed A) (v : option Json)
    : Parsed (option A) :=
  match v with
  | None => inr None
  | Some _ => match p v with inr a => inr (Some a) | inl es => inl es end
  end.

(** [.nullable()]: [null] is accepted and stays [null]. *)
Definition z_nullable {A} (p : option Json → Parsed A) (v : option Json)
    : Parsed (option A) :=
  match v with
  | Some JNull => inr None
  | _ => match p v with inr a => inr (Some a) | inl es => inl es end
  end.

(** [a.or(b)]: the value of the first that accepts; the issue of a union
    when neither does. *)
Definition z_or {A} (a b : option Json → Parsed A) (v : option Json) : Parsed A :=
  match a v with
  | inr x => inr x
  | inl _ => match b v with inr y => inr y | inl _ => inl ["Invalid input"] end
  end.

Definition z_boolean (v : option Json) : Parsed bool :=
  match v with
  | Some (JBool b) => inr b
  | None => inl ["Required"]
  | Some _ => inl ["Expected boolean"]
  end.

Definition z_number (v : option Json) : Parsed Z :=
  match v with
  | Some (JNum n) => inr n
  | None => inl ["Required"]
  | Some _ => inl ["Expected number"]
  end.

(** [z.date()]: a [Date] object; no value of a JSON body is one. *)
Definition z_date (v : option Json) : Parsed Z :=
  match v with
  | None => inl ["Required"]
  | Some _ => inl ["Expected date"]
  end.

(** [z.array(item)]: the issues of all items, or the items' values. *)
Definition z_array {A} (item : option Json → Parsed A) (v : option Json)
    : Parsed (list A) :=
  match v with
  | Some (JArr l) =>
      foldr (λ x acc, inr cons <*> item (Some x) <*> acc) (inr []) l
  | None => inl ["Required"]
  | Some _ => inl ["Expected array"]
  end.

(** [passwordSchema]. *)
Definition passwordSchema : option Json → Parsed string :=
  z_string [
    (z_min 8, "Password must be at least 8 characters");
    (some_char is_upper, "Password must contain at least one uppercase letter");
    (some_char is_lower, "Password must contain at least one lowercase letter");
    (some_char is_digit, "Password must contain at least one number");
    (some_char is_special, "Password must contain at least one special character")
  ].

Record Credentials := mkCredentials {
  cr_email : string;
  cr_password : string;
}.

(** The bodies the other schemas produce.  A field that is [.optional()]
    is an [option]; one that is [.optional().nullable()] an option of an
    option: [None] for [undefined], [Some None] for [null]. *)
Record BoardBody := mkBoardBody {
  bb_title : string;
  bb_background : option string;
}.

Record UpdateBoardBody := mkUpdateBoardBody {
  ub_title : option string;
  ub_background : option string;
  ub_archived : option bool;
}.

Record ListBody := mkListBody {
  lb_title : string;
  lb_boardId : string;
}.

Record UpdateListBody := mkUpdateListBody {
  ul_title : option string;
  ul_color : option string;
  ul_task_color : option string;
  ul_archived : option bool;
  ul_position : option Z;
}.

Record TaskBody := mkTaskBody {
  tb_title : string;
  tb_listId : string;
  tb_description : option (option string);
  tb_due_date : option (option string);
  tb_completed : option bool;
  tb_is_starred : option bool;
  tb_recurrence : option (option string);
  tb_parent_id : option (option string);
  tb_position : option Z;
}.

Record UpdateTaskBody := mkUpdateTaskBody {
  ut_title : option string;
  ut_listId : option string;
  ut_description : option (option string);
  ut_due_date : option (option string);
  ut_completed : option bool;
  ut_is_starred : option bool;
  ut_recurrence : option (option string);
  ut_parent_id : option (option string);
  ut_position : option Z;
  ut_completed_at : option Z;
}.

Record AttachmentBody := mkAttachmentBody {
  ab_taskId : string;
  ab_fileName : string;
  ab_fileUrl : string;
  ab_fileType : option string;
}.

Section schemas.
Context `{Formats}.

Definition emailSchema : option Json → Parsed string :=
  z_string [(is_email, "Invalid email")].

(** [z.object({ ... })] accepts objects only. *)
Definition z_object {A} (j : Json) (fields : Parsed A) : Parsed A :=
  match j with
  | JObj _ => fields
  | _ => inl ["Expected object"]
  end.

Definition RegisterSchema (j : Json) : Parsed Credentials :=
  z_object j
    (match both (emailSchema (jget "email" j)) (passwordSchema (jget "password" j)) with
     | inr (e, p) => inr (mkCredentials e p)
     | inl es => inl es
     end).

Definition LoginSchema (j : Json) : Parsed Credentials :=
  z_object j
    (match both (emailSchema (jget "email" j))
                (z_string [(z_min 1, "Password required")] (jget "password" j)) with
     | inr (e, p) => inr (mkCredentials e p)
     | inl es => inl es
     end).

(** [z.string().min(1, msg).max(n)]. *)
Definition titleSchema (n : nat) (msg : string) : option Json → Parsed string :=
  z_string [(z_min 1, msg); (z_max n, "String is too long")].

Definition BoardSchema (j : Json) : Parsed BoardBody :=
  z_object j
    (inr mkBoardBody
       <*> titleSchema 100 "Title is required" (jget "title" j)
       <*> z_optional (z_string []) (jget "background" j)).

Definition UpdateBoardSchema (j : Json) : Parsed UpdateBoardBody :=
  z_object j
    (inr mkUpdateBoardBody
       <*> z_optional (titleSchema 100 "String is too short") (jget "title" j)
       <*> z_optional (z_string []) (jget "background" j)
       <*> z_optional z_boolean (jget "archived" j)).

Definition ListSchema (j : Json) : Parsed ListBody :=
  z_object j
    (inr mkListBody
       <*> titleSchema 100 "Title is required" (jget "title" j)
       <*> objectIdSchema (jget "boardId" j)).

Definition UpdateListSchema (j : Json) : Parsed UpdateListBody :=
  z_object j
    (inr mkUpdateListBody
       <*> z_optional (titleSchema 100 "String is too short") (jget "title" j)
       <*> z_optional (z_string []) (jget "color" j)
       <*> z_optional (z_string []) (jget "task_color" j)
       <*> z_optional z_boolean (jget "archived" j)
       <*> z_optional z_number (jget "position" j)).

(** [z.string().optional().nullable()]. *)
Definition optional_nullable {A} (p : option Json → Parsed A)
    : option Json → Parsed (option (option A)) :=
  z_optional (z_nullable p).

(** [z.string().datetime().optional().nullable()
       .or(z.string().optional().nullable())]. *)
Definition due_dateSchema : option Json → Parsed (option (option string)) :=
  z_or (optional_nullable (z_string [(is_datetime, "Invalid datetime")]))
       (optional_nullable (z_string [])).

Definition TaskSchema (j : Json) : Parsed TaskBody :=
  z_object j
    (inr mkTaskBody
       <*> titleSchema 200 "Title is required" (jget "title" j)
       <*> objectIdSchema (jget "listId" j)
       <*> optional_nullable (z_string []) (jget "description" j)
       <*> due_dateSchema (jget "due_date" j)
       <*> z_optional z_boolean (jget "completed" j)
       <*> z_optional z_boolean (jget "is_starred" j)
       <*> optional_nullable (z_string []) (jget "recurrence" j)
       <*> optional_nullable objectIdSchema (jget "parent_id" j)
       <*> z_optional z_number (jget "position" j)).

(** [x.optional()] of a field that is optional already. *)
Definition z_partial {A} (p : option Json → Parsed (option A)) (v : option Json)
    : Parsed (option A) :=
  match v with
  | None => inr None
  | Some _ => p v
  end.

(** [TaskSchema.partial().extend({ completed_at: z.date().optional() })]. *)
Definition UpdateTaskSchema (j : Json) : Parsed UpdateTaskBody :=
  z_object j
    (inr mkUpdateTaskBody
       <*> z_optional (titleSchema 200 "Title is required") (jget "title" j)
       <*> z_optional objectIdSchema (jget "listId" j)
       <*> z_partial (optional_nullable (z_string [])) (jget "description" j)
       <*> z_partial due_dateSchema (jget "due_date" j)
       <*> z_partial (z_optional z_boolean) (jget "completed" j)
       <*> z_partial (z_optional z_boolean) (jget "is_starred" j)
       <*> z_partial (optional_nullable (z_string [])) (jget "recurrence" j)
       <*> z_partial (optional_nullable objectIdSchema) (jget "parent_id" j)
       <*> z_partial (z_optional z_number) (jget "position" j)
       <*> z_optional z_date (jget "completed_at" j)).

Definition AttachmentSchema (j : Json) : Parsed AttachmentBody :=
  z_object j
    (inr mkAttachmentBody
       <*> objectIdSchema (jget "taskId" j)
       <*> z_string [(z_min 1, "String is too short")] (jget "fileName" j)
       <*> z_string [(is_url, "Invalid url")] (jget "fileUrl" j)
       <*> z_optional (z_string []) (jget "fileType" j)).

(** [z.object({ tasks: z.array(TaskSchema.extend({ listId: objectIdSchema })) })];
    the extension repeats the field [listId] of [TaskSchema]. *)
Definition BulkTaskSchema (j : Json) : Parsed (list TaskBody) :=
  z_object j
    (z_array (λ v, match v with
                   | Some x => TaskSchema x
                   | None => inl ["Required"]
                   end) (jget "tasks" j)).

End schemas.

(** ** src/backend/config/validateEnv.js *)

Record Config := mkConfig {
  NODE_ENV : string;
  PORT : option Z;
  MONGODB_URI : string;
  JWT_SECRET : string;
  CORS_ORIGIN : string;
  ALLOWED_ORIGINS : option string;
  LOG_LEVEL : string;
}.

(** [z.enum(values).default(d)] on a variable of [process.env]. *)
Definition z_enum_default (values : list string) (d : string) (v : option string)
    : option string :=
  match v with
  | None => Some d
  | Some s => if decide (s ∈ values) then Some s else None
  end.

Section validateEnv.
Context `{Formats}.

(** [envSchema.safeParse(process.env)]; [None] is [process.exit(1)]. *)
Definition validateEnv (penv : list (string * string)) : option Config :=
  node_env ← z_enum_default ["development"; "production"; "test"] "development"
                (lookup_str "NODE_ENV" penv);
  let port := js_Number (default "3000" (lookup_str "PORT" penv)) in
  uri ← lookup_str "MONGODB_URI" penv;
  guard (is_url uri = true);;
  secret ← lookup_str "JWT_SECRET" penv;
  guard (32 ≤ String.length secret);;
  log_level ← z_enum_default ["fatal"; "error"; "warn"; "info"; "debug"; "trace"] "info"
                 (lookup_str "LOG_LEVEL" penv);
  Some (mkConfig node_env port uri secret
          (default "http://localhost:5173" (lookup_str "CORS_ORIGIN" penv))
          (lookup_str "ALLOWED_ORIGINS" penv) log_level).

End validateEnv.

(** ** Lemmas *)

Lemma z_string_inr checks v s :
  z_string checks v = inr s ↔ v = Some (JStr s) ∧ Forall (λ c, fst c s = true) checks.
Proof.
  unfold z_string. destruct v as [[| | |s'| |]|]; try (split; [done|naive_solver]).
  destruct (omap _ checks) as [|e es] eqn:Ho.
  - split; [intros [= ->]|naive_solver]. split; [done|].
    apply Forall_forall. intros c Hc. destruct (fst c s) eqn:Hs; [done|].
    assert (snd c ∈ omap (λ c : (string → bool) * string,
      if fst c s then None else Some (snd c)) checks) as Hin.
    { apply list_elem_of_omap. exists c. by rewrite Hs. }
    rewrite Ho in Hin. by apply not_elem_of_nil in Hin.
  - split; [done|]. intros [[= ->] Hall].
    assert (e ∈ omap (λ c : (string → bool) * string,
      if fst c s then None else Some (snd c)) checks) as Hin by (rewrite Ho; left).
    apply list_elem_of_omap in Hin as (c & Hc & Hsome).
    rewrite Forall_forall in Hall. by rewrite (Hall c Hc) in Hsome.
Qed.

Lemma both_inr {A B} (a : Parsed A) (b : Parsed B) x y :
  both a b = inr (x, y) ↔ a = inr x ∧ b = inr y.
Proof. destruct a, b; naive_solver. Qed.
