(* ===== verification/Fixtures.v ===== *)
(** * Fixtures: concrete inputs for the witnesses

    A configuration, three requests' worth of ambient inputs, one user and
    a few ledgers, all over the ideal instance of [Crypto].  Every theorem
    of the development that has hypotheses is applied to these in its
    witness, where the hypotheses are discharged by computation. *)

From S2P Require Import Prelude Json Crypto Models Express Schemas.

#[export] Existing Instance ideal.
#[export] Existing Instance plain_formats.

Definition cfg0 : Config :=
  mkConfig "production" (Some 3000%Z) "mongodb://db/tasks"
    "0123456789abcdef0123456789abcdef" "http://localhost:5173" None "info".

(** ObjectIds [a0], [a1], ... of one request. *)
Definition oids (prefix : string) (n : nat) : Id :=
  prefix +:+ String (hex_digit n) "".

Definition env1 : Env := mkEnv 1000000 ["1"; "2"; "3"]%char ["s"]%char (oids "a").
Definition env2 : Env := mkEnv 2000000 ["4"; "5"; "6"]%char ["t"]%char (oids "b").
Definition env3 : Env := mkEnv 3000000 ["7"; "8"; "9"]%char ["u"]%char (oids "c").

(** Long after [env1]'s tokens have expired. *)
Definition env_late : Env := mkEnv 700000000 ["a"; "b"]%char ["v"]%char (oids "d").

Definition alice : User :=
  mkUser "u1" "alice@example.org" (bcrypt_hash "Passw0rd!" 12 ["s"]%char) "user"
    auditDefault 0 0.

Definition bob : User :=
  mkUser "u2" "bob@example.org" (bcrypt_hash "S3cret??" 12 ["s"]%char) "user"
    auditDefault 0 0.

Definition db0 : DB := mkDB [alice; bob] [] [] [] [] [].

Definition creds (email password : string) : Req Credentials :=
  mkReq None None (mkCredentials email password) [] [] "10.0.0.1" None [].

Definition with_cookie (c : option string) : Req unit :=
  mkReq None c tt [] [] "10.0.0.2" None [].

(** Alice's first cookie, the row it has in the ledger, and the ledger
    after her login at [env1]. *)
Definition cookie1 : string := toString_hex (env_random env1).
Definition cookie2 : string := toString_hex (env_random env2).

Definition row1 : RefreshToken :=
  mkRefreshToken "a0" "u1" (sha256_hex cookie1) (1000000 + 604800000) 1000000
    (Some "10.0.0.1") None None None auditDefault.

Definition db1 : DB := mkDB [alice; bob] [row1] [] [] [] [].

(** Bob has a session too. *)
Definition row_bob : RefreshToken :=
  mkRefreshToken "z0" "u2" (sha256_hex "bobs-cookie") (1000000 + 604800000) 1000000
    (Some "10.0.0.9") None None None auditDefault.

(** The ledger after Alice's cookie was rotated at [env2]. *)
Definition db2 : DB :=
  mkDB [alice; bob]
    [revoke 2000000 "10.0.0.2" (Some (sha256_hex cookie2)) row1; row_bob;
     mkRefreshToken "b0" "u1" (sha256_hex cookie2) (2000000 + 604800000) 2000000
       (Some "10.0.0.2") None None None auditDefault]
    [] [] [] [].

(** ** Boards, lists and tasks *)

Definition alice_id : Identity := mkIdentity "u1" "alice@example.org" "user".
Definition alice_claims : Claims := mkClaims "u1" "alice@example.org" "user".

(** A request with an [Authorization] header. *)
Definition bearer (header : string) : Req unit :=
  mkReq (Some header) None tt [] [] "10.0.0.3" None [].

(** An authenticated request of Alice with route parameters. *)
Definition as_alice {B} (params : list (string * string)) (body : B) : Req B :=
  mkReq None None body params [] "10.0.0.3" (Some alice_id) [].

Definition oid_a : Id := "0000000000000000000000a1".
Definition oid_b : Id := "0000000000000000000000b1".
Definition oid_d : Id := "0000000000000000000000d1".
Definition oid_n : Id := "0000000000000000000000ff".
Definition oid_l : Id := "00000000000000000000001a".
Definition oid_t : Id := "00000000000000000000002a".

Definition deleted_audit : AuditFields := mkAudit (Some 500000%Z) None None.

Definition board_a : Board := mkBoard oid_a "Work" None false "u1" auditDefault 0 0.
Definition board_b : Board := mkBoard oid_b "Bob's" None false "u2" auditDefault 0 0.
Definition board_d : Board := mkBoard oid_d "Old" None false "u1" deleted_audit 0 0.

Definition list_a : List_ :=
  mkList oid_l "Todo" 0 oid_a "u1" None None false auditDefault 0 0.

Definition task_a : Task :=
  mkTask oid_t "Write" false None None None false 0 oid_l "u1" None None auditDefault 0 0.

Definition db3 : DB :=
  mkDB [alice; bob] [row1] [board_b; board_d; board_a] [list_a] [task_a] [].

(** The schema of a reorder that schemas.js is missing, for the route
    table of the witnesses: [{ orderedIds: z.array(objectIdSchema) }]. *)
Definition reorderSchema (j : Json) : Parsed (list string) :=
  z_object j (z_array objectIdSchema (jget "orderedIds" j)).

(** Alice's access token at [env1], and her requests. *)
Definition alice_bearer : string :=
  "Bearer " +:+ jwt_sign alice_claims (JWT_SECRET cfg0) 900 1000000.

Definition alice_sends (body : Json) : Req Json :=
  mkReq (Some alice_bearer) None body [] [] "10.0.0.3" None [].

Definition anonymous (body : Json) : Req Json :=
  mkReq None None body [] [] "10.0.0.4" None [].
