(* ===== verification/AuthController.v ===== *)
(** * AuthController: src/backend/controllers/authController.js

    The helpers [generateRefreshToken] and [setTokenCookie] and the four
    controllers [register], [login], [refreshToken] and [logout], each in
    the order of the source: every storage call is a [db_read] or
    [db_write] that may throw, every [try]/[catch] a [catch_next].
    [logout] has none, so a fault in it is thrown out of the handler.

    The theorems give the behaviour of each controller on each branch, the
    effect on the ledger of refresh tokens, the atomicity of registration
    and the crash of [logout]. *)

From S2P Require Import Prelude Json Crypto Models Express Hoare Schemas Fixtures.

Section controllers.
Context `{Crypto} (cfg : Config).

(** [7 * 24 * 60 * 60 * 1000]: seven days in milliseconds. *)
Definition seven_days : Z := 7 * 24 * 60 * 60 * 1000.

(** ['15m'] in seconds. *)
Definition fifteen_minutes : Z := 15 * 60.

(** The raw token [generateRefreshToken] draws: 40 random bytes in hex. *)
Definition raw_token (env : Env) : string := toString_hex (env_random env).

(** [new RefreshToken({ user: user._id, tokenHash, expires, createdByIp: ip })]
    for the token of this request; [n] counts the documents the request has
    made so far.  Only the digest of the token is stored. *)
Definition new_row (env : Env) (n : nat) (user : User) (ip : string) : RefreshToken :=
  mkRefreshToken (env_oid env n) (u_id user) (sha256_hex (raw_token env))
    (env_now env + seven_days)%Z (env_now env) (Some ip) None None None auditDefault.

(** [generateRefreshToken(user, ip)]: the row is saved and the raw token
    returned with its expiry. *)
Definition generateRefreshToken (env : Env) (n : nat) (user : User) (ip : string)
    : M World Err (string * Z) :=
  _ <- db_write (set_refreshTokens (λ l, l ++ [new_row env n user ip])) ;;
  ret (raw_token env, (env_now env + seven_days)%Z).

(** [setTokenCookie(res, token)]. *)
Definition setTokenCookie (env : Env) (token : string) : CookieOp :=
  SetCookie "refreshToken" token
    {| httpOnly := true;
       secure := bool_decide (NODE_ENV cfg = "production");
       expires := (env_now env + seven_days)%Z;
       sameSite := "strict";
       path := "/api/auth" |}.

(** [jwt.sign({ userId, email, role }, env.JWT_SECRET, { expiresIn: '15m' })]. *)
Definition sign_access (env : Env) (user : User) : string :=
  jwt_sign (mkClaims (u_id user) (u_email user) (u_role user)) (JWT_SECRET cfg)
    fifteen_minutes (env_now env).

(** [{ id: user.id, email: user.email, role: user.role }]. *)
Definition public_user (user : User) : Json :=
  JObj [("id", JStr (u_id user)); ("email", JStr (u_email user));
        ("role", JStr (u_role user))].

(** The writes of [register] inside [withTransaction]. *)
Definition register_writes (env : Env) (email hashed : string) : M World Err User :=
  let user := mkUser (env_oid env 0) email hashed "user" auditDefault
                (env_now env) (env_now env) in
  _ <- db_write (set_users (λ l, l ++ [user])) ;;
  let board := mkBoard (env_oid env 1) "Main Board" (Some "#1a73e8") false (u_id user)
                 auditDefault (env_now env) (env_now env) in
  _ <- db_write (set_boards (λ l, l ++ [board])) ;;
  let list := mkList (env_oid env 2) "To Do" 0 (b_id board) (u_id user) None None false
                auditDefault (env_now env) (env_now env) in
  _ <- db_write (set_lists (λ l, l ++ [list])) ;;
  ret user.

Definition register (env : Env) : Handler (Req Credentials) Empty_set := λ req,
  catch_next (
    let email := cr_email (req_body req) in
    let password := cr_password (req_body req) in
    existing <- db_read (λ d, find_first (λ u, u_email u = email) (users d)) ;;
    match existing with
    | Some _ => send 400 (error_body "User already exists")
    | None =>
        let hashed := bcrypt_hash password 12 (env_salt env) in
        user <- withTransaction (register_writes env email hashed) ;;
        let jwtToken := sign_access env user in
        rt <- generateRefreshToken env 3 user (req_ip req) ;;
        ret (Sent (mkResponse 201
               (JObj [("token", JStr jwtToken); ("user", public_user user)])
               [setTokenCookie env (fst rt)]))
    end).

Definition login (env : Env) : Handler (Req Credentials) Empty_set := λ req,
  catch_next (
    let email := cr_email (req_body req) in
    let password := cr_password (req_body req) in
    found <- db_read (λ d, find_first (λ u, u_email u = email) (users d)) ;;
    match found with
    | Some user =>
        if bcrypt_compare password (u_password user) then
          let jwtToken := sign_access env user in
          rt <- generateRefreshToken env 0 user (req_ip req) ;;
          ret (Sent (mkResponse 200
                 (JObj [("token", JStr jwtToken); ("user", public_user user)])
                 [setTokenCookie env (fst rt)]))
        else send 401 (error_body "Invalid credentials")
    | None => send 401 (error_body "Invalid credentials")
    end).

(** What reading [rToken.user.id] throws when [populate] found no user. *)
Definition null_user_error : Err :=
  MkErr "TypeError" "Cannot read properties of null".

(** [rToken.user], or the TypeError of reading a property of [null]. *)
Definition populated (u : option User) : M World Err User :=
  match u with
  | Some user => ret user
  | None => throw null_user_error
  end.

(** ** The writes of [refreshToken] and [logout] to the ledger *)

(** Reuse: [RefreshToken.updateMany({ user }, { revoked, revokedByIp,
    replacedByToken: 'REUSE_VIOLATION' })]. *)
Definition revoke_family (env : Env) (ip : string) (uid : Id) (d : DB) : DB :=
  set_refreshTokens
    (update_all (λ t, rt_user t = uid) (revoke (env_now env) ip (Some "REUSE_VIOLATION"))) d.

(** Rotation: the presented row is revoked and linked to the digest of its
    successor, and saved. *)
Definition link_successor (env : Env) (ip : string) (newRefToken : string)
    (rToken : RefreshToken) (d : DB) : DB :=
  set_refreshTokens
    (update_first (λ t, rt_id t = rt_id rToken)
       (revoke (env_now env) ip (Some (sha256_hex newRefToken)))) d.

(** Logout: [RefreshToken.findOneAndUpdate({ tokenHash }, { revoked,
    revokedByIp })]; the link of the row is kept. *)
Definition revoke_one (env : Env) (ip : string) (token : string) (d : DB) : DB :=
  set_refreshTokens
    (update_first (λ t, rt_tokenHash t = sha256_hex token) (revoke (env_now env) ip None)) d.

(** The ledger after a rotation: the new row appended by
    [generateRefreshToken], then the presented row linked to it. *)
Definition rotate (env : Env) (ip : string) (user : User) (rToken : RefreshToken)
    (d : DB) : DB :=
  link_successor env ip (raw_token env) rToken
    (set_refreshTokens (λ l, l ++ [new_row env 0 user ip]) d).

Definition refreshToken (env : Env) : Handler (Req unit) Empty_set := λ req,
  match req_refreshToken req with
  | Some token =>
    if decide (token = "") then send 401 (error_body "Token required") else
    catch_next (
      let tokenHash := sha256_hex token in
      found <- db_read (λ d, find_first (λ t, rt_tokenHash t = tokenHash) (refreshTokens d)) ;;
      match found with
      | None => send 401 (error_body "Invalid token")
      | Some rToken =>
          owner <- db_read (λ d, find_first (λ u, u_id u = rt_user rToken) (users d)) ;;
          if decide (is_Some (rt_revoked rToken)) then
            user <- populated owner ;;
            _ <- db_write (revoke_family env (req_ip req) (u_id user)) ;;
            send 403 (error_body "Security violation - Session revoked")
          else if decide (rt_expires rToken < env_now env)%Z then
            send 401 (error_body "Token expired")
          else
            user <- populated owner ;;
            rt <- generateRefreshToken env 0 user (req_ip req) ;;
            _ <- db_write (link_successor env (req_ip req) (fst rt) rToken) ;;
            let jwtToken := sign_access env user in
            ret (Sent (mkResponse 200 (JObj [("token", JStr jwtToken)])
                         [setTokenCookie env (fst rt)]))
      end)
  | None => send 401 (error_body "Token required")
  end.

Definition logout (env : Env) : Handler (Req unit) Empty_set := λ req,
  _ <- match req_refreshToken req with
       | Some token =>
           if decide (token = "") then ret tt else
           db_write (revoke_one env (req_ip req) token)
       | None => ret tt
       end ;;
  ret (Sent (mkResponse 200 (JObj [("message", JStr "Logged out")])
               [ClearCookie "refreshToken" "/api/auth"])).

End controllers.

(** ** Running a controller when the storage does not fail *)

Ltac run_handler :=
  unfold catch_next, try_catch, send, populated, generateRefreshToken, withTransaction;
  cbv beta delta [bind ret throw] ;
  repeat (rewrite ?db_read_no_faults, ?db_write_no_faults; cbn beta iota zeta).

Section functional.
Context `{Crypto} (cfg : Config).
Implicit Types (env : Env) (d : DB) (user : User) (rToken : RefreshToken).

(** *** login *)

Lemma login_run env (req : Req Credentials) d :
  login cfg env req (mkWorld d []) =
  match find_first (λ u, u_email u = cr_email (req_body req)) (users d) with
  | Some user =>
      if bcrypt_compare (cr_password (req_body req)) (u_password user) then
        (Ok (Sent (mkResponse 200
               (JObj [("token", JStr (sign_access cfg env user));
                      ("user", public_user user)])
               [setTokenCookie cfg env (raw_token env)])),
         mkWorld (set_refreshTokens (λ l, l ++ [new_row env 0 user (req_ip req)]) d) [])
      else (Ok (Sent (mkResponse 401 (error_body "Invalid credentials") [])), mkWorld d [])
  | None => (Ok (Sent (mkResponse 401 (error_body "Invalid credentials") [])), mkWorld d [])
  end.
Proof.
  unfold login. run_handler.
  destruct (find_first _ (users d)) as [user|]; [|done].
  destruct (bcrypt_compare _ _); [|done]. by run_handler.
Qed.

(** *** refreshToken *)

Lemma refreshToken_run env (req : Req unit) d :
  refreshToken cfg env req (mkWorld d []) =
  match req_refreshToken req with
  | None => (Ok (Sent (mkResponse 401 (error_body "Token required") [])), mkWorld d [])
  | Some token =>
    if decide (token = "")
    then (Ok (Sent (mkResponse 401 (error_body "Token required") [])), mkWorld d [])
    else
    match find_first (λ t, rt_tokenHash t = sha256_hex token) (refreshTokens d) with
    | None => (Ok (Sent (mkResponse 401 (error_body "Invalid token") [])), mkWorld d [])
    | Some rToken =>
      let owner := find_first (λ u, u_id u = rt_user rToken) (users d) in
      if decide (is_Some (rt_revoked rToken)) then
        match owner with
        | Some user =>
            (Ok (Sent (mkResponse 403
                   (error_body "Security violation - Session revoked") [])),
             mkWorld (revoke_family env (req_ip req) (u_id user) d) [])
        | None => (Ok (NextErr null_user_error), mkWorld d [])
        end
      else if decide (rt_expires rToken < env_now env)%Z then
        (Ok (Sent (mkResponse 401 (error_body "Token expired") [])), mkWorld d [])
      else
        match owner with
        | Some user =>
            (Ok (Sent (mkResponse 200 (JObj [("token", JStr (sign_access cfg env user))])
                   [setTokenCookie cfg env (raw_token env)])),
             mkWorld (rotate env (req_ip req) user rToken d) [])
        | None => (Ok (NextErr null_user_error), mkWorld d [])
        end
    end
  end.
Proof.
  unfold refreshToken. destruct (req_refreshToken req) as [token|]; [|done].
  case_decide; [done|]. run_handler.
  destruct (find_first _ (refreshTokens d)) as [rToken|]; [|done]. run_handler.
  destruct (find_first _ (users d)) as [user|]; repeat case_decide; by run_handler.
Qed.

(** *** logout *)

Lemma logout_run env (req : Req unit) d :
  logout env req (mkWorld d []) =
  (Ok (Sent (mkResponse 200 (JObj [("message", JStr "Logged out")])
          [ClearCookie "refreshToken" "/api/auth"])),
   mkWorld (match req_refreshToken req with
            | Some token =>
                if decide (token = "") then d else revoke_one env (req_ip req) token d
            | None => d
            end) []).
Proof.
  unfold logout. destruct (req_refreshToken req) as [token|]; [|done].
  case_decide; [done|]. by run_handler.
Qed.

(** *** register *)

(** The three documents of a registration. *)
Definition register_docs env (email hashed : string) (d : DB) : DB :=
  let user := mkUser (env_oid env 0) email hashed "user" auditDefault
                (env_now env) (env_now env) in
  set_lists (λ l, l ++ [mkList (env_oid env 2) "To Do" 0 (env_oid env 1) (env_oid env 0)
                          None None false auditDefault (env_now env) (env_now env)])
    (set_boards (λ l, l ++ [mkBoard (env_oid env 1) "Main Board" (Some "#1a73e8") false
                              (env_oid env 0) auditDefault (env_now env) (env_now env)])
       (set_users (λ l, l ++ [user]) d)).

Lemma register_run env (req : Req Credentials) d :
  register cfg env req (mkWorld d []) =
  let email := cr_email (req_body req) in
  match find_first (λ u, u_email u = email) (users d) with
  | Some _ =>
      (Ok (Sent (mkResponse 400 (error_body "User already exists") [])), mkWorld d [])
  | None =>
      let hashed := bcrypt_hash (cr_password (req_body req)) 12 (env_salt env) in
      let user := mkUser (env_oid env 0) email hashed "user" auditDefault
                    (env_now env) (env_now env) in
      (Ok (Sent (mkResponse 201
             (JObj [("token", JStr (sign_access cfg env user));
                    ("user", public_user user)])
             [setTokenCookie cfg env (raw_token env)])),
       mkWorld (set_refreshTokens (λ l, l ++ [new_row env 3 user (req_ip req)])
                  (register_docs env email hashed d)) [])
  end.
Proof.
  unfold register. run_handler.
  destruct (find_first _ (users d)) as [user|]; [done|].
  unfold register_writes. by run_handler.
Qed.

End functional.

(** ** Properties of the controllers *)

Section properties.
Context `{Crypto} (cfg : Config).
Implicit Types (env : Env) (d : DB) (user : User) (rToken : RefreshToken).

(** The value of the cookie a response sets, if it sets [refreshToken]. *)
Definition refresh_cookie (r : Response) : option string :=
  match res_cookies r with
  | [SetCookie "refreshToken" v _] => Some v
  | _ => None
  end.

(** C3. A login with valid credentials answers 200, sets the refresh
    cookie, and appends to the ledger exactly one row: an unrevoked row of
    the user whose [tokenHash] is the digest of the cookie's value. *)
Theorem login_stores_digest env (req : Req Credentials) d user :
  find_first (λ u, u_email u = cr_email (req_body req)) (users d) = Some user →
  bcrypt_compare (cr_password (req_body req)) (u_password user) = true →
  ∃ r d' tok row,
    login cfg env req (mkWorld d []) = (Ok (Sent r), mkWorld d' []) ∧
    res_status r = 200 ∧ refresh_cookie r = Some tok ∧
    refreshTokens d' = refreshTokens d ++ [row] ∧
    rt_tokenHash row = sha256_hex tok ∧ rt_user row = u_id user ∧
    rt_revoked row = None ∧ rt_expires row = (env_now env + seven_days)%Z.
Proof.
  intros Hu Hpw. rewrite login_run, Hu, Hpw.
  eexists _, _, (raw_token env), (new_row env 0 user (req_ip req)). by split_and!.
Qed.

(** C6. A login for an unknown address and a login with a wrong password
    get the same reply, and neither changes the world. *)
Theorem login_failure_uniform env (req1 req2 : Req Credentials) d user :
  find_first (λ u, u_email u = cr_email (req_body req1)) (users d) = None →
  find_first (λ u, u_email u = cr_email (req_body req2)) (users d) = Some user →
  bcrypt_compare (cr_password (req_body req2)) (u_password user) = false →
  login cfg env req1 (mkWorld d []) = login cfg env req2 (mkWorld d []) ∧
  login cfg env req1 (mkWorld d []) =
    (Ok (Sent (mkResponse 401 (error_body "Invalid credentials") [])), mkWorld d []).
Proof. intros H1 H2 Hpw. by rewrite !login_run, H1, H2, Hpw. Qed.

(** C1. Reuse detection: presenting a token whose row is already revoked
    answers 403 and revokes every row of the row's user, marking it
    [REUSE_VIOLATION]; the rows of other users are not touched. *)
Theorem refresh_reuse_revokes_family env (req : Req unit) d token rToken user :
  req_refreshToken req = Some token → token ≠ "" →
  find_first (λ t, rt_tokenHash t = sha256_hex token) (refreshTokens d) = Some rToken →
  is_Some (rt_revoked rToken) →
  find_first (λ u, u_id u = rt_user rToken) (users d) = Some user →
  ∃ d',
    refreshToken cfg env req (mkWorld d []) =
      (Ok (Sent (mkResponse 403 (error_body "Security violation - Session revoked") [])),
       mkWorld d' []) ∧
    length (refreshTokens d') = length (refreshTokens d) ∧
    ∀ i t, refreshTokens d !! i = Some t →
      ∃ t', refreshTokens d' !! i = Some t' ∧
        if decide (rt_user t = u_id user)
        then rt_revoked t' = Some (env_now env) ∧
             rt_replacedByToken t' = Some "REUSE_VIOLATION"
        else t' = t.
Proof.
  intros Hc Hne Hf Hrev Hu. rewrite refreshToken_run, Hc, decide_False, Hf by done.
  cbn zeta. rewrite decide_True, Hu by done. eexists. split; [done|].
  cbn. split; [by rewrite length_update_all|]. intros i t Hi.
  rewrite lookup_update_all, Hi. cbn. eexists; split; [done|]. by case_decide.
Qed.

(** C2. Rotation: presenting an unrevoked, unexpired token answers 200
    with a new cookie; the ledger gains exactly one row, whose digest is
    that of the new cookie, and the first row with the presented row's id
    is revoked and linked to the new digest. No other position changes. *)
Theorem refresh_rotates env (req : Req unit) d token rToken user :
  req_refreshToken req = Some token → token ≠ "" →
  find_first (λ t, rt_tokenHash t = sha256_hex token) (refreshTokens d) = Some rToken →
  rt_revoked rToken = None → (env_now env ≤ rt_expires rToken)%Z →
  find_first (λ u, u_id u = rt_user rToken) (users d) = Some user →
  ∃ r d' i old,
    refreshToken cfg env req (mkWorld d []) = (Ok (Sent r), mkWorld d' []) ∧
    res_status r = 200 ∧ refresh_cookie r = Some (raw_token env) ∧
    refreshTokens d !! i = Some old ∧ rt_id old = rt_id rToken ∧
    refreshTokens d' =
      <[i := revoke (env_now env) (req_ip req) (Some (sha256_hex (raw_token env))) old]>
        (refreshTokens d) ++ [new_row env 0 user (req_ip req)].
Proof.
  intros Hc Hne Hf Hrev Hexp Hu. rewrite refreshToken_run, Hc, decide_False, Hf by done.
  cbn zeta. rewrite Hu, decide_False by (rewrite Hrev; by intros [? ?]).
  rewrite decide_False by lia.
  destruct (find_first_Some _ _ _ Hf) as [Hin _].
  destruct (find_first_is_Some (λ t, rt_id t = rt_id rToken) _ _ Hin eq_refl) as [old Hold].
  destruct (update_first_insert _
    (revoke (env_now env) (req_ip req) (Some (sha256_hex (raw_token env)))) _ _ Hold)
    as (i & Hi & Hupd & _).
  destruct (find_first_Some _ _ _ Hold) as [_ Hid].
  eexists _, _, i, old. split_and!; [done..|].
  cbn. by rewrite update_first_app, Hold, Hupd.
Qed.

(** C7. A refresh that is answered 401 (no cookie, unknown token, expired
    token) leaves the database as it was. *)
Theorem refresh_401_unchanged env (req : Req unit) d r w' :
  refreshToken cfg env req (mkWorld d []) = (Ok (Sent r), w') →
  res_status r = 401 → w' = mkWorld d [].
Proof.
  rewrite refreshToken_run. intros Hrun Hs. cbv zeta in Hrun.
  destruct (req_refreshToken req) as [token|]; [|by simplify_eq].
  destruct (decide (token = "")); [by simplify_eq|].
  destruct (find_first _ (refreshTokens d)) as [rToken|]; [|by simplify_eq].
  destruct (find_first _ (users d)); repeat case_decide; by simplify_eq/=.
Qed.

End properties.

(** ** Exceptions: what is caught, what escapes, what a fault leaves behind *)

Section faults.
Context `{Crypto} (cfg : Config).
Implicit Types (env : Env) (d : DB) (w : World).

(** The users, boards and lists of two databases agree. *)
Definition same_core (d d' : DB) : Prop :=
  users d' = users d ∧ boards d' = boards d ∧ lists d' = lists d.

Lemma same_core_refl d : same_core d d.
Proof. done. Qed.

Lemma generateRefreshToken_core env n user ip w r w' :
  generateRefreshToken env n user ip w = (r, w') → same_core (w_db w) (w_db w').
Proof.
  unfold generateRefreshToken. intros Hg.
  destruct r as [a|e].
  - apply bind_inv_ok in Hg as (u & w1 & Hw & Hr). unfold ret in Hr. simplify_eq.
    by rewrite (db_write_ok_inv _ _ _ _ Hw).
  - apply bind_inv_throw in Hg as [Hw|(u & w1 & _ & Hr)]; [|done].
    by rewrite (db_call_throw_db _ _ _ _ Hw).
Qed.

Lemma register_writes_ok env email hashed w user w' :
  register_writes env email hashed w = (Ok user, w') →
  w_db w' = register_docs env email hashed (w_db w) ∧ u_id user = env_oid env 0.
Proof.
  unfold register_writes. intros (? & w1 & H1 & Hk)%bind_inv_ok.
  apply bind_inv_ok in Hk as (? & w2 & H2 & Hk).
  apply bind_inv_ok in Hk as (? & w3 & H3 & Hr). unfold ret in Hr. simplify_eq.
  apply db_write_ok_inv in H1, H2, H3. by rewrite H3, H2, H1.
Qed.

(** C4. Registration is atomic under every pattern of storage faults: when
    the handler is done, either the user, its board and its list have all
    been added, or the users, boards and lists are as they were. *)
Theorem register_atomic env (req : Req Credentials) w r w' :
  register cfg env req w = (r, w') →
  same_core (w_db w) (w_db w') ∨
  same_core (register_docs env (cr_email (req_body req))
               (bcrypt_hash (cr_password (req_body req)) 12 (env_salt env)) (w_db w))
            (w_db w').
Proof.
  unfold register, catch_next, try_catch, bind, send, ret.
  destruct (db_read _ w) as [[existing|e] w1] eqn:Hread;
    apply db_read_db in Hread; [|intros [= <- <-]; left; by rewrite Hread].
  destruct existing as [u|]; [intros [= <- <-]; left; by rewrite Hread|].
  destruct (withTransaction _ w1) as [[user|e] w2] eqn:Htx.
  - apply withTransaction_ok in Htx as (w3 & w4 & H3 & Hw & H4).
    apply register_writes_ok in Hw as [Hw _]. rewrite H3, Hread in Hw.
    destruct (generateRefreshToken _ _ _ _ w2) as [[rt|e] w5] eqn:Hg;
      apply generateRefreshToken_core in Hg; intros [= <- <-]; right;
      by rewrite <- Hw, <- H4.
  - apply withTransaction_throw in Htx. intros [= <- <-]. left. by rewrite Htx, Hread.
Qed.

(** The bodies of the three guarded handlers account for their failures:
    they end in a response when storage worked. *)
Lemma generateRefreshToken_accounted T env n user ip :
  accounted T (generateRefreshToken env n user ip) (λ _, True).
Proof.
  unfold generateRefreshToken. eapply accounted_bind; [apply accounted_db_call|].
  intros. by apply accounted_ret.
Qed.

Lemma register_writes_accounted T env email hashed :
  accounted T (register_writes env email hashed) (λ _, True).
Proof.
  unfold register_writes.
  repeat (eapply accounted_bind; [apply accounted_db_call|intros _ _]).
  by apply accounted_ret.
Qed.

Lemma populated_accounted owner :
  accounted (λ e, e = null_user_error) (populated owner) (λ _, True).
Proof. destruct owner; [by apply accounted_ret|by apply accounted_throw]. Qed.

(** C8. In [register], [login] and [refreshToken] an error is passed to
    [next(err)] and never swallowed: the handler sends a response only
    when every storage call it made succeeded; when one fails, it calls
    [next] with the error of that call and makes no further call; the
    one other error that reaches [next] is the [TypeError] of
    [refreshToken] on a token whose user is gone.  The handlers never
    throw and never call [next()]. *)
Theorem guarded_controllers_pass_errors env w :
  (∀ req, next_on_error (λ _, False) w (register cfg env req w)) ∧
  (∀ req, next_on_error (λ _, False) w (login cfg env req w)) ∧
  (∀ req, next_on_error (λ e, e = null_user_error) w (refreshToken cfg env req w)).
Proof.
  split_and!; intros req.
  - apply accounted_catch_next.
    eapply accounted_bind; [apply accounted_db_call|]. intros [u|] _.
    { apply accounted_ret. by eexists. }
    eapply accounted_bind;
      [apply accounted_withTransaction, register_writes_accounted|intros user _].
    eapply accounted_bind; [apply generateRefreshToken_accounted|intros rt _].
    apply accounted_ret. by eexists.
  - apply accounted_catch_next.
    eapply accounted_bind; [apply accounted_db_call|]. intros [user|] _;
      [destruct (bcrypt_compare _ _)|]; try (apply accounted_ret; by eexists).
    eapply accounted_bind; [apply generateRefreshToken_accounted|intros rt _].
    apply accounted_ret. by eexists.
  - unfold refreshToken. destruct (req_refreshToken req) as [token|];
      [|by apply clean_refl]. case_decide; [by apply clean_refl|].
    apply accounted_catch_next.
    eapply accounted_bind; [apply accounted_db_call|]. intros [rToken|] _;
      [|apply accounted_ret; by eexists].
    eapply accounted_bind; [apply accounted_db_call|]. intros owner _.
    repeat case_decide; try (apply accounted_ret; by eexists);
      (eapply accounted_bind; [apply populated_accounted|intros user _]).
    + eapply accounted_bind; [apply accounted_db_call|intros _ _].
      apply accounted_ret. by eexists.
    + eapply accounted_bind; [apply generateRefreshToken_accounted|intros rt _].
      eapply accounted_bind; [apply accounted_db_call|intros _ _].
      apply accounted_ret. by eexists.
Qed.

(** C5. [logout] has no [try]/[catch]: when the storage call fails, the
    exception leaves the handler, no response is sent and the cookie is
    not cleared. *)
Theorem logout_fault_escapes env (req : Req unit) token d fs :
  req_refreshToken req = Some token → token ≠ "" →
  logout env req (mkWorld d (true :: fs)) = (Throw db_error, mkWorld d fs).
Proof. intros Hc Hne. unfold logout. by rewrite Hc, decide_False. Qed.

End faults.

(** ** Witnesses: the theorems at the fixtures *)

Lemma login_stores_digest_witness :
  ∃ r d' tok row,
    login cfg0 env1 (creds "alice@example.org" "Passw0rd!") (mkWorld db0 []) =
      (Ok (Sent r), mkWorld d' []) ∧
    res_status r = 200 ∧ refresh_cookie r = Some tok ∧
    refreshTokens d' = refreshTokens db0 ++ [row] ∧
    rt_tokenHash row = sha256_hex tok ∧ rt_user row = u_id alice ∧
    rt_revoked row = None ∧ rt_expires row = (env_now env1 + seven_days)%Z.
Proof. apply (login_stores_digest cfg0 env1 _ db0 alice); by_compute. Defined.

Lemma login_failure_uniform_witness :
  login cfg0 env1 (creds "carol@example.org" "x") (mkWorld db0 []) =
  login cfg0 env1 (creds "alice@example.org" "wrong") (mkWorld db0 []) ∧
  login cfg0 env1 (creds "carol@example.org" "x") (mkWorld db0 []) =
    (Ok (Sent (mkResponse 401 (error_body "Invalid credentials") [])), mkWorld db0 []).
Proof. apply (login_failure_uniform cfg0 env1 _ _ db0 alice); by_compute. Defined.

Lemma refresh_reuse_revokes_family_witness :
  ∃ d',
    refreshToken cfg0 env3 (with_cookie (Some cookie1)) (mkWorld db2 []) =
      (Ok (Sent (mkResponse 403 (error_body "Security violation - Session revoked") [])),
       mkWorld d' []) ∧
    length (refreshTokens d') = length (refreshTokens db2) ∧
    ∀ i t, refreshTokens db2 !! i = Some t →
      ∃ t', refreshTokens d' !! i = Some t' ∧
        if decide (rt_user t = u_id alice)
        then rt_revoked t' = Some (env_now env3) ∧
             rt_replacedByToken t' = Some "REUSE_VIOLATION"
        else t' = t.
Proof.
  apply (refresh_reuse_revokes_family cfg0 env3 _ db2 cookie1
           (revoke 2000000 "10.0.0.2" (Some (sha256_hex cookie2)) row1) alice);
    by_compute.
Defined.

Lemma refresh_rotates_witness :
  ∃ r d' i old,
    refreshToken cfg0 env2 (with_cookie (Some cookie1)) (mkWorld db1 []) =
      (Ok (Sent r), mkWorld d' []) ∧
    res_status r = 200 ∧ refresh_cookie r = Some (raw_token env2) ∧
    refreshTokens db1 !! i = Some old ∧ rt_id old = rt_id row1 ∧
    refreshTokens d' =
      <[i := revoke (env_now env2) "10.0.0.2" (Some (sha256_hex (raw_token env2))) old]>
        (refreshTokens db1) ++ [new_row env2 0 alice "10.0.0.2"].
Proof.
  apply (refresh_rotates cfg0 env2 (with_cookie (Some cookie1)) db1 cookie1 row1 alice);
    by_compute.
Defined.

Lemma refresh_401_unchanged_witness :
  mkWorld db1 [] = mkWorld db1 [].
Proof.
  apply (refresh_401_unchanged cfg0 env_late (with_cookie (Some cookie1)) db1
           (mkResponse 401 (error_body "Token expired") [])); by_compute.
Defined.

Lemma register_atomic_witness :
  let w := mkWorld db0 [false; false; false; false; true] in
  let w' := (register cfg0 env1 (creds "carol@example.org" "Passw0rd!") w).2 in
  same_core db0 (w_db w') ∨
  same_core (register_docs env1 "carol@example.org"
               (bcrypt_hash "Passw0rd!" 12 (env_salt env1)) db0) (w_db w').
Proof.
  intros w w'.
  apply (register_atomic cfg0 env1 (creds "carol@example.org" "Passw0rd!") w
           (register cfg0 env1 (creds "carol@example.org" "Passw0rd!") w).1 w').
  apply surjective_pairing.
Defined.

Lemma logout_fault_escapes_witness :
  logout env2 (with_cookie (Some cookie1)) (mkWorld db1 [true]) =
  (Throw db_error, mkWorld db1 []).
Proof. by apply (logout_fault_escapes env2 _ cookie1 db1 []). Defined.

(** The write of [login] fails after its read succeeded: the storage error
    reaches [next], and the faults consumed are one success and that
    failure. *)
Lemma guarded_controllers_pass_errors_witness :
  reported (λ _, False) (mkWorld db0 [false; true]) db_error (mkWorld db0 []).
Proof.
  exact (proj1 (proj2 (guarded_controllers_pass_errors cfg0 env1 (mkWorld db0 [false; true])))
           (creds "alice@example.org" "Passw0rd!")).
Defined.
