(* ===== verification/Sessions.v ===== *)
(** * Sessions: the life of a refresh token, over any sequence of requests

    The controllers of src/backend/controllers/authController.js, taken
    together as a state machine on the ledger of refresh tokens.

    - [Phase], [phase], [lifecycle]: what a row of the ledger says of its
      token (active, rotated with the digest of its successor, revoked by
      a logout, revoked for reuse), and the moves the controllers make.
    - [grows]: the order of ledgers that the controllers respect: rows stay
      where they are and keep what identifies them, their phases move along
      [lifecycle], and new rows come at the end.
    - [Call], [run], [session_step], [sessions]: one request to a route of
      the session protocol as a step of the world, with arbitrary faults of
      the storage, and the sequences of such steps.
    - [Ledger], [abstract], [a_login], [a_refresh], [a_logout]: the
      protocol on what matters of a row (digest, user, expiry, phase), as
      the specification states it, and the theorems that the controllers
      implement it.
    - [refresh_lookup], [refresh_decide]: the two halves of [refreshToken]
      on either side of its first [await], for the requests that interleave
      there. *)

From S2P Require Import Prelude Json Crypto Models Express Hoare Schemas Fixtures.
From S2P Require Import AuthController.

(** ** The phases of a row *)

Inductive Phase :=
| Active
| Rotated (successor : string)
| LoggedOut
| Killed.

#[export] Instance Phase_eq_dec : EqDecision Phase.
Proof. solve_decision. Defined.

(** What [revoked] and [replacedByToken] of a row say. *)
Definition phase (t : RefreshToken) : Phase :=
  match rt_revoked t, rt_replacedByToken t with
  | None, _ => Active
  | Some _, None => LoggedOut
  | Some _, Some h => if decide (h = "REUSE_VIOLATION") then Killed else Rotated h
  end.

(** The moves of a row: a rotation or a logout of an active row, and the
    revocation of a family, which takes every row of the user whatever its
    phase. *)
Inductive lifecycle : relation Phase :=
| lc_rotate h : lifecycle Active (Rotated h)
| lc_logout : lifecycle Active LoggedOut
| lc_kill p : lifecycle p Killed.

(** No move, or one. *)
Definition ages (p p' : Phase) : Prop := p = p' ∨ lifecycle p p'.

(** What identifies a row and never changes. *)
Definition same_token (t t' : RefreshToken) : Prop :=
  rt_id t' = rt_id t ∧ rt_user t' = rt_user t ∧ rt_tokenHash t' = rt_tokenHash t ∧
  rt_expires t' = rt_expires t ∧ rt_created t' = rt_created t ∧
  rt_createdByIp t' = rt_createdByIp t.

Definition aged (t t' : RefreshToken) : Prop :=
  same_token t t' ∧ ages (phase t) (phase t').

(** [l'] is [l] later: the rows of [l] in place and aged, then new rows. *)
Definition grows (l l' : list RefreshToken) : Prop :=
  ∃ l1 l2, l' = l1 ++ l2 ∧ Forall2 aged l l1.

Definition ledger (d : DB) : list RefreshToken := refreshTokens d.

(** The ledger of [d'] is that of [d] later. *)
Definition later (d d' : DB) : Prop := grows (ledger d) (ledger d').

(** The ids of the rows are distinct. *)
Definition distinct_ids (d : DB) : Prop := NoDup (rt_id <$> ledger d).

(** *** The order *)

Lemma lifecycle_trans p q r : lifecycle p q → lifecycle q r → lifecycle p r.
Proof. destruct 1; inversion 1; constructor. Qed.

#[export] Instance ages_preorder : PreOrder ages.
Proof.
  split; [by left|]. intros p q r [->|Hpq] [->|Hqr]; [by left|by right..|].
  right. by eapply lifecycle_trans.
Qed.

#[export] Instance same_token_preorder : PreOrder same_token.
Proof.
  split; [done|]. intros t1 t2 t3 (?&?&?&?&?&?) (?&?&?&?&?&?).
  unfold same_token. split_and!; congruence.
Qed.

#[export] Instance aged_preorder : PreOrder aged.
Proof.
  split; [by split|]. intros t1 t2 t3 [? ?] [? ?]. split; by etrans.
Qed.

#[export] Instance grows_preorder : PreOrder grows.
Proof.
  split.
  - intros l. exists l, []. split; [by rewrite app_nil_r|]. by apply Forall_Forall2_diag, Forall_forall.
  - intros l l' l'' (l1 & l2 & -> & H1) (m1 & m2 & -> & H2).
    apply Forall2_app_inv_l in H2 as (m1a & m1b & Ha & _ & ->).
    exists m1a, (m1b ++ m2). split; [by rewrite <- (assoc _)|].
    by etrans.
Qed.

#[export] Instance later_preorder : PreOrder later.
Proof. split; [intros d|intros d1 d2 d3]; unfold later; [done|by etrans]. Qed.

(** *** What the writes of the controllers do to a row *)

(** Revoking a row ages it, unless it gives a successor to a row that is
    not active. *)
Lemma aged_revoke now ip r t :
  (is_Some r → r = Some "REUSE_VIOLATION" ∨ phase t = Active) →
  aged t (revoke now ip r t).
Proof.
  intros Hr. split; [done|]. unfold ages, phase, revoke in *. cbn.
  destruct r as [h|], (rt_revoked t), (rt_replacedByToken t) as [h'|];
    repeat case_decide; subst;
    first [by left | by right; constructor | destruct Hr as [[=]|]; done ].
Qed.

(** A pointwise update by a function that ages the rows it is applied to. *)
Lemma pointwise_aged (P : RefreshToken → Prop) f l l' :
  pointwise P f l l' → (∀ t, t ∈ l → P t → aged t (f t)) → Forall2 aged l l'.
Proof.
  intros Hp Hf. apply Forall2_elem_of_l in Hp. eapply Forall2_impl; [exact Hp|].
  intros t t' [Hin [->|[HP ->]]]; [done|by apply Hf].
Qed.

Lemma grows_same_length l l' : Forall2 aged l l' → grows l l'.
Proof. intros Hl. exists l', []. by rewrite app_nil_r. Qed.

Lemma grows_snoc l l' t : Forall2 aged l l' → grows l (l' ++ [t]).
Proof. intros Hl. by exists l', [t]. Qed.

(** Rows that are kept keep their ids and their digests. *)
Lemma aged_ids l l' : Forall2 aged l l' → rt_id <$> l' = rt_id <$> l.
Proof. apply Forall2_fmap_eq. by intros t t' [(? & _) _]. Qed.

Lemma aged_hashes l l' : Forall2 aged l l' → rt_tokenHash <$> l' = rt_tokenHash <$> l.
Proof. apply Forall2_fmap_eq. by intros t t' [(? & ? & ? & _) _]. Qed.

(** The first row with the id of a row of the ledger is that row, when
    ids are distinct. *)
Lemma find_first_id l t :
  NoDup (rt_id <$> l) → t ∈ l → find_first (λ x, rt_id x = rt_id t) l = Some t.
Proof.
  intros Hnd Hin. destruct (find_first_is_Some (λ x, rt_id x = rt_id t) l t Hin eq_refl)
    as [x Hx]. rewrite Hx. f_equal.
  apply find_first_Some in Hx as [Hx Hid]. by eapply NoDup_fmap_eq.
Qed.

(** ** The writes of the controllers, on the ledger *)

(** The rows of [d'] are those of [d], aged. *)
Definition same_rows (d d' : DB) : Prop := Forall2 aged (ledger d) (ledger d').

(** The id of the [n]-th document of a request is not in use in the
    ledger: ObjectIds are not drawn twice. *)
Definition fresh_ids (env : Env) (d : DB) : Prop :=
  ∀ n, env_oid env n ∉ rt_id <$> ledger d.

(** What holds of the ledger since it was [d0]. *)
Definition since (d0 d : DB) : Prop := later d0 d ∧ distinct_ids d.

Section writes.
Context `{Crypto}.
Implicit Types (env : Env) (d : DB) (user : User) (rToken : RefreshToken).

Lemma same_rows_later d d' : same_rows d d' → later d d'.
Proof. apply grows_same_length. Qed.

Lemma same_rows_distinct d d' : same_rows d d' → distinct_ids d → distinct_ids d'.
Proof. unfold distinct_ids. by intros ->%aged_ids. Qed.

Lemma same_rows_fresh env d d' : same_rows d d' → fresh_ids env d → fresh_ids env d'.
Proof. unfold fresh_ids. by intros ->%aged_ids. Qed.

Lemma since_rows d0 d d' : same_rows d d' → since d0 d → since d0 d'.
Proof.
  intros Hr [Hl Hd]. split; [etrans; [done|by apply same_rows_later]|].
  by eapply same_rows_distinct.
Qed.

Lemma since_append d0 d t :
  rt_id t ∉ rt_id <$> ledger d → since d0 d →
  since d0 (set_refreshTokens (λ l, l ++ [t]) d).
Proof.
  intros Hid [Hl Hd]. split; [etrans; [done|by apply grows_snoc]|].
  unfold distinct_ids, ledger in *. cbn. rewrite fmap_app. apply NoDup_app.
  split_and!; [done| |apply NoDup_singleton]. by intros x Hx ->%list_elem_of_singleton.
Qed.

Lemma rows_revoke_family env ip uid d : same_rows d (revoke_family env ip uid d).
Proof.
  eapply pointwise_aged; [apply pointwise_update_all|].
  intros t _ _. apply aged_revoke. by left.
Qed.

Lemma rows_revoke_one env ip token d : same_rows d (revoke_one env ip token d).
Proof.
  eapply pointwise_aged; [apply pointwise_update_first|].
  intros t _ _. apply aged_revoke. by intros [? [=]].
Qed.

(** The link of a rotation is written to a row that is active, when ids
    are distinct. *)
Lemma rows_link_successor env ip h rToken d :
  rToken ∈ ledger d → rt_revoked rToken = None → distinct_ids d →
  same_rows d (link_successor env ip h rToken d).
Proof.
  intros Hin Hrev Hnd. eapply pointwise_aged; [apply pointwise_update_first|].
  intros t Ht Hid. apply aged_revoke. intros _. right.
  assert (t = rToken) as -> by (by eapply NoDup_fmap_eq).
  unfold phase. by rewrite Hrev.
Qed.

End writes.

(** ** The controllers keep the ledger *)

(** A transaction keeps what its body keeps, and on an exception what held
    before it. *)
Lemma triple_withTransaction {A} (P : DB → Prop) (Q : A → DB → Prop) E
    (fn : M World Err A) :
  triple P fn Q (λ _, True) → (∀ d, P d → E d) → triple P (withTransaction fn) Q E.
Proof.
  intros Hfn HE w [a|e] w' HP Hrun.
  - apply withTransaction_ok in Hrun as (w1 & w2 & H1 & Hrun & ->).
    rewrite <- H1 in HP. apply (Hfn _ _ _ HP Hrun).
  - apply withTransaction_throw in Hrun as ->. by apply HE.
Qed.

Section machine.
Context `{Crypto} (cfg : Config).
Implicit Types (env : Env) (d : DB) (user : User) (rToken : RefreshToken).

(** [generateRefreshToken] appends a row, or throws. *)
Lemma generateRefreshToken_since d0 env n user ip (P : DB → Prop) :
  (∀ d t, P d → P (set_refreshTokens (λ l, l ++ [t]) d)) →
  triple (λ d, (since d0 d ∧ fresh_ids env d) ∧ P d) (generateRefreshToken env n user ip)
    (λ _ d, since d0 d ∧ P d) (since d0).
Proof.
  intros HP. unfold generateRefreshToken.
  apply triple_bind with (R := λ _ d, since d0 d ∧ P d);
    [|by intros []; apply triple_ret].
  apply triple_db_write; [|by intros d [[? _] _]].
  intros d [[Hs Hf] Hd]. split; [apply since_append; [apply Hf|done]|by apply HP].
Qed.

Lemma login_since d0 env req :
  triple (λ d, since d0 d ∧ fresh_ids env d) (login cfg env req)
    (λ _, since d0) (since d0).
Proof.
  unfold login. apply triple_catch_next with (E' := since d0); [|done].
  apply triple_bind_read; [|by intros d []]. intros [user|];
    [|by apply triple_ret; intros d [[] _]].
  destruct (bcrypt_compare _ _); [|by apply triple_ret; intros d [[] _]].
  eapply triple_bind.
  - eapply triple_pre; [apply (generateRefreshToken_since d0 env 0 user _ (λ _, True))|];
      [done|by intros d [? _]].
  - intros rt. apply triple_ret. by intros d [? _].
Qed.

Lemma logout_since d0 env req :
  triple (since d0) (logout env req) (λ _, since d0) (since d0).
Proof.
  unfold logout. apply triple_bind with (R := λ _, since d0);
    [|by intros ?; apply triple_ret].
  destruct (req_refreshToken req) as [token|]; [|by apply triple_ret].
  case_decide; [by apply triple_ret|].
  apply triple_db_write; [|done]. intros d. apply since_rows, rows_revoke_one.
Qed.

(** What [refreshToken] knows of the row it found when it writes. *)
Definition found_active (rToken : RefreshToken) (d : DB) : Prop :=
  rToken ∈ ledger d ∧ rt_revoked rToken = None.

Lemma refreshToken_since d0 env req :
  triple (λ d, since d0 d ∧ fresh_ids env d) (refreshToken cfg env req)
    (λ _, since d0) (since d0).
Proof.
  unfold refreshToken. destruct (req_refreshToken req) as [token|];
    [|by apply triple_ret; intros d []].
  case_decide; [by apply triple_ret; intros d []|].
  apply triple_catch_next with (E' := since d0); [|done].
  apply triple_bind_read; [|by intros d []]. intros [rToken|];
    [|by apply triple_ret; intros d [[] _]].
  apply triple_bind_read; [|by intros d [[] _]]. intros owner.
  case_decide as Hrev.
  { eapply triple_bind with (R := λ _, since d0).
    - destruct owner; [apply triple_ret|apply triple_throw]; by intros d [[[] _] _].
    - intros user. eapply triple_bind with (R := λ _, since d0);
        [|by intros ?; apply triple_ret].
      apply triple_db_write; [|done]. intros d. apply since_rows, rows_revoke_family. }
  case_decide; [by apply triple_ret; intros d [[[] _] _]|].
  apply triple_bind with
    (R := λ _ d, (since d0 d ∧ fresh_ids env d) ∧ found_active rToken d).
  { destruct owner; [apply triple_ret|apply triple_throw];
      intros d [[[Hs Hf] Hfound] _]; [|done]. split; [done|].
    symmetry in Hfound. apply find_first_Some in Hfound as [Hin _].
    split; [done|]. by destruct (rt_revoked rToken); [destruct Hrev|]. }
  intros user. eapply triple_bind.
  { apply (generateRefreshToken_since d0 env 0 user _ (found_active rToken)).
    intros d t [Hin Hr]. split; [|done]. unfold ledger. cbn. set_solver. }
  intros rt. eapply triple_bind with (R := λ _, since d0);
    [|by intros ?; apply triple_ret].
  apply triple_db_write; [|by intros d []]. intros d [Hs [Hin Hr]].
  eapply since_rows; [|done]. apply rows_link_successor; [done..|apply Hs].
Qed.

(** The transaction of [register] does not write to the ledger. *)
Lemma register_writes_ledger (I : DB → Prop) env email hashed :
  (∀ d d', ledger d' = ledger d → I d → I d') →
  triple I (register_writes env email hashed) (λ _, I) (λ _, True).
Proof.
  intros HI. unfold register_writes. cbv zeta.
  repeat (eapply triple_bind with (R := λ _, I);
          [apply triple_db_write; [intros d; by apply HI|done]|intros ?]).
  by apply triple_ret.
Qed.

Lemma register_since d0 env req :
  triple (λ d, since d0 d ∧ fresh_ids env d) (register cfg env req)
    (λ _, since d0) (since d0).
Proof.
  unfold register. cbv zeta. apply triple_catch_next with (E' := since d0); [|done].
  apply triple_bind_read; [|by intros d []]. intros [existing|];
    [by apply triple_ret; intros d [[] _]|].
  apply triple_bind with (R := λ _ d, since d0 d ∧ fresh_ids env d).
  - apply triple_withTransaction; [|by intros d [[] _]].
    eapply triple_pre; [apply register_writes_ledger|by intros d [? _]].
    unfold since, later, distinct_ids, fresh_ids. by intros d d' ->.
  - intros user. eapply triple_bind.
    + eapply triple_pre; [apply (generateRefreshToken_since d0 env 3 user _ (λ _, True))|];
        [done|by intros d ?].
    + intros rt. apply triple_ret. by intros d [? _].
Qed.

(** ** The state machine

    One step is one request to a route of the session protocol, handled to
    its end, at any moment, from any address, with any cookie and any
    body, and with any faults of the storage. *)

Inductive session_step : relation World :=
| step_register env req w r w' :
    fresh_ids env (w_db w) → register cfg env req w = (r, w') → session_step w w'
| step_login env req w r w' :
    fresh_ids env (w_db w) → login cfg env req w = (r, w') → session_step w w'
| step_refresh env req w r w' :
    fresh_ids env (w_db w) → refreshToken cfg env req w = (r, w') → session_step w w'
| step_logout env req w r w' :
    logout env req w = (r, w') → session_step w w'.

Definition sessions : relation World := rtc session_step.

(** What a triple says of a run. *)
Lemma triple_run {A} (P : DB → Prop) (I : DB → Prop) (m : M World Err A) w r w' :
  triple P m (λ _, I) I → P (w_db w) → m w = (r, w') → I (w_db w').
Proof. intros Hm HP Hrun. specialize (Hm _ _ _ HP Hrun). by destruct r. Qed.

Lemma session_step_since d0 w w' :
  session_step w w' → since d0 (w_db w) → since d0 (w_db w').
Proof.
  intros [env req ?? ? Hf Hrun|env req ?? ? Hf Hrun|env req ?? ? Hf Hrun|env req ?? ? Hrun] Hs.
  - by eapply triple_run; [apply (register_since d0 env req)|..].
  - by eapply triple_run; [apply (login_since d0 env req)|..].
  - by eapply triple_run; [apply (refreshToken_since d0 env req)|..].
  - by eapply triple_run; [apply (logout_since d0 env req)|..].
Qed.

Lemma sessions_since d0 w w' :
  sessions w w' → since d0 (w_db w) → since d0 (w_db w').
Proof.
  induction 1 as [w|w1 w2 w3 Hstep Hrun IH]; [done|].
  intros Hs. by eapply IH, session_step_since.
Qed.

Lemma sessions_later w w' :
  sessions w w' → distinct_ids (w_db w) → later (w_db w) (w_db w').
Proof. intros Hrun Hd. by apply (sessions_since (w_db w) w w' Hrun). Qed.

(** In a later ledger, the first row with a digest is the same row,
    aged. *)
Lemma grows_find_first h l l' t :
  grows l l' → find_first (λ x, rt_tokenHash x = h) l = Some t →
  ∃ t', find_first (λ x, rt_tokenHash x = h) l' = Some t' ∧ aged t t'.
Proof.
  intros (l1 & l2 & -> & Hl) Hfind. rewrite find_first_app.
  cut (∃ t', find_first (λ x, rt_tokenHash x = h) l1 = Some t' ∧ aged t t').
  { intros (t' & -> & ?). eauto. }
  induction Hl as [|x x' l l1 Hx Hl IH]; [done|]. cbn in *.
  destruct Hx as [(? & ? & Hh & ?) ?]. rewrite Hh.
  case_decide; simplify_eq; [by eexists|by apply IH].
Qed.

(** A row that is revoked stays revoked. *)
Lemma aged_revoked t t' : aged t t' → is_Some (rt_revoked t) → is_Some (rt_revoked t').
Proof.
  intros [_ Hp] [now Hrev]. unfold ages, phase in Hp. rewrite Hrev in Hp.
  destruct (rt_revoked t'); [done|].
  destruct (rt_replacedByToken t); [case_decide|]; destruct Hp as [|Hp]; by try inversion Hp.
Qed.

(** What a refresh that is turned away answers: 403 without a cookie, or
    the error of a storage call, which becomes a 500. *)
Definition turned_away (r : Reply Empty_set) : Prop :=
  match r with
  | Sent r => res_status r = 403 ∧ res_cookies r = []
  | NextErr _ => True
  | Next _ => False
  end.

(** A refresh with a token whose row is revoked is turned away, however
    the storage fails. *)
Lemma refreshToken_revoked env req token t :
  req_refreshToken req = Some token → token ≠ "" → is_Some (rt_revoked t) →
  triple (λ d, find_first (λ x, rt_tokenHash x = sha256_hex token) (ledger d) = Some t)
    (refreshToken cfg env req) (λ r _, turned_away r) (λ _, False).
Proof.
  intros Hc Hne Hrev. unfold refreshToken. rewrite Hc, decide_False by done.
  apply triple_catch_next with (E' := λ _, True); [|done].
  apply triple_bind_read; [|done]. intros found.
  apply triple_pre with (P' := λ d, found = Some t ∧ True);
    [|intros d [Hd ->]; split; [exact Hd|done]].
  apply triple_frame_pure. intros ->.
  apply triple_bind with (R := λ _ _, True); [by apply triple_db_read|]. intros owner.
  rewrite decide_True by done.
  apply triple_bind with (R := λ _ _, True);
    [by destruct owner; [apply triple_ret|apply triple_throw]|]. intros user.
  apply triple_bind with (R := λ _ _, True); [by apply triple_db_write|].
  intros _. by apply triple_ret.
Qed.

End machine.

(** ** The ledger over any sequence of requests *)

Section properties.
Context `{Crypto} (cfg : Config).

(** C98. Rows of the ledger are never deleted.  Over any sequence of
    requests to register, login, refresh and logout, whatever the requests
    carry and however the storage fails, every row stays at its place with
    its id, user, digest, expiry and creation; its phase does not move or
    moves once along the life of a token (an active row is rotated or
    logged out, any row is revoked for reuse); the ledger does not get
    shorter. *)
Theorem ledger_append_only w w' :
  sessions cfg w w' → distinct_ids (w_db w) →
  length (ledger (w_db w)) ≤ length (ledger (w_db w')) ∧
  ∀ i t, ledger (w_db w) !! i = Some t →
    ∃ t', ledger (w_db w') !! i = Some t' ∧ same_token t t' ∧ ages (phase t) (phase t').
Proof.
  intros Hrun Hd. destruct (sessions_later cfg _ _ Hrun Hd) as (l1 & l2 & -> & Hl).
  split; [rewrite length_app, <- (Forall2_length _ _ _ Hl); lia|].
  intros i t Hi. destruct (Forall2_lookup_l _ _ _ _ _ Hl Hi) as (t' & Hi' & Ht).
  exists t'. split; [by apply lookup_app_l_Some|done].
Qed.

(** C97. A token that was revoked is never honoured again.  Once the row
    of a token is revoked (rotated, logged out or revoked for reuse), a
    refresh that presents the token is turned away in every state the
    server can reach by requests to the session routes: it is answered 403
    without a cookie, or fails on the storage; it is never given an access
    token or a new refresh token. *)
Theorem revoked_token_stays_dead w w' token t env req out w'' :
  sessions cfg w w' → distinct_ids (w_db w) →
  find_first (λ x, rt_tokenHash x = sha256_hex token) (ledger (w_db w)) = Some t →
  is_Some (rt_revoked t) →
  req_refreshToken req = Some token → token ≠ "" →
  refreshToken cfg env req w' = (out, w'') →
  ∃ r, out = Ok r ∧ turned_away r.
Proof.
  intros Hrun Hd Hfind Hrev Hc Hne Hout.
  destruct (grows_find_first _ _ _ _ (sessions_later cfg _ _ Hrun Hd) Hfind)
    as (t' & Hfind' & Ht).
  pose proof (refreshToken_revoked cfg env req token t' Hc Hne (aged_revoked _ _ Ht Hrev)
                _ _ _ Hfind' Hout) as Hr.
  destruct out as [r|e]; [by exists r|done].
Qed.

(** The first row with a digest, after the family of [uid] was revoked. *)
Lemma find_first_revoke_family h env ip uid d :
  find_first (λ x, rt_tokenHash x = h) (ledger (revoke_family env ip uid d))
  = (λ t, if decide (rt_user t = uid)
          then revoke (env_now env) ip (Some "REUSE_VIOLATION") t else t)
    <$> find_first (λ x, rt_tokenHash x = h) (ledger d).
Proof.
  unfold ledger, revoke_family, update_all. cbn.
  induction (refreshTokens d) as [|t l IH]; [done|]. csimpl.
  destruct (decide (rt_user t = uid)); cbn;
    (destruct (decide (rt_tokenHash t = h)); [|exact IH]); cbn;
    by rewrite ?decide_True, ?decide_False by done.
Qed.

(** C96. Replaying a token that was rotated ends every session of its
    user: the replay is answered 403, and so is, from then on, a refresh
    with any other token of the same user, the newest included, which was
    active until the replay. *)
Theorem replay_kills_family env env' (req req' : Req unit) d c1 c2 t1 t2 user :
  req_refreshToken req = Some c1 → c1 ≠ "" →
  req_refreshToken req' = Some c2 → c2 ≠ "" →
  find_first (λ x, rt_tokenHash x = sha256_hex c1) (ledger d) = Some t1 →
  is_Some (rt_revoked t1) →
  find_first (λ x, rt_tokenHash x = sha256_hex c2) (ledger d) = Some t2 →
  rt_user t2 = rt_user t1 →
  find_first (λ u, u_id u = rt_user t1) (users d) = Some user →
  let forbidden := mkResponse 403 (error_body "Security violation - Session revoked") [] in
  let d' := revoke_family env (req_ip req) (u_id user) d in
  refreshToken cfg env req (mkWorld d []) = (Ok (Sent forbidden), mkWorld d' []) ∧
  refreshToken cfg env' req' (mkWorld d' [])
  = (Ok (Sent forbidden), mkWorld (revoke_family env' (req_ip req') (u_id user) d') []).
Proof.
  intros Hc1 Hne1 Hc2 Hne2 Hf1 Hrev Hf2 Hu Huser forbidden d'.
  pose proof (find_first_Some _ _ _ Huser) as [_ Hid]. cbn in Hid.
  split.
  - rewrite refreshToken_run, Hc1, decide_False by done. unfold ledger in Hf1.
    rewrite Hf1. cbn zeta. by rewrite decide_True, Huser.
  - rewrite refreshToken_run, Hc2, decide_False by done.
    pose proof (find_first_revoke_family (sha256_hex c2) env (req_ip req) (u_id user) d)
      as Hf. unfold ledger in Hf, Hf2. fold d' in Hf. rewrite Hf, Hf2. cbn zeta.
    cbn [fmap option_fmap option_map].
    rewrite (decide_True (P := rt_user t2 = u_id user)) by congruence.
    rewrite decide_True by (by eexists). cbn [rt_user revoke].
    change (users d') with (users d). by rewrite Hu, Huser.
Qed.

End properties.

(** ** Two refreshes at once

    [refreshToken] awaits the storage three times: for the row with its
    user, for the row of the successor, and for the link.  Node runs
    another request while one waits, so two refreshes can both have read
    the row before either has written. *)

Section race.
Context `{Crypto} (cfg : Config).
Implicit Types (env : Env) (d : DB) (user : User) (rToken : RefreshToken).

(** [await RefreshToken.findOne({ tokenHash }).populate('user')]. *)
Definition refresh_lookup (token : string)
    : M World Err (option (RefreshToken * option User)) :=
  found <- db_read (λ d, find_first (λ t, rt_tokenHash t = sha256_hex token)
                           (refreshTokens d)) ;;
  match found with
  | None => ret None
  | Some rToken =>
      owner <- db_read (λ d, find_first (λ u, u_id u = rt_user rToken) (users d)) ;;
      ret (Some (rToken, owner))
  end.

(** What [refreshToken] does with what it has read. *)
Definition refresh_decide (env : Env) (req : Req unit)
    (found : option (RefreshToken * option User)) : M World Err (Reply Empty_set) :=
  match found with
  | None => send 401 (error_body "Invalid token")
  | Some (rToken, owner) =>
      if decide (is_Some (rt_revoked rToken)) then
        user <- populated owner ;;
        _ <- db_write (revoke_family env (req_ip req) (u_id user)) ;;
        send 403 (error_body "Security violation - Session revoked")
      else if decide (rt_expires rToken < env_now env)%Z then
        send 401 (error_body "Token expired")
      else
        user <- populated owner ;;
        rt <- generateRefreshToken env 0 user (req_ip req) ;;
        _ <- db_write (link_successor env (req_ip req) (fst rt) rToken) ;;
        let jwtToken := sign_access cfg env user in
        ret (Sent (mkResponse 200 (JObj [("token", JStr jwtToken)])
                     [setTokenCookie cfg env (fst rt)]))
  end.

(** Two refreshes with the same cookie, the second reading before the
    first writes. *)
Definition refresh_twice (env1 env2 : Env) (req1 req2 : Req unit) (token : string)
    : M World Err (Reply Empty_set * Reply Empty_set) :=
  found1 <- refresh_lookup token ;;
  found2 <- refresh_lookup token ;;
  r1 <- catch_next (refresh_decide env1 req1 found1) ;;
  r2 <- catch_next (refresh_decide env2 req2 found2) ;;
  ret (r1, r2).

(** C95. [refreshToken] is its two halves one after the other. *)
Theorem refreshToken_halves env req token w :
  req_refreshToken req = Some token → token ≠ "" →
  refreshToken cfg env req w
  = catch_next (found <- refresh_lookup token ;; refresh_decide env req found) w.
Proof.
  intros Hc Hne. unfold refreshToken. rewrite Hc, decide_False by done.
  unfold catch_next, try_catch, refresh_lookup, bind.
  destruct (db_read _ w) as [[[rToken|]|e] w1]; [|done..].
  by destruct (db_read _ w1) as [[owner|e] w2].
Qed.

End race.

(** ** Witnesses *)

(** The ids [oids p] gives are not in a ledger none of whose ids starts
    with [p]. *)
Lemma oids_fresh p now r s d :
  forallb (λ t, negb (startsWith p (rt_id t))) (ledger d) = true →
  fresh_ids (mkEnv now r s (oids p)) d.
Proof.
  intros Hall n [t [Hid Hin]]%list_elem_of_fmap. rewrite forallb_forall in Hall.
  apply list_elem_of_In, Hall in Hin. cbn in Hid. rewrite <- Hid in Hin.
  unfold oids in Hin. by rewrite startsWith_app in Hin.
Qed.

(** Alice's first cookie is rotated at [env2]; then it is presented again
    at [env3], which revokes her family. *)
Definition after_rotation : World :=
  (refreshToken cfg0 env2 (with_cookie (Some cookie1)) (mkWorld db1 [])).2.

Definition after_replay : World :=
  (refreshToken cfg0 env3 (with_cookie (Some cookie1)) after_rotation).2.

Lemma rotation_then_replay : sessions cfg0 (mkWorld db1 []) after_replay.
Proof.
  eapply rtc_l; [|apply rtc_once].
  - apply (step_refresh cfg0 env2 (with_cookie (Some cookie1)) _
             (refreshToken cfg0 env2 (with_cookie (Some cookie1)) (mkWorld db1 [])).1
             after_rotation); [|apply surjective_pairing].
    by apply oids_fresh.
  - apply (step_refresh cfg0 env3 (with_cookie (Some cookie1)) _
             (refreshToken cfg0 env3 (with_cookie (Some cookie1)) after_rotation).1
             after_replay); [|apply surjective_pairing].
    by apply oids_fresh.
Qed.

Lemma ledger_append_only_witness :
  length (ledger db1) ≤ length (ledger (w_db after_replay)) ∧
  ∀ i t, ledger db1 !! i = Some t →
    ∃ t', ledger (w_db after_replay) !! i = Some t' ∧ same_token t t'
          ∧ ages (phase t) (phase t').
Proof.
  apply (ledger_append_only cfg0 (mkWorld db1 []) after_replay rotation_then_replay).
  apply (bool_decide_unpack _). by vm_compute.
Defined.

Lemma revoked_token_stays_dead_witness :
  ∃ r, (refreshToken cfg0 env_late (with_cookie (Some cookie1)) after_replay).1 = Ok r
       ∧ turned_away r.
Proof.
  refine (revoked_token_stays_dead cfg0 after_rotation after_replay cookie1
            (revoke 2000000 "10.0.0.2" (Some (sha256_hex cookie2)) row1)
            env_late (with_cookie (Some cookie1)) _ _ _ _ eq_refl _ eq_refl _
            (surjective_pairing _)).
  - apply rtc_once.
    apply (step_refresh cfg0 env3 (with_cookie (Some cookie1)) _
             (refreshToken cfg0 env3 (with_cookie (Some cookie1)) after_rotation).1
             after_replay); [|apply surjective_pairing].
    by apply oids_fresh.
  - apply (bool_decide_unpack _). by vm_compute.
  - by eexists.
  - done.
Defined.

Lemma replay_kills_family_witness :
  let forbidden := mkResponse 403 (error_body "Security violation - Session revoked") [] in
  let d' := revoke_family env3 "10.0.0.2" "u1" (w_db after_rotation) in
  refreshToken cfg0 env3 (with_cookie (Some cookie1)) (mkWorld (w_db after_rotation) [])
  = (Ok (Sent forbidden), mkWorld d' []) ∧
  refreshToken cfg0 env_late (with_cookie (Some cookie2)) (mkWorld d' [])
  = (Ok (Sent forbidden), mkWorld (revoke_family env_late "10.0.0.2" "u1" d') []).
Proof.
  refine (replay_kills_family cfg0 env3 env_late (with_cookie (Some cookie1))
            (with_cookie (Some cookie2)) (w_db after_rotation) cookie1 cookie2
            (revoke 2000000 "10.0.0.2" (Some (sha256_hex cookie2)) row1)
            (new_row env2 0 alice "10.0.0.2") alice
            eq_refl _ eq_refl _ _ _ _ eq_refl _); first [by vm_compute|by eexists].
Defined.
