(* ===== verification/Middleware.v ===== *)
(** * Middleware: src/backend/middleware/auth.js, authorize.js, checkRole.js

    [auth] verifies the bearer token and attaches [req.user]; it reads no
    storage.  [authorize] is generic in the Mongoose model, through the
    interface [Model] of Models.v.  [checkRole] tests [req.user.role]. *)

From S2P Require Import Prelude Json Crypto Models Express Schemas Fixtures.

(** ** auth.js *)

Section auth.
Context `{Crypto} (cfg : Config).

(** [decoded.role || 'user']. *)
Definition role_or_user (role : string) : string :=
  if decide (role = "") then "user" else role.

(** [{ id: decoded.userId, email: decoded.email, role: decoded.role || 'user' }]. *)
Definition identity_of (decoded : Claims) : Identity :=
  mkIdentity (c_userId decoded) (c_email decoded) (role_or_user (c_role decoded)).

Definition set_user {B} (u : Identity) (req : Req B) : Req B :=
  mkReq (req_authorization req) (req_refreshToken req) (req_body req) (req_params req)
    (req_query req) (req_ip req) (Some u) (req_resources req).

(** The middleware.  [jwt.verify] throws on a missing, malformed, forged or
    expired token, and the [catch] answers all of these alike. *)
Definition auth {B} (env : Env) : Handler (Req B) (Req B) := λ req,
  if falsy_str (req_authorization req)
     || negb (startsWith "Bearer " (default "" (req_authorization req)))
  then send 401 (error_body "Authorization required")
  else
    let token := split_on " " (default "" (req_authorization req)) !! 1 in
    match token ≫= (λ t, jwt_verify t (JWT_SECRET cfg) (env_now env)) with
    | Some decoded => ret (Next (set_user (identity_of decoded) req))
    | None => send 401 (error_body "Invalid or expired token")
    end.

End auth.

(** ** authorize.js *)

(** What reading [req.user.id] throws when no middleware set [req.user]. *)
Definition no_user_error : Err :=
  MkErr "TypeError" "Cannot read properties of undefined".

(** [req.resources[name] = doc]. *)
Definition set_resource {B} (name : string) (doc : Doc) (req : Req B) : Req B :=
  mkReq (req_authorization req) (req_refreshToken req) (req_body req) (req_params req)
    (req_query req) (req_ip req) (req_user req)
    ((name, doc) :: filter (λ kv, kv.1 ≠ name) (req_resources req)).

Section authorize.
Context (A : Type) `{Model A} {B : Type}.

(** [authorize(Model, { source, key })]; [resourceId req] is
    [req[source][key]]. *)
Definition authorize (source key : string) (resourceId : Req B → option string)
    : Handler (Req B) (Req B) := λ req,
  catch_next (
    if falsy_str (resourceId req)
    then send 400 (error_body ("Missing " +:+ key +:+ " in " +:+ source))
    else
      user <- match req_user req with
              | Some u => ret u
              | None => throw no_user_error
              end ;;
      rid <- castObjectId (default "" (resourceId req)) ;;
      doc <- db_read (λ d, find_first (owned_by rid (id_id user)) (collection d)) ;;
      match doc with
      | None => send 404 (error_body "Resource not found")
      | Some x => ret (Next (set_resource (toLowerCase modelName) (to_doc x) req))
      end).

End authorize.

Arguments authorize A {_ B} source key resourceId.

(** [req.params[key]]. *)
Definition param {B} (key : string) (req : Req B) : option string :=
  lookup_str key (req_params req).

(** ** checkRole.js *)

(** [checkRole(roles)]; [roles] is one role or an array of roles. *)
Definition checkRole {B} (roles : string + list string) : Handler (Req B) (Req B) := λ req,
  match req_user req with
  | None => send 401 (error_body "Authentication required")
  | Some u =>
      let allowed := match roles with inl r => [r] | inr rs => rs end in
      if decide (id_role u ∈ allowed) then ret (Next req)
      else send 403 (error_body "Permission denied: Insufficient role")
  end.

(** ** Properties of [auth] *)

Section auth_cases.
Context `{Crypto} (cfg : Config).

(** The request carries a token that [jwt.verify] accepts with [claims]. *)
Definition verified {B} (env : Env) (req : Req B) (claims : Claims) : Prop :=
  ∃ header, req_authorization req = Some header ∧
    split_on " " header !! 1 ≫= (λ t, jwt_verify t (JWT_SECRET cfg) (env_now env))
      = Some claims.

(** [auth] never throws and never touches the world: it sends a 401, or
    calls next with the claims of a verified token as [req.user]. *)
Lemma auth_cases {B} env (req : Req B) w :
  (∃ x, auth cfg env req w = (Ok (Sent x), w) ∧ res_status x = 401) ∨
  (∃ claims, verified env req claims ∧
     auth cfg env req w = (Ok (Next (set_user (identity_of claims) req)), w)).
Proof.
  unfold auth, send, ret. destruct (_ || _) eqn:Hguard; [left; by eexists|].
  apply orb_false_elim in Hguard as [Hf _]. apply falsy_str_false in Hf as (h & Hh & _).
  rewrite Hh. change (default "" (Some h)) with h.
  destruct (_ ≫= _) as [claims|] eqn:Hv; [right|left; by eexists].
  exists claims. split; [by exists h|done].
Qed.

End auth_cases.

Section auth_properties.
Context `{CryptoLaws} (cfg : Config).
Implicit Types (env : Env) (w : World).

Definition no_space (s : string) : Prop :=
  some_char (λ c, bool_decide (c = " "%char)) s = false.

(** On a header [Bearer tok] the middleware is [jwt.verify] on [tok]. *)
Lemma auth_bearer {B} env (req : Req B) tok w :
  req_authorization req = Some ("Bearer " +:+ tok) → no_space tok →
  auth cfg env req w =
  match jwt_verify tok (JWT_SECRET cfg) (env_now env) with
  | Some decoded => (Ok (Next (set_user (identity_of decoded) req)), w)
  | None => (Ok (Sent (mkResponse 401 (error_body "Invalid or expired token") [])), w)
  end.
Proof.
  intros Hh Htok. unfold auth. rewrite Hh.
  assert (falsy_str (Some ("Bearer " +:+ tok)) = false) as -> by done.
  change (default "" (Some ?h)) with h. rewrite startsWith_app.
  change ("Bearer " +:+ tok) with ("Bearer" +:+ String " " tok).
  rewrite split_on_second by done. cbn [negb orb mbind option_bind].
  by destruct (jwt_verify _ _ _).
Qed.

(** C9. A token the server signed for 15 minutes is accepted until its
    expiry, and the identity attached to the request is exactly the
    token's claims; no storage is read. *)
Theorem auth_accepts_issued {B} env (req : Req B) claims t w :
  req_authorization req =
    Some ("Bearer " +:+ jwt_sign claims (JWT_SECRET cfg) 900 t) →
  (env_now env `div` 1000 < t `div` 1000 + 900)%Z →
  auth cfg env req w = (Ok (Next (set_user (identity_of claims) req)), w).
Proof.
  intros Hh Hnow. rewrite (auth_bearer _ _ _ _ Hh) by apply jwt_sign_no_space.
  rewrite jwt_verify_sign. by rewrite decide_True.
Qed.

(** C10. After its 15 minutes a token is rejected although its signature
    is valid, and the reply is the one a token signed with another key
    gets: the cause is not revealed. *)
Theorem auth_expired_like_forged {B} env (req1 req2 : Req B) claims t t' k w :
  req_authorization req1 =
    Some ("Bearer " +:+ jwt_sign claims (JWT_SECRET cfg) 900 t) →
  (t `div` 1000 + 900 ≤ env_now env `div` 1000)%Z →
  req_authorization req2 = Some ("Bearer " +:+ jwt_sign claims k 900 t') →
  k ≠ JWT_SECRET cfg →
  auth cfg env req1 w = auth cfg env req2 w ∧
  auth cfg env req1 w =
    (Ok (Sent (mkResponse 401 (error_body "Invalid or expired token") [])), w).
Proof.
  intros H1 Hexp H2 Hk.
  rewrite (auth_bearer _ _ _ _ H1), (auth_bearer _ _ _ _ H2) by apply jwt_sign_no_space.
  rewrite jwt_verify_sign, jwt_verify_key by done.
  rewrite decide_False; [done|]. unfold jwt_exp. lia.
Qed.

(** C11. What [auth] lets through carries a token signed with the server's
    secret that has not expired, and [req.user] is derived from its claims
    alone; the world is not touched. *)
Theorem auth_sound {B} env (req req' : Req B) w w' :
  auth cfg env req w = (Ok (Next req'), w') →
  w' = w ∧
  ∃ header tok claims ttl t,
    req_authorization req = Some header ∧ split_on " " header !! 1 = Some tok ∧
    tok = jwt_sign claims (JWT_SECRET cfg) ttl t ∧
    (env_now env `div` 1000 < jwt_exp t ttl)%Z ∧
    req' = set_user (identity_of claims) req.
Proof.
  unfold auth, send, ret. destruct (_ || _) eqn:Hguard; [done|].
  apply orb_false_elim in Hguard as [Hf _]. apply falsy_str_false in Hf as (h & Hh & _).
  rewrite Hh. change (default "" (Some h)) with h.
  destruct (split_on " " h !! 1) as [tok|] eqn:Htok; cbn [mbind option_bind]; [|by intros [=]].
  destruct (jwt_verify tok _ _) as [claims|] eqn:Hv; [|by intros [=]].
  intros [= <- <-]. split; [done|].
  apply jwt_verify_inv in Hv as (ttl & t & -> & Hexp). by eexists h, _, claims, ttl, t.
Qed.

End auth_properties.

(** ** Properties of [authorize] *)

Lemma is_objectId_nonempty s : is_objectId s = true → s ≠ "".
Proof. by intros Hs ->. Qed.

Section authorize_properties.
Context (A : Type) `{Model A} {B : Type}.
Context (source key : string) (resourceId : Req B → option string).
Implicit Types (req : Req B) (d : DB) (w : World) (u : Identity) (rid : string).

Definition not_found : Response := mkResponse 404 (error_body "Resource not found") [].

(** [authorize] on an authenticated request that names a resource, when
    storage answers. *)
Lemma authorize_run req u rid d :
  req_user req = Some u → resourceId req = Some rid → rid ≠ "" →
  authorize A source key resourceId req (mkWorld d []) =
  (Ok (if is_objectId rid then
         match find_first (owned_by rid (id_id u)) (collection d) with
         | None => Sent not_found
         | Some x => Next (set_resource (toLowerCase modelName) (to_doc x) req)
         end
       else NextErr cast_error), mkWorld d []).
Proof.
  intros Hu Hr Hne. unfold authorize, castObjectId. rewrite Hu, Hr.
  assert (falsy_str (Some rid) = false) as -> by by apply bool_decide_eq_false.
  change (default "" (Some rid)) with rid.
  destruct (is_objectId rid); run_steps; [|done]. by destruct (find_first _ _).
Qed.

(** C12. A resource that does not exist, one that belongs to another user
    and one that is soft-deleted get the same reply, 404 'Resource not
    found', and nothing is written: the guard does not reveal which ids
    exist. *)
Theorem authorize_hides req u rid d :
  req_user req = Some u → resourceId req = Some rid → is_objectId rid = true →
  (∀ x, x ∈ collection d → doc_id x = rid →
        doc_user_id x ≠ id_id u ∨ doc_deleted_at x ≠ None) →
  authorize A source key resourceId req (mkWorld d []) =
    (Ok (Sent not_found), mkWorld d []).
Proof.
  intros Hu Hr Hid Hnone.
  rewrite (authorize_run _ _ _ _ Hu Hr) by by apply is_objectId_nonempty. rewrite Hid.
  destruct (find_first _ _) as [x|] eqn:Hf; [|done].
  apply find_first_Some in Hf as [Hx (Hi & Ho & Hd)]. by destruct (Hnone x Hx Hi).
Qed.

(** C13. The guard lets a request through only with a document of the
    collection that has the requested id, belongs to the caller and is not
    deleted, attached under the model's lower-cased name; this holds
    whatever storage calls fail, and the database is not written. *)
Theorem authorize_grants_owned req req' w w' :
  authorize A source key resourceId req w = (Ok (Next req'), w') →
  w_db w' = w_db w ∧
  ∃ u rid x,
    req_user req = Some u ∧ resourceId req = Some rid ∧
    x ∈ collection (w_db w) ∧ owned_by rid (id_id u) x ∧
    req' = set_resource (toLowerCase modelName) (to_doc x) req.
Proof.
  unfold authorize, castObjectId.
  destruct (falsy_str (resourceId req)) eqn:Hf; [by intros [=]|].
  apply falsy_str_false in Hf as (rid & Hr & _). rewrite Hr.
  change (default "" (Some rid)) with rid.
  destruct (req_user req) as [u|]; [|by intros [=]].
  destruct (is_objectId rid); [|by intros [=]].
  cbv beta iota delta [bind ret throw catch_next try_catch send].
  destruct (@db_read (option A) _ w) as [[[x|]|e] w1] eqn:Hread; [|by intros [=]..].
  intros [= <- <-]. split; [by eapply db_read_db|].
  apply db_call_ok_inv in Hread as [Hx _]. symmetry in Hx.
  apply find_first_Some in Hx as [??]. by exists u, rid, x.
Qed.

(** C14. Whoever owns an undeleted document is let through with it; the
    guard refuses nobody their own resource. *)
Theorem authorize_complete req u rid d x :
  req_user req = Some u → resourceId req = Some rid → is_objectId rid = true →
  x ∈ collection d → owned_by rid (id_id u) x →
  ∃ y, y ∈ collection d ∧ owned_by rid (id_id u) y ∧
    authorize A source key resourceId req (mkWorld d []) =
      (Ok (Next (set_resource (toLowerCase modelName) (to_doc y) req)), mkWorld d []).
Proof.
  intros Hu Hr Hid Hx Hown.
  rewrite (authorize_run _ _ _ _ Hu Hr) by by apply is_objectId_nonempty. rewrite Hid.
  destruct (find_first_is_Some _ _ _ Hx Hown) as [y Hy]. rewrite Hy.
  apply find_first_Some in Hy as [??]. by exists y.
Qed.

(** C15. An id that is not 24 hex digits makes the query throw a cast
    error, which the guard hands to the error handler (a 500), not the 404
    it answers for an unknown id. *)
Theorem authorize_malformed_id req u rid d :
  req_user req = Some u → resourceId req = Some rid → rid ≠ "" →
  is_objectId rid = false →
  authorize A source key resourceId req (mkWorld d []) =
    (Ok (NextErr cast_error), mkWorld d []).
Proof. intros Hu Hr Hne Hid. by rewrite (authorize_run _ _ _ _ Hu Hr Hne), Hid. Qed.

End authorize_properties.

(** ** Properties of [checkRole] *)

(** C16. [checkRole] lets a request through exactly when its user's role
    is one of the allowed roles, and then unchanged. *)
Theorem checkRole_spec {B} roles (req : Req B) w r w' :
  checkRole roles req w = (r, w') →
  w' = w ∧
  (r = Ok (Next req) ↔
   ∃ u, req_user req = Some u ∧
        id_role u ∈ match roles with inl x => [x] | inr xs => xs end).
Proof.
  unfold checkRole, send, ret. destruct (req_user req) as [u|].
  - case_decide; intros [= <- <-]; naive_solver.
  - intros [= <- <-]. naive_solver.
Qed.

(** ** Witnesses *)

Lemma auth_accepts_issued_witness :
  auth cfg0 env1 (bearer ("Bearer " +:+ jwt_sign alice_claims (JWT_SECRET cfg0) 900 1000000))
    (mkWorld db3 []) =
  (Ok (Next (set_user (identity_of alice_claims)
               (bearer ("Bearer " +:+ jwt_sign alice_claims (JWT_SECRET cfg0) 900 1000000)))),
   mkWorld db3 []).
Proof. apply (auth_accepts_issued cfg0 env1 _ alice_claims 1000000); by_compute. Defined.

Lemma auth_expired_like_forged_witness :
  auth cfg0 env3 (bearer ("Bearer " +:+ jwt_sign alice_claims (JWT_SECRET cfg0) 900 1000000))
    (mkWorld db3 []) =
  auth cfg0 env3 (bearer ("Bearer " +:+ jwt_sign alice_claims "another-key" 900 3000000))
    (mkWorld db3 []) ∧
  auth cfg0 env3 (bearer ("Bearer " +:+ jwt_sign alice_claims (JWT_SECRET cfg0) 900 1000000))
    (mkWorld db3 []) =
  (Ok (Sent (mkResponse 401 (error_body "Invalid or expired token") [])), mkWorld db3 []).
Proof.
  apply (auth_expired_like_forged cfg0 env3 _ _ alice_claims 1000000 3000000 "another-key");
    by_compute.
Defined.

Lemma auth_sound_witness :
  ∃ header tok claims ttl t,
    req_authorization
      (bearer ("Bearer " +:+ jwt_sign alice_claims (JWT_SECRET cfg0) 900 1000000)) =
      Some header ∧
    split_on " " header !! 1 = Some tok ∧
    tok = jwt_sign claims (JWT_SECRET cfg0) ttl t ∧
    (env_now env1 `div` 1000 < jwt_exp t ttl)%Z ∧
    set_user alice_id
      (bearer ("Bearer " +:+ jwt_sign alice_claims (JWT_SECRET cfg0) 900 1000000)) =
    set_user (identity_of claims)
      (bearer ("Bearer " +:+ jwt_sign alice_claims (JWT_SECRET cfg0) 900 1000000)).
Proof.
  refine (proj2 (auth_sound cfg0 env1 _ _ (mkWorld db3 []) (mkWorld db3 []) _)). by_compute.
Defined.

Lemma authorize_hides_witness :
  let guard := authorize Board "params" "id" (param "id") in
  guard (as_alice [("id", oid_n)] tt) (mkWorld db3 []) = (Ok (Sent not_found), mkWorld db3 []) ∧
  guard (as_alice [("id", oid_b)] tt) (mkWorld db3 []) = (Ok (Sent not_found), mkWorld db3 []) ∧
  guard (as_alice [("id", oid_d)] tt) (mkWorld db3 []) = (Ok (Sent not_found), mkWorld db3 []).
Proof.
  split_and!;
    [apply (authorize_hides Board "params" "id" (param "id") _ alice_id oid_n)
    |apply (authorize_hides Board "params" "id" (param "id") _ alice_id oid_b)
    |apply (authorize_hides Board "params" "id" (param "id") _ alice_id oid_d)];
    try by_compute;
    intros x Hx Hid; repeat (apply elem_of_cons in Hx as [->|Hx]);
    first [by apply elem_of_nil in Hx | by vm_compute in Hid | by right | by left].
Defined.

Lemma authorize_grants_owned_witness :
  w_db (mkWorld db3 []) = w_db (mkWorld db3 [false]) ∧
  ∃ u rid (x : Board),
    req_user (as_alice [("id", oid_a)] tt) = Some u ∧
    param "id" (as_alice [("id", oid_a)] tt) = Some rid ∧
    x ∈ collection (w_db (mkWorld db3 [false])) ∧ owned_by rid (id_id u) x ∧
    set_resource "board" (DocBoard board_a) (as_alice [("id", oid_a)] tt) =
    set_resource (toLowerCase (@modelName Board _)) (to_doc x) (as_alice [("id", oid_a)] tt).
Proof.
  apply (authorize_grants_owned Board "params" "id" (param "id")
           (as_alice [("id", oid_a)] tt)
           (set_resource "board" (DocBoard board_a) (as_alice [("id", oid_a)] tt))
           (mkWorld db3 [false]) (mkWorld db3 [])).
  by_compute.
Defined.

Lemma authorize_complete_witness :
  ∃ y : Board, y ∈ boards db3 ∧ owned_by oid_a "u1" y ∧
    authorize Board "params" "id" (param "id") (as_alice [("id", oid_a)] tt) (mkWorld db3 []) =
    (Ok (Next (set_resource "board" (DocBoard y) (as_alice [("id", oid_a)] tt))),
     mkWorld db3 []).
Proof.
  refine (authorize_complete Board "params" "id" (param "id")
            (as_alice [("id", oid_a)] tt) alice_id oid_a db3 board_a _ _ _ _ _);
    by_compute.
Defined.

Lemma authorize_malformed_id_witness :
  authorize Task "params" "id" (param "id") (as_alice [("id", "reorder")] tt) (mkWorld db3 []) =
  (Ok (NextErr cast_error), mkWorld db3 []).
Proof.
  apply (authorize_malformed_id Task "params" "id" (param "id")
           (as_alice [("id", "reorder")] tt) alice_id "reorder");
    by_compute.
Defined.

Lemma checkRole_spec_witness :
  mkWorld db3 [] = mkWorld db3 [] ∧
  (@Ok Err _ (Next (as_alice [] tt)) = Ok (Next (as_alice [] tt)) ↔
   ∃ u, req_user (as_alice [] tt) = Some u ∧ id_role u ∈ ["admin"; "user"]).
Proof.
  apply (checkRole_spec (inr ["admin"; "user"]) (as_alice [] tt) (mkWorld db3 [])). by_compute.
Defined.
