(* ===== verification/Server.v ===== *)
(** * Server: src/backend/server.js

    [validateSchema], the CORS origin check, the routes of boards, lists,
    tasks and attachments with their handlers, the health check, the error
    handler, and the route table [app] that dispatches a request the way
    Express does: in the order of registration, with [auth] mounted on
    [/api] after the public routes.

    Every query of a handler is one storage call that may throw.  The
    clock is read once per request.  The rate limiters, helmet and the
    request logger are not modelled. *)

From stdpp Require Import sorting relations.
From S2P Require Import Prelude Json Crypto Models Express Hoare Ownership Schemas Fixtures.
From S2P Require Import AuthController Middleware.

(** ** Mongoose queries on an owned model *)

(** The order of [.sort({ key: 1 })]. *)
Definition key_le {A} (key : A → Z) (x y : A) : Prop := (key x ≤ key y)%Z.

#[export] Instance key_le_dec {A} (key : A → Z) x y : Decision (key_le key x y).
Proof. unfold key_le. apply _. Defined.

Section queries.
Context (A : Type) `{Model A}.

(** [Model.find({ user_id, deleted_at: null, ...extra }).sort({ key: 1 })]. *)
Definition find_visible (uid : Id) (extra : A → bool) (key : A → Z) (d : DB) : list A :=
  merge_sort (key_le key)
    (filter (λ x, visible_to uid x ∧ extra x = true) (collection d)).

(** [Model.findOneAndUpdate({ _id: id }, update, { new: true })]: the first
    document with the id is updated; the result is the updated document,
    or [null]. *)
Definition findOneAndUpdate (id : Id) (update : A → A) : M World Err (option A) :=
  db_call (λ d, (update <$> find_first (λ x, doc_id x = id) (collection d),
                 set_collection (update_first (λ x, doc_id x = id) update) d)).

(** [Model.updateMany(filter, update)]. *)
Definition updateMany (P : A → Prop) `{!∀ x, Decision (P x)} (update : A → A)
    : M World Err unit :=
  db_write (set_collection (update_all P update)).

(** [doc.save()] of a new document. *)
Definition save (x : A) : M World Err unit :=
  db_write (set_collection (λ l, l ++ [x])).

End queries.

Arguments find_visible A {_} uid extra key d.
Arguments findOneAndUpdate A {_} id update.
Arguments updateMany A {_} P {_} update.
Arguments save {A _} x.

(** ** validateSchema *)

Definition set_body {A B} (b : B) (req : Req A) : Req B :=
  mkReq (req_authorization req) (req_refreshToken req) b (req_params req)
    (req_query req) (req_ip req) (req_user req) (req_resources req).

(** [{ error: 'Validation Error', details: err.errors }], the issues by
    their messages. *)
Definition validation_error (es : list string) : Response :=
  mkResponse 400
    (JObj [("error", JStr "Validation Error"); ("details", JArr (JStr <$> es))]) [].

Definition validateSchema {B} (schema : Json → Parsed B) : Handler (Req Json) (Req B) :=
  λ req,
  match schema (req_body req) with
  | inr b => ret (Next (set_body b req))
  | inl es => ret (Sent (validation_error es))
  end.

(** ** Helpers of the handlers *)

(** [req.user], read inside a [try]: a [TypeError] when no middleware set it. *)
Definition the_user {B} (req : Req B) : M World Err Identity :=
  match req_user req with
  | Some u => ret u
  | None => throw no_user_error
  end.

(** [res.json(x)] and [res.status(s).json(x)]. *)
Definition json {A} (status : nat) (body : Json) : M World Err (Reply A) :=
  ret (Sent (mkResponse status body [])).

Definition success : Json := JObj [("success", JBool true)].

(** [a ?? b] on an optional field of an update: the new value if the body
    has the key. *)
Definition upd {A} (new : option A) (old : A) : A := default old new.

(** The same for a path that can be unset: [null] in the body unsets it. *)
Definition upd_opt {A} (new : option (option A)) (old : option A) : option A :=
  default old new.

(** ** The routes *)

Section routes.
Context `{Crypto} `{Formats} (cfg : Config).
Implicit Types (env : Env).

(** [req.params.id]. *)
Definition params_id {B} (req : Req B) : Id := default "" (param "id" req).

(** *** Boards *)

(** GET /api/boards. *)
Definition get_boards : Handler (Req Json) Empty_set := λ req,
  catch_next (
    user <- the_user req ;;
    found <- db_read (find_visible Board (id_id user) (λ _, true) b_created_at) ;;
    json 200 (JArr (toJSON_board <$> found))).

(** [new Board({ ...req.body, user_id: req.user.id })]. *)
Definition new_board env (body : BoardBody) (uid : Id) : Board :=
  mkBoard (env_oid env 0) (bb_title body) (bb_background body) false uid
    auditDefault (env_now env) (env_now env).

(** POST /api/boards. *)
Definition post_boards env : Handler (Req BoardBody) Empty_set := λ req,
  catch_next (
    user <- the_user req ;;
    let board := new_board env (req_body req) (id_id user) in
    _ <- save board ;;
    json 201 (toJSON_board board)).

(** The update [req.body] of PATCH /api/boards/:id applied to a board. *)
Definition update_board (now : Z) (u : UpdateBoardBody) (b : Board) : Board :=
  mkBoard (b_id b) (upd (ub_title u) (b_title b))
    (match ub_background u with Some s => Some s | None => b_background b end)
    (upd (ub_archived u) (b_archived b)) (b_user_id b) (b_audit b) (b_created_at b) now.

(** PATCH /api/boards/:id, after [validateSchema] and [authorize(Board)]. *)
Definition patch_boards_id env : Handler (Req UpdateBoardBody) Empty_set := λ req,
  catch_next (
    board <- findOneAndUpdate Board (params_id req)
               (update_board (env_now env) (req_body req)) ;;
    json 200 (from_option toJSON_board JNull board)).

(** DELETE /api/boards/:id, after [authorize(Board)]: the board, the lists
    of the board and the tasks of those lists are soft-deleted, in three
    separate writes. *)
Definition delete_boards_id env : Handler (Req Json) Empty_set := λ req,
  catch_next (
    let id := params_id req in
    _ <- findOneAndUpdate Board id (mark_deleted (env_now env)) ;;
    _ <- updateMany List_ (λ l, l_board_id l = id) (mark_deleted (env_now env)) ;;
    ls <- db_read (λ d, filter (λ l, l_board_id l = id) (lists d)) ;;
    _ <- updateMany Task (λ t, t_list_id t ∈ l_id <$> ls) (mark_deleted (env_now env)) ;;
    json 200 success).

(** *** Lists *)

(** [...(x && { field: x })] in a filter: no condition when [x] is falsy. *)
Definition when_given (x : option string) (field : string) : bool :=
  falsy_str x || bool_decide (field = default "" x).

(** The check of the parent named in the query, if one is named:
    [Model.findOne({ _id, user_id, deleted_at: null })]. *)
Definition parent_visible (A : Type) `{Model A} (x : option string) (uid : Id)
    : M World Err bool :=
  if falsy_str x then ret true
  else
    pid <- castObjectId (default "" x) ;;
    found <- db_read (λ d, find_first (owned_by pid uid) (collection (A:=A) d)) ;;
    ret (bool_decide (is_Some found)).

(** GET /api/lists. *)
Definition get_lists : Handler (Req Json) Empty_set := λ req,
  catch_next (
    let boardId := lookup_str "boardId" (req_query req) in
    user <- the_user req ;;
    ok <- parent_visible Board boardId (id_id user) ;;
    if ok then
      found <- db_read (find_visible List_ (id_id user)
                          (λ l, when_given boardId (l_board_id l)) l_position) ;;
      json 200 (JArr (toJSON_list <$> found))
    else json 404 (error_body "Board not found")).

(** [new List({ ...req.body, board_id: req.body.boardId, user_id })]. *)
Definition new_list env (body : ListBody) (uid : Id) : List_ :=
  mkList (env_oid env 0) (lb_title body) 0 (lb_boardId body) uid None None false
    auditDefault (env_now env) (env_now env).

(** POST /api/lists, after [validateSchema] and [authorize(Board, body.boardId)]. *)
Definition post_lists env : Handler (Req ListBody) Empty_set := λ req,
  catch_next (
    user <- the_user req ;;
    let list := new_list env (req_body req) (id_id user) in
    _ <- save list ;;
    json 201 (toJSON_list list)).

(** [{ position: index }]. *)
Definition set_position (now : Z) (index : nat) (l : List_) : List_ :=
  mkList (l_id l) (l_title l) (Z.of_nat index) (l_board_id l) (l_user_id l) (l_color l)
    (l_task_color l) (l_archived l) (l_audit l) (l_created_at l) now.

(** PATCH /api/lists/reorder; [req.body.orderedIds] is the body. *)
Definition patch_lists_reorder env : Handler (Req (list string)) Empty_set := λ req,
  catch_next (
    let orderedIds := req_body req in
    user <- the_user req ;;
    _ <- (if forallb is_objectId orderedIds then ret tt else throw cast_error) ;;
    count <- db_read (λ d, length (filter (λ l, l_id l ∈ orderedIds
                                             ∧ visible_to (id_id user) l) (lists d))) ;;
    if decide (count ≠ length orderedIds) then json 403 (error_body "Access denied")
    else
      _ <- promise_all (imap (λ index id,
             findOneAndUpdate List_ id (set_position (env_now env) index)) orderedIds) ;;
      json 200 success).

(** The update [req.body] of PATCH /api/lists/:id applied to a list. *)
Definition update_list (now : Z) (u : UpdateListBody) (l : List_) : List_ :=
  mkList (l_id l) (upd (ul_title u) (l_title l)) (upd (ul_position u) (l_position l))
    (l_board_id l) (l_user_id l)
    (match ul_color u with Some s => Some s | None => l_color l end)
    (match ul_task_color u with Some s => Some s | None => l_task_color l end)
    (upd (ul_archived u) (l_archived l)) (l_audit l) (l_created_at l) now.

(** PATCH /api/lists/:id, after [validateSchema] and [authorize(List)]. *)
Definition patch_lists_id env : Handler (Req UpdateListBody) Empty_set := λ req,
  catch_next (
    list <- findOneAndUpdate List_ (params_id req)
              (update_list (env_now env) (req_body req)) ;;
    json 200 (from_option toJSON_list JNull list)).

(** DELETE /api/lists/:id, after [authorize(List)]. *)
Definition delete_lists_id env : Handler (Req Json) Empty_set := λ req,
  catch_next (
    let id := params_id req in
    _ <- findOneAndUpdate List_ id (mark_deleted (env_now env)) ;;
    _ <- updateMany Task (λ t, t_list_id t = id) (mark_deleted (env_now env)) ;;
    json 200 success).

(** *** Tasks *)

(** GET /api/tasks. *)
Definition get_tasks : Handler (Req Json) Empty_set := λ req,
  catch_next (
    let listId := lookup_str "listId" (req_query req) in
    user <- the_user req ;;
    ok <- parent_visible List_ listId (id_id user) ;;
    if ok then
      found <- db_read (find_visible Task (id_id user)
                          (λ t, when_given listId (t_list_id t)) t_position) ;;
      json 200 (JArr (toJSON_task <$> found))
    else json 404 (error_body "List not found")).

(** [new Task({ ...req.body, list_id: req.body.listId, user_id,
    completed_at: req.body.completed ? new Date() : null })]. *)
Definition new_task env (body : TaskBody) (uid : Id) : Task :=
  mkTask (env_oid env 0) (tb_title body) (default false (tb_completed body))
    (mjoin (tb_description body)) (mjoin (tb_due_date body)) (mjoin (tb_recurrence body))
    (default false (tb_is_starred body)) (default 0%Z (tb_position body))
    (tb_listId body) uid (mjoin (tb_parent_id body))
    (if default false (tb_completed body) then Some (env_now env) else None)
    auditDefault (env_now env) (env_now env).

(** POST /api/tasks, after [validateSchema] and [authorize(List, body.listId)]. *)
Definition post_tasks env : Handler (Req TaskBody) Empty_set := λ req,
  catch_next (
    user <- the_user req ;;
    ok <- parent_visible Task (mjoin (tb_parent_id (req_body req))) (id_id user) ;;
    if ok then
      let task := new_task env (req_body req) (id_id user) in
      _ <- save task ;;
      json 201 (toJSON_task task)
    else json 404 (error_body "Parent task not found")).

(** [updates.completed_at] after the two tests on [updates.completed]. *)
Definition completed_at_update (now : Z) (u : UpdateTaskBody) (old : option Z)
    : option Z :=
  match ut_completed u with
  | Some true => Some now
  | Some false => None
  | None => match ut_completed_at u with Some z => Some z | None => old end
  end.

(** The update applied to a task.  [listId] is no path of the Mongoose
    schema, so the update does not touch [list_id]. *)
Definition update_task (now : Z) (u : UpdateTaskBody) (t : Task) : Task :=
  mkTask (t_id t) (upd (ut_title u) (t_title t)) (upd (ut_completed u) (t_completed t))
    (upd_opt (ut_description u) (t_description t)) (upd_opt (ut_due_date u) (t_due_date t))
    (upd_opt (ut_recurrence u) (t_recurrence t)) (upd (ut_is_starred u) (t_is_starred t))
    (upd (ut_position u) (t_position t)) (t_list_id t) (t_user_id t)
    (upd_opt (ut_parent_id u) (t_parent_id t))
    (completed_at_update now u (t_completed_at t)) (t_audit t) (t_created_at t) now.

(** PATCH /api/tasks/:id, after [validateSchema] and [authorize(Task)]. *)
Definition patch_tasks_id env : Handler (Req UpdateTaskBody) Empty_set := λ req,
  catch_next (
    task <- findOneAndUpdate Task (params_id req)
              (update_task (env_now env) (req_body req)) ;;
    json 200 (from_option toJSON_task JNull task)).

(** DELETE /api/tasks/:id, after [authorize(Task)]. *)
Definition delete_tasks_id env : Handler (Req Json) Empty_set := λ req,
  catch_next (
    _ <- findOneAndUpdate Task (params_id req) (mark_deleted (env_now env)) ;;
    json 200 success).

(** *** Attachments *)

(** [new Attachment({ task_id, user_id, file_name, file_url, file_type })]. *)
Definition new_attachment env (body : AttachmentBody) (uid : Id) : Attachment :=
  mkAttachment (env_oid env 0) (ab_taskId body) uid (ab_fileName body) (ab_fileUrl body)
    (ab_fileType body) auditDefault (env_now env) (env_now env).

(** POST /api/attachments, after [validateSchema] and
    [authorize(Task, body.taskId)]. *)
Definition post_attachments env : Handler (Req AttachmentBody) Empty_set := λ req,
  catch_next (
    user <- the_user req ;;
    let att := new_attachment env (req_body req) (id_id user) in
    _ <- save att ;;
    json 201 (toJSON_attachment att)).

(** GET /api/attachments/:taskId, after [authorize(Task, params.taskId)]. *)
Definition get_attachments : Handler (Req Json) Empty_set := λ req,
  catch_next (
    let taskId := default "" (param "taskId" req) in
    user <- the_user req ;;
    found <- db_read (λ d, filter (λ a, a_task_id a = taskId
                                        ∧ visible_to (id_id user) a) (attachments d)) ;;
    json 200 (JArr (toJSON_attachment <$> found))).

(** DELETE /api/attachments/:id, after [authorize(Attachment)]. *)
Definition delete_attachments_id env : Handler (Req Json) Empty_set := λ req,
  catch_next (
    _ <- findOneAndUpdate Attachment (params_id req) (mark_deleted (env_now env)) ;;
    json 200 success).

(** *** /api/auth/me and /health *)

Definition toJSON_identity (u : Identity) : Json :=
  JObj [("id", JStr (id_id u)); ("email", JStr (id_email u)); ("role", JStr (id_role u))].

(** [(req, res) => res.json({ user: req.user })]. *)
Definition me : Handler (Req Json) Empty_set := λ req,
  json 200 (JObj (jopt "user" (toJSON_identity <$> req_user req))).

(** GET /health; [connected] is [mongoose.connection.readyState === 1]. *)
Definition health env (connected : bool) : Handler (Req Json) Empty_set := λ _,
  json 200 (JObj [("status", JStr "ok"); ("env", JStr (NODE_ENV cfg));
                  ("timestamp", JStr (toISOString (env_now env)));
                  ("db", JStr (if connected then "connected" else "disconnected"))]).

(** *** CORS and the error handler *)

(** The list [allowed] of the origin callback. *)
Definition allowed_origins : list string :=
  if falsy_str (ALLOWED_ORIGINS cfg) then []
  else (λ o, strip_slash (trim o)) <$> split_on "," (default "" (ALLOWED_ORIGINS cfg)).

(** Whether the origin callback accepts. *)
Definition cors_origin (origin : option string) : bool :=
  falsy_str origin
  || bool_decide (strip_slash (default "" origin) ∈ allowed_origins)
  || negb (bool_decide (NODE_ENV cfg = "production")).

(** [err.stack], by its first line. *)
Definition err_stack (e : Err) : string :=
  let 'MkErr name message := e in name +:+ ": " +:+ message.

(** The error handler; no error of the model has a [status]. *)
Definition errorHandler (e : Err) : Response :=
  if decide (NODE_ENV cfg = "production") then
    mkResponse 500
      (JObj [("error", JStr (if decide (err_message e = "")
                             then "Internal Server Error" else err_message e))]) []
  else
    mkResponse 500
      (JObj [("error", JStr (err_message e)); ("stack", JStr (err_stack e))]) [].

End routes.

(** ** The route table *)

(** A segment of a route's path: a literal, or a parameter [:key]. *)
Inductive Seg := Lit (s : string) | Par (key : string).

(** A layer of the application's stack: [app.METHOD(path, handler)], or
    [app.use(prefix, middleware)]. *)
Inductive Layer :=
| Route (m : Method) (pattern : list Seg) (h : Handler (Req Json) Empty_set)
| Use (prefix : list string) (mw : Handler (Req Json) (Req Json)).

(** Whether a path matches a route's pattern, and [req.params] if it does.
    The application does not enable [case sensitive routing]: letters match
    whatever their case, and a parameter keeps the segment as it was sent. *)
Fixpoint match_path (pattern : list Seg) (path : list string)
    : option (list (string * string)) :=
  match pattern, path with
  | [], [] => Some []
  | Lit s :: pattern', x :: path' =>
      if decide (toLowerCase s = toLowerCase x) then match_path pattern' path' else None
  | Par key :: pattern', x :: path' => ((key, x) ::.) <$> match_path pattern' path'
  | _, _ => None
  end.

(** Whether a path is below the prefix of an [app.use]. *)
Fixpoint below (prefix path : list string) : bool :=
  match prefix, path with
  | [], _ => true
  | s :: prefix', x :: path' =>
      bool_decide (toLowerCase s = toLowerCase x) && below prefix' path'
  | _ :: _, [] => false
  end.

(** [req.params] as the matched route sets it. *)
Definition with_params {B} (ps : list (string * string)) (req : Req B) : Req B :=
  mkReq (req_authorization req) (req_refreshToken req) (req_body req) ps
    (req_query req) (req_ip req) (req_user req) (req_resources req).

(** What Express answers when no layer ends the request. *)
Definition default_404 : Response := mkResponse 404 (JStr "Not Found") [].

(** What Express does when the stack is exhausted. *)
Definition finalhandler : Handler (Req Json) Empty_set := λ _, ret (Sent default_404).

(** Express walks the stack in the order of registration: the first route
    that matches handles the request; a middleware on the way may end it;
    [final] handles what falls through. *)
Fixpoint dispatch (stack : list Layer) (final : Handler (Req Json) Empty_set)
    (m : Method) (path : list string) : Handler (Req Json) Empty_set := λ req,
  match stack with
  | [] => final req
  | Route m' pattern h :: stack' =>
      match (if decide (m = m') then match_path pattern path else None) with
      | Some ps => h (with_params ps req)
      | None => dispatch stack' final m path req
      end
  | Use prefix mw :: stack' =>
      if below prefix path then (mw >=> dispatch stack' final m path) req
      else dispatch stack' final m path req
  end.

Section app.
Context `{Crypto} `{Formats} (cfg : Config).
(** [Schemas.ReorderSchema]: the export list of schemas.js names it, the
    file does not define it. *)
Context (ReorderSchema : Json → Parsed (list string)).
Implicit Types (env : Env).

(** The controllers of authController.js take no body. *)
Definition no_body {C} (h : Handler (Req unit) C) : Handler (Req Json) C :=
  λ req, h (set_body tt req).

Definition under_api (rest : list Seg) : list Seg := Lit "api" :: rest.

(** The routes that need no access token. *)
Definition public_routes env : list Layer := [
  Route POST (under_api [Lit "auth"; Lit "register"])
    (validateSchema RegisterSchema >=> register cfg env);
  Route POST (under_api [Lit "auth"; Lit "login"])
    (validateSchema LoginSchema >=> login cfg env);
  Route POST (under_api [Lit "auth"; Lit "refresh"]) (no_body (refreshToken cfg env));
  Route POST (under_api [Lit "auth"; Lit "logout"]) (no_body (logout env))
].

(** The routes registered after [app.use('/api', auth)]. *)
Definition protected_routes env : list Layer := [
  Route GET (under_api [Lit "boards"]) get_boards;
  Route POST (under_api [Lit "boards"]) (validateSchema BoardSchema >=> post_boards env);
  Route PATCH (under_api [Lit "boards"; Par "id"])
    (validateSchema UpdateBoardSchema
       >=> authorize Board "params" "id" (param "id") >=> patch_boards_id env);
  Route DELETE (under_api [Lit "boards"; Par "id"])
    (authorize Board "params" "id" (param "id") >=> delete_boards_id env);
  Route GET (under_api [Lit "lists"]) get_lists;
  Route POST (under_api [Lit "lists"])
    (validateSchema ListSchema
       >=> authorize Board "body" "boardId" (λ req, Some (lb_boardId (req_body req)))
       >=> post_lists env);
  Route PATCH (under_api [Lit "lists"; Lit "reorder"])
    (validateSchema ReorderSchema >=> patch_lists_reorder env);
  Route PATCH (under_api [Lit "lists"; Par "id"])
    (validateSchema UpdateListSchema
       >=> authorize List_ "params" "id" (param "id") >=> patch_lists_id env);
  Route DELETE (under_api [Lit "lists"; Par "id"])
    (authorize List_ "params" "id" (param "id") >=> delete_lists_id env);
  Route GET (under_api [Lit "tasks"]) get_tasks;
  Route POST (under_api [Lit "tasks"])
    (validateSchema TaskSchema
       >=> authorize List_ "body" "listId" (λ req, Some (tb_listId (req_body req)))
       >=> post_tasks env);
  Route PATCH (under_api [Lit "tasks"; Par "id"])
    (validateSchema UpdateTaskSchema
       >=> authorize Task "params" "id" (param "id") >=> patch_tasks_id env);
  Route DELETE (under_api [Lit "tasks"; Par "id"])
    (authorize Task "params" "id" (param "id") >=> delete_tasks_id env);
  Route POST (under_api [Lit "attachments"])
    (validateSchema AttachmentSchema
       >=> authorize Task "body" "taskId" (λ req, Some (ab_taskId (req_body req)))
       >=> post_attachments env);
  Route GET (under_api [Lit "attachments"; Par "taskId"])
    (authorize Task "params" "taskId" (param "taskId") >=> get_attachments);
  Route DELETE (under_api [Lit "attachments"; Par "id"])
    (authorize Attachment "params" "id" (param "id") >=> delete_attachments_id env)
].

(** The stack of the application, in the order of server.js. *)
Definition app env (connected : bool) : list Layer :=
  public_routes env
  ++ [Route GET (under_api [Lit "auth"; Lit "me"]) (auth cfg env >=> me);
      Use ["api"] (auth cfg env)]
  ++ protected_routes env
  ++ [Route GET [Lit "health"] (health cfg env connected)].

(** One request from the CORS check to the response: what a handler sends,
    or what the error handler makes of the error passed to [next].  An
    exception that escapes is an unhandled rejection. *)
Definition serve env (connected : bool) (origin : option string) (m : Method)
    (path : list string) (req : Req Json) : M World Err Response :=
  if cors_origin cfg origin then
    r <- dispatch (app env connected) finalhandler m path req ;;
    match r with
    | Sent x => ret x
    | NextErr e => ret (errorHandler cfg e)
    | Next v => match v with end
    end
  else ret (errorHandler cfg (MkErr "Error" "Not allowed by CORS")).

End app.

(** ** The middleware in the program logic *)

Section middleware_triples.
Context `{Crypto}.
Implicit Types (P : DB → Prop).

(** [validateSchema] reads nothing, and lets through the parsed body. *)
Lemma validateSchema_triple {B} (schema : Json → Parsed B) (req : Req Json) P E :
  triple P (validateSchema schema req)
    (λ r d, P d ∧ match r with
                  | Next req' => ∃ b, schema (req_body req) = inr b ∧ req' = set_body b req
                  | Sent x => ∃ es, schema (req_body req) = inl es ∧ x = validation_error es
                  | NextErr _ => False
                  end) E.
Proof.
  unfold validateSchema. destruct (schema (req_body req)) as [es|b];
    apply triple_ret; eauto.
Qed.

(** [auth] reads nothing, and lets through with [req.user] set. *)
Lemma auth_triple {B} cfg env (req : Req B) P E :
  triple P (auth cfg env req)
    (λ r d, P d ∧ match r with
                  | Next req' => ∃ c, req' = set_user (identity_of c) req
                  | _ => True
                  end) E.
Proof.
  unfold auth. destruct (_ || _); [by apply triple_ret|].
  destruct (_ ≫= _); apply triple_ret; eauto.
Qed.

(** [authorize] writes nothing, and lets through only when the resource
    exists and is the caller's. *)
Lemma authorize_triple A `{ModelLaws A} {B} source key rid (req : Req B) u P E :
  req_user req = Some u →
  triple P (authorize A source key rid req)
    (λ r d, P d ∧ match r with
                  | Next req' =>
                      ∃ id x, rid req = Some id ∧ has_owner kind id (id_id u) d ∧
                        req' = set_resource (toLowerCase modelName) (to_doc x) req
                  | _ => True
                  end) E.
Proof.
  intros Hu. unfold authorize. rewrite Hu.
  eapply triple_catch_next with (E' := P); [|done].
  destruct (falsy_str (rid req)) eqn:Hf; [by apply triple_ret|].
  apply falsy_str_false in Hf as (id & Hid & _). rewrite Hid.
  change (default "" (Some id)) with id.
  eapply triple_bind; [by apply triple_ret with (Q := λ v d, v = u ∧ P d)|].
  intros ?. apply triple_frame_pure. intros ->.
  unfold castObjectId. destruct (is_objectId id); [|by apply triple_throw].
  eapply triple_bind; [by apply triple_ret with (Q := λ v d, v = id ∧ P d)|].
  intros ?. apply triple_frame_pure. intros ->.
  eapply triple_bind.
  { apply triple_db_read with
      (Q := λ r d, P d ∧ r = find_first (owned_by id (id_id u)) (collection d)); [|done].
    by intros d HP. }
  intros [x|]; apply triple_ret; intros d [HP Hx]; (split; [done|]); [|done].
  symmetry in Hx. apply find_first_Some in Hx as [Hin Hown].
  exists id, x. split_and!; [done| |done]. by eapply owned_has_owner.
Qed.

End middleware_triples.

(** ** What the handlers write

    For an authenticated user [u] and a well-formed database [d0],
    [reach d] says that [d] comes from [d0] by writes of [u].  Each
    handler, started from a database reached so, ends in one, however the
    storage calls fail on the way. *)

Section writes.
Context `{Crypto} `{Formats} (cfg : Config) (env : Env) (u : Identity) (d0 : DB).
Context (Hwf : wf_db d0).
Implicit Types (d : DB) (S : DB → Prop).

Definition reach d : Prop := rtc (Write (id_id u)) d0 d.

(** A fact that writes of [u] keep. *)
Definition stable S : Prop := ∀ d d', Write (id_id u) d d' → S d → S d'.

(** [d] is reached and [S] holds of it. *)
Definition inv S d : Prop := reach d ∧ S d.

(** The id of the document this request may create is not in use. *)
Definition fresh d : Prop := ∀ k, env_oid env 0 ∉ id_of <$> docs k d.

Lemma reach_wf d : reach d → wf_db d.
Proof. intros Hr. by eapply writes_wf. Qed.

Lemma inv_write S d d' : stable S → inv S d → Write (id_id u) d d' → inv S d'.
Proof. intros HS [Hr Hs] Hw. split; [by eapply rtc_r|by eapply HS]. Qed.

Lemma stable_True : stable (λ _, True).
Proof. done. Qed.

Lemma stable_has_owner k id : stable (has_owner k id (id_id u)).
Proof. intros d d' Hw. by apply (Write_has_owner (id_id u)). Qed.

Lemma stable_and S1 S2 : stable S1 → stable S2 → stable (λ d, S1 d ∧ S2 d).
Proof. intros H1 H2 d d' Hw [??]. split; [by eapply H1|by eapply H2]. Qed.

Lemma stable_forall {X} (S : X → DB → Prop) :
  (∀ x, stable (S x)) → stable (λ d, ∀ x, S x d).
Proof. intros HS d d' Hw Hd x. by eapply HS. Qed.

Lemma stable_impl (φ : Prop) S : stable S → stable (λ d, φ → S d).
Proof. intros HS d d' Hw Hd Hφ. by eapply HS; [|apply Hd]. Qed.

Lemma the_user_triple {B} (req : Req B) P E :
  req_user req = Some u → triple P (the_user req) (λ v d, v = u ∧ P d) E.
Proof. intros Hu. unfold the_user. rewrite Hu. by apply triple_ret. Qed.

(** A storage call whose write is a write of [u]. *)
Lemma write_triple {A} (f : DB → A * DB) S (P : DB → Prop) :
  stable S → (∀ d, wf_db d → S d → P d → Write (id_id u) d (f d).2) →
  triple (λ d, inv S d ∧ P d) (db_call f) (λ _, inv S) (inv S).
Proof.
  intros HS Hw. apply triple_db_call; intros d [HI HP]; [|done].
  eapply inv_write; [done..|]. destruct HI as [Hr Hs]. apply Hw; [by apply reach_wf|done..].
Qed.

Section queries.
Context (A : Type) `{ModelLaws A}.

(** [findOneAndUpdate] by an id whose owner is [u]. *)
Lemma findOneAndUpdate_triple id f S :
  keeps A f → stable S → (∀ d, S d → has_owner kind id (id_id u) d) →
  triple (inv S) (findOneAndUpdate A id f) (λ _, inv S) (inv S).
Proof.
  intros Hf HS Hown. eapply triple_conseq;
    [apply (write_triple _ S (λ _, True) HS)|by intros d ?|done..].
  intros d Hd Hs _. cbn. apply Write_update_first; [done..|].
  intros x Hx Hid. rewrite <-user_of_to_doc.
  eapply owner_unique; [done|by apply Hown|by apply elem_of_docs|by rewrite id_of_to_doc].
Qed.

(** [updateMany] with a filter that selects documents of [u] only. *)
Lemma updateMany_triple (P : A → Prop) `{!∀ x, Decision (P x)} f S :
  keeps A f → stable S →
  (∀ d x, wf_db d → S d → x ∈ collection d → P x → doc_user_id x = id_id u) →
  triple (inv S) (updateMany A P f) (λ _, inv S) (inv S).
Proof.
  intros Hf HS HP. eapply triple_conseq;
    [apply (write_triple _ S (λ _, True) HS)|by intros d ?|done..].
  intros d Hd Hs _. cbn. apply Write_update_all; [done..|]. intros x. by apply HP.
Qed.

(** [save] of a new document of [u]. *)
Lemma save_triple (x : A) S :
  stable S → doc_user_id x = id_id u → doc_id x = env_oid env 0 →
  (∀ d, S d → parented (to_doc x) d) →
  triple (λ d, inv S d ∧ fresh d) (save x) (λ _, inv S) (inv S).
Proof.
  intros HS Hu Hid Hpar. apply write_triple; [done|].
  intros d Hd Hs Hfresh. cbn. apply Write_save; [apply _|done| |by apply Hpar].
  rewrite Hid. specialize (Hfresh kind). rewrite docs_collection in Hfresh.
  rewrite <-list_fmap_compose in Hfresh.
  by erewrite list_fmap_ext in Hfresh; [|intros; apply id_of_to_doc].
Qed.

End queries.

(** *** The handlers of boards *)

Implicit Types (req : Req Json).

(** The shape of every handler's claim: started from a database reached by
    writes of [u] where the stable fact [S] and the fact [P] hold, it ends
    in one reached by writes of [u], whatever it replies. *)
Definition writes_only {A} S (P : DB → Prop) (m : M World Err A) : Prop :=
  triple (λ d, inv S d ∧ P d) m (λ _, reach) reach.

Definition no_fact : DB → Prop := λ _, True.

Lemma writes_only_bind {A B} S (P : DB → Prop) (m : M World Err A)
    (k : A → M World Err B) :
  triple (λ d, inv S d ∧ P d) m (λ _, inv S) (inv S) →
  (∀ a, triple (inv S) (k a) (λ _, reach) reach) →
  writes_only S P (x <- m ;; k x).
Proof.
  intros Hm Hk. eapply triple_bind; [|exact Hk].
  eapply triple_conseq; [exact Hm|done..|by intros d []].
Qed.

(** A step that keeps the invariant, then the rest. *)
Lemma step_bind {A B} S (m : M World Err A) (k : A → M World Err B) :
  triple (inv S) m (λ _, inv S) (inv S) →
  (∀ a, triple (inv S) (k a) (λ _, reach) reach) →
  triple (inv S) (x <- m ;; k x) (λ _, reach) reach.
Proof.
  intros Hm Hk. eapply triple_bind; [|exact Hk].
  eapply triple_conseq; [exact Hm|done..|by intros d []].
Qed.

(** A handler that needs no fact beyond the stable one. *)
Lemma writes_only_stable {A} S (m : M World Err A) :
  triple (inv S) m (λ _, reach) reach → writes_only S no_fact m.
Proof. intros Hm. eapply triple_pre; [done|by intros d []]. Qed.

Lemma json_reach {A} S status body :
  triple (inv S) (json (A:=A) status body) (λ _, reach) reach.
Proof. apply triple_ret. by intros d []. Qed.

Lemma catch_reach {A} (P : DB → Prop) (m : M World Err (Reply A)) :
  triple P m (λ _, reach) reach → triple P (catch_next m) (λ _, reach) reach.
Proof. intros Hm. by eapply triple_catch_next. Qed.

(** A handler that only reads. *)
Lemma read_reach {A B} S (f : DB → A) (k : A → M World Err B) :
  (∀ a, triple (inv S) (k a) (λ _, reach) reach) →
  triple (inv S) (x <- db_read f ;; k x) (λ _, reach) reach.
Proof.
  intros Hk. apply triple_bind_read; [|by intros d []].
  intros a. eapply triple_pre; [apply Hk|by intros d []].
Qed.

Lemma get_boards_writes req :
  req_user req = Some u → writes_only no_fact no_fact (get_boards req).
Proof.
  intros Hu. unfold get_boards, the_user. rewrite Hu.
  apply writes_only_stable, catch_reach, triple_bind_ret, read_reach. intros. apply json_reach.
Qed.

Lemma post_boards_writes (req : Req BoardBody) :
  req_user req = Some u → writes_only no_fact fresh (post_boards env req).
Proof.
  intros Hu. unfold post_boards, the_user. rewrite Hu. apply catch_reach, triple_bind_ret.
  apply writes_only_bind; [|intros; apply json_reach]. by apply (save_triple Board).
Qed.

Lemma update_board_keeps now b : keeps Board (update_board now b).
Proof. done. Qed.

Lemma patch_boards_id_writes (req : Req UpdateBoardBody) :
  writes_only (has_owner KBoard (params_id req) (id_id u)) no_fact (patch_boards_id env req).
Proof.
  unfold patch_boards_id. apply writes_only_stable, catch_reach.
  apply step_bind; [|intros; apply json_reach].
  apply (findOneAndUpdate_triple Board); [apply update_board_keeps|apply stable_has_owner|done].
Qed.

(** After the board, its lists and the tasks of those lists: each of the
    three writes touches documents of [u] only, because the parent of a
    list or task has the same owner. *)
Lemma delete_boards_id_writes req :
  writes_only (has_owner KBoard (params_id req) (id_id u)) no_fact (delete_boards_id env req).
Proof.
  unfold delete_boards_id. cbv zeta. set (id := params_id req).
  apply writes_only_stable, catch_reach, step_bind.
  { apply (findOneAndUpdate_triple Board); [apply mark_deleted_keeps, _|apply stable_has_owner|done]. }
  intros _. apply step_bind.
  { apply (updateMany_triple List_); [apply mark_deleted_keeps, _|apply stable_has_owner|].
    intros d l Hd Hown Hl Hid. apply list_owner with d; [done..|by rewrite Hid]. }
  intros _. apply triple_bind_read; [|by intros d []]. intros ls.
  eapply triple_pre with (P' := inv (λ d, ∀ l, l ∈ ls → has_owner KList (l_id l) (id_id u) d)).
  - apply step_bind; [|intros; apply json_reach].
    apply (updateMany_triple Task); [apply mark_deleted_keeps, _| |].
    + apply stable_forall. intros l. apply stable_impl, stable_has_owner.
    + intros d t Hd Hls Ht (l & Heq & Hl)%list_elem_of_fmap.
      apply task_owner with d; [done..|]. rewrite Heq. by apply Hls.
  - intros d [[Hr Hown] ->]. split; [done|]. intros l [Hbid Hl]%list_elem_of_filter.
    rewrite <-(list_owner (id_id u) d (reach_wf _ Hr) l Hl) by by rewrite Hbid.
    by apply has_owner_list.
Qed.

(** *** The handlers of lists *)

(** The check of the parent named in a query reads only. *)
Lemma parent_visible_triple A `{Model A} x uid (P E : DB → Prop) :
  (∀ d, P d → E d) → triple P (parent_visible A x uid) (λ _, P) E.
Proof.
  intros HE. unfold parent_visible, castObjectId.
  destruct (falsy_str x); [by apply triple_ret|].
  destruct (is_objectId _); [apply triple_bind_ret|by apply triple_bind_throw].
  apply triple_bind_read; [|done]. intros found. apply triple_ret. by intros d [].
Qed.

Lemma get_lists_writes req :
  req_user req = Some u → writes_only no_fact no_fact (get_lists req).
Proof.
  intros Hu. unfold get_lists, the_user. rewrite Hu. cbv zeta.
  apply writes_only_stable, catch_reach, triple_bind_ret, step_bind;
    [by apply parent_visible_triple|].
  intros [|]; [|apply json_reach]. apply read_reach. intros. apply json_reach.
Qed.

Lemma post_lists_writes (req : Req ListBody) :
  req_user req = Some u →
  writes_only (has_owner KBoard (lb_boardId (req_body req)) (id_id u)) fresh
    (post_lists env req).
Proof.
  intros Hu. unfold post_lists, the_user. rewrite Hu. apply catch_reach, triple_bind_ret.
  apply writes_only_bind; [|intros; apply json_reach].
  by apply (save_triple List_); [apply stable_has_owner|..].
Qed.

Lemma update_list_keeps now b : keeps List_ (update_list now b).
Proof. done. Qed.

Lemma patch_lists_id_writes (req : Req UpdateListBody) :
  writes_only (has_owner KList (params_id req) (id_id u)) no_fact (patch_lists_id env req).
Proof.
  unfold patch_lists_id. apply writes_only_stable, catch_reach.
  apply step_bind; [|intros; apply json_reach].
  apply (findOneAndUpdate_triple List_); [apply update_list_keeps|apply stable_has_owner|done].
Qed.

Lemma delete_lists_id_writes req :
  writes_only (has_owner KList (params_id req) (id_id u)) no_fact (delete_lists_id env req).
Proof.
  unfold delete_lists_id. cbv zeta. apply writes_only_stable, catch_reach, step_bind.
  { apply (findOneAndUpdate_triple List_); [apply mark_deleted_keeps, _|apply stable_has_owner|done]. }
  intros _. apply step_bind; [|intros; apply json_reach].
  apply (updateMany_triple Task); [apply mark_deleted_keeps, _|apply stable_has_owner|].
  intros d t Hd Hown Ht Hid. apply task_owner with d; [done..|by rewrite Hid].
Qed.

Lemma set_position_keeps now index : keeps List_ (set_position now index).
Proof. done. Qed.

(** When the count equals the number of ids, the ids are ids of lists of
    [u], so the updates of the reorder write lists of [u] only. *)
Lemma reorder_counted d (orderedIds : list string) :
  wf_db d →
  length (filter (λ l, l_id l ∈ orderedIds ∧ visible_to (id_id u) l) (lists d))
    = length orderedIds →
  NoDup orderedIds ∧ ∀ id, id ∈ orderedIds → has_owner KList id (id_id u) d.
Proof.
  intros Hd Hcount.
  destruct (count_all_found l_id (visible_to (id_id u)) (lists d) orderedIds)
    as [Hnd Hall]; [|done|split; [done|]].
  { generalize (wf_unique _ Hd KList). cbn. by rewrite <-list_fmap_compose. }
  intros id (l & Hl & <- & <- & _)%Hall. by apply has_owner_list.
Qed.

Lemma patch_lists_reorder_writes (req : Req (list string)) :
  req_user req = Some u → writes_only no_fact no_fact (patch_lists_reorder env req).
Proof.
  intros Hu. unfold patch_lists_reorder, the_user. rewrite Hu. cbv zeta.
  apply writes_only_stable, catch_reach, triple_bind_ret.
  destruct (forallb _ _); [apply triple_bind_ret|apply triple_bind_throw; by intros d []].
  apply triple_bind_read; [|by intros d []]. intros count.
  case_decide as Hcount; [apply triple_ret; by intros d [[] _]|].
  eapply triple_pre with
    (P' := inv (λ d, ∀ id, id ∈ req_body req → has_owner KList id (id_id u) d)).
  - apply step_bind; [|intros; apply json_reach].
    eapply triple_conseq; [apply promise_all_preserves|done..].
    intros m (index & id & -> & Hid%list_elem_of_lookup_2)%elem_of_lookup_imap.
    apply (findOneAndUpdate_triple List_); [apply set_position_keeps| |auto].
    apply stable_forall. intros id'. apply stable_impl, stable_has_owner.
  - intros d [[Hr _] ->]. split; [done|]. by apply reorder_counted; [apply reach_wf|].
Qed.

(** *** The handlers of tasks and attachments *)

Lemma get_tasks_writes req :
  req_user req = Some u → writes_only no_fact no_fact (get_tasks req).
Proof.
  intros Hu. unfold get_tasks, the_user. rewrite Hu. cbv zeta.
  apply writes_only_stable, catch_reach, triple_bind_ret, step_bind;
    [by apply parent_visible_triple|].
  intros [|]; [|apply json_reach]. apply read_reach. intros. apply json_reach.
Qed.

Lemma post_tasks_writes (req : Req TaskBody) :
  req_user req = Some u →
  writes_only (has_owner KList (tb_listId (req_body req)) (id_id u)) fresh
    (post_tasks env req).
Proof.
  intros Hu. unfold post_tasks, the_user. rewrite Hu. apply catch_reach, triple_bind_ret.
  eapply triple_bind; [apply parent_visible_triple; by intros d [[] _]|].
  intros [|]; [|apply triple_ret; by intros d [[] _]].
  apply writes_only_bind; [|intros; apply json_reach].
  by apply (save_triple Task); [apply stable_has_owner|..].
Qed.

Lemma update_task_keeps now b : keeps Task (update_task now b).
Proof. done. Qed.

Lemma patch_tasks_id_writes (req : Req UpdateTaskBody) :
  writes_only (has_owner KTask (params_id req) (id_id u)) no_fact (patch_tasks_id env req).
Proof.
  unfold patch_tasks_id. apply writes_only_stable, catch_reach.
  apply step_bind; [|intros; apply json_reach].
  apply (findOneAndUpdate_triple Task); [apply update_task_keeps|apply stable_has_owner|done].
Qed.

Lemma delete_tasks_id_writes req :
  writes_only (has_owner KTask (params_id req) (id_id u)) no_fact (delete_tasks_id env req).
Proof.
  unfold delete_tasks_id. apply writes_only_stable, catch_reach.
  apply step_bind; [|intros; apply json_reach].
  apply (findOneAndUpdate_triple Task); [apply mark_deleted_keeps, _|apply stable_has_owner|done].
Qed.

Lemma post_attachments_writes (req : Req AttachmentBody) :
  req_user req = Some u →
  writes_only (has_owner KTask (ab_taskId (req_body req)) (id_id u)) fresh
    (post_attachments env req).
Proof.
  intros Hu. unfold post_attachments, the_user. rewrite Hu.
  apply catch_reach, triple_bind_ret.
  apply writes_only_bind; [|intros; apply json_reach].
  by apply (save_triple Attachment); [apply stable_has_owner|..].
Qed.

Lemma get_attachments_writes req :
  req_user req = Some u → writes_only no_fact no_fact (get_attachments req).
Proof.
  intros Hu. unfold get_attachments, the_user. rewrite Hu. cbv zeta.
  apply writes_only_stable, catch_reach, triple_bind_ret, read_reach.
  intros. apply json_reach.
Qed.

Lemma delete_attachments_id_writes req :
  writes_only (has_owner KAttachment (params_id req) (id_id u)) no_fact
    (delete_attachments_id env req).
Proof.
  unfold delete_attachments_id. apply writes_only_stable, catch_reach.
  apply step_bind; [|intros; apply json_reach].
  apply (findOneAndUpdate_triple Attachment);
    [apply mark_deleted_keeps, _|apply stable_has_owner|done].
Qed.

(** *** The chains of the routes *)

Section chains.
Context {C : Type} (P : DB → Prop) (HP : ∀ d, P d → reach d).

(** [validateSchema(schema)] before a handler. *)
Lemma chain_validate {B} (schema : Json → Parsed B) (h : Handler (Req B) C) req :
  (∀ b, triple P (h (set_body b req)) (λ _, reach) reach) →
  triple P ((validateSchema schema >=> h) req) (λ _, reach) reach.
Proof.
  intros Hh. eapply triple_chain with (R := λ (req' : Req B) d, P d ∧ ∃ b, req' = set_body b req).
  - eapply triple_conseq; [apply (validateSchema_triple schema req P reach)|done| |done].
    intros [req'|x|e] d [Hd Hr]; cbn; [|by apply HP|done].
    destruct Hr as (b & _ & ->). eauto.
  - intros req'. apply triple_pure_r. intros [b ->]. apply Hh.
Qed.

(** [authorize(Model, ...)] before a handler: the handler starts knowing
    that the resource is the caller's. *)
Lemma chain_authorize A `{ModelLaws A} {B} source key rid (h : Handler (Req B) C)
    (req : Req B) :
  req_user req = Some u →
  (∀ x, triple (λ d, P d ∧ has_owner kind (default "" (rid req)) (id_id u) d)
          (h (set_resource (toLowerCase modelName) (to_doc x) req)) (λ _, reach) reach) →
  triple P ((authorize A source key rid >=> h) req) (λ _, reach) reach.
Proof.
  intros Hu Hh. eapply triple_chain with
    (R := λ (req' : Req B) d, (P d ∧ ∃ id, has_owner kind id (id_id u) d ∧ ∃ x, rid req = Some id ∧
             req' = set_resource (toLowerCase modelName) (to_doc x) req)).
  - eapply triple_conseq;
      [by apply (authorize_triple A source key rid req u P reach)|done| |done].
    intros [req'|x|e] d [Hd Hr]; cbn; [|by apply HP..].
    destruct Hr as (id & x & ? & ? & ->). eauto 10.
  - intros req' w r w' (Hd & id & Hown & x & Hid & ->). apply (Hh x). by rewrite Hid.
Qed.

End chains.

Lemma fresh_reach d : reach d ∧ fresh d → reach d.
Proof. by intros []. Qed.

(** From the precondition of a chain to that of its handler. *)
Lemma writes_only_fresh {A} S (m : M World Err A) :
  writes_only S fresh m → triple (λ d, (reach d ∧ fresh d) ∧ S d) m (λ _, reach) reach.
Proof. intros Hm. eapply triple_pre; [exact Hm|]. by intros d [[] ?]. Qed.

Lemma writes_only_no_fact {A} S (m : M World Err A) :
  writes_only S no_fact m → triple (λ d, (reach d ∧ fresh d) ∧ S d) m (λ _, reach) reach.
Proof. intros Hm. eapply triple_pre; [exact Hm|]. by intros d [[] ?]. Qed.

Lemma writes_only_plain {A} (m : M World Err A) :
  writes_only no_fact no_fact m → triple (λ d, reach d ∧ fresh d) m (λ _, reach) reach.
Proof. intros Hm. eapply triple_pre; [exact Hm|]. by intros d []. Qed.

Lemma writes_only_plain_fresh {A} (m : M World Err A) :
  writes_only no_fact fresh m → triple (λ d, reach d ∧ fresh d) m (λ _, reach) reach.
Proof. intros Hm. eapply triple_pre; [exact Hm|]. by intros d []. Qed.

(** *** The protected routes *)

Context (ReorderSchema : Json → Parsed (list string)).

Ltac route_chain lem Hu :=
  first
    [ refine (writes_only_plain _ (lem _ _)); exact Hu
    | refine (writes_only_plain_fresh _ (lem _ _)); exact Hu
    | apply chain_validate; [apply fresh_reach|intros ?]; route_chain lem Hu
    | eapply chain_authorize; [apply fresh_reach|apply _|exact Hu|intros ?];
      first [ exact (writes_only_no_fact _ _ (lem _))
            | refine (writes_only_fresh _ _ (lem _ _)); exact Hu
            | eapply triple_pre; [refine (writes_only_plain _ (lem _ _)); exact Hu|];
              by intros ? [] ] ].

Ltac next_route lem Hu :=
  cbn [dispatch]; destruct (if decide _ then _ else _) as [?|]; [route_chain lem Hu|].

Lemma protected_writes final m path req :
  (∀ req', triple (λ d, reach d ∧ fresh d) (final req') (λ _, reach) reach) →
  req_user req = Some u →
  triple (λ d, reach d ∧ fresh d)
    (dispatch (protected_routes ReorderSchema env) final m path req) (λ _, reach) reach.
Proof.
  intros Hfinal Hu. unfold protected_routes.
  next_route get_boards_writes Hu. next_route post_boards_writes Hu.
  next_route patch_boards_id_writes Hu. next_route delete_boards_id_writes Hu.
  next_route get_lists_writes Hu. next_route post_lists_writes Hu.
  next_route patch_lists_reorder_writes Hu. next_route patch_lists_id_writes Hu.
  next_route delete_lists_id_writes Hu. next_route get_tasks_writes Hu.
  next_route post_tasks_writes Hu. next_route patch_tasks_id_writes Hu.
  next_route delete_tasks_id_writes Hu. next_route post_attachments_writes Hu.
  next_route get_attachments_writes Hu. next_route delete_attachments_id_writes Hu.
  apply Hfinal.
Qed.


End writes.

(** ** The application as a whole *)

Lemma dispatch_app l1 l2 final m path req w :
  dispatch (l1 ++ l2) final m path req w
  = dispatch l1 (dispatch l2 final m path) m path req w.
Proof.
  revert req w. induction l1 as [|[m' pat h|prefix mw] l1 IH]; intros req w; simpl; [done|..].
  - destruct (if decide _ then _ else _); [done|apply IH].
  - destruct (below prefix path); [|apply IH]. unfold chain, bind.
    destruct (mw req w) as [[[req'|x|e]|e] w1]; [apply IH|done..].
Qed.

(** A pattern of literals matches its own path only, up to the case of
    the letters. *)
Lemma match_path_lits ss path ps :
  match_path (Lit <$> ss) path = Some ps → toLowerCase <$> path = toLowerCase <$> ss.
Proof.
  revert path ps. induction ss as [|s ss IH]; intros [|x path] ps; csimpl; try done.
  case_decide; [|done]. intros ?%IH. congruence.
Qed.

Lemma match_path_lit3 a b c x rest ps :
  match_path [Lit a; Lit b; Lit c] (x :: rest) = Some ps →
  toLowerCase <$> rest = [toLowerCase b; toLowerCase c].
Proof. intros Hm%(match_path_lits [a; b; c]). by injection Hm. Qed.

Section app_properties.
Context `{Crypto} `{Formats} (cfg : Config).
Context (ReorderSchema : Json → Parsed (list string)).
Implicit Types (env : Env) (req : Req Json).

(** The routes below [/api] that are registered before [auth] is mounted,
    in whatever case the path is written. *)
Definition public (m : Method) (rest : list string) : Prop :=
  m = POST ∧ toLowerCase <$> rest ∈ [["auth"; "register"]; ["auth"; "login"];
                                     ["auth"; "refresh"]; ["auth"; "logout"]].

(** A request to another path below [/api] passes the public routes. *)
Lemma public_routes_skip env final m rest req w :
  ¬ public m rest →
  dispatch (public_routes cfg env) final m ("api" :: rest) req w = final req w.
Proof.
  intros Hpub. unfold public_routes, under_api.
  repeat (cbn [dispatch]; destruct (if decide _ then _ else _) as [ps|] eqn:Hm;
    [exfalso; apply Hpub;
     destruct (decide (m = POST)) as [->|]; [|done];
     apply match_path_lit3 in Hm; split; [done|]; rewrite Hm; vm_compute; set_solver
    |clear Hm]).
  done.
Qed.

(** [auth] looks at the header only. *)
Lemma auth_with_params env req ps w x w' :
  auth cfg env req w = (Ok (Sent x), w') →
  auth cfg env (with_params ps req) w = (Ok (Sent x), w').
Proof.
  unfold auth. change (req_authorization (with_params ps req)) with (req_authorization req).
  destruct (_ || _); [done|]. by destruct (_ ≫= _).
Qed.

(** The stack from the mount of [auth] on, for a path below [/api]. *)
Lemma app_below_api env connected m rest req w :
  ¬ public m rest →
  dispatch (app cfg ReorderSchema env connected) finalhandler m ("api" :: rest) req w =
  match (if decide (m = GET) then match_path (under_api [Lit "auth"; Lit "me"]) ("api" :: rest)
         else None) with
  | Some ps => (auth cfg env >=> me) (with_params ps req) w
  | None =>
      (auth cfg env >=>
         dispatch (protected_routes ReorderSchema env
                   ++ [Route GET [Lit "health"] (health cfg env connected)])
           finalhandler m ("api" :: rest)) req w
  end.
Proof.
  intros Hpub. unfold app. rewrite dispatch_app, public_routes_skip by done.
  rewrite dispatch_app. cbn [dispatch below]. destruct (if decide _ then _ else _); [done|].
  rewrite bool_decide_eq_true_2 by done. cbn [andb]. unfold chain, bind.
  by destruct (auth cfg env req w) as [[[req'|x|e]|e] w1].
Qed.

(** C19. Below [/api], everything but register, login, refresh and logout
    is behind [auth]: a request that [auth] turns away gets its 401 from
    whatever route it asked for, and the world is not touched. *)
Theorem api_requires_token env connected m rest req w x w' :
  ¬ public m rest →
  auth cfg env req w = (Ok (Sent x), w') →
  dispatch (app cfg ReorderSchema env connected) finalhandler m ("api" :: rest) req w
    = (Ok (Sent x), w') ∧ w' = w.
Proof.
  intros Hpub Hauth. rewrite app_below_api by done.
  assert (w' = w) as ->.
  { destruct (auth_cases cfg env req w) as [(? & ? & _)|(? & _ & ?)]; congruence. }
  split; [|done]. destruct (if decide _ then _ else _) as [ps|].
  - by apply chain_sent, auth_with_params.
  - by apply chain_sent.
Qed.

(** What falls through the protected routes writes nothing. *)
Lemma health_final_triple env connected m path req (P Q : DB → Prop) :
  (∀ d, P d → Q d) →
  triple P (dispatch [Route GET [Lit "health"] (health cfg env connected)]
              finalhandler m path req) (λ _, Q) Q.
Proof.
  intros HPQ. cbn [dispatch]. destruct (if decide _ then _ else _); by apply triple_ret.
Qed.

(** A request to a protected path writes nothing, or carries a verified
    token and makes writes of the token's user only. *)
Lemma app_writes env connected m rest req w r w' :
  ¬ public m rest → wf_db (w_db w) → fresh env (w_db w) →
  dispatch (app cfg ReorderSchema env connected) finalhandler m ("api" :: rest) req w
    = (r, w') →
  w_db w' = w_db w ∨
  ∃ claims, verified cfg env req claims ∧
            rtc (Write (c_userId claims)) (w_db w) (w_db w').
Proof.
  intros Hpub Hwf Hfresh. rewrite app_below_api by done.
  destruct (if decide _ then _ else _) as [ps|].
  - intros Hrun. left. unfold chain, bind, me, json, ret in Hrun.
    by destruct (auth_cases cfg env (with_params ps req) w)
      as [(? & Ha & _)|(? & _ & Ha)]; rewrite Ha in Hrun; simplify_eq.
  - destruct (auth_cases cfg env req w) as [(x & Ha & _)|(claims & Hv & Ha)].
    + rewrite (chain_sent _ _ _ _ _ _ Ha). intros [= <- <-]. by left.
    + rewrite (chain_next _ _ _ _ _ _ Ha), dispatch_app. intros Hrun. right.
      exists claims. split; [done|].
      assert (triple (λ d, reach (identity_of claims) (w_db w) d ∧ fresh env d)
        (dispatch (protected_routes ReorderSchema env)
           (dispatch [Route GET [Lit "health"] (health cfg env connected)]
              finalhandler m ("api" :: rest)) m ("api" :: rest)
           (set_user (identity_of claims) req))
        (λ _, reach (identity_of claims) (w_db w)) (reach (identity_of claims) (w_db w)))
        as Htr.
      { apply protected_writes; [done| |done]. intros req'.
        apply health_final_triple, fresh_reach. }
      specialize (Htr w r w' (conj (rtc_refl _ _) Hfresh) Hrun).
      by destruct r.
Qed.

(** C17. Ownership isolation: whatever a request to a protected route does,
    and however storage fails under it, the documents of every user but
    the verified token's are afterwards as they were before, position by
    position, and so are the users and the ledger of refresh tokens. *)
Theorem api_writes_isolated env connected m rest req w r w' :
  ¬ public m rest → wf_db (w_db w) → fresh env (w_db w) →
  dispatch (app cfg ReorderSchema env connected) finalhandler m ("api" :: rest) req w
    = (r, w') →
  w_db w' = w_db w ∨
  ∃ claims, verified cfg env req claims ∧ isolated (c_userId claims) (w_db w) (w_db w').
Proof.
  intros Hpub Hwf Hfresh Hrun.
  destruct (app_writes _ _ _ _ _ _ _ _ Hpub Hwf Hfresh Hrun) as [?|(c & ? & Hw)]; [by left|].
  right. exists c. split; [done|]. by apply writes_isolated.
Qed.

(** C18. The protected routes keep the database well-formed: ids stay
    unique and every list, task and attachment keeps a parent of its own
    owner, also when storage fails between the writes of a handler. *)
Theorem api_preserves_wf env connected m rest req w r w' :
  ¬ public m rest → wf_db (w_db w) → fresh env (w_db w) →
  dispatch (app cfg ReorderSchema env connected) finalhandler m ("api" :: rest) req w
    = (r, w') →
  wf_db (w_db w').
Proof.
  intros Hpub Hwf Hfresh Hrun.
  destruct (app_writes _ _ _ _ _ _ _ _ Hpub Hwf Hfresh Hrun) as [->|(c & ? & Hw)]; [done|].
  by eapply writes_wf.
Qed.

End app_properties.

(** ** Witnesses *)

Lemma not_public_boards id : ¬ public DELETE ["boards"; id].
Proof. by intros [? _]. Qed.

Lemma api_requires_token_witness :
  dispatch (app cfg0 reorderSchema env2 true) finalhandler DELETE ["api"; "boards"; oid_b]
    (anonymous JNull) (mkWorld db3 [])
  = (Ok (Sent (mkResponse 401 (error_body "Authorization required") [])), mkWorld db3 [])
  ∧ mkWorld db3 [] = mkWorld db3 [].
Proof.
  apply (api_requires_token cfg0 reorderSchema env2 true DELETE ["boards"; oid_b]);
    [apply not_public_boards|by_compute].
Defined.

(** Alice deletes her board while the second write fails. *)
Definition delete_run : Res Err (Reply Empty_set) * World :=
  dispatch (app cfg0 reorderSchema env1 true) finalhandler DELETE ["api"; "boards"; oid_a]
    (alice_sends JNull) (mkWorld db3 [false; false; true]).

Lemma api_writes_isolated_witness :
  w_db (snd delete_run) = db3 ∨
  ∃ claims, verified cfg0 env1 (alice_sends JNull) claims
            ∧ isolated (c_userId claims) db3 (w_db (snd delete_run)).
Proof.
  apply (api_writes_isolated cfg0 reorderSchema env1 true DELETE ["boards"; oid_a]
           (alice_sends JNull) (mkWorld db3 [false; false; true]) (fst delete_run));
    [apply not_public_boards|by_compute|intros []; by_compute|apply surjective_pairing].
Defined.

Lemma api_preserves_wf_witness : wf_db (w_db (snd delete_run)).
Proof.
  apply (api_preserves_wf cfg0 reorderSchema env1 true DELETE ["boards"; oid_a]
           (alice_sends JNull) (mkWorld db3 [false; false; true]) (fst delete_run));
    [apply not_public_boards|by_compute|intros []; by_compute|apply surjective_pairing].
Defined.
