(* ===== verification/Client.v ===== *)
(** * Client: src/api.js, src/config.js and src/TasksApp-main/state.js

    The browser side of the session protocol: the access token held in a
    module variable, the axios instance with its two interceptors (attach
    the token; on a 401 refresh once and retry), the wrapper [api] that
    turns every failure into [{ error }], and the functions that log in,
    log out and fetch.

    The backend is an interface, [Backend]: a function from an HTTP
    request and the backend's state to a response or a network failure.
    The browser keeps the refresh cookie in a jar of one cookie and sends
    it to the paths below the cookie's path.

    The objects of [state] live in a store: [state.tasks] is an array of
    references, and [state.activeTask] a reference that may or may not be
    one of them, so that a write through one alias is seen through the
    other, as in the page.

    An async function is a computation [C A] on the pair of the browser
    and the backend that may throw.  The functions that main.js starts
    together have a second form, [Async A]: what the function does until
    its request has left, which returns what it does once the answer is
    there. *)

From stdpp Require Import sorting.
From S2P Require Import Prelude Json Crypto Models Express.

(** ** HTTP as the client sees it *)

Inductive NetFailure := Timeout | NoResponse.

Record HttpRequest := mkHttp {
  hr_method : Method;
  (** the path with its query, from the first [/] *)
  hr_url : string;
  hr_authorization : option string;
  (** the value of the cookie [refreshToken], if the browser sends it *)
  hr_cookie : option string;
  (** the header [Origin] *)
  hr_origin : option string;
  hr_body : Json;
}.

Class Backend := {
  backend : Type;
  handle : HttpRequest → backend → (Response + NetFailure) * backend;
}.

(** ** JavaScript values *)

(** [String(v)], which a template literal applies; [None] is [undefined]. *)
Fixpoint js_String (j : Json) : string :=
  match j with
  | JNull => "null"
  | JBool true => "true"
  | JBool false => "false"
  | JNum n => dec n
  | JStr s => s
  | JArr l => join_with "," (map (λ x, match x with JNull => "" | _ => js_String x end) l)
  | JObj _ => "[object Object]"
  end.

Definition template (v : option Json) : string :=
  match v with
  | Some j => js_String j
  | None => "undefined"
  end.

(** [a === b] where one side is a primitive or [undefined]: two objects
    met this way are never the same object. *)
Definition strict_eq (a b : option Json) : bool :=
  match a, b with
  | None, None | Some JNull, Some JNull => true
  | Some (JBool x), Some (JBool y) => bool_decide (x = y)
  | Some (JNum x), Some (JNum y) => bool_decide (x = y)
  | Some (JStr x), Some (JStr y) => bool_decide (x = y)
  | _, _ => false
  end.

(** [Array.prototype.sort]: which permutation a comparison function that
    is no ordering leads to is left to the engine.  The function gives
    the sign of its result; [NaN] counts as 0. *)
Class ArraySort := {
  js_sort : ∀ {A}, (A → A → Z) → list A → list A;
  js_sort_perm : ∀ A (cmp : A → A → Z) l, js_sort cmp l ≡ₚ l;
  (** on an ordering, the result is sorted *)
  js_sort_sorted : ∀ A (cmp : A → A → Z) l,
    (∀ x y z, (cmp x y ≤ 0 → cmp y z ≤ 0 → cmp x z ≤ 0)%Z) →
    (∀ x y, (cmp x y ≤ 0 ∨ cmp y x ≤ 0)%Z) →
    StronglySorted (λ x y, (cmp x y ≤ 0)%Z) (js_sort cmp l);
  (** the sort with a comparison function that may throw ([None]):
      [None] is the exception; which pairs are compared is the engine's
      choice *)
  js_sort_opt : ∀ {A}, (A → A → option Z) → list A → option (list A);
  js_sort_opt_total : ∀ A (cmp : A → A → option Z) l,
    (∀ x y, x ∈ l → y ∈ l → is_Some (cmp x y)) →
    js_sort_opt cmp l = Some (js_sort (λ x y, default 0%Z (cmp x y)) l);
  js_sort_opt_throws : ∀ A (cmp : A → A → option Z) l,
    js_sort_opt cmp l = None → ∃ x y, x ∈ l ∧ y ∈ l ∧ cmp x y = None;
}.

(** The comparison function puts [x] before or beside [y]. *)
Definition cmp_le {A} (cmp : A → A → Z) (x y : A) : Prop := (cmp x y ≤ 0)%Z.

#[export] Instance cmp_le_dec {A} (cmp : A → A → Z) x y : Decision (cmp_le cmp x y).
Proof. unfold cmp_le. apply _. Defined.

(** Whether a comparison function that may throw is defined on every
    pair of a list. *)
Definition defined_on {A} (cmp : A → A → option Z) (l : list A) : bool :=
  forallb (λ x, forallb (λ y, bool_decide (is_Some (cmp x y))) l) l.

Lemma defined_on_spec {A} (cmp : A → A → option Z) l :
  defined_on cmp l = true ↔ ∀ x y, x ∈ l → y ∈ l → is_Some (cmp x y).
Proof.
  unfold defined_on. rewrite forallb_forall. setoid_rewrite forallb_forall.
  setoid_rewrite bool_decide_eq_true. setoid_rewrite <-list_elem_of_In. naive_solver.
Qed.

Lemma defined_on_false {A} (cmp : A → A → option Z) l :
  defined_on cmp l = false → ∃ x y, x ∈ l ∧ y ∈ l ∧ cmp x y = None.
Proof.
  intros Hdef. apply not_true_iff_false in Hdef. rewrite defined_on_spec in Hdef.
  assert (¬ Forall (λ x, Forall (λ y, is_Some (cmp x y)) l) l) as Hall.
  { rewrite Forall_forall. setoid_rewrite Forall_forall. naive_solver. }
  apply not_Forall_Exists, Exists_exists in Hall as (x & Hx & Hall); [|apply _].
  apply not_Forall_Exists, Exists_exists in Hall as (y & Hy & Hnone); [|apply _].
  exists x, y. split_and!; [done..|]. by apply eq_None_not_Some.
Qed.

(** An engine to compute with: merge sort, which compares every pair
    before it sorts. *)
#[refine] Instance merge_sorting : ArraySort := {|
  js_sort A cmp l := merge_sort (cmp_le cmp) l;
  js_sort_opt A cmp l :=
    if defined_on cmp l then Some (merge_sort (cmp_le (λ x y, default 0%Z (cmp x y))) l)
    else None;
|}.
Proof.
  - intros. apply merge_sort_Permutation.
  - intros A cmp l Htrans Htotal.
    assert (Transitive (cmp_le cmp)) by (intros x y z; apply Htrans).
    assert (Total (cmp_le cmp)) by (intros x y; apply Htotal).
    by apply (StronglySorted_merge_sort (cmp_le cmp)).
  - intros A cmp l Hdef. by rewrite (proj2 (defined_on_spec cmp l) Hdef).
  - intros A cmp l. destruct (defined_on cmp l) eqn:Hdef; [done|]. intros _.
    by apply defined_on_false.
Defined.

(** The properties of an object after [o[k] = v]. *)
Definition set_key (k : string) (v : Json) (kvs : list (string * Json))
    : list (string * Json) :=
  if bool_decide (is_Some (find_first (λ kv, kv.1 = k) kvs))
  then update_first (λ kv, kv.1 = k) (λ kv, (kv.1, v)) kvs
  else kvs ++ [(k, v)].

(** [o[k] = v] in a module, which is strict code: [None] is the TypeError
    of an assignment to a property of a primitive. *)
Definition jset (k : string) (v : Json) (o : Json) : option Json :=
  match o with
  | JObj kvs => Some (JObj (set_key k v kvs))
  | JArr l => Some (JArr l)
  | _ => None
  end.

(** The own enumerable properties of a value, as [Object.assign] reads
    them: the properties of an object, the indices of an array or of a
    string. *)
Definition indexed {A} (f : A → Json) (l : list A) : list (string * Json) :=
  imap (λ i x, (dec (Z.of_nat i), f x)) l.

Definition own_properties (src : Json) : list (string * Json) :=
  match src with
  | JObj kvs => kvs
  | JArr l => indexed id l
  | JStr s => indexed (λ c, JStr (String c EmptyString)) (String.list_ascii_of_string s)
  | _ => []
  end.

(** [Object.assign(o, src)]; [None] is the TypeError of a [null] target.
    A primitive target is wrapped, and the wrapper is dropped. *)
Definition assign (src : Json) (o : Json) : option Json :=
  match o with
  | JObj kvs => Some (JObj (foldl (λ kvs kv, set_key kv.1 kv.2 kvs) kvs (own_properties src)))
  | JNull => None
  | _ => Some o
  end.

(** [o.k]: [None] is the TypeError of a property of [null]; the inner
    [None] is [undefined]. *)
Definition prop (k : string) (o : Json) : option (option Json) :=
  match o with
  | JNull => None
  | _ => Some (jget k o)
  end.

(** ** src/TasksApp-main/state.js, and the store of the page's objects *)

Definition Ref := nat.

(** What [state.boards], [state.lists] or [state.tasks] holds: an array of
    objects, or whatever else was assigned. *)
Inductive Slot := Arr (rs : list Ref) | Other (j : Json).

Record State := mkState {
  (** the objects, by reference *)
  st_heap : list Json;
  st_boards : Slot;
  st_currentBoardId : option Json;
  st_lists : Slot;
  st_tasks : Slot;
  st_currentView : string;
  st_activeTask : option Ref;
  st_layout : string;
  st_theme : string;
  st_completedExpanded : list (string * bool);
  (** the properties ui.js adds *)
  st_searchQuery : option string;
  st_dragItem : option (string * string);
  st_activeBoardId : option string;
}.

(** The initial [state]; [layout] and [theme] come from [localStorage]. *)
Definition initial_state (layout theme : option string) : State :=
  mkState [] (Arr []) None (Arr []) (Arr []) "board" None
    (if falsy_str layout then "horizontal" else default "" layout)
    (if falsy_str theme then "system" else default "" theme) [] None None None.

Definition set_heap (h : list Json) (s : State) : State :=
  mkState h (st_boards s) (st_currentBoardId s) (st_lists s) (st_tasks s)
    (st_currentView s) (st_activeTask s) (st_layout s) (st_theme s)
    (st_completedExpanded s) (st_searchQuery s) (st_dragItem s) (st_activeBoardId s).
Definition set_boards (v : Slot) (s : State) : State :=
  mkState (st_heap s) v (st_currentBoardId s) (st_lists s) (st_tasks s)
    (st_currentView s) (st_activeTask s) (st_layout s) (st_theme s)
    (st_completedExpanded s) (st_searchQuery s) (st_dragItem s) (st_activeBoardId s).
Definition set_currentBoardId (v : option Json) (s : State) : State :=
  mkState (st_heap s) (st_boards s) v (st_lists s) (st_tasks s)
    (st_currentView s) (st_activeTask s) (st_layout s) (st_theme s)
    (st_completedExpanded s) (st_searchQuery s) (st_dragItem s) (st_activeBoardId s).
Definition set_lists (v : Slot) (s : State) : State :=
  mkState (st_heap s) (st_boards s) (st_currentBoardId s) v (st_tasks s)
    (st_currentView s) (st_activeTask s) (st_layout s) (st_theme s)
    (st_completedExpanded s) (st_searchQuery s) (st_dragItem s) (st_activeBoardId s).
Definition set_tasks (v : Slot) (s : State) : State :=
  mkState (st_heap s) (st_boards s) (st_currentBoardId s) (st_lists s) v
    (st_currentView s) (st_activeTask s) (st_layout s) (st_theme s)
    (st_completedExpanded s) (st_searchQuery s) (st_dragItem s) (st_activeBoardId s).
Definition set_currentView (v : string) (s : State) : State :=
  mkState (st_heap s) (st_boards s) (st_currentBoardId s) (st_lists s) (st_tasks s)
    v (st_activeTask s) (st_layout s) (st_theme s)
    (st_completedExpanded s) (st_searchQuery s) (st_dragItem s) (st_activeBoardId s).
Definition set_activeTask (v : option Ref) (s : State) : State :=
  mkState (st_heap s) (st_boards s) (st_currentBoardId s) (st_lists s) (st_tasks s)
    (st_currentView s) v (st_layout s) (st_theme s)
    (st_completedExpanded s) (st_searchQuery s) (st_dragItem s) (st_activeBoardId s).
Definition set_layout (v : string) (s : State) : State :=
  mkState (st_heap s) (st_boards s) (st_currentBoardId s) (st_lists s) (st_tasks s)
    (st_currentView s) (st_activeTask s) v (st_theme s)
    (st_completedExpanded s) (st_searchQuery s) (st_dragItem s) (st_activeBoardId s).
Definition set_completedExpanded (v : list (string * bool)) (s : State) : State :=
  mkState (st_heap s) (st_boards s) (st_currentBoardId s) (st_lists s) (st_tasks s)
    (st_currentView s) (st_activeTask s) (st_layout s) (st_theme s)
    v (st_searchQuery s) (st_dragItem s) (st_activeBoardId s).
Definition set_searchQuery (v : option string) (s : State) : State :=
  mkState (st_heap s) (st_boards s) (st_currentBoardId s) (st_lists s) (st_tasks s)
    (st_currentView s) (st_activeTask s) (st_layout s) (st_theme s)
    (st_completedExpanded s) v (st_dragItem s) (st_activeBoardId s).
Definition set_dragItem (v : option (string * string)) (s : State) : State :=
  mkState (st_heap s) (st_boards s) (st_currentBoardId s) (st_lists s) (st_tasks s)
    (st_currentView s) (st_activeTask s) (st_layout s) (st_theme s)
    (st_completedExpanded s) (st_searchQuery s) v (st_activeBoardId s).
Definition set_activeBoardId (v : option string) (s : State) : State :=
  mkState (st_heap s) (st_boards s) (st_currentBoardId s) (st_lists s) (st_tasks s)
    (st_currentView s) (st_activeTask s) (st_layout s) (st_theme s)
    (st_completedExpanded s) (st_searchQuery s) (st_dragItem s) v.

(** The fields [updateState] can be given. *)
Record Updates := mkUpdates {
  up_boards : option Slot;
  up_currentBoardId : option (option Json);
  up_lists : option Slot;
  up_tasks : option Slot;
  up_currentView : option string;
  up_activeTask : option (option Ref);
}.

(** [Object.assign(state, updates)]. *)
Definition updateState (updates : Updates) (s : State) : State :=
  mkState (st_heap s) (default (st_boards s) (up_boards updates))
    (default (st_currentBoardId s) (up_currentBoardId updates))
    (default (st_lists s) (up_lists updates)) (default (st_tasks s) (up_tasks updates))
    (default (st_currentView s) (up_currentView updates))
    (default (st_activeTask s) (up_activeTask updates))
    (st_layout s) (st_theme s) (st_completedExpanded s) (st_searchQuery s)
    (st_dragItem s) (st_activeBoardId s).

(** [getState()]. *)
Definition getState (s : State) : State := s.

(** A new object of the page. *)
Definition alloc (o : Json) (s : State) : Ref * State :=
  (length (st_heap s), set_heap (st_heap s ++ [o]) s).

(** The elements of a parsed array become objects of the page. *)
Definition alloc_all (os : list Json) (s : State) : list Ref * State :=
  (seq (length (st_heap s)) (length os), set_heap (st_heap s ++ os) s).

(** A parsed value as it is assigned to [state.boards] and the like. *)
Definition to_slot (data : Json) (s : State) : Slot * State :=
  match data with
  | JArr os => let '(rs, s') := alloc_all os s in (Arr rs, s')
  | _ => (Other data, s)
  end.

(** The object behind a reference. *)
Definition deref (s : State) (r : Ref) : option Json := st_heap s !! r.

(** The value of a slot, as JSON. *)
Definition slot_value (s : State) (v : Slot) : Json :=
  match v with
  | Arr rs => JArr (omap (deref s) rs)
  | Other j => j
  end.

(** ** src/config.js *)

Definition isDev (hostname : string) : bool :=
  bool_decide (hostname = "localhost") || bool_decide (hostname = "127.0.0.1").

Definition BACKEND_URL (hostname : string) : string :=
  if isDev hostname then "http://localhost:3000"
  else "https://task-app-backend-fvs9.onrender.com".

(** ** The browser *)

(** The form of the details panel. *)
Record Details := mkDetails {
  (** the values of [#detailsTitle], [#detailsDesc], [#detailsDate] and
      [#detailsRecurrence] *)
  detailsTitle : string;
  detailsDesc : string;
  detailsDate : string;
  detailsRecurrence : string;
  (** [dataset.day] of the active day chips and [dataset.date] of the
      active date chips, in the order of the document *)
  activeDays : list string;
  activeDates : list string;
}.

(** What the handlers read and write of the document. *)
Record Dom := mkDom {
  (** the text of [#authError], when it is shown *)
  authError : option string;
  (** [#appView] is shown and [#authView] hidden *)
  appShown : bool;
  (** [document.body.classList] *)
  bodyClass : list string;
  (** the attribute [data-theme] of the body *)
  dataTheme : option string;
  (** [(prefers-color-scheme: dark)] matches *)
  prefersDark : bool;
  (** the text of [#themeIcon] *)
  themeIcon : string;
  details : Details;
  (** the attachments [#attachmentsList] shows *)
  attachmentsList : list Json;
}.

Definition set_authError (v : option string) (d : Dom) : Dom :=
  mkDom (v) (appShown d) (bodyClass d) (dataTheme d) (prefersDark d) (themeIcon d)
    (details d) (attachmentsList d).
Definition set_appShown (v : bool) (d : Dom) : Dom :=
  mkDom (authError d) (v) (bodyClass d) (dataTheme d) (prefersDark d) (themeIcon d)
    (details d) (attachmentsList d).
Definition set_bodyClass (v : list string) (d : Dom) : Dom :=
  mkDom (authError d) (appShown d) (v) (dataTheme d) (prefersDark d) (themeIcon d)
    (details d) (attachmentsList d).
Definition set_dataTheme (v : option string) (d : Dom) : Dom :=
  mkDom (authError d) (appShown d) (bodyClass d) (v) (prefersDark d) (themeIcon d)
    (details d) (attachmentsList d).
Definition set_themeIcon (v : string) (d : Dom) : Dom :=
  mkDom (authError d) (appShown d) (bodyClass d) (dataTheme d) (prefersDark d) (v)
    (details d) (attachmentsList d).
Definition set_details (v : Details) (d : Dom) : Dom :=
  mkDom (authError d) (appShown d) (bodyClass d) (dataTheme d) (prefersDark d)
    (themeIcon d) (v) (attachmentsList d).
Definition set_attachmentsList (v : list Json) (d : Dom) : Dom :=
  mkDom (authError d) (appShown d) (bodyClass d) (dataTheme d) (prefersDark d)
    (themeIcon d) (details d) (v).

Record Browser := mkBrowser {
  (** [let accessToken] of api.js; [None] is [null] or [undefined] *)
  accessToken : option Json;
  (** the entry [user] of [localStorage]: absent, or the text of a value;
      [Some None] is the text [undefined], which is no JSON *)
  stored_user : option (option Json);
  (** the other entries of [localStorage] *)
  storage : list (string * string);
  (** the cookie [refreshToken] with its options *)
  cookieJar : option (string * CookieOptions);
  (** the origin of the page, which the requests name *)
  origin : string;
  (** whether the page and the backend are the same site *)
  same_site : bool;
  (** [window.navigator.onLine] *)
  onLine : bool;
  (** the events dispatched on [window], oldest first *)
  events : list (string * string);
  (** the toasts shown, oldest first *)
  toasts : list string;
  (** the rejections nothing handled, oldest first *)
  unhandled : list string;
  (** [window.location.reload()] was called, or is due *)
  reloaded : bool;
  state : State;
  dom : Dom;
  (** [let isRegisterMode] of ui.js *)
  isRegisterMode : bool;
}.

Definition set_accessToken (t : option Json) (b : Browser) : Browser :=
  mkBrowser t (stored_user b) (storage b) (cookieJar b) (origin b) (same_site b)
    (onLine b) (events b) (toasts b) (unhandled b) (reloaded b) (state b) (dom b)
    (isRegisterMode b).
Definition set_stored_user (u : option (option Json)) (b : Browser) : Browser :=
  mkBrowser (accessToken b) u (storage b) (cookieJar b) (origin b) (same_site b)
    (onLine b) (events b) (toasts b) (unhandled b) (reloaded b) (state b) (dom b)
    (isRegisterMode b).
Definition set_storage (l : list (string * string)) (b : Browser) : Browser :=
  mkBrowser (accessToken b) (stored_user b) l (cookieJar b) (origin b) (same_site b)
    (onLine b) (events b) (toasts b) (unhandled b) (reloaded b) (state b) (dom b)
    (isRegisterMode b).
Definition set_cookieJar (c : option (string * CookieOptions)) (b : Browser) : Browser :=
  mkBrowser (accessToken b) (stored_user b) (storage b) c (origin b) (same_site b)
    (onLine b) (events b) (toasts b) (unhandled b) (reloaded b) (state b) (dom b)
    (isRegisterMode b).
Definition log_event (e : string * string) (b : Browser) : Browser :=
  mkBrowser (accessToken b) (stored_user b) (storage b) (cookieJar b) (origin b)
    (same_site b) (onLine b) (events b ++ [e]) (toasts b) (unhandled b) (reloaded b)
    (state b) (dom b) (isRegisterMode b).
Definition add_toast (message : string) (b : Browser) : Browser :=
  mkBrowser (accessToken b) (stored_user b) (storage b) (cookieJar b) (origin b)
    (same_site b) (onLine b) (events b) (toasts b ++ [message]) (unhandled b)
    (reloaded b) (state b) (dom b) (isRegisterMode b).
Definition add_unhandled (message : string) (b : Browser) : Browser :=
  mkBrowser (accessToken b) (stored_user b) (storage b) (cookieJar b) (origin b)
    (same_site b) (onLine b) (events b) (toasts b) (unhandled b ++ [message])
    (reloaded b) (state b) (dom b) (isRegisterMode b).
Definition reload (b : Browser) : Browser :=
  mkBrowser (accessToken b) (stored_user b) (storage b) (cookieJar b) (origin b)
    (same_site b) (onLine b) (events b) (toasts b) (unhandled b) true (state b) (dom
    b) (isRegisterMode b).
Definition set_state (f : State → State) (b : Browser) : Browser :=
  mkBrowser (accessToken b) (stored_user b) (storage b) (cookieJar b) (origin b)
    (same_site b) (onLine b) (events b) (toasts b) (unhandled b) (reloaded b) (f
    (state b)) (dom b) (isRegisterMode b).
Definition set_dom (f : Dom → Dom) (b : Browser) : Browser :=
  mkBrowser (accessToken b) (stored_user b) (storage b) (cookieJar b) (origin b)
    (same_site b) (onLine b) (events b) (toasts b) (unhandled b) (reloaded b) (state
    b) (f (dom b)) (isRegisterMode b).
Definition set_isRegisterMode (v : bool) (b : Browser) : Browser :=
  mkBrowser (accessToken b) (stored_user b) (storage b) (cookieJar b) (origin b)
    (same_site b) (onLine b) (events b) (toasts b) (unhandled b) (reloaded b) (state
    b) (dom b) v.

(** The listeners ui.js registers on [window]: a toast, and for an expired
    session the reload that follows it. *)
Definition on_event (name detail : string) (b : Browser) : Browser :=
  if bool_decide (name = "app:auth-expired")
  then reload (add_toast "Session expired. Please log in again." b)
  else if bool_decide (name = "app:network-error")
  then add_toast (if bool_decide (detail = "")
                  then "Network error. Please check your connection." else detail) b
  else b.

(** [window.dispatchEvent(new CustomEvent(name, { detail: { message } }))]. *)
Definition dispatchEvent (name detail : string) (b : Browser) : Browser :=
  on_event name detail (log_event (name, detail) b).

(** What a request and its interceptors leave of the browser as it was:
    the state of the application, the document and the storage; toasts
    are only added. *)
Record same_page (b b' : Browser) : Prop := mkSamePage {
  sp_state : state b' = state b;
  sp_dom : dom b' = dom b;
  sp_storage : storage b' = storage b;
  sp_origin : origin b' = origin b;
  sp_same_site : same_site b' = same_site b;
  sp_onLine : onLine b' = onLine b;
  sp_mode : isRegisterMode b' = isRegisterMode b;
  sp_unhandled : unhandled b' = unhandled b;
  sp_toasts : toasts b `prefix_of` toasts b';
}.

#[export] Instance same_page_preorder : PreOrder same_page.
Proof.
  split.
  - by intros b.
  - intros b1 b2 b3 [] []. split; try congruence. by etrans.
Qed.

Lemma same_page_accessToken t b : same_page b (set_accessToken t b).
Proof. done. Qed.
Lemma same_page_stored_user u b : same_page b (set_stored_user u b).
Proof. done. Qed.
Lemma same_page_cookieJar c b : same_page b (set_cookieJar c b).
Proof. done. Qed.
Lemma same_page_reload b : same_page b (reload b).
Proof. done. Qed.
Lemma same_page_dispatchEvent name detail b : same_page b (dispatchEvent name detail b).
Proof.
  unfold dispatchEvent, on_event. repeat case_bool_decide;
    split; try done; cbn; by apply prefix_app_r.
Qed.

#[export] Hint Resolve same_page_accessToken same_page_stored_user same_page_cookieJar
  same_page_reload same_page_dispatchEvent : preserving.

(** What the listener of ui.js does when the session has expired. *)
Lemma dispatch_auth_expired b :
  dispatchEvent "app:auth-expired" "" b =
  reload (add_toast "Session expired. Please log in again."
            (log_event ("app:auth-expired", "") b)).
Proof. done. Qed.

(** [localStorage.getItem], [setItem] and [removeItem] on the other
    entries. *)
Definition getItem (k : string) (b : Browser) : option string :=
  snd <$> find_first (λ kv, kv.1 = k) (storage b).
Definition removeItem (k : string) (b : Browser) : Browser :=
  set_storage (filter (λ kv, kv.1 ≠ k) (storage b)) b.
Definition setItem (k v : string) (b : Browser) : Browser :=
  set_storage (filter (λ kv, kv.1 ≠ k) (storage b) ++ [(k, v)]) b.

(** The requests of axios are made by script: across sites the browser
    stores from them and sends with them only the cookies whose
    [sameSite] is [none]. *)
Definition site_allows (b : Browser) (opts : CookieOptions) : bool :=
  same_site b || bool_decide (sameSite opts = "none").

(** The cookie a request to [url] carries. *)
Definition cookie_for (b : Browser) (url : string) : option string :=
  match cookieJar b with
  | Some (v, opts) =>
      if startsWith (path opts) url && site_allows b opts then Some v else None
  | None => None
  end.

(** The jar after the [Set-Cookie] headers of a response. *)
Definition store_cookie (op : CookieOp) (b : Browser) : Browser :=
  match op with
  | SetCookie "refreshToken" v opts =>
      if site_allows b opts then set_cookieJar (Some (v, opts)) b else b
  | SetCookie _ _ _ => b
  | ClearCookie "refreshToken" _ => set_cookieJar None b
  | ClearCookie _ _ => b
  end.

Definition store_cookies (ops : list CookieOp) (b : Browser) : Browser :=
  foldl (λ b op, store_cookie op b) b ops.

Lemma same_page_store_cookies ops b : same_page b (store_cookies ops b).
Proof.
  unfold store_cookies. revert b. induction ops as [|op ops IH]; intros b; [done|].
  cbn. etrans; [|apply IH]. unfold store_cookie.
  repeat case_match; first [done|auto with preserving].
Qed.

#[export] Hint Resolve same_page_store_cookies : preserving.

(** ** axios and the errors of the page *)

Record AxiosConfig := mkAxios {
  ax_baseURL : string;
  ax_url : string;
  ax_method : Method;
  ax_data : Json;
  ax_authorization : option string;
  (** [originalRequest._retry] *)
  ax_retry : bool;
}.

Definition set_authorization (h : option string) (c : AxiosConfig) : AxiosConfig :=
  mkAxios (ax_baseURL c) (ax_url c) (ax_method c) (ax_data c) h (ax_retry c).
Definition set_retry (c : AxiosConfig) : AxiosConfig :=
  mkAxios (ax_baseURL c) (ax_url c) (ax_method c) (ax_data c) (ax_authorization c) true.

Record AxiosError := mkAxiosError {
  ae_config : AxiosConfig;
  (** [error.response], when the server answered *)
  ae_response : option Response;
  ae_code : option string;
  ae_message : string;
}.

(** What a promise of the page rejects with: an error of axios, or an
    error the code or the engine throws, by its name. *)
Inductive JsError :=
| AxiosErr (e : AxiosError)
| Thrown (name message : string).

Definition TypeError : string → JsError := Thrown "TypeError".
Definition SyntaxError : string → JsError := Thrown "SyntaxError".
Definition Error : string → JsError := Thrown "Error".

(** [err.message], [err.response], [err.config] and [err.code]. *)
Definition message (err : JsError) : string :=
  match err with
  | AxiosErr e => ae_message e
  | Thrown _ m => m
  end.
Definition response (err : JsError) : option Response :=
  match err with
  | AxiosErr e => ae_response e
  | Thrown _ _ => None
  end.
Definition config (err : JsError) : option AxiosConfig :=
  match err with
  | AxiosErr e => Some (ae_config e)
  | Thrown _ _ => None
  end.
Definition code (err : JsError) : option string :=
  match err with
  | AxiosErr e => ae_code e
  | Thrown _ _ => None
  end.

(** [error.response?.status]. *)
Definition status_of (err : JsError) : option nat := res_status <$> response err.

Section client.
Context `{Backend}.

(** A computation of the page. *)
Definition C (A : Type) : Type := M (Browser * backend) JsError A.

(** An async function in two steps: until its request is sent, and from
    the answer on. *)
Definition Async (A : Type) : Type := C (C A).

(** [await f()]. *)
Definition await {A} (a : Async A) : C A := k <- a ;; k.

(** [await Promise.all([f(), g()])]: both requests leave, then the
    answers are handled; the promise rejects with the first rejection. *)
Definition promise_all2 {A B} (a : Async A) (b : Async B) : C (A * B) :=
  ka <- a ;;
  kb <- b ;;
  ra <- try_catch (x <- ka ;; ret (inr x)) (λ e, ret (inl e)) ;;
  rb <- try_catch (y <- kb ;; ret (inr y)) (λ e, ret (inl e)) ;;
  match ra, rb with
  | inr x, inr y => ret (x, y)
  | inl e, _ => throw e
  | _, inl e => throw e
  end.

Definition browser : C Browser := gets fst.
Definition update (f : Browser → Browser) : C unit := modify (λ s, (f s.1, s.2)).

(** [o.k], which throws on [null]. *)
Definition read (k : string) (o : Json) : C (option Json) :=
  match prop k o with
  | Some v => ret v
  | None => throw (TypeError ("Cannot read properties of null (reading '" +:+ k +:+ "')"))
  end.

(** The error axios rejects with when no response came. *)
Definition net_error (c : AxiosConfig) (f : NetFailure) : AxiosError :=
  match f with
  | Timeout => mkAxiosError c None (Some "ECONNABORTED") "timeout of 30000ms exceeded"
  | NoResponse => mkAxiosError c None (Some "ERR_NETWORK") "Network Error"
  end.

(** The error axios rejects with on a status outside 200..299. *)
Definition status_error (c : AxiosConfig) (r : Response) : AxiosError :=
  mkAxiosError c (Some r)
    (Some (if bool_decide (res_status r < 500) then "ERR_BAD_REQUEST"
           else "ERR_BAD_RESPONSE"))
    ("Request failed with status code " +:+ dec (Z.of_nat (res_status r))).

(** The request as it leaves the browser: with the cookie the jar holds at
    that moment.  The page is of another origin than the backend, which
    serves no pages, so that the browser names the origin. *)
Definition request_of (b : Browser) (c : AxiosConfig) : HttpRequest :=
  let url := ax_baseURL c +:+ ax_url c in
  mkHttp (ax_method c) url (ax_authorization c) (cookie_for b url) (Some (origin b))
    (ax_data c).

Definition prepare (c : AxiosConfig) : C HttpRequest :=
  b <- browser ;;
  ret (request_of b c).

(** The request reaches the backend and the answer the browser, which
    keeps the cookies of the response; axios resolves on 2xx. *)
Definition exchange (c : AxiosConfig) (req : HttpRequest) : C Response := λ s,
  match handle req s.2 with
  | (inl r, srv) =>
      let b := store_cookies (res_cookies r) s.1 in
      if bool_decide (200 ≤ res_status r < 300) then (Ok r, (b, srv))
      else (Throw (AxiosErr (status_error c r)), (b, srv))
  | (inr f, srv) => (Throw (AxiosErr (net_error c f)), (s.1, srv))
  end.

(** One request with [withCredentials: true]. *)
Definition axios (c : AxiosConfig) : C Response :=
  req <- prepare c ;;
  exchange c req.

(** [axios.post(CONFIG.BACKEND_URL + '/api/auth/refresh', {}, ...)]. *)
Definition refresh_config : AxiosConfig :=
  mkAxios "" "/api/auth/refresh" POST (JObj []) None false.

(** [setAccessToken(token)]. *)
Definition setAccessToken (token : option Json) : C unit :=
  update (set_accessToken token).

(** The request interceptor. *)
Definition attach_token (c : AxiosConfig) : C AxiosConfig :=
  b <- browser ;;
  if truthy (accessToken b)
  then ret (set_authorization (Some ("Bearer " +:+ template (accessToken b))) c)
  else ret c.

(** [catch (err)] of the silent refresh. *)
Definition auth_expired {A} (err : JsError) : C A :=
  _ <- update (set_accessToken None) ;;
  _ <- update (set_stored_user None) ;;
  _ <- update (dispatchEvent "app:auth-expired" "") ;;
  throw err.

(** The [try] of the silent refresh: the truthy [res.data.token], if the
    answer has one. *)
Definition refreshed_token (refresh : C Response) : C (option Json) :=
  try_catch
    (res <- refresh ;;
     token <- read "token" (res_body res) ;;
     ret (if truthy token then token else None))
    auth_expired.

(** [window.dispatchEvent(new CustomEvent('app:network-error', ...))] of
    the response interceptor. *)
Definition report_network (error : JsError) : C unit :=
  b <- browser ;;
  if bool_decide (code error = Some "ECONNABORTED") || negb (onLine b)
     || bool_decide (response error = None)
  then update (dispatchEvent "app:network-error"
         (if bool_decide (code error = Some "ECONNABORTED")
          then "Request timed out" else "Network connection lost"))
  else ret tt.

(** The response interceptor's handler of a rejection; [apiClient] is the
    instance itself, called for the retry, and [refresh] the request
    [axios.post(.../api/auth/refresh)]. *)
Definition on_rejected_with (refresh : C Response) (apiClient : AxiosConfig → C Json)
    (error : JsError) : C Json :=
  let status := status_of error in
  if decide (status ∈ [Some 401; Some 403; Some 429]) then
    match config error with
    | Some originalRequest =>
        if bool_decide (status = Some 401) && negb (ax_retry originalRequest)
           && negb (includes "/auth/refresh" (ax_url originalRequest))
        then
          let originalRequest := set_retry originalRequest in
          token <- refreshed_token refresh ;;
          match token with
          | Some token =>
              _ <- update (set_accessToken (Some token)) ;;
              apiClient (set_authorization (Some ("Bearer " +:+ js_String token))
                           originalRequest)
          | None => throw error
          end
        else throw error
    | None => throw (TypeError "Cannot read properties of undefined (reading '_retry')")
    end
  else
    _ <- report_network error ;;
    throw error.

Definition on_rejected : (AxiosConfig → C Json) → JsError → C Json :=
  on_rejected_with (axios refresh_config).

(** A call of the axios instance in two steps: the request interceptor
    and the request; then the answer and the response interceptors. *)
Definition request_async (self : AxiosConfig → C Json) (c : AxiosConfig) : Async Json :=
  c' <- attach_token c ;;
  req <- prepare c' ;;
  ret (try_catch (r <- exchange c' req ;; ret (res_body r)) (on_rejected self)).

(** The axios instance.  [depth] bounds the retries; [_retry] makes 2
    enough. *)
Fixpoint apiClient (depth : nat) (c : AxiosConfig) : C Json :=
  match depth with
  | 0 => throw (Error "retry limit")
  | S depth' => await (request_async (apiClient depth') c)
  end.

Definition apiClient_async : AxiosConfig → Async Json := request_async (apiClient 1).

(** The request of [api(endpoint, method, body)]. *)
Definition api_config (endpoint : string) (method : Method) (body : Json) : AxiosConfig :=
  mkAxios "/api" endpoint method body None false.

(** [{ error: msg, details }] of what [api] catches. *)
Definition error_result (err : JsError) : Json :=
  let data := res_body <$> response err in
  let msg := if truthy (data ≫= jget "error")
             then default JNull (data ≫= jget "error") else JStr (message err) in
  JObj (("error", msg) :: jopt "details" (data ≫= jget "details")).

(** [api(endpoint, method, body)]: never rejects. *)
Definition api_async (endpoint : string) (method : Method) (body : Json) : Async Json :=
  k <- apiClient_async (api_config endpoint method body) ;;
  ret (try_catch k (λ err, ret (error_result err))).

Definition api (endpoint : string) (method : Method) (body : Json) : C Json :=
  await (api_async endpoint method body).

(** What [login] and [register] keep of an answer without [error]. *)
Definition keep_session (res : Json) : C unit :=
  error <- read "error" res ;;
  if truthy error then ret tt
  else
    _ <- update (set_accessToken (jget "token" res)) ;;
    update (set_stored_user (Some (jget "user" res))).

Definition credentials (email password : string) : Json :=
  JObj [("email", JStr email); ("password", JStr password)].

Definition apiLogin (email password : string) : C Json :=
  res <- api "/auth/login" POST (credentials email password) ;;
  _ <- keep_session res ;;
  ret res.

Definition apiRegister (email password : string) : C Json :=
  res <- api "/auth/register" POST (credentials email password) ;;
  _ <- keep_session res ;;
  ret res.

Definition apiLogout : C unit :=
  _ <- api "/auth/logout" POST JNull ;;
  _ <- update (set_accessToken None) ;;
  _ <- update (set_stored_user None) ;;
  update reload.

(** [refreshSession]: the [user] of the answer, or [null]. *)
Definition refreshSession : C (option Json) :=
  try_catch
    (res <- axios refresh_config ;;
     token <- read "token" (res_body res) ;;
     if truthy token then
       _ <- update (set_accessToken token) ;;
       ret (jget "user" (res_body res))
     else ret None)
    (λ _, ret None).

(** [if (!data.error) state.x = data], for the three fetchers. *)
Definition store_data (set : Slot → State → State) (data : Json) : C unit :=
  error <- read "error" data ;;
  if truthy error then ret tt
  else update (set_state (λ s, let '(v, s') := to_slot data s in set v s')).

Definition fetchBoards_async : Async unit :=
  k <- api_async "/boards" GET JNull ;;
  ret (data <- k ;; store_data set_boards data).

Definition fetchBoards : C unit := await fetchBoards_async.

Definition fetchLists_async : Async unit :=
  k <- api_async "/lists" GET JNull ;;
  ret (data <- k ;; store_data set_lists data).

Definition fetchLists : C unit := await fetchLists_async.

(** [fetchTasks(boardId)]; without an argument the board is
    [state.currentBoardId]. *)
Definition fetchTasks (boardId : option Json) : C unit :=
  b <- browser ;;
  let boardId := if boardId is Some _ then boardId else st_currentBoardId (state b) in
  let endpoint := if truthy boardId then "/tasks?boardId=" +:+ template boardId
                  else "/tasks" in
  data <- api endpoint GET JNull ;;
  store_data set_tasks data.

End client.

(** ** Properties of the client *)

Section client_properties.
Context `{Backend}.
Implicit Types (c : AxiosConfig) (b : Browser) (srv : backend) (s : Browser * backend).

(** The request interceptor keeps [_retry] and the target of the request,
    and changes nothing. *)
Lemma attach_token_run c s :
  ∃ h, attach_token c s = (Ok (set_authorization h c), s).
Proof.
  unfold attach_token, browser, gets, bind, ret. cbn.
  destruct (truthy _); [by eexists|exists (ax_authorization c); by destruct c].
Qed.

Lemma prepare_run c s :
  prepare c s = (Ok (request_of s.1 c), s).
Proof. done. Qed.

(** What a request rejects with carries its configuration. *)
Lemma exchange_throw c req s e s' :
  exchange c req s = (Throw e, s') → config e = Some c.
Proof.
  unfold exchange. destruct (handle _ _) as [[r|[]] srv]; [case_bool_decide|..];
    by intros [= <- <-].
Qed.

(** The handler of a rejection calls the instance on a retry only. *)
Lemma on_rejected_ext (self1 self2 : AxiosConfig → C Json) e s :
  (∀ c s, ax_retry c = true → self1 c s = self2 c s) →
  on_rejected self1 e s = on_rejected self2 e s.
Proof.
  intros Hself. unfold on_rejected, on_rejected_with. case_decide; [|done].
  destruct (config e) as [c|]; [|done]. destruct (_ && _ && _); [|done].
  apply bind_ext. intros [token|] s1 _; [|done]. apply bind_ext. intros _ s2 _.
  by apply Hself.
Qed.

(** A request that is a retry is never retried. *)
Lemma on_rejected_retry (self1 self2 : AxiosConfig → C Json) e c s :
  config e = Some c → ax_retry c = true →
  on_rejected self1 e s = on_rejected self2 e s.
Proof.
  intros Hc Hr. unfold on_rejected, on_rejected_with. rewrite Hc, Hr.
  by rewrite andb_false_r.
Qed.

(** The rejections of the request of the instance carry its
    configuration, up to the header the interceptor sets. *)
Lemma request_throw c h req s e s' :
  (r <- exchange (set_authorization h c) req ;; ret (res_body r)) s = (Throw e, s') →
  ∃ c', config e = Some c' ∧ ax_retry c' = ax_retry c.
Proof.
  intros [Hrun|(r & s1 & _ & [=])]%bind_inv_throw.
  eexists. by rewrite (exchange_throw _ _ _ _ _ Hrun).
Qed.

Lemma apiClient_S n c :
  apiClient (S n) c = await (request_async (apiClient n) c).
Proof. done. Qed.

(** The two steps of a call, one after the other. *)
Lemma await_request_async (self : AxiosConfig → C Json) c s :
  await (request_async self c) s =
  (c' <- attach_token c ;;
   req <- prepare c' ;;
   try_catch (r <- exchange c' req ;; ret (res_body r)) (on_rejected self)) s.
Proof.
  unfold await, request_async. rewrite bind_assoc. apply bind_ext. intros c' s1 _.
  rewrite bind_assoc. apply bind_ext. intros req s2 _. by rewrite bind_ret_l.
Qed.

(** Two instances that agree on retries agree on every request. *)
Lemma request_async_ext (self1 self2 : AxiosConfig → C Json) c s :
  (∀ e s, (∃ c', config e = Some c' ∧ ax_retry c' = ax_retry c) →
          on_rejected self1 e s = on_rejected self2 e s) →
  await (request_async self1 c) s = await (request_async self2 c) s.
Proof.
  intros Hself. rewrite !await_request_async.
  apply bind_ext. intros c' s1 Ha. destruct (attach_token_run c s) as [h Hh].
  rewrite Hh in Ha. injection Ha as <- <-. apply bind_ext. intros req s1 _.
  apply try_catch_ext. intros e s' Hrun. apply Hself. by eapply request_throw.
Qed.

Lemma apiClient_retry n c s :
  ax_retry c = true → apiClient (S n) c s = apiClient 1 c s.
Proof.
  intros Hr. rewrite !apiClient_S. apply request_async_ext.
  intros e s' (c' & Hc' & Hr'). eapply on_rejected_retry; [done|congruence].
Qed.

(** C25. The retry after a silent refresh is the only recursion of the
    axios instance, and [_retry] stops it: whatever the backend answers, a
    depth of 2 is never exhausted, so [api] is defined by its code alone. *)
Theorem apiClient_depth n c s : apiClient (2 + n) c s = apiClient 2 c s.
Proof.
  change (2 + n) with (S (S n)). rewrite (apiClient_S (S n)), (apiClient_S 1).
  apply request_async_ext. intros e s' _. apply on_rejected_ext.
  intros c2 s2 Hc2. by apply apiClient_retry.
Qed.

(** [api] is the [try]/[catch] around the instance. *)
Lemma api_unfold endpoint method body s :
  api endpoint method body s =
  try_catch (apiClient 2 (api_config endpoint method body))
            (λ err, ret (error_result err)) s.
Proof.
  unfold api, api_async, apiClient_async. rewrite apiClient_S.
  generalize (api_config endpoint method body). intros c.
  destruct (attach_token_run c s) as [h Hh].
  unfold await, request_async, bind, try_catch, ret. by rewrite Hh.
Qed.

(** [api] never rejects. *)
Lemma api_total endpoint method body s :
  ∃ j s', api endpoint method body s = (Ok j, s').
Proof. rewrite api_unfold. apply try_catch_total. Qed.

(** *** The silent refresh *)

(** What axios makes of the outcome of a request. *)
Definition settle (c : AxiosConfig) (b : Browser) (out : Response + NetFailure)
    : Res JsError Response * Browser :=
  match out with
  | inl r =>
      (if bool_decide (200 ≤ res_status r < 300) then Ok r
       else Throw (AxiosErr (status_error c r)),
       store_cookies (res_cookies r) b)
  | inr f => (Throw (AxiosErr (net_error c f)), b)
  end.

Lemma exchange_run c req b srv :
  exchange c req (b, srv) =
  ((settle c b (handle req srv).1).1, ((settle c b (handle req srv).1).2, (handle req srv).2)).
Proof.
  unfold exchange, settle. cbn. destruct (handle req srv) as [[r|f] srv']; cbn; [|done].
  by case_bool_decide.
Qed.

Lemma axios_run c b srv :
  axios c (b, srv) =
  let out := handle (request_of b c) srv in
  ((settle c b out.1).1, ((settle c b out.1).2, out.2)).
Proof. unfold axios. rewrite (bind_ok _ _ _ _ _ (prepare_run c (b, srv))). apply exchange_run. Qed.

Lemma settle_throw c b out e : (settle c b out).1 = Throw e → config e = Some c.
Proof.
  destruct out as [r|[]]; cbn; [case_bool_decide|..]; by intros [= <-].
Qed.

(** An outcome that is no success. *)
Definition refused (out : Response + NetFailure) : Prop :=
  match out with
  | inl r => ¬ (200 ≤ res_status r < 300)
  | inr _ => True
  end.

Lemma settle_refused c b out :
  refused out →
  ∃ e, (settle c b out).1 = Throw (AxiosErr e) ∧ ae_config e = c ∧ ae_message e ≠ "".
Proof.
  destruct out as [r|[]]; cbn; [|by eauto..]. intros Hr.
  rewrite bool_decide_eq_false_2 by done. by eauto.
Qed.

(** The configuration after the request interceptor. *)
Definition attached (b : Browser) (c : AxiosConfig) : AxiosConfig :=
  if truthy (accessToken b)
  then set_authorization (Some ("Bearer " +:+ template (accessToken b))) c
  else c.

Lemma attach_token_attached c s : attach_token c s = (Ok (attached s.1 c), s).
Proof. unfold attach_token, attached, browser, gets, bind, ret. by destruct (truthy _). Qed.

Lemma attached_retry b c : ax_retry (attached b c) = ax_retry c.
Proof. unfold attached. by destruct (truthy _). Qed.

Lemma attached_url b c : ax_url (attached b c) = ax_url c.
Proof. unfold attached. by destruct (truthy _). Qed.

(** What [api] returns for an error has an [error]. *)
Lemma error_result_truthy err :
  message err ≠ "" → truthy (jget "error" (error_result err)) = true.
Proof.
  intros Hm. unfold error_result. cbn. rewrite decide_True by done. cbn.
  destruct (truthy (_ ≫= jget "error")) eqn:Ht; [by destruct (_ ≫= jget "error")|].
  cbn. by rewrite bool_decide_eq_false_2.
Qed.

(** What the interceptor does on a 401 when the refresh is refused: the
    session is over. *)
Lemma on_rejected_refresh_refused self e c b srv :
  config e = Some c → status_of e = Some 401 → ax_retry c = false →
  includes "/auth/refresh" (ax_url c) = false →
  refused (handle (request_of b refresh_config) srv).1 →
  ∃ err b',
    on_rejected self e (b, srv) =
      (Throw (AxiosErr err), (b', (handle (request_of b refresh_config) srv).2))
    ∧ ae_config err = refresh_config ∧ ae_message err ≠ ""
    ∧ accessToken b' = None ∧ stored_user b' = None ∧ reloaded b' = true
    ∧ last (toasts b') = Some "Session expired. Please log in again.".
Proof.
  intros Hc H401 Hretry Hurl Hrefused.
  destruct (settle_refused refresh_config b _ Hrefused) as (err & Herr & Hcfg & Hmsg).
  exists err. eexists. split; [|split; [done|split; [done|]]].
  - unfold on_rejected, on_rejected_with, refreshed_token. rewrite Hc, H401, Hretry, Hurl.
    rewrite decide_True by set_solver. cbn [negb andb bool_decide].
    rewrite bool_decide_eq_true_2 by done. cbn [andb].
    unfold bind at 1. unfold try_catch. unfold bind at 1.
    rewrite axios_run. cbv zeta. rewrite Herr. reflexivity.
  - rewrite dispatch_auth_expired. cbn. by rewrite last_snoc.
Qed.

(** A call of the instance the backend answers with success resolves to
    the body, and the browser keeps the cookies. *)
Lemma apiClient_ok n c0 b srv r :
  let c := attached b c0 in
  (handle (request_of b c) srv).1 = inl r → 200 ≤ res_status r < 300 →
  apiClient (S n) c0 (b, srv) =
  (Ok (res_body r), (store_cookies (res_cookies r) b, (handle (request_of b c) srv).2)).
Proof.
  intros c Hout Hstatus. rewrite apiClient_S, await_request_async.
  rewrite (bind_ok _ _ _ _ _ (attach_token_attached _ _)).
  rewrite (bind_ok _ _ _ _ _ (prepare_run _ _)). unfold try_catch, bind at 1.
  rewrite exchange_run. cbn [fst]. fold c. rewrite Hout. cbn [settle fst snd].
  by rewrite bool_decide_eq_true_2.
Qed.

(** A request of [api] the backend answers with success: [api] returns
    the body, and the browser keeps the cookies. *)
Lemma api_ok endpoint method body b srv r :
  let c := attached b (api_config endpoint method body) in
  (handle (request_of b c) srv).1 = inl r → 200 ≤ res_status r < 300 →
  api endpoint method body (b, srv) =
  (Ok (res_body r), (store_cookies (res_cookies r) b, (handle (request_of b c) srv).2)).
Proof.
  intros c Hout Hstatus. rewrite api_unfold. apply try_catch_ok.
  by apply (apiClient_ok 1 _ b srv r).
Qed.

(** What the interceptor does on a 401 when the refresh succeeds: it
    keeps the new access token and sends the request again, marked as a
    retry. *)
Lemma on_rejected_refreshed self e c b srv r token :
  config e = Some c → status_of e = Some 401 → ax_retry c = false →
  includes "/auth/refresh" (ax_url c) = false →
  (handle (request_of b refresh_config) srv).1 = inl r → 200 ≤ res_status r < 300 →
  prop "token" (res_body r) = Some (Some token) → truthy (Some token) = true →
  on_rejected self e (b, srv) =
  self (set_authorization (Some ("Bearer " +:+ js_String token)) (set_retry c))
    (set_accessToken (Some token) (store_cookies (res_cookies r) b),
     (handle (request_of b refresh_config) srv).2).
Proof.
  intros Hc H401 Hretry Hurl Hout Hstatus Htoken Htruthy.
  unfold on_rejected, on_rejected_with, refreshed_token. rewrite Hc, H401, Hretry, Hurl.
  rewrite decide_True by set_solver. cbn [negb andb bool_decide].
  rewrite bool_decide_eq_true_2 by done. cbn [andb].
  unfold bind at 1. unfold try_catch. unfold bind at 1.
  rewrite axios_run. cbv zeta. rewrite Hout. cbn [settle fst snd].
  rewrite bool_decide_eq_true_2 by done. unfold read. rewrite Htoken.
  cbn [bind ret]. by rewrite Htruthy.
Qed.

(** A request of [api] the backend answers with another status: what
    [api] returns is what the interceptor makes of the error. *)
Lemma api_rejected endpoint method body b srv r :
  let c := attached b (api_config endpoint method body) in
  let out := handle (request_of b c) srv in
  out.1 = inl r → ¬ 200 ≤ res_status r < 300 →
  api endpoint method body (b, srv) =
  try_catch (on_rejected (apiClient 1) (AxiosErr (status_error c r)))
    (λ err, ret (error_result err)) (store_cookies (res_cookies r) b, out.2).
Proof.
  intros c out Hout Hstatus. rewrite api_unfold, apiClient_S. unfold try_catch.
  rewrite await_request_async.
  rewrite (bind_ok _ _ _ _ _ (attach_token_attached _ _)).
  rewrite (bind_ok _ _ _ _ _ (prepare_run _ _)). unfold try_catch, bind at 1.
  rewrite exchange_run. cbn [fst]. fold c out. rewrite Hout. cbn [settle fst snd].
  by rewrite bool_decide_eq_false_2.
Qed.

(** C23. When the backend answers a request of [api] with 401 and refuses
    the refresh that follows, [api] returns an error, the access token
    and the stored user are gone, and the page is about to reload: the
    user is signed out, not left with a session that fails. *)
Theorem api_refresh_refused endpoint method body b srv r :
  let c := attached b (api_config endpoint method body) in
  let out := handle (request_of b c) srv in
  let b1 := store_cookies (res_cookies r) b in
  let out' := handle (request_of b1 refresh_config) out.2 in
  includes "/auth/refresh" endpoint = false →
  out.1 = inl r → res_status r = 401 → refused out'.1 →
  ∃ res b',
    api endpoint method body (b, srv) = (Ok res, (b', out'.2))
    ∧ truthy (jget "error" res) = true
    ∧ accessToken b' = None ∧ stored_user b' = None ∧ reloaded b' = true
    ∧ last (toasts b') = Some "Session expired. Please log in again.".
Proof.
  intros c out b1 out' Hurl Hout H401 Hrefused.
  destruct (on_rejected_refresh_refused (apiClient 1) (AxiosErr (status_error c r)) c b1 out.2)
    as (err & b' & Hrej & _ & Hmsg & Hfacts);
    [done|by cbn; rewrite H401|by unfold c; rewrite attached_retry
    |by unfold c; rewrite attached_url|done|].
  exists (error_result (AxiosErr err)), b'. split; [|by split; [apply error_result_truthy|]].
  rewrite (api_rejected _ _ _ _ _ r) by (done || lia). fold c out b1.
  unfold try_catch. by rewrite Hrej.
Qed.

(** *** What a request leaves as it was *)

(** The browser after a step is the same page. *)
Definition request_step (s s' : Browser * backend) : Prop := same_page s.1 s'.1.

#[export] Instance request_step_preorder : PreOrder request_step.
Proof.
  split; [by intros s|]. intros s1 s2 s3. unfold request_step. by etrans.
Qed.

Lemma preserving_update (f : Browser → Browser) :
  (∀ b, same_page b (f b)) → preserving request_step (update f).
Proof. intros Hf. refine (preserving_modify _ _ _). intros s. apply Hf. Qed.

Lemma preserving_browser : preserving request_step browser.
Proof. refine (preserving_gets _ _). Qed.

Lemma preserving_read k o : preserving request_step (read k o).
Proof. unfold read. preserving. Qed.

Lemma preserving_exchange c req : preserving request_step (exchange c req).
Proof.
  intros s r s'. unfold exchange, request_step.
  destruct (handle _ _) as [[res|f] srv]; [case_bool_decide|];
    intros [= <- <-]; cbn; auto with preserving. done.
Qed.

#[local] Hint Resolve preserving_update preserving_browser preserving_read
  preserving_exchange : preserving.

Lemma preserving_axios c : preserving request_step (axios c).
Proof. unfold axios, prepare. preserving. Qed.

Lemma preserving_attach_token c : preserving request_step (attach_token c).
Proof. unfold attach_token. preserving. Qed.

#[local] Hint Resolve preserving_axios preserving_attach_token : preserving.

Lemma preserving_on_rejected self e :
  (∀ c, preserving request_step (self c)) → preserving request_step (on_rejected self e).
Proof.
  intros Hself. unfold on_rejected, on_rejected_with, refreshed_token, auth_expired,
    report_network. preserving.
Qed.

Lemma preserving_apiClient n c : preserving request_step (apiClient n c).
Proof.
  revert c. induction n as [|n IH]; intros c; [refine (preserving_throw _ _)|].
  rewrite apiClient_S. refine (preserving_ext _ _ _ (await_request_async _ c) _).
  pose proof (preserving_on_rejected (apiClient n)). unfold prepare. preserving.
Qed.

(** A call of [api] leaves the state of the application, the document and
    the storage as they were. *)
Lemma preserving_api endpoint method body :
  preserving request_step (api endpoint method body).
Proof.
  refine (preserving_ext _ _ _ (api_unfold _ _ _) _).
  pose proof preserving_apiClient. preserving.
Qed.

(** What every caller of [api] may rely on, whatever the backend does:
    the call resolves, and the state of the application, the document and
    the storage are as they were. *)
Lemma api_spec endpoint method body s :
  ∃ res s', api endpoint method body s = (Ok res, s') ∧ same_page s.1 s'.1.
Proof.
  destruct (api_total endpoint method body s) as (res & s' & Hrun).
  exists res, s'. split; [done|]. exact (preserving_api _ _ _ _ _ _ Hrun).
Qed.

End client_properties.

(** ** How many requests a call makes *)

Section request_count.
Context `{Backend}.
(** A count of the requests the backend has handled. *)
Context (count : backend → nat) (Hcount : ∀ req srv, count (handle req srv).2 = S (count srv)).

(** From a count of at most [n], [m] ends with a count of at most
    [n + k]; what it throws satisfies [φ]. *)
Definition requests {A} (k : nat) (m : C A) (φ : JsError → Prop) : Prop :=
  ∀ n, hoare (λ s, count s.2 ≤ n) m (λ _ s, count s.2 ≤ n + k)
         (λ e s, count s.2 ≤ n + k ∧ φ e).

Lemma requests_weaken {A} k k' (m : C A) (φ φ' : JsError → Prop) :
  requests k m φ → k ≤ k' → (∀ e, φ e → φ' e) → requests k' m φ'.
Proof.
  intros Hm Hk Hφ n. eapply hoare_conseq; [apply (Hm n)|done|..]; cbn; intros.
  - lia.
  - split; [lia|naive_solver].
Qed.

Lemma requests_bind {A B} k1 k2 (m : C A) (f : A → C B) (φ : JsError → Prop) :
  requests k1 m φ → (∀ a, requests k2 (f a) φ) → requests (k1 + k2) (x <- m ;; f x) φ.
Proof.
  intros Hm Hf n. apply (hoare_bind _ _ _ (λ _ s, count s.2 ≤ n + k1)).
  - eapply hoare_conseq; [apply (Hm n)|done|done|]. cbn. intros e s [? ?]. split; [lia|done].
  - intros a. eapply hoare_conseq; [apply (Hf a (n + k1))|done|..]; cbn; intros.
    + lia.
    + split; [lia|naive_solver].
Qed.

Lemma requests_try_catch {A} k1 k2 (m : C A) (h : JsError → C A) (φ ψ : JsError → Prop) :
  requests k1 m φ → (∀ e, φ e → requests k2 (h e) ψ) →
  requests (k1 + k2) (try_catch m h) ψ.
Proof.
  intros Hm Hh n.
  apply (hoare_try_catch _ _ _ _ (λ e s, count s.2 ≤ n + k1 ∧ φ e)).
  - eapply hoare_conseq; [apply (Hm n)|done|..]; cbn; [intros; lia|done].
  - intros e s r s' [Hn Hφ]. specialize (Hh e Hφ (n + k1) s r s' Hn).
    intros Hrun. specialize (Hh Hrun). destruct r; [lia|]. split; [lia|naive_solver].
Qed.

(** The steps of the page that make no request. *)
Definition same_backend (s s' : Browser * backend) : Prop := s'.2 = s.2.

#[local] Instance same_backend_preorder : PreOrder same_backend.
Proof. split; [done|]. unfold same_backend. intros s1 s2 s3. congruence. Qed.

Lemma local_update (f : Browser → Browser) : preserving same_backend (update f).
Proof. by refine (preserving_modify _ _ _). Qed.

Lemma local_browser : preserving same_backend browser.
Proof. refine (preserving_gets _ _). Qed.

#[local] Hint Resolve local_update local_browser : preserving.

(** A computation that leaves the backend alone makes no request. *)
Lemma requests_local {A} (m : C A) : preserving same_backend m → requests 0 m (λ _, True).
Proof.
  intros Hm n s r s' Hn Hrun. rewrite (Hm s r s' Hrun). destruct r; [lia|]. split; [lia|done].
Qed.

Lemma requests_local_le {A} k (m : C A) :
  preserving same_backend m → requests k m (λ _, True).
Proof.
  intros Hm. apply (requests_weaken 0 k _ (λ _, True)); [by apply requests_local|lia|done].
Qed.

Lemma requests_ret {A} (a : A) φ : requests 0 (ret a) φ.
Proof. intros n s r s' Hn [= <- <-]. lia. Qed.

Lemma requests_run {A} k (m : C A) φ s r s' :
  requests k m φ → m s = (r, s') → count s'.2 ≤ count s.2 + k.
Proof.
  intros Hm Hrun. specialize (Hm (count s.2) s r s' (le_n _) Hrun). destruct r; [done|].
  by destruct Hm.
Qed.

Lemma requests_exchange c req :
  requests 1 (exchange c req) (λ e, config e = Some c).
Proof.
  intros n [b srv] r s' Hn. rewrite exchange_run. intros [= <- <-]. cbn in *.
  rewrite Hcount. destruct (settle _ _ _).1 as [a|e] eqn:Hs; [lia|]. split; [lia|].
  by eapply settle_throw.
Qed.

Lemma requests_axios c : requests 1 (axios c) (λ _, True).
Proof.
  intros n s r s' Hn. unfold axios. rewrite (bind_ok _ _ _ _ _ (prepare_run c s)).
  intros Hrun. pose proof (requests_exchange c _ n s r s' Hn Hrun) as Hr.
  destruct r; naive_solver.
Qed.

Lemma requests_refreshed_token :
  requests 1 (refreshed_token (axios refresh_config)) (λ _, True).
Proof.
  unfold refreshed_token. apply (requests_try_catch 1 0 _ _ (λ _, True)).
  - apply (requests_bind 1 0); [apply requests_axios|]. intros res.
    apply requests_local. unfold read. preserving.
  - intros e _. apply requests_local. unfold auth_expired. preserving.
Qed.

(** The interceptor makes no request for a rejected retry. *)
Lemma requests_on_rejected_retry self e c :
  config e = Some c → ax_retry c = true → requests 0 (on_rejected self e) (λ _, True).
Proof.
  intros Hc Hr. apply requests_local. unfold on_rejected, on_rejected_with, report_network.
  rewrite Hc, Hr. cbn [negb]. rewrite andb_false_r. cbn [andb]. preserving.
Qed.

(** The request of the instance and what follows a rejection. *)
Lemma requests_request k (self : AxiosConfig → C Json) c s r s' n :
  (∀ e, config e = Some (attached s.1 c) → requests k (on_rejected self e) (λ _, True)) →
  count s.2 ≤ n → await (request_async self c) s = (r, s') → count s'.2 ≤ n + (1 + k).
Proof.
  intros Hself Hn. rewrite await_request_async.
  rewrite (bind_ok _ _ _ _ _ (attach_token_attached _ _)).
  rewrite (bind_ok _ _ _ _ _ (prepare_run _ _)). intros Hrun.
  assert (requests (1 + k) (try_catch (r <- exchange (attached s.1 c)
                                             (request_of s.1 (attached s.1 c)) ;;
                                        ret (res_body r)) (on_rejected self)) (λ _, True))
    as Htry; [|specialize (Htry n s r s' Hn Hrun); destruct r; naive_solver].
  apply (requests_try_catch 1 k _ _ (λ e, config e = Some (attached s.1 c))); [|done].
  apply (requests_bind 1 0); [apply requests_exchange|intros; apply requests_ret].
Qed.

(** A retry is one request. *)
Lemma requests_apiClient_retry c :
  ax_retry c = true → requests 1 (apiClient 1 c) (λ _, True).
Proof.
  intros Hr n s r s' Hn Hrun. rewrite apiClient_S in Hrun.
  eapply (requests_request 0) in Hrun; [|intros e He|done].
  - destruct r; [lia|split; [lia|done]].
  - eapply requests_on_rejected_retry; [done|by rewrite attached_retry].
Qed.

(** After a rejection: at most the refresh and the retry. *)
Lemma requests_on_rejected e : requests 2 (on_rejected (apiClient 1) e) (λ _, True).
Proof.
  unfold on_rejected, on_rejected_with. case_decide as Hst.
  - destruct (config e) as [c|]; [|apply requests_local_le; preserving].
    destruct (_ && _ && _); [|apply requests_local_le; preserving].
    apply (requests_bind 1 1); [apply requests_refreshed_token|].
    intros [token|]; [|apply requests_local_le; preserving].
    apply (requests_bind 0 1); [apply requests_local; preserving|]. intros _.
    by apply requests_apiClient_retry.
  - apply requests_local_le. unfold report_network. preserving.
Qed.

(** C24. Whatever the backend answers, a call of [api] makes at most three
    requests: the call itself, one refresh, and one retry. *)
Theorem api_three_requests endpoint method body s res s' :
  api endpoint method body s = (res, s') → count s'.2 ≤ count s.2 + 3.
Proof.
  rewrite api_unfold. unfold try_catch.
  destruct (apiClient 2 _ s) as [[a|e] s1] eqn:Hrun; intros [= <- <-];
    rewrite apiClient_S in Hrun;
    by apply (requests_request 2 _ _ _ _ _ (count s.2)) in Hrun;
      [|intros; apply requests_on_rejected|].
Qed.

End request_count.

(** ** Backends and pages to compute with *)

(** A backend that answers every request with the same status and counts
    the requests. *)
Definition same_answer (status : nat) : Backend := {|
  backend := nat;
  handle _ n := (inl (mkResponse status (JObj []) []), S n);
|}.

(** A page that has just loaded, on another site than the backend or on
    the same. *)
Definition new_page (same_site : bool) : Browser :=
  mkBrowser None None [] None "https://sri-narendra.github.io" same_site true [] [] []
    false (initial_state None None) (mkDom None false [] None false "" 
    (mkDetails "" "" "" "" [] []) []) false.

Lemma api_refresh_refused_witness :
  ∃ res b',
    api (H := same_answer 401) "/boards" GET JNull (new_page true, 0) = (Ok res, (b', 2))
    ∧ truthy (jget "error" res) = true
    ∧ accessToken b' = None ∧ stored_user b' = None ∧ reloaded b' = true
    ∧ last (toasts b') = Some "Session expired. Please log in again.".
Proof.
  refine (api_refresh_refused (H := same_answer 401) "/boards" GET JNull (new_page true) 0
            (mkResponse 401 (JObj []) []) _ _ _ _).
  - by vm_compute.
  - reflexivity.
  - reflexivity.
  - cbn. lia.
Defined.

Lemma api_three_requests_witness :
  (api (H := same_answer 401) "/boards" GET JNull (new_page true, 5)).2.2 ≤ 5 + 3.
Proof.
  pose (run := api (H := same_answer 401) "/boards" GET JNull (new_page true, 5)).
  exact (api_three_requests (H := same_answer 401) id (λ _ _, eq_refl) "/boards" GET JNull
           (new_page true, 5) run.1 run.2 (surjective_pairing run)).
Defined.
