(* ===== verification/Page.v ===== *)
(** * Page: the objects of [state] as src/ui.js reads and writes them

    The array methods and property accesses ui.js applies to
    [state.boards], [state.lists] and [state.tasks], on the store of
    Client.v, with the TypeErrors of JavaScript: a method of something
    that is no array, a property of [null], an assignment to a property of
    a primitive.  The answers of the user to a dialog are arguments of the
    handlers; what a handler shows is the list of toasts.  Rendering reads
    the state and writes the document only, and is left out. *)

From S2P Require Import Prelude Json Crypto Models Express Client.

(** ** Searching and filtering arrays of objects *)

(** A predicate on an object that may throw: [None] is the TypeError. *)
Definition Pred : Type := Json → option bool.

(** [o => o[k] === v]. *)
Definition has (k : string) (v : option Json) : Pred := λ o,
  p ← prop k o; Some (strict_eq p v).

(** [o => o[k] !== v]. *)
Definition has_not (k : string) (v : option Json) : Pred := λ o,
  negb <$> has k v o.

(** [o => o[k]], as a condition. *)
Definition is_set (k : string) : Pred := λ o, p ← prop k o; Some (truthy p).

(** [o => !o[k]]. *)
Definition not_set (k : string) : Pred := λ o, negb <$> is_set k o.

(** [o => p(o) && q(o)], which does not evaluate [q] when [p] is false. *)
Definition and_then (p q : Pred) : Pred := λ o,
  b ← p o; if b : bool then q o else Some false.

(** [o => !p(o)]. *)
Definition not_ (p : Pred) : Pred := λ o, negb <$> p o.

(** [rs.find(p)]: the first object that satisfies [p]. *)
Fixpoint find_ref (p : Pred) (h : list Json) (rs : list Ref) : option (option Ref) :=
  match rs with
  | [] => Some None
  | r :: rs' =>
      o ← h !! r; b ← p o;
      if b : bool then Some (Some r) else find_ref p h rs'
  end.

(** [rs.filter(p)]. *)
Fixpoint filter_refs (p : Pred) (h : list Json) (rs : list Ref) : option (list Ref) :=
  match rs with
  | [] => Some []
  | r :: rs' =>
      o ← h !! r; b ← p o; l ← filter_refs p h rs';
      Some (if b : bool then r :: l else l)
  end.

(** A number that is an integer; [None] is every other value of
    [a.position], which arithmetic turns into [NaN] or a fraction. *)
Definition number_of (v : option Json) : option Z :=
  match v with
  | Some (JNum n) => Some n
  | _ => None
  end.

(** [a - b] for two numbers; [NaN] counts as 0. *)
Definition minus (a b : option Z) : Z :=
  match a, b with
  | Some x, Some y => x - y
  | _, _ => 0
  end.

(** [(a, b) => a.position - b.position]. *)
Definition by_position (h : list Json) (a b : Ref) : Z :=
  minus (number_of (h !! a ≫= jget "position")) (number_of (h !! b ≫= jget "position")).

(** The objects of a store, all present. *)
Definition closed_refs (h : list Json) (rs : list Ref) : Prop :=
  Forall (λ r, r < length h) rs.

Section page.
Context `{Backend} `{ArraySort}.

(** What a call of an array method on [state.x] throws when [state.x] is
    no array. *)
Definition not_an_array {A} (what method : string) (j : Json) : C A :=
  throw (TypeError
    (match j with
     | JNull => "Cannot read properties of null (reading '" +:+ method +:+ "')"
     | _ => what +:+ "." +:+ method +:+ " is not a function"
     end)).

(** What the callback of an array method throws on an element that is
    [null]. *)
Definition null_element {A} : C A :=
  throw (TypeError "Cannot read properties of null").

(** [state.x.find(p)], for the slot [x]. *)
Definition find_in (what : string) (slot : State → Slot) (p : Pred) : C (option Ref) :=
  b <- browser ;;
  match slot (state b) with
  | Arr rs =>
      match find_ref p (st_heap (state b)) rs with
      | Some r => ret r
      | None => null_element
      end
  | Other j => not_an_array what "find" j
  end.

(** [state.x.filter(p)]. *)
Definition filter_in (what : string) (slot : State → Slot) (p : Pred) : C (list Ref) :=
  b <- browser ;;
  match slot (state b) with
  | Arr rs =>
      match filter_refs p (st_heap (state b)) rs with
      | Some l => ret l
      | None => null_element
      end
  | Other j => not_an_array what "filter" j
  end.

(** [state.x.push(o)] and [state.x.unshift(o)] of a parsed value. *)
Definition push_in (what : string) (slot : State → Slot) (set : Slot → State → State)
    (front : bool) (o : Json) : C unit :=
  b <- browser ;;
  match slot (state b) with
  | Arr rs =>
      update (set_state (λ s, let '(r, s') := alloc o s in
                              set (Arr (if front then r :: rs else rs ++ [r])) s'))
  | Other j => not_an_array what (if front then "unshift" else "push") j
  end.

(** [o.k] of the object behind a reference. *)
Definition get_field (r : Ref) (k : string) : C (option Json) :=
  b <- browser ;;
  match deref (state b) r with
  | Some o => read k o
  | None => null_element
  end.

(** [o.k = v] on the object behind a reference. *)
Definition set_field (r : Ref) (k : string) (v : Json) : C unit :=
  b <- browser ;;
  match deref (state b) r ≫= jset k v with
  | Some o' => update (set_state (λ s, set_heap (<[r := o']> (st_heap s)) s))
  | None => throw (TypeError ("Cannot create property '" +:+ k +:+ "'"))
  end.

(** [Object.assign(o, src)] on the object behind a reference. *)
Definition assign_to (r : Ref) (src : Json) : C unit :=
  b <- browser ;;
  match deref (state b) r ≫= assign src with
  | Some o' => update (set_state (λ s, set_heap (<[r := o']> (st_heap s)) s))
  | None => throw (TypeError "Cannot convert undefined or null to object")
  end.

(** [o.k = v] where [v] may be [undefined], which a later read cannot
    tell from an absent property. *)
Definition put_field (r : Ref) (k : string) (v : option Json) : C unit :=
  match v with
  | Some v => set_field r k v
  | None =>
      b <- browser ;;
      match deref (state b) r with
      | Some (JObj kvs) =>
          update (set_state (λ s,
            set_heap (<[r := JObj (filter (λ kv, kv.1 ≠ k) kvs)]> (st_heap s)) s))
      | Some (JArr _) => ret tt
      | _ => throw (TypeError ("Cannot create property '" +:+ k +:+ "'"))
      end
  end.

(** [state.x.length > 0 ? state.x[0].id : null]; the outer [None] is the
    second branch. *)
Definition first_id (slot : State → Slot) : C (option (option Json)) :=
  b <- browser ;;
  match slot (state b) with
  | Arr (r :: _) => i <- get_field r "id" ;; ret (Some i)
  | Arr [] => ret None
  | Other (JStr s) => ret (if decide (s = "") then None else Some None)
  | Other JNull => throw (TypeError "Cannot read properties of null (reading 'length')")
  | Other _ => ret None
  end.

(** [[...state.x]]. *)
Definition spread_in (what : string) (slot : State → Slot) : C Slot :=
  b <- browser ;;
  match slot (state b) with
  | Arr rs => ret (Arr rs)
  | Other (JStr s) => ret (Other (JStr s))
  | Other _ => throw (TypeError (what +:+ " is not iterable"))
  end.

(** [showToast(message)]. *)
Definition showToast (message : string) : C unit := update (add_toast message).

(** A call of an async function that nothing awaits: a rejection is
    reported to [window.onunhandledrejection]. *)
Definition detached (m : C unit) : C unit :=
  try_catch m (λ err, update (add_unhandled (message err))).

(** [res.error] of an answer of [api], as a condition. *)
Definition has_error (res : Json) : C bool :=
  error <- read "error" res ;;
  ret (truthy error).

End page.

(** ** The array methods on arrays of objects

    On an array whose elements are objects, [find] and [filter] with a
    comparison of a property throw nothing and are the functions of lists
    of the same names. *)

(** The references of [rs] are objects of the store [h]. *)
Definition objects (h : list Json) (rs : list Ref) : Prop :=
  Forall (λ r, ∃ kvs, h !! r = Some (JObj kvs)) rs.

(** Whether the object at [r] has the value [v] as its property [k]. *)
Definition field_is (k : string) (v : option Json) (h : list Json) (r : Ref) : bool :=
  strict_eq (h !! r ≫= jget k) v.

Lemma find_ref_has k v h rs :
  objects h rs → find_ref (has k v) h rs = Some (List.find (field_is k v h) rs).
Proof.
  induction 1 as [|r rs [kvs Hr] _ IH]; [done|]. cbn. unfold field_is at 1.
  rewrite Hr. cbn. by destruct (strict_eq _ _).
Qed.

Lemma filter_refs_has_not k v h rs :
  objects h rs →
  filter_refs (has_not k v) h rs = Some (List.filter (λ r, negb (field_is k v h r)) rs).
Proof.
  induction 1 as [|r rs [kvs Hr] _ IH]; [done|]. cbn. unfold field_is at 1.
  rewrite Hr, IH. cbn. by destruct (strict_eq _ _).
Qed.

Lemma filter_refs_has k v h rs :
  objects h rs → filter_refs (has k v) h rs = Some (List.filter (field_is k v h) rs).
Proof.
  induction 1 as [|r rs [kvs Hr] _ IH]; [done|]. cbn. unfold field_is at 1.
  rewrite Hr, IH. cbn. by destruct (strict_eq _ _).
Qed.

Lemma find_field_is k v h rs r :
  List.find (field_is k v h) rs = Some r → r ∈ rs ∧ field_is k v h r = true.
Proof. intros [Hin ?]%find_some. by apply list_elem_of_In in Hin. Qed.

Lemma objects_lookup h rs r : objects h rs → r ∈ rs → ∃ kvs, h !! r = Some (JObj kvs).
Proof. intros Hobj Hr. by eapply Forall_forall in Hobj. Qed.

(** Writing a property of an object leaves the objects objects. *)
Lemma objects_insert h rs r kvs : objects h rs → objects (<[r := JObj kvs]> h) rs.
Proof.
  intros Hobj. eapply Forall_impl; [done|]. intros r' [kvs' Hr']. cbn.
  destruct (decide (r' = r)) as [->|].
  - exists kvs. apply list_lookup_insert_eq. by eapply lookup_lt_Some.
  - exists kvs'. by rewrite list_lookup_insert_ne.
Qed.

(** A property reads as what was assigned to it, and the other
    properties as before. *)
Lemma jget_set_key k v kvs : jget k (JObj (set_key k v kvs)) = Some v.
Proof.
  unfold jget, set_key. case_bool_decide as Hk.
  - induction kvs as [|[k' v'] kvs IH]; [by destruct Hk|].
    cbn [find_first update_first fst] in *. destruct (decide (k' = k)) as [->|].
    + cbn. by rewrite decide_True.
    + cbn. rewrite decide_False by done. by apply IH.
  - rewrite find_first_app. assert (find_first (λ kv, kv.1 = k) kvs = None) as ->.
    { by destruct (find_first _ kvs); [destruct Hk|]. }
    cbn. by rewrite decide_True.
Qed.

Lemma jget_set_key_ne k k' v kvs :
  k' ≠ k → jget k' (JObj (set_key k v kvs)) = jget k' (JObj kvs).
Proof.
  intros Hne. unfold jget, set_key. f_equal. case_bool_decide as Hk.
  - clear Hk. induction kvs as [|[k0 v0] kvs IH]; [done|].
    cbn [find_first update_first fst]. destruct (decide (k0 = k)) as [->|].
    + cbn. by rewrite !decide_False by done.
    + cbn. by rewrite IH.
  - rewrite find_first_app. destruct (find_first (λ kv, kv.1 = k') kvs); [done|].
    cbn. by rewrite decide_False by done.
Qed.

Section page_runs.
Context `{Backend} `{ArraySort}.
Implicit Types (b : Browser) (srv : backend).

Lemma find_in_run what slot k v b srv rs :
  slot (state b) = Arr rs → objects (st_heap (state b)) rs →
  find_in what slot (has k v) (b, srv)
  = (Ok (List.find (field_is k v (st_heap (state b))) rs), (b, srv)).
Proof.
  intros Hslot Hobj. unfold find_in, browser, gets, bind. cbn.
  by rewrite Hslot, find_ref_has.
Qed.

Lemma filter_in_has_not what slot k v b srv rs :
  slot (state b) = Arr rs → objects (st_heap (state b)) rs →
  filter_in what slot (has_not k v) (b, srv)
  = (Ok (List.filter (λ r, negb (field_is k v (st_heap (state b)) r)) rs), (b, srv)).
Proof.
  intros Hslot Hobj. unfold filter_in, browser, gets, bind. cbn.
  by rewrite Hslot, filter_refs_has_not.
Qed.

Lemma filter_in_has what slot k v b srv rs :
  slot (state b) = Arr rs → objects (st_heap (state b)) rs →
  filter_in what slot (has k v) (b, srv)
  = (Ok (List.filter (field_is k v (st_heap (state b))) rs), (b, srv)).
Proof.
  intros Hslot Hobj. unfold filter_in, browser, gets, bind. cbn.
  by rewrite Hslot, filter_refs_has.
Qed.

Lemma get_field_run r k b srv kvs :
  deref (state b) r = Some (JObj kvs) →
  get_field r k (b, srv) = (Ok (jget k (JObj kvs)), (b, srv)).
Proof. intros Hr. unfold get_field, browser, gets, bind. cbn. by rewrite Hr. Qed.

(** [o.k = v]: the object at [r] after the assignment. *)
Definition with_field (r : Ref) (k : string) (v : Json) (kvs : list (string * Json))
    (b : Browser) : Browser :=
  set_state (λ s, set_heap (<[r := JObj (set_key k v kvs)]> (st_heap s)) s) b.

Lemma set_field_run r k v b srv kvs :
  deref (state b) r = Some (JObj kvs) →
  set_field r k v (b, srv) = (Ok tt, (with_field r k v kvs b, srv)).
Proof. intros Hr. unfold set_field, browser, gets, bind. cbn. by rewrite Hr. Qed.

Lemma spread_in_run what slot b srv rs :
  slot (state b) = Arr rs → spread_in what slot (b, srv) = (Ok (Arr rs), (b, srv)).
Proof. intros Hslot. unfold spread_in, browser, gets, bind. cbn. by rewrite Hslot. Qed.

Lemma first_id_run slot b srv rs :
  slot (state b) = Arr rs → objects (st_heap (state b)) rs →
  first_id slot (b, srv)
  = (Ok ((λ r, st_heap (state b) !! r ≫= jget "id") <$> head rs), (b, srv)).
Proof.
  intros Hslot Hobj. unfold first_id, bind at 1, browser, gets. cbn [fst]. rewrite Hslot.
  destruct Hobj as [|r rs' [kvs Hr] _]; [done|].
  rewrite (bind_ok _ _ _ _ _ (get_field_run _ _ _ _ kvs Hr)). cbn. by rewrite Hr.
Qed.

End page_runs.
