(* ===== verification/Boards.v ===== *)
(** * Boards: the handlers of src/ui.js for boards and lists

    Each exported function of ui.js that reads or writes [state] or calls
    the backend, as a computation of the page: archiving, the board menu
    (rename, background, delete with its rollback), the drop of a list or
    a task on another board, creating, renaming, colouring, reordering and
    deleting lists.  The answer of the user to a dialog is an argument:
    [None] for a cancelled prompt, [false] for a declined confirmation. *)

From S2P Require Import Prelude Json Crypto Models Express Client Page.

Section boards.
Context `{Backend} `{ArraySort}.

(** [handleSearch(query)]. *)
Definition handleSearch (query : string) : C unit :=
  update (set_state (set_searchQuery (Some (toLowerCase query)))).

(** [setView(view)]. *)
Definition setView (view : string) : C unit :=
  update (set_state (set_currentView view)).

(** [state.currentBoardId === id]. *)
Definition is_current (id : option Json) : C bool :=
  b <- browser ;;
  ret (strict_eq (st_currentBoardId (state b)) id).

(** The [try] of [archiveBoard] and [unarchiveBoard]. *)
Definition archiveBoard (id : string) : C unit :=
  try_catch
    (_ <- api ("/boards/" +:+ id) PATCH (JObj [("archived", JBool true)]) ;;
     board <- find_in "state.boards" st_boards (has "id" (Some (JStr id))) ;;
     _ <- (if board is Some r then set_field r "archived" (JBool true) else ret tt) ;;
     current <- is_current (Some (JStr id)) ;;
     _ <- (if current then setView "board" else ret tt) ;;
     showToast "Board archived")
    (λ err, showToast (message err)).

Definition archiveList (id : string) : C unit :=
  try_catch
    (_ <- api ("/lists/" +:+ id) PATCH (JObj [("archived", JBool true)]) ;;
     list <- find_in "state.lists" st_lists (has "id" (Some (JStr id))) ;;
     _ <- (if list is Some r then set_field r "archived" (JBool true) else ret tt) ;;
     showToast "List archived")
    (λ err, showToast (message err)).

Definition unarchiveBoard (id : string) : C unit :=
  try_catch
    (_ <- api ("/boards/" +:+ id) PATCH (JObj [("archived", JBool false)]) ;;
     board <- find_in "state.boards" st_boards (has "id" (Some (JStr id))) ;;
     _ <- (if board is Some r then set_field r "archived" (JBool false) else ret tt) ;;
     showToast "Board restored")
    (λ err, showToast (message err)).

Definition unarchiveList (id : string) : C unit :=
  try_catch
    (_ <- api ("/lists/" +:+ id) PATCH (JObj [("archived", JBool false)]) ;;
     list <- find_in "state.lists" st_lists (has "id" (Some (JStr id))) ;;
     _ <- (if list is Some r then set_field r "archived" (JBool false) else ret tt) ;;
     showToast "List restored")
    (λ err, showToast (message err)).

(** [switchBoard(boardId)]. *)
Definition switchBoard (boardId : option Json) : C unit :=
  _ <- update (set_state (set_currentBoardId boardId)) ;;
  _ <- fetchTasks boardId ;;
  setView "board".

(** [showBoardMenu(boardId, event)]: the menu of a board that is there
    opens, and the board becomes [state.activeBoardId]. *)
Definition showBoardMenu (boardId : string) : C unit :=
  board <- find_in "state.boards" st_boards (has "id" (Some (JStr boardId))) ;;
  if board is Some _ then update (set_state (set_activeBoardId (Some boardId)))
  else ret tt.

(** [state.activeBoardId] and the board it names. *)
Definition active_board : C (option Json * option Ref) :=
  b <- browser ;;
  let boardId := JStr <$> st_activeBoardId (state b) in
  board <- find_in "state.boards" st_boards (has "id" boardId) ;;
  ret (boardId, board).

(** [renameBoardFromMenu()]; [newName] is what the prompt resolves to. *)
Definition renameBoardFromMenu (newName : option string) : C unit :=
  active <- active_board ;;
  let '(boardId, board) := active in
  match board with
  | None => ret tt
  | Some r =>
      title <- get_field r "title" ;;
      if negb (falsy_str newName) && negb (strict_eq (JStr <$> newName) title) then
        _ <- set_field r "title" (JStr (default "" newName)) ;;
        _ <- api ("/boards/" +:+ template boardId) PATCH
               (JObj [("title", JStr (default "" newName))]) ;;
        showToast ("Board renamed to " +:+ default "" newName)
      else ret tt
  end.

(** [color === 'transparent' || color === '' ? null : color]. *)
Definition normalizedColor (color : string) : Json :=
  if bool_decide (color = "transparent") || bool_decide (color = "") then JNull
  else JStr color.

(** [setBoardBackground(boardId, color, skipRender)]; [None] is a colour
    that is [undefined] or [null]. *)
Definition setBoardBackground (boardId : string) (color : option string) : C unit :=
  match color with
  | None => ret tt
  | Some color =>
      try_catch
        (board <- find_in "state.boards" st_boards (has "id" (Some (JStr boardId))) ;;
         match board with
         | None => ret tt
         | Some r =>
             oldBg <- get_field r "background" ;;
             _ <- set_field r "background" (normalizedColor color) ;;
             res <- api ("/boards/" +:+ boardId) PATCH
                      (JObj [("background", normalizedColor color)]) ;;
             error <- read "error" res ;;
             if truthy error then
               _ <- put_field r "background" oldBg ;;
               throw (Error (template error))
             else ret tt
         end)
        (λ err, showToast (message err))
  end.

(** A colour the menus save: none, or [#] and three or six digits. *)
Definition is_hex_color (color : string) : bool :=
  startsWith "#" color
  && (bool_decide (String.length color = 7) || bool_decide (String.length color = 4)).

(** [previewBoardBackground(boardId, color, autoSave)], when its timer
    fires. *)
Definition previewBoardBackground (boardId color : string) (autoSave : bool) : C unit :=
  board <- find_in "state.boards" st_boards (has "id" (Some (JStr boardId))) ;;
  match board with
  | None => ret tt
  | Some _ =>
      if autoSave && (bool_decide (color = "") || is_hex_color color)
      then detached (setBoardBackground boardId (Some color))
      else ret tt
  end.

(** What the two handlers that set an image as background do with it:
    the board shows it at once, and shows the old one again when the
    backend refuses. *)
Definition save_background (boardId : option Json) (r : Ref) (oldBg : option Json)
    (value : string) (failed saved : string) : C unit :=
  _ <- set_field r "background" (JStr value) ;;
  res <- api ("/boards/" +:+ template boardId) PATCH (JObj [("background", JStr value)]) ;;
  error <- read "error" res ;;
  if truthy error then
    _ <- put_field r "background" oldBg ;;
    showToast (failed +:+ template error)
  else showToast saved.

(** [board.background && board.background.startsWith('http')], the
    condition of the prompt's initial value. *)
Definition background_is_url (background : option Json) : C bool :=
  match background with
  | Some (JStr s) => ret (negb (bool_decide (s = "")) && startsWith "http" s)
  | v => if truthy v then throw (TypeError "board.background.startsWith is not a function")
         else ret false
  end.

(** [changeBoardImageUrlFromMenu()]; [val] is what the prompt resolves
    to. *)
Definition changeBoardImageUrlFromMenu (val : option string) : C unit :=
  active <- active_board ;;
  let '(boardId, board) := active in
  match board with
  | None => ret tt
  | Some r =>
      oldBg <- get_field r "background" ;;
      _ <- background_is_url oldBg ;;
      match val with
      | Some val =>
          save_background boardId r oldBg val "Failed to save background: "
            "Image URL updated"
      | None => ret tt
      end
  end.

(** [handleBoardBackgroundImageUpload(event)]; the file is given by its
    size and by the data URL the reader makes of it. *)
Definition handleBoardBackgroundImageUpload (file : option (Z * string)) : C unit :=
  match file with
  | None => ret tt
  | Some (size, base64) =>
      if bool_decide (10 * 1024 * 1024 < size)%Z then showToast "Image too large (max 10MB)"
      else
        active <- active_board ;;
        let '(boardId, board) := active in
        match board with
        | None => ret tt
        | Some r =>
            oldBg <- get_field r "background" ;;
            save_background boardId r oldBg base64 "Failed to upload: "
              "Background image uploaded"
        end
  end.


(** The first list of a board in the order of [position]. *)
Definition targetLists (targetBoardId : string) : C (list Ref) :=
  lists <- filter_in "state.lists" st_lists (has "board_id" (Some (JStr targetBoardId))) ;;
  b <- browser ;;
  ret (js_sort (by_position (st_heap (state b))) lists).

(** [handleCrossBoardDrop(evt, targetBoardId)]: what is dragged moves to
    the board it is dropped on; a task goes to the board's first list. *)
Definition handleCrossBoardDrop (targetBoardId : string) : C unit :=
  b <- browser ;;
  match st_dragItem (state b) with
  | None => ret tt
  | Some (id, type) =>
      if bool_decide (type = "list") then
        current <- is_current (Some (JStr targetBoardId)) ;;
        if current then ret tt
        else
          list <- find_in "state.lists" st_lists (has "id" (Some (JStr id))) ;;
          _ <- (if list is Some r then set_field r "board_id" (JStr targetBoardId)
                else ret tt) ;;
          _ <- api ("/lists/" +:+ id) PATCH (JObj [("boardId", JStr targetBoardId)]) ;;
          update (set_state (set_dragItem None))
      else if bool_decide (type = "task") then
        lists <- targetLists targetBoardId ;;
        match lists with
        | [] => showToast "Cannot move task: Target board has no lists."
        | targetList :: _ =>
            task <- find_in "state.tasks" st_tasks (has "id" (Some (JStr id))) ;;
            list_id <- get_field targetList "id" ;;
            _ <- (if task is Some r then put_field r "list_id" list_id else ret tt) ;;
            _ <- api ("/tasks/" +:+ id) PATCH (JObj (jopt "list_id" list_id)) ;;
            update (set_state (set_dragItem None))
        end
      else update (set_state (set_dragItem None))
  end.

(** [toggleCompleted(listId)]. *)
Definition toggleCompleted (listId : string) : C unit :=
  update (set_state (λ s,
    let expanded := default false (snd <$> find_first (λ kv, kv.1 = listId) (st_completedExpanded s)) in
    set_completedExpanded
      (filter (λ kv, kv.1 ≠ listId) (st_completedExpanded s) ++ [(listId, negb expanded)])
      s)).

(** [createNewList()]; [title] is what the prompt resolves to. *)
Definition createNewList (title : option string) : C unit :=
  b <- browser ;;
  if negb (bool_decide (st_currentView (state b) = "board"))
     || negb (truthy (st_currentBoardId (state b)))
  then showToast "Switch to a Board to create a list."
  else if falsy_str title then ret tt
  else
    res <- api "/lists" POST
             (JObj (("title", JStr (default "" title))
                    :: jopt "boardId" (st_currentBoardId (state b)))) ;;
    error <- read "error" res ;;
    if truthy error then showToast (template error)
    else push_in "state.lists" st_lists set_lists false res.

(** [createNewBoard()]; nothing awaits the switch to the new board. *)
Definition createNewBoard (title : option string) : C unit :=
  if falsy_str title then ret tt
  else
    res <- api "/boards" POST (JObj [("title", JStr (default "" title))]) ;;
    error <- read "error" res ;;
    if truthy error then showToast (template error)
    else
      _ <- push_in "state.boards" st_boards set_boards false res ;;
      detached (switchBoard (jget "id" res)).

(** What [list.title] throws when no list has the id. *)
Definition no_such_object {A} (k : string) : C A :=
  throw (TypeError ("Cannot read properties of undefined (reading '" +:+ k +:+ "')")).

(** [renameList(id)]; [newTitle] is what the prompt resolves to. *)
Definition renameList (id : string) (newTitle : option string) : C unit :=
  list <- find_in "state.lists" st_lists (has "id" (Some (JStr id))) ;;
  match list with
  | None => no_such_object "title"
  | Some r =>
      title <- get_field r "title" ;;
      if negb (falsy_str newTitle) && negb (strict_eq (JStr <$> newTitle) title) then
        _ <- set_field r "title" (JStr (default "" newTitle)) ;;
        _ <- api ("/lists/" +:+ id) PATCH (JObj [("title", JStr (default "" newTitle))]) ;;
        ret tt
      else ret tt
  end.

(** [deleteList(id)]: the list and its tasks leave the page, then the
    backend is told. *)
Definition deleteList (id : string) (confirmed : bool) : C unit :=
  if confirmed then
    lists <- filter_in "state.lists" st_lists (has_not "id" (Some (JStr id))) ;;
    _ <- update (set_state (set_lists (Arr lists))) ;;
    tasks <- filter_in "state.tasks" st_tasks (has_not "list_id" (Some (JStr id))) ;;
    _ <- update (set_state (set_tasks (Arr tasks))) ;;
    _ <- api ("/lists/" +:+ id) DELETE JNull ;;
    ret tt
  else ret tt.

(** [handleListReorder(evt)]; [orderedIds] are the ids of the columns as
    the document has them after the drag.  Nothing awaits the request. *)
Definition handleListReorder (newIndex oldIndex : nat) (orderedIds : list string) : C unit :=
  if decide (newIndex = oldIndex) then ret tt
  else detached (_ <- api "/lists/reorder" PATCH
                        (JObj [("orderedIds", JArr (JStr <$> orderedIds))]) ;;
                 ret tt).

(** [state.lists.map(l => l.id === listId ? res : l)]: every list with
    the id becomes the one object [res]. *)
Definition replace_lists (listId : string) (res : Json) : C unit :=
  b <- browser ;;
  match st_lists (state b) with
  | Arr rs =>
      match mapM (λ r, o ← st_heap (state b) !! r; has "id" (Some (JStr listId)) o) rs with
      | Some matches =>
          update (set_state (λ s,
            let '(r_res, s') := alloc res s in
            set_lists (Arr (zip_with (λ r (m : bool), if m then r_res else r) rs matches)) s'))
      | None => null_element
      end
  | Other j => not_an_array "state.lists" "map" j
  end.

(** [setListColor(listId, color, type, skipRender)]. *)
Definition setListColor (listId : string) (color : option string) (type : string) : C unit :=
  match color with
  | None => ret tt
  | Some color =>
      try_catch
        (res <- api ("/lists/" +:+ listId) PATCH
                  (JObj [(if bool_decide (type = "list") then "color" else "task_color",
                          normalizedColor color)]) ;;
         error <- read "error" res ;;
         if truthy error then throw (Error (template error))
         else replace_lists listId res)
        (λ err, showToast (message err))
  end.

(** [previewListColor(listId, color, type, autoSave)], when its timer
    fires. *)
Definition previewListColor (listId color type : string) (autoSave : bool) : C unit :=
  list <- find_in "state.lists" st_lists (has "id" (Some (JStr listId))) ;;
  match list with
  | None => ret tt
  | Some _ =>
      if autoSave && (bool_decide (color = "") || bool_decide (color = "transparent")
                      || is_hex_color color)
      then detached (setListColor listId (Some color) type)
      else ret tt
  end.

(** [toggleLayout()]. *)
Definition toggleLayout : C unit :=
  b <- browser ;;
  let layout := if bool_decide (st_layout (state b) = "horizontal") then "vertical"
                else "horizontal" in
  _ <- update (set_state (set_layout layout)) ;;
  update (setItem "layout" layout).

End boards.

(** ** What the handlers do whatever the backend answers *)

Section board_properties.
Context `{Backend} `{ArraySort}.
Implicit Types (b : Browser) (srv : backend).

(** C28. [archiveBoard] takes every answer of the backend for a success:
    [api] never rejects, and the handler does not look at what it
    resolves to.  Whatever the backend answers, a refusal or no answer at
    all included, the board of the page is marked archived and the page
    says "Board archived". *)
Theorem archiveBoard_reports_success id b srv rs r :
  st_boards (state b) = Arr rs → objects (st_heap (state b)) rs →
  List.find (field_is "id" (Some (JStr id)) (st_heap (state b))) rs = Some r →
  ∃ b' srv', archiveBoard id (b, srv) = (Ok tt, (b', srv'))
    ∧ deref (state b') r ≫= jget "archived" = Some (JBool true)
    ∧ last (toasts b') = Some "Board archived".
Proof.
  intros Hboards Hobj Hfind.
  destruct (api_spec ("/boards/" +:+ id) PATCH (JObj [("archived", JBool true)]) (b, srv))
    as (res & [b1 srv1] & Hapi & Hsame). cbn [fst] in Hsame.
  destruct (find_field_is _ _ _ _ _ Hfind) as [Hr _].
  destruct (objects_lookup _ _ _ Hobj Hr) as [kvs Hkvs].
  rewrite <- (sp_state _ _ Hsame) in Hboards, Hobj, Hfind, Hkvs.
  set (b2 := with_field r "archived" (JBool true) kvs b1).
  exists (add_toast "Board archived"
            (if strict_eq (st_currentBoardId (state b1)) (Some (JStr id))
             then set_state (set_currentView "board") b2 else b2)), srv1.
  split.
  - unfold archiveBoard. apply try_catch_ok.
    rewrite (bind_ok _ _ _ _ _ Hapi).
    rewrite (bind_ok _ _ _ _ _ (find_in_run _ _ _ _ _ _ _ Hboards Hobj)), Hfind.
    rewrite (bind_ok _ _ _ _ _ (set_field_run _ _ _ _ _ _ Hkvs)).
    unfold is_current, setView, showToast, browser, update, gets, modify, bind, ret. cbn.
    by destruct (strict_eq _ _).
  - split; [|by cbn; rewrite last_snoc].
    assert (deref (state b2) r = Some (JObj (set_key "archived" (JBool true) kvs))) as Hr2.
    { unfold deref, b2. cbn. apply list_lookup_insert_eq. by eapply lookup_lt_Some. }
    unfold deref in Hr2.
    destruct (strict_eq _ _);
      change (st_heap (state b2) !! r ≫= jget "archived" = Some (JBool true));
      rewrite Hr2; apply jget_set_key.
Qed.






End board_properties.

(** ** Instances

    A page that shows one board, which is the current one and the one of
    the open menu, against a backend that refuses every request. *)

Definition board_1 : Json := JObj [("id", JStr "b1"); ("title", JStr "Work")].

Definition page_1 : Browser :=
  set_state (λ s, set_activeBoardId (Some "b1")
                    (set_currentBoardId (Some (JStr "b1"))
                       (set_boards (Arr [0]) (set_heap [board_1] s))))
    (new_page true).

Lemma page_1_objects : objects (st_heap (state page_1)) [0].
Proof. apply Forall_singleton. by eexists. Qed.

Lemma archiveBoard_reports_success_witness :
  ∃ b' srv', archiveBoard (H := same_answer 500) "b1" (page_1, 0) = (Ok tt, (b', srv'))
    ∧ deref (state b') 0 ≫= jget "archived" = Some (JBool true)
    ∧ last (toasts b') = Some "Board archived".
Proof.
  exact (archiveBoard_reports_success (H := same_answer 500) "b1" page_1 0 [0] 0
           eq_refl page_1_objects eq_refl).
Defined.

