(* ===== verification/Recurrence.v ===== *)
(** * Recurrence: [calculateNextDueDate] of src/ui.js

    The date a recurring task is due next: the day after, the next of the
    chosen days of the week, or the next of the chosen days of the month.
    The date is a time value or [NaN] ([None]); the numbers of a
    recurrence are integers or [NaN]. *)

From S2P Require Import Prelude Json Crypto Models Express Client Page Dates.

#[local] Open Scope Z_scope.

Section recurrence.
Context `{Engine} `{ArraySort}.

(** [new Date(v).getTime()] for a value of a task. *)
Definition Date_of (v : Json) : option Z :=
  match v with
  | JNum n => TimeClip n
  | JBool b => Some (if b then 1 else 0)
  | JNull => Some 0
  | JStr s => Date_parse s
  | _ => Date_parse (js_String v)
  end.

(** [value.split(',').map(Number)]. *)
Definition numbers (value : string) : list (option Z) :=
  Number <$> split_on "," value.

(** The loop of the weekly case over the days [ahead]: the first date
    whose day of the week is chosen. *)
Fixpoint weekly_search (days : list (option Z)) (t : Z) (ahead : list Z)
    : option (option Z) :=
  match ahead with
  | [] => None
  | i :: ahead' =>
      let nextDate := setDate t (getDate t + i) in
      if bool_decide ((getDay <$> nextDate) ∈ days) then Some nextDate
      else weekly_search days t ahead'
  end.

Definition next_weekly (value : option string) (t : Z) : option Z :=
  let days := if falsy_str value then [Some (getDay t)]
              else numbers (default "" value) in
  match weekly_search days t [1; 2; 3; 4; 5; 6; 7] with
  | Some nextDate => nextDate
  | None => setDate t (getDate t + 7)
  end.

(** The loop of the monthly case: the first chosen day later in the
    month of the date that the month has. *)
Fixpoint monthly_search (t : Z) (targetDates : list (option Z)) : option Z :=
  match targetDates with
  | [] => None
  | d :: ds =>
      match d with
      | Some d' =>
          if getDate t <? d' then
            match Date_of_fields (getFullYear t) (getMonth t) d' (getHours t)
                    (getMinutes t) with
            | Some candidate =>
                if getMonth candidate =? getMonth t then Some candidate
                else monthly_search t ds
            | None => monthly_search t ds
            end
          else monthly_search t ds
      | None => monthly_search t ds
      end
  end.

(** The first chosen day in the month after that of the date, or the last
    day of that month. *)
Definition next_month (t : Z) (targetDates : list (option Z)) : option Z :=
  let nextMonth := if 11 <? getMonth t + 1 then 0 else getMonth t + 1 in
  let nextYear := if 11 <? getMonth t + 1 then getFullYear t + 1 else getFullYear t in
  d ← mjoin (head targetDates);
  candidate ← Date_of_fields nextYear nextMonth d (getHours t) (getMinutes t);
  if getMonth candidate =? nextMonth then Some candidate else setDate candidate 0.

Definition next_monthly (value : option string) (t : Z) : option Z :=
  let targetDates := if falsy_str value then [Some (getDate t)]
                     else js_sort minus (numbers (default "" value)) in
  match monthly_search t targetDates with
  | Some candidate => Some candidate
  | None => next_month t targetDates
  end.

(** [date.toISOString()], which throws on an invalid date. *)
Definition toISOString (date : option Z) : Res JsError (option Json) :=
  match date with
  | Some t => Ok (Some (JStr (iso_string t)))
  | None => Throw (Thrown "RangeError" "Invalid time value")
  end.

(** [calculateNextDueDate(currentDateStr, recurrenceStr)]; an [undefined]
    argument is [None], and so is the result [null]. *)
Definition calculateNextDueDate (currentDateStr recurrenceStr : option Json)
    : Res JsError (option Json) :=
  if negb (truthy currentDateStr) || negb (truthy recurrenceStr) then Ok None
  else
    let date := Date_of (default JNull currentDateStr) in
    match recurrenceStr with
    | Some (JStr recurrence) =>
        let type := default "" (head (split_on ":" recurrence)) in
        let value := split_on ":" recurrence !! 1%nat in
        if decide (type = "daily") then
          toISOString (date ≫= λ t, setDate t (getDate t + 1))
        else if decide (type = "weekly") then toISOString (date ≫= next_weekly value)
        else if decide (type = "monthly") then toISOString (date ≫= next_monthly value)
        else Ok currentDateStr
    | _ => Throw (TypeError "recurrenceStr.split is not a function")
    end.

End recurrence.

(** ** What the next due date is *)

Section recurrence_properties.
Context `{Engine} `{ArraySort}.

#[local] Open Scope Z_scope.

(** The string of a date is not empty. *)
Lemma iso_string_truthy t : truthy (Some (JStr (iso_string t))) = true.
Proof.
  cbn. apply negb_true_iff, bool_decide_eq_false. intros Hs.
  apply (f_equal chars) in Hs. unfold iso_string in Hs.
  destruct (civil_from_days (Day t)) as [[y m] d]. rewrite !chars_app in Hs.
  by repeat (apply app_eq_nil in Hs as [_ Hs]).
Qed.


(** C30. A task that recurs daily is due again 24 hours later: the new
    due date is the string of the date one day after the old one. *)
Theorem daily_next_day t :
  0 ≤ YearFromTime t ≤ 9999 →
  calculateNextDueDate (Some (JStr (iso_string t))) (Some (JStr "daily"))
  = Ok (Some (JStr (iso_string (t + msPerDay)))).
Proof.
  intros Hy. unfold calculateNextDueDate. rewrite iso_string_truthy.
  change (truthy (Some (JStr "daily"))) with true. cbn [negb orb default id].
  change (split_on ":" "daily") with ["daily"]. cbn [head default].
  rewrite decide_True by done. cbn [Date_of].
  rewrite Date_parse_iso_string by done. cbn [mbind option_bind].
  rewrite setDate_add, TimeClip_in_range; [by rewrite Z.mul_1_l|].
  pose proof (year_in_range t Hy). unfold msPerDay in *. lia.
Qed.

(** The days of the week a weekly recurrence names; without a value, the
    day of the week of the date. *)
Definition chosen_days (value : option string) (t : Z) : list (option Z) :=
  if falsy_str value then [Some (getDay t)] else numbers (default "" value).

(** The loop stops at the first of the days ahead that is a chosen day of
    the week. *)
Lemma weekly_search_spec days t ahead :
  Forall (λ i, Z.abs (t + i * msPerDay) ≤ 8640000000000000) ahead →
  match weekly_search days t ahead with
  | Some r =>
      ∃ l1 i l2, ahead = l1 ++ i :: l2 ∧ r = Some (t + i * msPerDay)
        ∧ Some ((getDay t + i) mod 7) ∈ days
        ∧ Forall (λ j, Some ((getDay t + j) mod 7) ∉ days) l1
  | None => Forall (λ j, Some ((getDay t + j) mod 7) ∉ days) ahead
  end.
Proof.
  induction ahead as [|i ahead IH]; intros Hrange; [by cbn|]. cbn [weekly_search].
  apply Forall_cons in Hrange as [Hi Hrange].
  rewrite setDate_add, TimeClip_in_range by done. cbn [fmap option_fmap option_map].
  rewrite getDay_add. case_bool_decide as Hin.
  - exists [], i, ahead. by repeat split.
  - specialize (IH Hrange). destruct (weekly_search days t ahead) as [r|].
    + destruct IH as (l1 & k & l2 & -> & -> & Hk & Hl1).
      exists (i :: l1), k, l2. repeat split; [done..|by apply Forall_cons].
    + by apply Forall_cons.
Qed.

(** C29. A task that recurs weekly is due again on the first of the next
    seven days whose day of the week is one of the chosen ones, at the same
    time of day, and a week later when none of the seven is chosen: the
    new date is always later than the old one, by seven days at most. *)
Theorem weekly_next_chosen_day value t :
  Z.abs t + 7 * msPerDay ≤ 8640000000000000 →
  ∃ i, 1 ≤ i ≤ 7 ∧ next_weekly value t = Some (t + i * msPerDay)
    ∧ (∀ j, 1 ≤ j < i → Some ((getDay t + j) mod 7) ∉ chosen_days value t)
    ∧ (Some ((getDay t + i) mod 7) ∈ chosen_days value t ∨ i = 7).
Proof.
  intros Ht. unfold next_weekly. fold (chosen_days value t).
  pose proof (weekly_search_spec (chosen_days value t) t [1; 2; 3; 4; 5; 6; 7]) as Hs.
  specialize (Hs ltac:(repeat (apply Forall_cons; split; [unfold msPerDay in *; lia|]); done)).
  destruct (weekly_search _ t _) as [r|].
  - destruct Hs as (l1 & i & l2 & Hl & -> & Hi & Hl1). exists i. enough (1 ≤ i ≤ 7 ∧ ∀ j, 1 ≤ j < i → j ∈ l1) as [? Hj].
    { split; [lia|]. split; [done|]. split; [|by left].
      intros j ?%Hj. by eapply Forall_forall in Hl1. }
    do 7 (destruct l1 as [|? l1]; simplify_eq/=; [split; [lia|intros; set_solver by lia]|]).
    by destruct l1.
  - exists 7. rewrite setDate_add, TimeClip_in_range by (unfold msPerDay in *; lia).
    split; [lia|]. split; [done|]. split; [|by right]. intros j Hj.
    eapply Forall_forall in Hs; [done|]. set_unfold. lia.
Qed.

End recurrence_properties.

(** ** Instances

    Friday 1 March 2024, 10:00 UTC, in an engine whose local time is UTC. *)

Definition march_1 : Z := 1709287200000.


Lemma daily_next_day_witness :
  calculateNextDueDate (H := utc_engine) (H0 := merge_sorting)
    (Some (JStr "2024-03-01T10:00:00.000Z")) (Some (JStr "daily"))
  = Ok (Some (JStr "2024-03-02T10:00:00.000Z")).
Proof.
  apply (daily_next_day (H := utc_engine) (H0 := merge_sorting) march_1). by vm_compute.
Defined.

(** Mondays and Wednesdays: after a Friday, the Monday. *)
Lemma weekly_next_chosen_day_witness :
  ∃ i, 1 ≤ i ≤ 7
    ∧ next_weekly (H := utc_engine) (Some "1,3") march_1 = Some (march_1 + i * msPerDay)
    ∧ (∀ j, 1 ≤ j < i → Some ((5 + j) mod 7) ∉ [Some 1; Some 3])
    ∧ (Some ((5 + i) mod 7) ∈ [Some 1; Some 3] ∨ i = 7).
Proof.
  apply (weekly_next_chosen_day (H := utc_engine) (Some "1,3") march_1).
  by vm_compute.
Defined.

(** A monthly recurrence on day 0, which the form cannot write but the
    API accepts, moves the due date back: from 15 January to 31 December
    of the year before. *)
Example monthly_zero_goes_back :
  calculateNextDueDate (H := utc_engine) (H0 := merge_sorting)
    (Some (JStr "2024-01-15T10:00:00.000Z")) (Some (JStr "monthly:0"))
  = Ok (Some (JStr "2023-12-31T10:00:00.000Z")).
Proof. by vm_compute. Qed.
