(* ===== verification/Tasks.v ===== *)
(** * Tasks: the handlers of src/ui.js for tasks

    Subtasks, attachments, adding, completing (with the rescheduling of a
    recurring task), starring, moving, the details panel and its form,
    sorting, deleting and importing.  The details panel edits
    [state.activeTask], which is the very object [state.tasks] holds until
    a handler replaces the objects of the array. *)

From S2P Require Import Prelude Json Crypto Models Express Client Page Dates Recurrence.

Section tasks.
Context `{Backend} `{ArraySort} `{Engine}.

(** [state.activeTask.k]; a panel that is closed makes the read throw. *)
Definition activeTask_field (k : string) : C (option Json) :=
  b <- browser ;;
  match st_activeTask (state b) with
  | Some r => get_field r k
  | None => throw (TypeError ("Cannot read properties of null (reading '" +:+ k +:+ "')"))
  end.

(** [addSubtask(title, inputEl)]. *)
Definition addSubtask (title : string) : C unit :=
  b <- browser ;;
  if bool_decide (trim title = "") || bool_decide (st_activeTask (state b) = None)
  then ret tt
  else
    try_catch
      (list_id <- activeTask_field "list_id" ;;
       id <- activeTask_field "id" ;;
       subtask <- api "/tasks" POST
                    (JObj (("title", JStr (trim title))
                           :: jopt "listId" list_id ++ jopt "parent_id" id)) ;;
       _ <- push_in "state.tasks" st_tasks set_tasks false subtask ;;
       _ <- activeTask_field "id" ;;
       ret tt)
      (λ err, showToast (message err)).

(** [renderAttachments(attachments)]: what the list of the panel then
    shows. *)
Definition renderAttachments (attachments : Json) : C unit :=
  match attachments with
  | JArr l =>
      if bool_decide (Forall (λ a, a ≠ JNull) l)
      then update (set_dom (set_attachmentsList l))
      else null_element
  | JObj _ =>
      if strict_eq (jget "length" attachments) (Some (JNum 0))
      then update (set_dom (set_attachmentsList []))
      else throw (TypeError "attachments.map is not a function")
  | v =>
      if truthy (Some v) then throw (TypeError "attachments.map is not a function")
      else update (set_dom (set_attachmentsList []))
  end.

(** [loadAttachments(taskId)]. *)
Definition loadAttachments (taskId : option Json) : C unit :=
  try_catch
    (attachments <- api ("/attachments/" +:+ template taskId) GET JNull ;;
     renderAttachments attachments)
    (λ _, ret tt).

(** The body of [reader.onload] in [handleAttachmentUpload], and
    [addAttachmentUrl] after its guard. *)
Definition add_attachment (fileName fileUrl : string) (fileType : Json) : C unit :=
  try_catch
    (taskId <- activeTask_field "id" ;;
     _ <- api "/attachments" POST
            (JObj (jopt "taskId" taskId
                   ++ [("fileName", JStr fileName); ("fileUrl", JStr fileUrl);
                       ("fileType", fileType)])) ;;
     _ <- showToast "Attachment added" ;;
     taskId <- activeTask_field "id" ;;
     loadAttachments taskId)
    (λ err, showToast (message err)).

(** [handleAttachmentUpload(event)]; the file is given by its name, the
    data URL the reader makes of it, and its type. *)
Definition handleAttachmentUpload (file : option (string * string * string)) : C unit :=
  b <- browser ;;
  match file, st_activeTask (state b) with
  | Some (name, fileUrl, type), Some _ => add_attachment name fileUrl (JStr type)
  | _, _ => ret tt
  end.

(** [addAttachmentUrl(url, inputEl)]. *)
Definition addAttachmentUrl (url : string) : C unit :=
  b <- browser ;;
  if bool_decide (trim url = "") || bool_decide (st_activeTask (state b) = None)
  then ret tt
  else add_attachment url url (JStr "url").

(** [deleteAttachment(id)]. *)
Definition deleteAttachment (id : string) : C unit :=
  try_catch
    (_ <- api ("/attachments/" +:+ id) DELETE JNull ;;
     _ <- showToast "Attachment removed" ;;
     b <- browser ;;
     if st_activeTask (state b) is Some _ then
       taskId <- activeTask_field "id" ;;
       loadAttachments taskId
     else ret tt)
    (λ err, showToast (message err)).

(** [toggleSubtask(id)]. *)
Definition toggleSubtask (id : string) : C unit :=
  task <- find_in "state.tasks" st_tasks (has "id" (Some (JStr id))) ;;
  match task with
  | None => ret tt
  | Some r =>
      try_catch
        (completed <- get_field r "completed" ;;
         updated <- api ("/tasks/" +:+ id) PATCH
                      (JObj [("completed", JBool (negb (truthy completed)))]) ;;
         _ <- assign_to r updated ;;
         _ <- activeTask_field "id" ;;
         ret tt)
        (λ err, showToast (message err))
  end.

(** [deleteSubtask(id)]. *)
Definition deleteSubtask (id : string) : C unit :=
  try_catch
    (_ <- api ("/tasks/" +:+ id) DELETE JNull ;;
     tasks <- filter_in "state.tasks" st_tasks (has_not "id" (Some (JStr id))) ;;
     _ <- update (set_state (set_tasks (Arr tasks))) ;;
     _ <- activeTask_field "id" ;;
     ret tt)
    (λ err, showToast (message err)).

(** [renameSubtask(id, newTitle)]. *)
Definition renameSubtask (id newTitle : string) : C unit :=
  task <- find_in "state.tasks" st_tasks (has "id" (Some (JStr id))) ;;
  match task with
  | Some r =>
      if bool_decide (trim newTitle = "") then ret tt
      else
        try_catch
          (updated <- api ("/tasks/" +:+ id) PATCH (JObj [("title", JStr (trim newTitle))]) ;;
           assign_to r updated)
          (λ err, showToast (message err))
  | None => ret tt
  end.

(** [addTask(input, listId)]; [value] is the value of the input. *)
Definition addTask (value listId : string) : C unit :=
  let title := trim value in
  if bool_decide (title = "") then ret tt
  else
    newTask <- api "/tasks" POST (JObj [("title", JStr title); ("listId", JStr listId)]) ;;
    if truthy (Some newTask)
    then push_in "state.tasks" st_tasks set_tasks true newTask
    else ret tt.

(** The messages of a read and of a write of a property of [undefined]. *)
Definition cannot_read (k : string) : string :=
  "Cannot read properties of undefined (reading '" +:+ k +:+ "')".
Definition cannot_set (k : string) : string :=
  "Cannot set properties of undefined (setting '" +:+ k +:+ "')".

(** The task with an id, which the handlers of a card take to be there:
    their first access to it throws when it is not. *)
Definition the_task (id : string) (message : string) : C Ref :=
  task <- find_in "state.tasks" st_tasks (has "id" (Some (JStr id))) ;;
  match task with
  | Some r => ret r
  | None => throw (TypeError message)
  end.

(** A value a function returns or throws, as a computation. *)
Definition lift {A} (r : Res JsError A) : C A :=
  match r with
  | Ok a => ret a
  | Throw e => throw e
  end.

(** [toggleTaskStatus(id)]: a recurring task that is due moves to its next
    date; any other task changes its status. *)
Definition toggleTaskStatus (id : string) : C unit :=
  r <- the_task id (cannot_read "completed") ;;
  wasCompleted <- get_field r "completed" ;;
  recurrence <- get_field r "recurrence" ;;
  due_date <- get_field r "due_date" ;;
  nextDate <- (if negb (truthy wasCompleted) && truthy recurrence && truthy due_date
               then lift (calculateNextDueDate due_date recurrence)
               else ret None) ;;
  if truthy nextDate then
    _ <- put_field r "due_date" nextDate ;;
    _ <- api ("/tasks/" +:+ id) PATCH (JObj (jopt "due_date" nextDate)) ;;
    showToast ("Task rescheduled to "
               +:+ toLocaleDateString (Date_of (default JNull nextDate)))
  else
    _ <- set_field r "completed" (JBool (negb (truthy wasCompleted))) ;;
    _ <- api ("/tasks/" +:+ id) PATCH
           (JObj [("completed", JBool (negb (truthy wasCompleted)))]) ;;
    ret tt.

(** [toggleStar(id)]. *)
Definition toggleStar (id : string) : C unit :=
  r <- the_task id (cannot_read "is_starred") ;;
  is_starred <- get_field r "is_starred" ;;
  _ <- set_field r "is_starred" (JBool (negb (truthy is_starred))) ;;
  _ <- api ("/tasks/" +:+ id) PATCH (JObj [("is_starred", JBool (negb (truthy is_starred)))]) ;;
  ret tt.

(** [handleTaskMove(evt)]; [moved] is whether the card changed its place
    or its container.  Nothing awaits the request. *)
Definition handleTaskMove (moved : bool) (taskId toListId : string) : C unit :=
  if moved then
    r <- the_task taskId (cannot_set "list_id") ;;
    _ <- set_field r "list_id" (JStr toListId) ;;
    detached (_ <- api ("/tasks/" +:+ taskId) PATCH (JObj [("list_id", JStr toListId)]) ;;
              ret tt)
  else ret tt.

(** [handleTaskDropState(evt, isCompletedContainer)]. *)
Definition handleTaskDropState (taskId : string) (isCompletedContainer : bool) : C unit :=
  task <- find_in "state.tasks" st_tasks (has "id" (Some (JStr taskId))) ;;
  match task with
  | Some r =>
      completed <- get_field r "completed" ;;
      if negb (strict_eq completed (Some (JBool isCompletedContainer)))
      then detached (toggleTaskStatus taskId)
      else ret tt
  | None => ret tt
  end.

(** The value a [datetime-local] input takes when it is set to the first
    16 characters of a string: a local date and time to the minute, or
    nothing. *)
Definition datetime_local (s : string) : string :=
  match parse_iso 0 s with
  | Some (Some _) =>
      if bool_decide (String.length s = 16)
         && negb (bool_decide (String.substring 11 2 s = "24"))
         && negb (bool_decide (String.substring 0 4 s = "0000"))
      then s else ""
  | _ => ""
  end.

(** The chips that are active for a recurrence, of the chips [all] of the
    document. *)
Definition active_chips (all : list string) (value : option string) (active : bool)
    : list string :=
  if active && negb (falsy_str value)
  then filter (λ c, c ∈ split_on "," (default "" value)) all
  else [].

(** [dataset.day] of the day chips and [dataset.date] of the date chips. *)
Definition day_chips : list string := (λ d, dec (Z.of_nat d)) <$> seq 0 7.
Definition date_chips : list string := (λ d, dec (Z.of_nat d)) <$> seq 1 31.

(** A value that has [substring] and [split]: a string. *)
Definition as_string (what : string) (v : option Json) : C string :=
  match v with
  | Some (JStr s) => ret s
  | _ => throw (TypeError (what +:+ " is not a function"))
  end.

(** The value an input takes when it is set to a value of the page:
    [null] is the empty string. *)
Definition dom_string (v : option Json) : string :=
  match v with
  | Some JNull => ""
  | _ => template v
  end.

(** The recurrences [#detailsRecurrence] offers beside none: those
    [calculateNextDueDate] knows.  Set to anything else, the select has
    no value. *)
Definition recurrence_options : list string := ["daily"; "weekly"; "monthly"].

Definition select_value (type : string) : string :=
  if bool_decide (type ∈ recurrence_options) then type else "".

(** A change of the form of the details panel. *)
Definition fill (f : Details → Details) : C unit :=
  update (set_dom (λ d, set_details (f (details d)) d)).

(** The part of [openDetails] that fills the form from the task, field by
    field. *)
Definition fill_details (task : Ref) : C unit :=
  title <- get_field task "title" ;;
  _ <- fill (λ f, mkDetails (dom_string title) (detailsDesc f) (detailsDate f)
                    (detailsRecurrence f) (activeDays f) (activeDates f)) ;;
  description <- get_field task "description" ;;
  _ <- fill (λ f, mkDetails (detailsTitle f)
                    (if truthy description then template description else "")
                    (detailsDate f) (detailsRecurrence f) (activeDays f) (activeDates f)) ;;
  due_date <- get_field task "due_date" ;;
  date <- (if truthy due_date
           then s <- as_string "task.due_date.substring" due_date ;;
                ret (String.substring 0 16 s)
           else ret "") ;;
  _ <- fill (λ f, mkDetails (detailsTitle f) (detailsDesc f) (datetime_local date)
                    (detailsRecurrence f) (activeDays f) (activeDates f)) ;;
  recurrence <- get_field task "recurrence" ;;
  recurrence <- (if truthy recurrence
                 then as_string "(task.recurrence || '').split" recurrence
                 else ret "") ;;
  let type := default "" (head (split_on ":" recurrence)) in
  let value := split_on ":" recurrence !! 1 in
  fill (λ f, mkDetails (detailsTitle f) (detailsDesc f) (detailsDate f) (select_value type)
               (active_chips day_chips value (bool_decide (type = "weekly")))
               (active_chips date_chips value (bool_decide (type = "monthly")))).

(** What [openDetails] throws for an id no task has: at the first list it
    compares, or at the title. *)
Definition no_task : C unit :=
  b <- browser ;;
  match st_lists (state b) with
  | Arr [] => throw (TypeError (cannot_read "title"))
  | Arr (r :: _) =>
      match deref (state b) r with
      | Some JNull | None => null_element
      | Some _ => throw (TypeError (cannot_read "list_id"))
      end
  | Other j => not_an_array "state.lists" "find" j
  end.

(** [openDetails(id)]: the task becomes [state.activeTask] and fills the
    form; then its attachments are loaded. *)
Definition openDetails (id : string) : C unit :=
  task <- find_in "state.tasks" st_tasks (has "id" (Some (JStr id))) ;;
  _ <- update (set_state (set_activeTask task)) ;;
  match task with
  | None => no_task
  | Some r =>
      list_id <- get_field r "list_id" ;;
      _ <- find_in "state.lists" st_lists (has "id" list_id) ;;
      _ <- fill_details r ;;
      loadAttachments (Some (JStr id))
  end.

(** [closeDetails()]. *)
Definition closeDetails : C unit := update (set_state (set_activeTask None)).

(** The recurrence the form stands for. *)
Definition form_recurrence (f : Details) : string :=
  if bool_decide (detailsRecurrence f = "weekly") then
    if bool_decide (activeDays f = []) then "weekly"
    else "weekly:" +:+ join_with "," (activeDays f)
  else if bool_decide (detailsRecurrence f = "monthly") then
    if bool_decide (activeDates f = []) then "monthly"
    else "monthly:" +:+ join_with "," (activeDates f)
  else detailsRecurrence f.

(** [s || null]. *)
Definition or_null (s : string) : Json := if bool_decide (s = "") then JNull else JStr s.

(** [saveDetails()]: when the form differs from the task, the task takes
    the values of the form and the backend is told. *)
Definition saveDetails : C unit :=
  b <- browser ;;
  match st_activeTask (state b) with
  | None => ret tt
  | Some t =>
      let f := details (dom b) in
      let recurrence := form_recurrence f in
      title <- get_field t "title" ;;
      description <- get_field t "description" ;;
      due_date <- get_field t "due_date" ;;
      old_recurrence <- get_field t "recurrence" ;;
      if negb (strict_eq title (Some (JStr (detailsTitle f))))
         || negb (strict_eq description (Some (JStr (detailsDesc f))))
         || negb (strict_eq due_date (Some (JStr (detailsDate f))))
         || negb (strict_eq old_recurrence (Some (JStr recurrence)))
      then
        _ <- set_field t "title" (JStr (detailsTitle f)) ;;
        _ <- set_field t "description" (JStr (detailsDesc f)) ;;
        _ <- set_field t "due_date" (or_null (detailsDate f)) ;;
        _ <- set_field t "recurrence" (or_null recurrence) ;;
        id <- get_field t "id" ;;
        _ <- api ("/tasks/" +:+ template id) PATCH
               (JObj [("title", JStr (detailsTitle f)); ("description", JStr (detailsDesc f));
                      ("due_date", or_null (detailsDate f));
                      ("recurrence", or_null recurrence)]) ;;
        ret tt
      else ret tt
  end.

(** [toggleRecurrenceDetails(skipAutoSave)]; nothing awaits the save. *)
Definition toggleRecurrenceDetails (skipAutoSave : bool) : C unit :=
  if skipAutoSave then ret tt else detached saveDetails.

(** [deleteCurrentTask()]. *)
Definition deleteCurrentTask (confirmed : bool) : C unit :=
  b <- browser ;;
  match st_activeTask (state b) with
  | None => ret tt
  | Some t =>
      if confirmed then
        id <- get_field t "id" ;;
        tasks <- filter_in "state.tasks" st_tasks (has_not "id" id) ;;
        _ <- update (set_state (set_tasks (Arr tasks))) ;;
        _ <- closeDetails ;;
        _ <- api ("/tasks/" +:+ template id) DELETE JNull ;;
        ret tt
      else ret tt
  end.

(** ** Sorting a list *)

(** [a.title.localeCompare(b.title)]: [a.title] has to be a string, and
    [b.title] is turned into one. *)
Definition by_title (h : list Json) (a b : Ref) : option Z :=
  match h !! a ≫= jget "title" with
  | Some (JStr s) => Some (localeCompare s (template (h !! b ≫= jget "title")))
  | _ => None
  end.

(** The comparison function of the criterion [date]. *)
Definition by_due_date (h : list Json) (a b : Ref) : Z :=
  if negb (truthy (h !! a ≫= jget "due_date")) then 1
  else if negb (truthy (h !! b ≫= jget "due_date")) then -1
  else minus (Date_of (default JNull (h !! a ≫= jget "due_date")))
             (Date_of (default JNull (h !! b ≫= jget "due_date"))).

(** [(b.is_starred ? 1 : 0) - (a.is_starred ? 1 : 0)]. *)
Definition by_starred (h : list Json) (a b : Ref) : Z :=
  (if truthy (h !! b ≫= jget "is_starred") then 1 else 0)
  - (if truthy (h !! a ≫= jget "is_starred") then 1 else 0).

(** [listTasks.sort(...)] for a criterion. *)
Definition sorted_by (criteria : string) (h : list Json) (listTasks : list Ref)
    : C (list Ref) :=
  if bool_decide (criteria = "alpha") then
    match js_sort_opt (by_title h) listTasks with
    | Some l => ret l
    | None => throw (TypeError "a.title.localeCompare is not a function")
    end
  else if bool_decide (criteria = "date") then ret (js_sort (by_due_date h) listTasks)
  else if bool_decide (criteria = "starred") then ret (js_sort (by_starred h) listTasks)
  else ret listTasks.

(** [orderedIds.indexOf(id)]. *)
Fixpoint indexOf (orderedIds : list (option Json)) (id : option Json) : option nat :=
  match orderedIds with
  | [] => None
  | x :: l => if strict_eq x id then Some 0%nat else S <$> indexOf l id
  end.

(** [index !== -1 ? { ...t, position: index } : t] for the object [t] at
    [r]: the reference of the copy, or [r]. *)
Definition with_position (orderedIds : list (option Json)) (r : Ref) : C Ref :=
  id <- get_field r "id" ;;
  match indexOf orderedIds id with
  | Some index =>
      b <- browser ;;
      let t := default JNull (deref (state b) r) in
      let copy := JObj (set_key "position" (JNum (Z.of_nat index)) (own_properties t)) in
      _ <- update (set_state (λ s, (alloc copy s).2)) ;;
      ret (length (st_heap (state b)))
  | None => ret r
  end.

(** [state.tasks = state.tasks.map(...)] of [sortList]. *)
Fixpoint with_positions (orderedIds : list (option Json)) (rs : list Ref) : C (list Ref) :=
  match rs with
  | [] => ret []
  | r :: rs' =>
      r' <- with_position orderedIds r ;;
      l <- with_positions orderedIds rs' ;;
      ret (r' :: l)
  end.

Definition reposition (orderedIds : list (option Json)) : C unit :=
  b <- browser ;;
  match st_tasks (state b) with
  | Arr rs =>
      tasks <- with_positions orderedIds rs ;;
      update (set_state (set_tasks (Arr tasks)))
  | Other j => not_an_array "state.tasks" "map" j
  end.

(** [sortList(listId, criteria)]. *)
Definition sortList (listId criteria : string) : C unit :=
  listTasks <- filter_in "state.tasks" st_tasks (has "list_id" (Some (JStr listId))) ;;
  b <- browser ;;
  listTasks <- sorted_by criteria (st_heap (state b)) listTasks ;;
  try_catch
    (let orderedIds := (λ r, deref (state b) r ≫= jget "id") <$> listTasks in
     data <- api "/tasks/reorder" PATCH
               (JObj [("orderedIds", JArr (default JNull <$> orderedIds))]) ;;
     if truthy (Some data) then
       _ <- reposition orderedIds ;;
       showToast ("Sorted by " +:+ criteria)
     else throw (Error "Failed to sort"))
    (λ err, showToast (message err)).

(** [deleteCompletedTasks(listId)]. *)
Definition deleteCompletedTasks (listId : string) (confirm : bool) : C unit :=
  if confirm then
    try_catch
      (res <- api ("/tasks/completed/" +:+ listId) DELETE JNull ;;
       if truthy (Some res) then
         tasks <- filter_in "state.tasks" st_tasks
                    (not_ (and_then (has "list_id" (Some (JStr listId)))
                                    (is_set "completed"))) ;;
         _ <- update (set_state (set_tasks (Arr tasks))) ;;
         showToast "Completed tasks deleted"
       else throw (Error "Failed to delete completed tasks"))
      (λ err, showToast (message err))
  else ret tt.

(** ** Importing Google Tasks *)

(** [a || b]. *)
Definition or_value (a b : option Json) : option Json := if truthy a then a else b.

(** The task [importList] makes of an item; [None] is the TypeError of an
    item that is [null]. *)
Definition task_to_import (listId : option Json) (item : Json) : option Json :=
  match item with
  | JNull => None
  | _ =>
      Some (JObj (jopt "title" (jget "title" item) ++ jopt "listId" listId
                  ++ jopt "description" (or_value (jget "notes" item) (jget "description" item))
                  ++ jopt "due_date" (or_value (jget "due" item) (jget "due_date" item))
                  ++ [("completed",
                       JBool (strict_eq (jget "status" item) (Some (JStr "completed"))
                              || truthy (jget "completed" item)));
                      ("is_starred",
                       JBool (truthy (jget "starred" item) || truthy (jget "is_starred" item)))]))
  end.

(** [importList(title, items)]. *)
Definition importList (title items : option Json) : C unit :=
  match items with
  | Some (JArr items) =>
      b <- browser ;;
      listRes <- api "/lists" POST
                   (JObj (jopt "title" title
                          ++ jopt "boardId" (st_currentBoardId (state b)))) ;;
      if truthy (Some listRes) then
        match mapM (task_to_import (jget "id" listRes)) items with
        | Some tasksToImport =>
            _ <- api "/tasks/bulk" POST (JObj [("tasks", JArr tasksToImport)]) ;;
            ret tt
        | None => null_element
        end
      else ret tt
  | _ => ret tt
  end.

(** The lists of a Google Takeout file, one after the other. *)
Fixpoint import_lists (lists : list Json) : C unit :=
  match lists with
  | [] => ret tt
  | listData :: lists' =>
      items <- read "items" listData ;;
      _ <- (if truthy items then
              title <- read "title" listData ;;
              importList title items
            else ret tt) ;;
      import_lists lists'
  end.

(** [data.title || file.name.replace('.json', '')]. *)
Definition listTitle (data : Json) (name : string) : option Json :=
  or_value (jget "title" data) (Some (JStr (replace_first ".json" "" name))).

(** [Array.isArray(v)]. *)
Definition isArray (v : option Json) : bool :=
  match v with
  | Some (JArr _) => true
  | _ => false
  end.

(** The body of [reader.onload] in [handleImport]; [parsed] is what
    [JSON.parse] makes of the file, [None] when it throws. *)
Definition import_file (name : string) (parsed : option Json) : C unit :=
  try_catch
    (data <- (if parsed is Some data then ret data
              else throw (SyntaxError "Unexpected token")) ;;
     kind <- read "kind" data ;;
     let items := jget "items" data in
     _ <- (if strict_eq kind (Some (JStr "tasks#tasks")) then
             _ <- importList (listTitle data name) items ;;
             showToast "Import completed!"
           else if strict_eq kind (Some (JStr "tasks#taskLists")) && isArray items then
             let lists := if items is Some (JArr l) then l else [] in
             _ <- import_lists lists ;;
             showToast ("Import of " +:+ dec (Z.of_nat (length lists)) +:+ " lists completed!")
           else if isArray items then
             _ <- importList (listTitle data name) items ;;
             showToast "Import completed!"
           else showToast "Unrecognized Google Tasks JSON format.") ;;
     update reload)
    (λ _, showToast "Failed to parse JSON file.").

(** [handleImport(event)]; the file is given by its name and by what
    [JSON.parse] makes of its text. *)
Definition handleImport (file : option (string * option Json)) : C unit :=
  match file with
  | None => ret tt
  | Some (name, parsed) =>
      b <- browser ;;
      if truthy (st_currentBoardId (state b)) then import_file name parsed
      else showToast "Please select or create a board first."
  end.

End tasks.
