(* ===== verification/App.v ===== *)
(** * App: the sign-in form, the theme, and the start of the page

    [handleAuthSubmit], [updateAuthUI] and the theme functions of
    src/ui.js, and the [DOMContentLoaded] handler of src/main.js, which
    tries a silent refresh and, when a user is stored, fetches the boards
    and lists together and then the tasks of the first board. *)

From S2P Require Import Prelude Json Crypto Models Express Client Page Boards.
From S2P Require Import Dates Recurrence Tasks.

Section app.
Context `{Backend} `{ArraySort} `{Engine}.

(** [switchAuthMode()]. *)
Definition switchAuthMode : C unit :=
  b <- browser ;;
  update (set_isRegisterMode (negb (isRegisterMode b))).

(** [result.details.map(d => d.message).join('. ')]; [None] is the
    TypeError of a detail that is [null]. *)
Fixpoint detail_messages (details : list Json) : option string :=
  match details with
  | [] => Some ""
  | d :: ds =>
      m ← prop "message" d; rest ← detail_messages ds;
      let m := match m with Some JNull | None => "" | Some v => js_String v end in
      Some (if ds is [] then m else m +:+ ". " +:+ rest)
  end.

(** What [#authError] shows for a refused sign-in. *)
Definition auth_error_text (result : Json) (error : option Json) : C string :=
  match jget "details" result with
  | Some (JArr details) =>
      match detail_messages details with
      | Some messages => ret messages
      | None => null_element
      end
  | _ => ret (dom_string error)
  end.

(** [handleAuthSubmit()]; the arguments are the values of the two
    inputs. *)
Definition handleAuthSubmit (email password : string) : C unit :=
  if bool_decide (email = "") || bool_decide (password = "") then
    update (set_dom (set_authError (Some "Email and password required")))
  else
    _ <- update (set_dom (set_authError None)) ;;
    b <- browser ;;
    result <- (if isRegisterMode b then apiRegister email password
               else apiLogin email password) ;;
    error <- read "error" result ;;
    if truthy error then
      text <- auth_error_text result error ;;
      update (set_dom (set_authError (Some text)))
    else
      _ <- showToast (if isRegisterMode b then "Account created!" else "Logged in!") ;;
      update reload.

(** [logout()] of ui.js. *)
Definition ui_logout : C unit := apiLogout.

(** [JSON.parse(localStorage.getItem('user'))]. *)
Definition stored_user_value : C Json :=
  b <- browser ;;
  match stored_user b with
  | None => ret JNull
  | Some (Some user) => ret user
  | Some None => throw (SyntaxError "Unexpected token u in JSON at position 0")
  end.

(** [user.email[0].toUpperCase()] throws unless the address is a string
    that is not empty. *)
Definition check_initial (user : Json) : C unit :=
  match jget "email" user with
  | Some (JStr (String _ _)) => ret tt
  | Some (JArr (JStr _ :: _)) => ret tt
  | None | Some JNull => throw (TypeError "Cannot read properties of undefined (reading '0')")
  | _ => throw (TypeError (cannot_read "toUpperCase"))
  end.

(** [updateAuthUI()]: the application shows when a user is stored. *)
Definition updateAuthUI : C unit :=
  user <- stored_user_value ;;
  if truthy (Some user) then
    _ <- update (set_dom (set_appShown true)) ;;
    check_initial user
  else update (set_dom (set_appShown false)).

(** [showAuthModal()]. *)
Definition showAuthModal : C unit := updateAuthUI.

(** [classList.add] and [classList.remove]. *)
Definition add_class (c : string) (d : Dom) : Dom :=
  if bool_decide (c ∈ bodyClass d) then d else set_bodyClass (bodyClass d ++ [c]) d.
Definition remove_class (c : string) (d : Dom) : Dom :=
  set_bodyClass (filter (λ x, x ≠ c) (bodyClass d)) d.

(** [updateThemeIcon(isDark)]. *)
Definition updateThemeIcon (isDark : bool) : Dom → Dom :=
  set_themeIcon (if isDark then "light_mode" else "dark_mode").

(** [initTheme()]. *)
Definition initTheme : C unit :=
  b <- browser ;;
  let saved := getItem "theme" b in
  _ <- update (set_dom (λ d, remove_class "light-theme" (remove_class "dark-theme" d))) ;;
  if bool_decide (saved = Some "dark")
  then update (set_dom (λ d, updateThemeIcon true (add_class "dark-theme" d)))
  else if bool_decide (saved = Some "light")
  then update (set_dom (λ d, updateThemeIcon false (add_class "light-theme" d)))
  else update (set_dom (λ d, updateThemeIcon (prefersDark d) d)).

(** [setCustomTheme(themeName)]. *)
Definition setCustomTheme (themeName : string) : C unit :=
  if bool_decide (themeName = "default") then
    _ <- update (set_dom (set_dataTheme None)) ;;
    update (removeItem "customTheme")
  else
    _ <- update (set_dom (set_dataTheme (Some themeName))) ;;
    update (setItem "customTheme" themeName).

(** [initCustomTheme()]. *)
Definition initCustomTheme : C unit :=
  b <- browser ;;
  if falsy_str (getItem "customTheme" b) then ret tt
  else update (set_dom (set_dataTheme (getItem "customTheme" b))).

(** [toggleTheme()]. *)
Definition toggleTheme : C unit :=
  b <- browser ;;
  let isDark :=
    if negb (bool_decide ("dark-theme" ∈ bodyClass (dom b)))
       && negb (bool_decide ("light-theme" ∈ bodyClass (dom b)))
    then prefersDark (dom b)
    else bool_decide ("dark-theme" ∈ bodyClass (dom b)) in
  _ <- setCustomTheme "default" ;;
  if isDark then
    _ <- update (set_dom (λ d, updateThemeIcon false
                                 (add_class "light-theme" (remove_class "dark-theme" d)))) ;;
    update (setItem "theme" "light")
  else
    _ <- update (set_dom (λ d, updateThemeIcon true
                                 (add_class "dark-theme" (remove_class "light-theme" d)))) ;;
    update (setItem "theme" "dark").

(** [renderApp()], of which [initTheme] is what writes more than the
    view of the state. *)
Definition renderApp : C unit := initTheme.

(** The [DOMContentLoaded] handler of src/main.js. *)
Definition start : C unit :=
  _ <- updateAuthUI ;;
  _ <- refreshSession ;;
  user <- stored_user_value ;;
  _ <- (if truthy (Some user) then
          _ <- promise_all2 fetchBoards_async fetchLists_async ;;
          first <- first_id st_boards ;;
          _ <- (match first with
                | Some id =>
                    _ <- update (set_state (set_currentBoardId id)) ;;
                    fetchTasks id
                | None => ret tt
                end) ;;
          renderApp
        else ret tt) ;;
  initCustomTheme.

End app.
