(* ===== verification/System.v ===== *)
(** * System: the page of src/api.js against the server of src/backend

    The backend of Client.v, instantiated with the application of
    Server.v: a request of the browser is parsed into the request Express
    hands to the middleware, and what [serve] sends is the response.  The
    server reads its clock and its randomness once per request, from the
    environment of the request's number.  A request whose handler throws
    outside its [try] is never answered, which the browser sees as a
    timeout; a request the CORS check refuses is answered without the
    headers the browser needs, which it sees as a network error.

    With this the theorems of the session protocol and of the client
    combine: where the refresh cookie goes, and what the page does when it
    does not arrive. *)

From S2P Require Import Prelude Json Crypto Models Express Schemas Fixtures AuthController.
From S2P Require Import Middleware Server Client Page Boards Dates Recurrence Tasks App.

(** ** The server as a backend *)

Record ServerState := mkServer {
  sv_world : World;
  (** the number of requests handled *)
  sv_tick : nat;
}.

(** [key=value&key=value], not decoded. *)
Definition parse_query (q : string) : list (string * string) :=
  omap (λ kv, match split_on "=" kv with
              | [k; v] => Some (k, v)
              | _ => None
              end) (split_on "&" q).

(** The segments of the path of a URL, and its query. *)
Definition parse_url (url : string) : list string * list (string * string) :=
  match split_on "?" url with
  | [p] => (filter (λ s, s ≠ "") (split_on "/" p), [])
  | p :: q :: _ => (filter (λ s, s ≠ "") (split_on "/" p), parse_query q)
  | [] => ([], [])
  end.

(** The request as [express.json] and [cookieParser] leave it: without a
    body, [req.body] is the empty object. *)
Definition to_req (r : HttpRequest) (query : list (string * string)) (ip : string)
    : Req Json :=
  mkReq (hr_authorization r) (hr_cookie r)
    (match hr_body r with JNull => JObj [] | body => body end)
    [] query ip None [].

Section system.
Context `{Crypto} `{Formats} (cfg : Config).
Context (ReorderSchema : Json → Parsed (list string)).
(** What the server reads of its surroundings during its [n]-th request,
    and the address its requests come from. *)
Context (envs : nat → Env) (ip : string).

Definition handle_request (r : HttpRequest) (sv : ServerState)
    : (Response + NetFailure) * ServerState :=
  let '(path, query) := parse_url (hr_url r) in
  if cors_origin cfg (hr_origin r) then
    match serve cfg ReorderSchema (envs (sv_tick sv)) true (hr_origin r) (hr_method r)
            path (to_req r query ip) (sv_world sv) with
    | (Ok res, w) => (inl res, mkServer w (S (sv_tick sv)))
    | (Throw _, w) => (inr Timeout, mkServer w (S (sv_tick sv)))
    end
  else (inr NoResponse, mkServer (sv_world sv) (S (sv_tick sv))).

#[export] Instance server : Backend := {|
  backend := ServerState;
  handle := handle_request;
|}.

End system.

(** ** What the server answers *)

Section answers.
Context `{Crypto} `{Formats} (cfg : Config).
Context (ReorderSchema : Json → Parsed (list string)) (envs : nat → Env) (ip : string).

(** The server of the section. *)
Definition the_server : Backend := server cfg ReorderSchema envs ip.
#[local] Existing Instance the_server.

(** The next state of a server whose world is [w]. *)
Definition answered (w : World) (sv : ServerState) : ServerState :=
  mkServer w (S (sv_tick sv)).

(** A request to [/api/auth/refresh] without the cookie: 401, and nothing
    changes. *)
Lemma handle_refresh_no_cookie r sv :
  hr_method r = POST → hr_url r = "/api/auth/refresh" → hr_cookie r = None →
  cors_origin cfg (hr_origin r) = true →
  handle r sv = (inl (mkResponse 401 (error_body "Token required") []),
                 answered (sv_world sv) sv).
Proof.
  intros Hm Hurl Hcookie Hcors. cbn [handle the_server server]. unfold handle_request, serve. rewrite Hurl, Hm, Hcors.
  change (parse_url "/api/auth/refresh") with (["api"; "auth"; "refresh"], @nil (string * string)).
  cbv beta iota.
  change (dispatch _ _ POST ["api"; "auth"; "refresh"] ?req ?w)
    with (no_body (refreshToken cfg (envs (sv_tick sv))) (with_params [] req) w).
  unfold no_body, refreshToken, set_body, with_params, to_req. cbn [req_refreshToken].
  by rewrite Hcookie.
Qed.

(** A request to a protected path without the header [Authorization]:
    the 401 of [auth], and nothing changes. *)
Lemma handle_unauthorized r sv rest query :
  parse_url (hr_url r) = ("api" :: rest, query) → ¬ public (hr_method r) rest →
  hr_authorization r = None → cors_origin cfg (hr_origin r) = true →
  handle r sv = (inl (mkResponse 401 (error_body "Authorization required") []),
                 answered (sv_world sv) sv).
Proof.
  intros Hurl Hpub Hauth Hcors. cbn [handle the_server server]. unfold handle_request, serve. rewrite Hurl, Hcors.
  cbv beta iota.
  assert (∀ B (req : Req B) w, req_authorization req = None →
    auth cfg (envs (sv_tick sv)) req w
    = (Ok (Sent (mkResponse 401 (error_body "Authorization required") [])), w)) as Hrefuse.
  { intros B req w Hreq. unfold auth. by rewrite Hreq. }
  assert (dispatch (app cfg ReorderSchema (envs (sv_tick sv)) true) finalhandler
            (hr_method r) ("api" :: rest) (to_req r query ip) (sv_world sv)
          = (Ok (Sent (mkResponse 401 (error_body "Authorization required") [])),
             sv_world sv)) as Hd.
  { rewrite app_below_api by done.
    destruct (if decide _ then _ else _) as [ps|]; apply chain_sent, Hrefuse, Hauth. }
  by rewrite (bind_ok _ _ _ _ _ Hd).
Qed.

(** A login the server accepts: the access token and the user in the
    body, the refresh token in a cookie, and a new row in the ledger. *)
Lemma handle_login r sv d email password user :
  hr_method r = POST → hr_url r = "/api/auth/login" →
  hr_body r = credentials email password →
  cors_origin cfg (hr_origin r) = true →
  sv_world sv = mkWorld d [] →
  is_email email = true → password ≠ "" →
  find_first (λ u, u_email u = email) (users d) = Some user →
  bcrypt_compare password (u_password user) = true →
  let env := envs (sv_tick sv) in
  handle r sv =
  (inl (mkResponse 200
          (JObj [("token", JStr (sign_access cfg env user)); ("user", public_user user)])
          [setTokenCookie cfg env (raw_token env)]),
   answered (mkWorld (set_refreshTokens (λ l, l ++ [new_row env 0 user ip]) d) []) sv).
Proof.
  intros Hm Hurl Hbody Hcors Hw Hemail Hpw Hfind Hcmp env.
  cbn [handle the_server server]. unfold handle_request, serve. rewrite Hurl, Hm, Hcors, Hw.
  change (parse_url "/api/auth/login") with (["api"; "auth"; "login"], @nil (string * string)).
  cbv beta iota.
  change (dispatch _ _ POST ["api"; "auth"; "login"] ?req)
    with (λ w, (validateSchema LoginSchema >=> login cfg env) (with_params [] req) w).
  assert (LoginSchema (credentials email password) = inr (mkCredentials email password))
    as Hschema.
  { unfold LoginSchema, credentials, emailSchema, z_object.
    change (jget "email" _) with (Some (JStr email)).
    change (jget "password" _) with (Some (JStr password)).
    rewrite (proj2 (z_string_inr _ _ email)), (proj2 (z_string_inr _ _ password)); [done|..].
    - split; [done|]. repeat constructor. apply bool_decide_eq_true.
      destruct password; [done|cbn; lia].
    - split; [done|]. by repeat constructor. }
  unfold bind at 1, chain, bind at 1, validateSchema, to_req. rewrite Hbody. cbn [req_body].
  change (match credentials email password with JNull => JObj [] | b => b end)
    with (credentials email password).
  unfold with_params. cbn [req_body]. rewrite Hschema. cbn [ret]. rewrite login_run.
  unfold set_body. cbn [req_body req_ip cr_email cr_password]. by rewrite Hfind, Hcmp.
Qed.

(** ** A page without the refresh cookie *)

(** The browser neither keeps nor sends the cookie of the server across
    sites. *)
Lemma cross_site_drops_cookie b env token :
  same_site b = false → store_cookies [setTokenCookie cfg env token] b = b.
Proof. intros Hsite. cbn. unfold site_allows. by rewrite Hsite. Qed.

(** C20. On a page that is another site than the backend, as the
    deployment of config.js is, a login the server accepts leaves the page
    with an access token and a stored user, but without the refresh
    cookie: the cookie is [sameSite: strict], and the browser drops it.
    The server has stored the row of the token all the same. *)
Theorem cross_site_login_keeps_no_cookie b sv d email password user :
  same_site b = false → cookieJar b = None → accessToken b = None →
  cors_origin cfg (Some (origin b)) = true →
  sv_world sv = mkWorld d [] →
  is_email email = true → password ≠ "" →
  find_first (λ u, u_email u = email) (users d) = Some user →
  bcrypt_compare password (u_password user) = true →
  ∃ res b',
    apiLogin email password (b, sv)
      = (Ok res, (b', answered (mkWorld (set_refreshTokens
                     (λ l, l ++ [new_row (envs (sv_tick sv)) 0 user ip]) d) []) sv))
    ∧ accessToken b' = Some (JStr (sign_access cfg (envs (sv_tick sv)) user))
    ∧ stored_user b' = Some (Some (public_user user))
    ∧ cookieJar b' = None.
Proof.
  intros Hsite Hjar Htoken Hcors Hw Hemail Hpw Hfind Hcmp.
  pose proof (handle_login
    (request_of b (attached b (api_config "/auth/login" POST (credentials email password))))
    sv d email password user) as Hlogin.
  unfold attached in Hlogin. rewrite Htoken in Hlogin.
  specialize (Hlogin eq_refl eq_refl eq_refl Hcors Hw Hemail Hpw Hfind Hcmp).
  cbv zeta in Hlogin.
  pose proof (api_ok "/auth/login" POST (credentials email password) b sv) as Hapi.
  unfold attached in Hapi. rewrite Htoken in Hapi. cbv zeta in Hapi.
  change (truthy None) with false in Hapi, Hlogin. cbv iota in Hapi, Hlogin.
  rewrite Hlogin in Hapi. specialize (Hapi _ eq_refl ltac:(cbn; lia)).
  cbn [fst snd res_body res_cookies] in Hapi.
  rewrite cross_site_drops_cookie in Hapi by done.
  do 2 eexists. split.
  - unfold apiLogin. rewrite (bind_ok _ _ _ _ _ Hapi). reflexivity.
  - cbn. by rewrite Hjar.
Qed.

(** C21. A page that holds neither an access token nor the refresh
    cookie, as a page on another site is after every reload, cannot use
    the API: a request to a protected path is answered 401, the refresh
    that follows is refused for want of the cookie, and the user is signed
    out; the server's data are as they were. *)
Theorem session_needs_cookie endpoint method body b sv rest query :
  cookieJar b = None → accessToken b = None →
  cors_origin cfg (Some (origin b)) = true →
  parse_url ("/api" +:+ endpoint) = ("api" :: rest, query) → ¬ public method rest →
  includes "/auth/refresh" endpoint = false →
  ∃ res b',
    api endpoint method body (b, sv)
      = (Ok res, (b', answered (sv_world sv) (answered (sv_world sv) sv)))
    ∧ truthy (jget "error" res) = true
    ∧ accessToken b' = None ∧ stored_user b' = None ∧ reloaded b' = true
    ∧ last (toasts b') = Some "Session expired. Please log in again.".
Proof.
  intros Hjar Htoken Hcors Hurl Hpub Hrefresh.
  set (c := api_config endpoint method body).
  set (r := mkResponse 401 (error_body "Authorization required") []).
  assert (attached b c = c) as Hc by (unfold attached; by rewrite Htoken).
  assert (handle (request_of b c) sv = (inl r, answered (sv_world sv) sv)) as Hfirst
    by (by eapply handle_unauthorized).
  assert (handle (request_of b refresh_config) (answered (sv_world sv) sv)
          = (inl (mkResponse 401 (error_body "Token required") []),
             answered (sv_world sv) (answered (sv_world sv) sv))) as Hsecond.
  { apply (handle_refresh_no_cookie _ (answered (sv_world sv) sv)); [done..| |done].
    cbn. unfold cookie_for. by rewrite Hjar. }
  destruct (on_rejected_refresh_refused (H := the_server) (apiClient 1) (AxiosErr (status_error c r)) c b
              (answered (sv_world sv) sv))
    as (err & b' & Hrej & _ & Hmsg & Hfacts);
    [done..|by rewrite Hsecond; cbn; lia|].
  exists (error_result (AxiosErr err)), b'. split; [|by split; [apply error_result_truthy|]].
  pose proof (api_rejected (H := the_server) endpoint method body b sv r) as Hapi.
  cbv zeta in Hapi. fold c in Hapi. rewrite Hc, Hfirst in Hapi.
  rewrite Hapi by (done || (cbn; lia)). unfold try_catch.
  change (store_cookies (res_cookies r) b) with b. cbn [snd]. by rewrite Hrej, Hsecond.
Qed.

(** ** The silent refresh against the server *)

Context `{!CryptoLaws}.

(** A refresh with a token of the ledger that is neither revoked nor
    expired: a new access token, a new cookie, and the ledger rotated. *)
Lemma handle_refresh_rotates r sv d token rToken user :
  hr_method r = POST → hr_url r = "/api/auth/refresh" → hr_cookie r = Some token →
  cors_origin cfg (hr_origin r) = true → sv_world sv = mkWorld d [] → token ≠ "" →
  find_first (λ t, rt_tokenHash t = sha256_hex token) (refreshTokens d) = Some rToken →
  rt_revoked rToken = None →
  ¬ (rt_expires rToken < env_now (envs (sv_tick sv)))%Z →
  find_first (λ u, u_id u = rt_user rToken) (users d) = Some user →
  let env := envs (sv_tick sv) in
  handle r sv =
  (inl (mkResponse 200 (JObj [("token", JStr (sign_access cfg env user))])
          [setTokenCookie cfg env (raw_token env)]),
   answered (mkWorld (rotate env ip user rToken d) []) sv).
Proof.
  intros Hm Hurl Hcookie Hcors Hw Htoken Hfind Hrev Hexp Huser env.
  cbn [handle the_server server]. unfold handle_request, serve.
  rewrite Hurl, Hm, Hcors, Hw.
  change (parse_url "/api/auth/refresh") with (["api"; "auth"; "refresh"], @nil (string * string)).
  cbv beta iota.
  assert (dispatch (app cfg ReorderSchema env true) finalhandler POST
            ["api"; "auth"; "refresh"] (to_req r [] ip) (mkWorld d [])
          = (Ok (Sent (mkResponse 200 (JObj [("token", JStr (sign_access cfg env user))])
                         [setTokenCookie cfg env (raw_token env)])),
             mkWorld (rotate env ip user rToken d) [])) as Hd.
  { change (dispatch _ _ POST ["api"; "auth"; "refresh"] ?req ?w)
      with (no_body (refreshToken cfg env) (with_params [] req) w).
    unfold no_body. rewrite refreshToken_run.
    unfold set_body, with_params, to_req. cbn [req_refreshToken req_ip].
    rewrite Hcookie, decide_False, Hfind, Huser, Hrev by done.
    rewrite decide_False by (by intros []). by rewrite decide_False. }
  by rewrite (bind_ok _ _ _ _ _ Hd).
Qed.

(** GET /api/boards with a token the server accepts: the boards of the
    token's user. *)
Lemma handle_get_boards r sv d tok claims :
  hr_method r = GET → hr_url r = "/api/boards" →
  hr_authorization r = Some ("Bearer " +:+ tok) → no_space tok →
  jwt_verify tok (JWT_SECRET cfg) (env_now (envs (sv_tick sv))) = Some claims →
  cors_origin cfg (hr_origin r) = true → sv_world sv = mkWorld d [] →
  handle r sv =
  (inl (mkResponse 200
          (JArr (toJSON_board
                   <$> find_visible Board (c_userId claims) (λ _, true) b_created_at d)) []),
   answered (mkWorld d []) sv).
Proof.
  intros Hm Hurl Hauth Hspace Hverify Hcors Hw.
  cbn [handle the_server server]. unfold handle_request, serve.
  rewrite Hurl, Hm, Hcors, Hw.
  change (parse_url "/api/boards") with (["api"; "boards"], @nil (string * string)).
  cbv beta iota. set (env := envs (sv_tick sv)). set (req := to_req r [] ip).
  assert (dispatch (app cfg ReorderSchema env true) finalhandler GET ["api"; "boards"] req
            (mkWorld d [])
          = (Ok (Sent (mkResponse 200
               (JArr (toJSON_board
                        <$> find_visible Board (c_userId claims) (λ _, true) b_created_at d))
               [])), mkWorld d [])) as Hd.
  { rewrite app_below_api by (by intros [? _]).
    change (if decide (GET = GET) then _ else _) with (@None (list (string * string))).
    cbv iota.
    rewrite (chain_next _ _ _ _ (set_user (identity_of claims) req) (mkWorld d [])).
    - rewrite dispatch_app.
      change (dispatch (protected_routes _ _) _ GET ["api"; "boards"] ?q ?w)
        with (get_boards (with_params [] q) w).
      unfold get_boards, the_user. run_steps. done.
    - rewrite (auth_bearer cfg env req tok) by done. fold env in Hverify. by rewrite Hverify. }
  by rewrite (bind_ok _ _ _ _ _ Hd).
Qed.

(** A rotation of the ledger leaves the other collections alone. *)
Lemma find_visible_rotate env user rToken d uid :
  find_visible Board uid (λ _, true) b_created_at (rotate env ip user rToken d)
  = find_visible Board uid (λ _, true) b_created_at d.
Proof. done. Qed.

(** The browser keeps the cookie of a server of its own site. *)
Lemma same_site_keeps_cookie b env token :
  same_site b = true →
  store_cookies [setTokenCookie cfg env token] b
  = set_cookieJar
      (Some (token, mkCookieOptions true (bool_decide (NODE_ENV cfg = "production"))
                      (env_now env + seven_days) "strict" "/api/auth")) b.
Proof. intros Hsite. cbn. unfold site_allows. by rewrite Hsite. Qed.

(** The page after a silent refresh: the new access token, and the cookie
    of the answer where the browser keeps it. *)
Definition refreshed (env : Env) (user : User) (b : Browser) : Browser :=
  set_accessToken (Some (JStr (sign_access cfg env user)))
    (store_cookies [setTokenCookie cfg env (raw_token env)] b).

(** The silent refresh of a page that holds the cookie and no access
    token, request by request. *)
Lemma silent_refresh_run b (sv : backend) d token opts rToken user :
  same_site b = true → cookieJar b = Some (token, opts) → path opts = "/api/auth" →
  accessToken b = None → cors_origin cfg (Some (origin b)) = true →
  sv_world sv = mkWorld d [] → token ≠ "" →
  find_first (λ t, rt_tokenHash t = sha256_hex token) (refreshTokens d) = Some rToken →
  rt_revoked rToken = None →
  ¬ (rt_expires rToken < env_now (envs (S (sv_tick sv))))%Z →
  find_first (λ u, u_id u = rt_user rToken) (users d) = Some user →
  (env_now (envs (S (S (sv_tick sv)))) `div` 1000
   < jwt_exp (env_now (envs (S (sv_tick sv)))) fifteen_minutes)%Z →
  let env := envs (S (sv_tick sv)) in
  let w := mkWorld (rotate env ip user rToken d) [] in
  api "/boards" GET JNull (b, sv)
  = (Ok (JArr (toJSON_board
                 <$> find_visible Board (u_id user) (λ _, true) b_created_at d)),
     (refreshed env user b, answered w (answered w (answered (mkWorld d []) sv)))).
Proof.
  intros Hsite Hjar Hpath Htoken Hcors Hw Hne Hfind Hrev Hexp Huser Hnow env w.
  set (c := api_config "/boards" GET JNull).
  set (r := mkResponse 401 (error_body "Authorization required") []).
  set (sv1 := answered (mkWorld d []) sv).
  set (tok := sign_access cfg env user).
  set (r1 := mkResponse 200 (JObj [("token", JStr tok)])
               [setTokenCookie cfg env (raw_token env)]).
  assert (attached b c = c) as Hc by (unfold attached; by rewrite Htoken).
  assert (truthy (Some (JStr tok)) = true) as Htok.
  { cbn. apply negb_true_iff, bool_decide_eq_false_2, jwt_sign_nonempty. }
  assert (handle (request_of b c) sv = (inl r, sv1)) as Hfirst.
  { unfold sv1. rewrite <- Hw. apply (handle_unauthorized _ _ ["boards"] []); try done.
    by intros [? _]. }
  assert (handle (request_of b refresh_config) sv1 = (inl r1, answered w sv1)) as Hsecond.
  { apply (handle_refresh_rotates _ sv1 d token rToken user); try done.
    cbn. unfold cookie_for, site_allows. by rewrite Hjar, Hpath, Hsite. }
  pose proof (api_rejected (H := the_server) "/boards" GET JNull b sv r) as Hapi.
  cbv zeta in Hapi. fold c in Hapi. rewrite Hc, Hfirst in Hapi.
  rewrite Hapi by (done || (cbn; lia)). clear Hapi. apply try_catch_ok.
  change (store_cookies (res_cookies r) b) with b. cbn [snd].
  rewrite (on_rejected_refreshed (H := the_server) _ _ c b sv1 r1 (JStr tok));
    try done; [|by rewrite Hsecond|cbn; lia].
  - rewrite Hsecond. cbn [snd res_cookies r1]. fold (refreshed env user b).
    pose (b2 := refreshed env user b).
    pose (c2 := set_authorization (Some ("Bearer " +:+ tok)) (set_retry c)).
    set (r2 := mkResponse 200 (JArr (toJSON_board
                 <$> find_visible Board (u_id user) (λ _, true) b_created_at d)) []).
    assert (handle (request_of b2 (attached b2 c2)) (answered w sv1)
            = (inl r2, answered w (answered w sv1))) as Hthird.
    { assert (attached b2 c2 = c2) as ->.
      { unfold attached. change (accessToken b2) with (Some (JStr tok)). by rewrite Htok. }
      apply (handle_get_boards _ (answered w sv1) (rotate env ip user rToken d) tok
               (mkClaims (u_id user) (u_email user) (u_role user))); try done.
      - apply jwt_sign_no_space.
      - unfold tok, sign_access. rewrite jwt_verify_sign. by rewrite decide_True.
      - unfold b2, refreshed. cbn. unfold site_allows. by rewrite Hsite. }
    etrans; [apply (apiClient_ok (H := the_server) 0 c2 b2 (answered w sv1) r2);
             [by rewrite Hthird|cbn; lia]|].
    by rewrite Hthird.
Qed.

(** C22. A page on the site of the backend that holds the refresh cookie
    and no access token, as it is after a reload, gets its session back
    without the user: the first request for the boards is answered 401,
    the interceptor refreshes with the cookie, the server rotates the
    ledger, and the request sent again with the new access token is
    answered with the boards of the cookie's user.  The page keeps the new
    access token and the new cookie, and shows nothing of it. *)
Theorem silent_refresh_restores_session b (sv : backend) d token opts rToken user :
  same_site b = true → cookieJar b = Some (token, opts) → path opts = "/api/auth" →
  accessToken b = None → cors_origin cfg (Some (origin b)) = true →
  sv_world sv = mkWorld d [] → token ≠ "" →
  find_first (λ t, rt_tokenHash t = sha256_hex token) (refreshTokens d) = Some rToken →
  rt_revoked rToken = None →
  ¬ (rt_expires rToken < env_now (envs (S (sv_tick sv))))%Z →
  find_first (λ u, u_id u = rt_user rToken) (users d) = Some user →
  (env_now (envs (S (S (sv_tick sv)))) `div` 1000
   < jwt_exp (env_now (envs (S (sv_tick sv)))) fifteen_minutes)%Z →
  let env := envs (S (sv_tick sv)) in
  let w := mkWorld (rotate env ip user rToken d) [] in
  ∃ b',
    api "/boards" GET JNull (b, sv)
    = (Ok (JArr (toJSON_board
                   <$> find_visible Board (u_id user) (λ _, true) b_created_at d)),
       (b', answered w (answered w (answered (mkWorld d []) sv))))
    ∧ accessToken b' = Some (JStr (sign_access cfg env user))
    ∧ cookie_for b' "/api/auth/refresh" = Some (raw_token env)
    ∧ stored_user b' = stored_user b ∧ reloaded b' = reloaded b
    ∧ toasts b' = toasts b ∧ events b' = events b.
Proof.
  intros Hsite Hjar Hpath Htoken Hcors Hw Hne Hfind Hrev Hexp Huser Hnow env w.
  exists (refreshed env user b). split; [by eapply silent_refresh_run|].
  unfold refreshed. rewrite same_site_keeps_cookie by done.
  unfold cookie_for, site_allows. cbn. by rewrite Hsite.
Qed.

End answers.

(** ** A deployment

    The page on GitHub Pages and the backend elsewhere, as config.js has
    it in production; the backend allows the origin of the page. *)

Definition cfg_pages : Config :=
  mkConfig "production" (Some 3000%Z) "mongodb://db/tasks"
    "0123456789abcdef0123456789abcdef" "http://localhost:5173"
    (Some "https://sri-narendra.github.io") "info".

(** What the server reads during its [n]-th request: a second passes
    between two requests. *)
Definition envs0 (n : nat) : Env :=
  mkEnv (1000000 + 1000 * Z.of_nat n) ["1"; "2"; "3"]%char ["s"]%char (oids "a").

Definition server0 : Backend := the_server cfg_pages reorderSchema envs0 "203.0.113.7".

Definition sv0 : ServerState := mkServer (mkWorld db0 []) 0.

Lemma cross_site_login_keeps_no_cookie_witness :
  ∃ res b',
    apiLogin (H := server0) "alice@example.org" "Passw0rd!" (new_page false, sv0)
      = (Ok res, (b', answered (mkWorld (set_refreshTokens
                     (λ l, l ++ [new_row (envs0 0) 0 alice "203.0.113.7"]) db0) []) sv0))
    ∧ accessToken b' = Some (JStr (sign_access cfg_pages (envs0 0) alice))
    ∧ stored_user b' = Some (Some (public_user alice))
    ∧ cookieJar b' = None.
Proof.
  refine (cross_site_login_keeps_no_cookie cfg_pages reorderSchema envs0 "203.0.113.7"
            (new_page false) sv0 db0 "alice@example.org" "Passw0rd!" alice
            eq_refl eq_refl eq_refl _ eq_refl _ _ _ _); by vm_compute.
Defined.

Lemma session_needs_cookie_witness :
  ∃ res b',
    api (H := server0) "/boards" GET JNull (new_page false, sv0)
      = (Ok res, (b', mkServer (mkWorld db0 []) 2))
    ∧ truthy (jget "error" res) = true
    ∧ accessToken b' = None ∧ stored_user b' = None ∧ reloaded b' = true
    ∧ last (toasts b') = Some "Session expired. Please log in again.".
Proof.
  refine (session_needs_cookie cfg_pages reorderSchema envs0 "203.0.113.7"
            "/boards" GET JNull (new_page false) sv0 ["boards"] []
            eq_refl eq_refl _ _ _ eq_refl); [by vm_compute..|].
  by intros [? _].
Defined.

(** The page served from the site of the backend, after a reload: Alice's
    cookie in the jar, her row in the ledger, and no access token. *)
Definition reloaded_page : Browser :=
  set_cookieJar
    (Some (cookie1, mkCookieOptions true true (1000000 + 604800000) "strict" "/api/auth"))
    (new_page true).

Lemma silent_refresh_restores_session_witness :
  let env := envs0 1 in
  let w := mkWorld (rotate env "203.0.113.7" alice row1 db3) [] in
  ∃ b',
    api (H := server0) "/boards" GET JNull (reloaded_page, mkServer (mkWorld db3 []) 0)
    = (Ok (JArr (toJSON_board
                   <$> find_visible Board "u1" (λ _, true) b_created_at db3)),
       (b', mkServer w 3))
    ∧ accessToken b' = Some (JStr (sign_access cfg_pages env alice))
    ∧ cookie_for b' "/api/auth/refresh" = Some (raw_token env)
    ∧ stored_user b' = None ∧ reloaded b' = false
    ∧ toasts b' = [] ∧ events b' = [].
Proof.
  refine (silent_refresh_restores_session cfg_pages reorderSchema envs0 "203.0.113.7"
            reloaded_page (mkServer (mkWorld db3 []) 0) db3 cookie1 _ row1 alice
            eq_refl eq_refl eq_refl eq_refl _ eq_refl _ _ eq_refl _ _ _); by vm_compute.
Defined.
